(* ===== verification/_CoqProject ===== *)
-Q . S2P
Prelude.v
Unicode.v
GoString.v
GoStringFacts.v
HostPort.v
Netip.v
NetipFacts.v
Pool.v
Ipam.v
Acl.v
Proto.v
Store.v
Api.v
TlsConf.v
Host.v
Supervisor.v
ServerMain.v
Demo.v
Rewrite.v
VipTable.v
VipDevice.v
Relay.v
BindTraffic.v
RelayRun.v
BindLife.v
Profile.v
Resolver.v
Nrpt.v
PowerShell.v
Firewall.v
Tun.v
Deploy.v
Translate.v
L4.v
L4Tcp.v
Strconv.v
Update.v
ServerRun.v
Base64.v
Certpin.v
Keys.v
SelfSigned.v
Paths.v
Url.v
Join.v
JoinServer.v
DemoJoin.v
Wg.v
WgDevice.v
DeviceName.v
DeviceId.v
Engine.v
EngineNames.v
PeerSig.v
EngineRefresh.v
Manager.v
ManagerStatus.v
ManagerDns.v
ManagerBind.v
ManagerStart.v
ManagerLife.v
AgentMain.v
AgentLog.v
ClientIpc.v
App.v
UpdateRun.v
Probe.v
Pipe.v
Serving.v
Tray.v
Programs.v
DemoClient.v
EndToEnd.v
