(* ===== verification/Prelude.v ===== *)
(** * zwan: a verification development

    zwan joins devices into private networks over WireGuard.  A control server hands out
    addresses and tells members of one another and of their services; a device may be a
    member of several networks at once, each under a local name, with the addresses of each
    network translated into a range of its own so that networks may overlap; a relay carries
    packets between devices that cannot reach each other.  This library models the logic of
    the server and of the device, under src/server, src/client and src/shared, and of the
    programs around it, under src/cmd and src/gui, and proves what makes each part correct.

    ** The server

    - [Ipam] (server/ipam): the allocator of addresses, split into devices and services.
      [Allocate] runs its search with fuel one more than the addresses used, and
      [alloc_loop_total] shows that to be enough.  [Pool] is the interface the API's theorems
      use; [Ipam] provides its instance.
    - [Acl] (shared/acl): rules between groups, join tokens.
    - [Proto] (shared/proto), [Store] (server/store): the wire types; members, tokens and
      services of one network.
    - [Api] (server/api): the HTTP handlers.  Registering and publishing change the state
      under two locks in turn, so each is an [_enter] and a [_leave] step and the invariant is
      shown for every interleaving.
    - [TlsConf], [SelfSigned] (server/tlsconf), [Host] (server/host): TLS modes; the key and
      the certificate kept in files, and the pin that outlives them; what starts a network and
      what clients are told about it.
    - [Supervisor] (server/config, server/supervisor, server/ipc): the saved configuration,
      starting and stopping, restarts of the machine, requests of the window.
    - [ServerMain], [ServerRun] (cmd/zwan-server, gui): the configuration a command line or the
      rules typed in the window stand for; the program's modes and its updates.
    - [Relay] (server/relay, client/wgbind): the relay and the device's side of it, a datagram
      at a time; [RelayRun], the relay's life and the loop of [Serve], with a network of clients
      around it that loses, repeats and reorders.
    - [Paths] (shared/paths.go, shared/version.go): the directories and files of the state, over
      a class of path joining.
    - [Programs] (cmd, server/ipc, gui): what the programs do around the parts above, from
      reading the identity to closing the window.

    ** The device

    - [Join] (client/join): the control client with its session; [Url] is the part of net/url
      it needs.  [JoinServer] puts client and server together: join strings, joining, and
      what happens after the server was restarted.
    - [Rewrite], [VipTable], [VipDevice] (client/vip): rewriting packets with incremental
      checksums, the table of local addresses, the device between tunnel and system.
    - [Translate], [Engine], [EngineNames], [PeerSig], [EngineRefresh], [DeviceName]
      (client/engine): how listings are translated; starting an engine; what a refresh does to
      tunnel, routes, names and proxies, and what holds through every sequence of refreshes;
      that equal signatures mean equal peers, which lets a refresh skip the tunnel.
    - [L4], [L4Tcp] (client/l4): who may use a hosted service; the UDP proxy's flows, and the
      two copies of a TCP connection, as steps that interleave.
    - [Resolver] (client/resolver), [Nrpt] (client/nrpt): the names of joined networks, and
      the rules that send the system's queries for them to the resolver.  [Nrpt] is proved
      against a class of systems.  [PowerShell] (client/nrpt/system_windows.go) goes down to
      the scripts the program writes and the text it reads back, over a class of PowerShells
      with what is documented of quoting, of running statements in turn and of the commands.
    - [Tun] (client/tun), [Firewall] (shared/firewall): the addresses and routes of an
      adapter, the rule that lets a program's traffic in, each over a class of netsh with what
      is documented of the commands given; any command may fail at any time.
    - [BindLife], [BindTraffic] (client/wgbind): opening and closing the bind while its
      goroutines run; what its receive functions make of what the socket yields, sending, and
      the endpoints, in direct mode and through a relay.
    - [Wg], [WgDevice] (client/wg): the configuration text of the tunnel; starting the device,
      replacing its peers and closing it, over a class of device libraries that keep the
      documented configuration protocol.  [Probe] (cmd/wgprobe) is the program that tries a
      tunnel by hand.
    - [Serving] (client/resolver, client/l4, client/ipc, server/ipc): listening and serving, of
      the resolver, the UDP proxy and the control channels.
    - [Profile], [DeviceId] (client/profile), [Manager], [ManagerStatus], [ManagerDns],
      [ManagerBind], [ManagerStart] (client/manager), [ClientIpc] (client/ipc): saved networks,
      connecting and forgetting them, their ranges and ports, reports, the goroutine that keeps
      the system's rules equal to the resolver's zones, by itself and beside a stop of the
      manager, the saved list and what a restart brings up, requests of the window.  The parts
      of [Connect] between which other calls can come are definitions of their own, and
      [ManagerLife] runs the calls in those parts, interleaved, to account for every engine.
    - [App], [Pipe] (gui/app.go, client/ipc, server/ipc): the application's buttons, over the
      services or hosting itself; the exchange of a request over a pipe, with JSON as a class.
    - [Tray] (gui/tray.go, gui/i18n.go): the menu's slots, polled, bound and rewritten step by
      step between clicks and changes of the language.
    - [Deploy] (cmd/zwan-service, cmd/zwan-server): installing and removing the services.
    - [AgentMain], [AgentLog] (cmd/zwan-agent): the agent's flags, joining without an engine,
      the status log, and the system's names for a run.
    - [Certpin], [Keys] (shared/certpin, shared/keys), [Update], [UpdateRun] (client/update):
      pins of server keys, node keys, versions, fetching a release, downloading the installer
      and launching it as a trace of effects, the server's update.

    [EndToEnd] puts the parts a packet goes through together: the sender's translating device,
    the tunnel its engine configured, its bind, the relay, and the same at the receiver.

    ** Go's standard library

    [Unicode], [GoString], [GoStringFacts] (strings of bytes, UTF-8, cases, trimming,
    splitting), [HostPort], [Netip], [NetipFacts] (addresses and prefixes), [Strconv],
    [Base64], [Url].  [Demo], [DemoClient] and [DemoJoin] hold concrete networks to which the
    theorems apply.

    ** Conventions

    An operation that can fail returns [result] or [option]; a Go panic is [None].  Machine
    integers are Z, kept to their width with [u16] and [u32] where the code wraps.  A Go map is
    a [gmap]; where the order of its iteration matters, it is an argument.  What the code reads
    from outside (clocks, randomness, sockets, the system, encoding/json, cryptography) is an
    argument or a Section variable, with what the proofs rely on as a hypothesis.  A mutex
    makes its critical section one step.  Loops that are bounded by the code have that bound:
    64 ports ([port_scan]), the slices of the pool ([slice_scan]), the size of the local range
    ([alloc_scan]).

    ** What is shown, by subject

    - Addresses: allocation refines a list of keys; in every interleaving of requests
      addresses are distinct; the local ranges of live networks are disjoint.
    - Packets: a packet crosses from an application to another and the answer comes back;
      what the relay hands out was sent; checksums are kept, only addresses change, translation is undone by
      translating back, nothing with a foreign address passes.
    - Access: listings and publishing need a node token; lists are exactly what the policy
      allows; a proxy admits whom the list names; a verifier accepts only pinned keys.
    - State over time: refreshes, connects, restarts and proxies keep their invariants; what
      runs is remembered; a forgotten session is taken up again; a server keeps its pin, a
      device its identifier and its networks.
    - The machine: removing undoes an install but for the failures that are logged; foreign
      rules of the name resolution table and of the firewall stay; an adapter has its own
      address and what was asked for; no engine is
      lost between calls for different networks; a click acts on the network shown.
    - Texts: join strings, pins, names, saved settings, the tunnel's configuration.

    Not everything holds that one would expect; the lemmas [overlapping_connects_collide],
    [Forget_leaves_running] and [alias_normalised_twice], [endpoint_adds_addresses],
    [NewRelay_rejects_names], [zone_address_unusable], [failed_change_forgotten],
    [outside_change_missed],
    [keepalive_outlives_close], [local_network_out_of_reach], [unreadable_key_replaced],
    [unreadable_list_lost], [same_network_loses_engine], [autostart_undoes_stop],
    [rebound_before_rewritten], [forgotten_comes_back], [language_missed], [konkani_is_korean],
    [moved_upgrade_runs_old], [stop_before_start], [error_back_unlogged], [ipv6_peer_panics],
    [one_reset_ends_relay], [override_shares_device_id], [shutdown_before_serving] and the second half of [session_recovers] state what the code
    does instead.

    ** Not modelled

    Sockets, files, HTTP transport, JSON, certificates, curves, pipes, wireguard-go, the
    service manager, netsh and PowerShell themselves (libraries and the system, behind
    arguments, or behind classes whose laws state documented behaviour and whose instances
    are used by witnesses only); creating an adapter; the
    Windows half of path/filepath; replacing a running binary (client/update); drawing the
    windows and the menu under gui.  Off Windows the firewall, the pipes and the services only
    report that they are missing. *)
From Stdlib Require Export ZArith Lia Sorted.
From stdpp Require Export sorting prelude strings gmap numbers.
From stdpp Require Export list.

#[global] Set Default Goal Selector "!".
#[global] Set Warnings "-clear-no-such-hyp".
Declare Scope zwan_scope.
Delimit Scope zwan_scope with zwan.

(** ** Results of fallible operations

    Go returns a value together with an [error]; a call either succeeded with a
    value or failed with an error, so the pair is a sum. *)
Inductive result (E A : Type) : Type :=
| Ok (a : A)
| Err (e : E).
Arguments Ok {_ _} _.
Arguments Err {_ _} _.

#[export] Instance result_eq_dec {E A} `{EqDecision E, EqDecision A} : EqDecision (result E A).
Proof. solve_decision. Defined.

Definition is_ok {E A} (r : result E A) : bool :=
  match r with Ok _ => true | Err _ => false end.

Definition result_bind {E A B} (r : result E A) (f : A → result E B) : result E B :=
  match r with Ok a => f a | Err e => Err e end.

Notation "'let!' x := r 'in' k" := (result_bind r (λ x, k))
  (at level 10, x pattern, r at level 200, k at level 200) : zwan_scope.

(** [n] bits of [z]: what a Go conversion to an unsigned [n]-bit integer keeps. *)
Definition wrap (n : Z) (z : Z) : Z := z mod 2 ^ n.

(** A Go [uint32] computation, reduced after every operation. *)
Definition u32 (z : Z) : Z := wrap 32 z.
Definition u16 (z : Z) : Z := wrap 16 z.

Lemma wrap_range n z : (0 ≤ n → 0 ≤ wrap n z < 2 ^ n)%Z.
Proof. intros Hn. apply Z.mod_pos_bound. lia. Qed.

Lemma wrap_small n z : (0 ≤ z < 2 ^ n → wrap n z = z)%Z.
Proof. apply Z.mod_small. Qed.

Lemma u32_range z : (0 ≤ u32 z < 2 ^ 32)%Z.
Proof. by apply wrap_range. Qed.

Lemma u16_range z : (0 ≤ u16 z < 2 ^ 16)%Z.
Proof. by apply wrap_range. Qed.

Lemma u32_small z : (0 ≤ z < 2 ^ 32 → u32 z = z)%Z.
Proof. apply wrap_small. Qed.

Lemma u16_small z : (0 ≤ z < 2 ^ 16 → u16 z = z)%Z.
Proof. apply wrap_small. Qed.

Create HintDb zwan.
Create Rewrite HintDb zwan.
#[export] Hint Resolve u32_range u16_range wrap_range : zwan.
#[export] Hint Rewrite u32_small u16_small using lia : zwan.

(** ** Joining bit fields *)

Lemma testbit_high y k n : (0 ≤ y < 2 ^ k → k ≤ n → Z.testbit y n = false)%Z.
Proof.
  intros Hy Hn. destruct (Z.eq_dec y 0%Z) as [->|]; [apply Z.testbit_0_l|].
  apply Z.bits_above_log2; [lia|]. apply Z.log2_lt_pow2; [lia|].
  eapply Z.lt_le_trans; [apply Hy|]. apply Z.pow_le_mono_r; lia.
Qed.

(** A field shifted above another is added to it. *)
Lemma lor_shiftl x y k : (0 ≤ k → 0 ≤ y < 2 ^ k → Z.lor (Z.shiftl x k) y = x * 2 ^ k + y)%Z.
Proof.
  intros Hk Hy. rewrite <-Z.add_nocarry_lor; [by rewrite Z.shiftl_mul_pow2 by lia|].
  apply Z.bits_inj'. intros n Hn. rewrite Z.land_spec, Z.bits_0.
  destruct (Z.lt_ge_cases n k).
  - by rewrite Z.shiftl_spec_low by lia.
  - by rewrite (testbit_high y k n), andb_false_r by lia.
Qed.

(** ** Sorting

    [sort.Slice] promises some sorted permutation.  When no two elements tie there is
    only one, the one [merge_sort] computes. *)

Lemma merge_sort_unique {T} (R : relation T) `{!RelDecision R, !Total R, !Transitive R} (l ms : list T) :
  (∀ x y, x ∈ ms → y ∈ ms → R x y → R y x → x = y) →
  l ≡ₚ ms → Sorted R l → merge_sort R ms = l.
Proof.
  intros Hanti Hl Hs. apply (StronglySorted_unique_strong R).
  - intros x y Hx Hy. apply Hanti; [by rewrite <-(merge_sort_Permutation R ms)|by rewrite <-Hl].
  - by apply StronglySorted_merge_sort.
  - by apply Sorted_StronglySorted.
  - by rewrite Hl, merge_sort_Permutation.
Qed.

(** ** Filters *)

Lemma filter_all {A} (P : A → Prop) `{!∀ x, Decision (P x)} (l : list A) :
  Forall P l → filter P l = l.
Proof. induction 1 as [|x l Hx _ IH]; [done|]. by rewrite filter_cons_True, IH. Qed.

Lemma filter_none {A} (P : A → Prop) `{!∀ x, Decision (P x)} (l : list A) :
  Forall (λ x, ¬ P x) l → filter P l = [].
Proof. induction 1 as [|x l Hx _ IH]; [done|]. by rewrite filter_cons_False, IH. Qed.

Lemma map_to_list_filter_list {K A} `{Countable K} (P : K * A → Prop) `{!∀ x, Decision (P x)} (m : gmap K A) :
  map_to_list (filter P m) ≡ₚ filter P (map_to_list m).
Proof.
  rewrite map_filter_alt. apply map_to_list_to_map.
  pose proof (NoDup_fst_map_to_list m) as Hnd. induction (map_to_list m) as [|x l IH]; [constructor|].
  cbn [fmap list_fmap] in Hnd. apply NoDup_cons in Hnd as [Hx Hnd].
  rewrite filter_cons. destruct (decide (P x)); [|by apply IH].
  cbn [fmap list_fmap]. constructor; [|by apply IH].
  intros (y & Hy & [_ Hin]%list_elem_of_filter)%list_elem_of_fmap. apply Hx. rewrite Hy.
  by apply list_elem_of_fmap_2.
Qed.

Lemma filter_fmap_compose {A B} (f : A → B) (P : B → Prop) `{!∀ x, Decision (P x)} (l : list A) :
  filter P (f <$> l) = f <$> filter (λ x, P (f x)) l.
Proof.
  induction l as [|x l IH]; [done|]. cbn [fmap list_fmap].
  destruct (decide (P (f x))); [by rewrite !filter_cons_True by done; rewrite IH|].
  by rewrite !filter_cons_False.
Qed.

(** ** Maps filled by a loop *)

Lemma fold_insert_lookup {T K V} `{Countable K} (k : T → K) (v : T → V) (l : list T) (m : gmap K V) i :
  NoDup (k <$> l) →
  (∀ x, x ∈ l → k x = i → foldl (λ m x, <[k x := v x]> m) m l !! i = Some (v x)) ∧
  ((∀ x, x ∈ l → k x ≠ i) → foldl (λ m x, <[k x := v x]> m) m l !! i = m !! i).
Proof.
  revert m. induction l as [|x l IH]; intros m Hnd; [by split; [intros x Hx; inversion Hx|]|].
  cbn [fmap list_fmap] in Hnd. apply NoDup_cons in Hnd as [Hx Hnd]. cbn [foldl].
  destruct (IH (<[k x:=v x]> m) Hnd) as [H1 H2]. split.
  - intros y [->|Hy]%elem_of_cons Hi; [|by apply H1]. rewrite H2; [subst i; by rewrite lookup_insert_eq|].
    intros z Hz Hk. apply Hx. rewrite Hi, <-Hk. by apply list_elem_of_fmap_2.
  - intros Hn. rewrite H2; [|intros y Hy; by apply Hn, list_elem_of_further].
    apply lookup_insert_ne, Hn, list_elem_of_here.
Qed.

Lemma fold_insert_Some {T K V} `{Countable K} (k : T → K) (v : T → V) (l : list T) i y :
  NoDup (k <$> l) →
  foldl (λ m x, <[k x := v x]> m) (∅ : gmap K V) l !! i = Some y ↔ ∃ x, x ∈ l ∧ k x = i ∧ v x = y.
Proof.
  intros Hnd. destruct (fold_insert_lookup k v l ∅ i Hnd) as [H1 H2]. split.
  - intros Hy. destruct (decide (i ∈ k <$> l)) as [(x & -> & Hx)%list_elem_of_fmap|Hn].
    + exists x. split_and!; [done|done|]. specialize (H1 x Hx eq_refl). congruence.
    + rewrite H2 in Hy; [done|]. intros x Hx <-. by apply Hn, list_elem_of_fmap_2.
  - intros (x & Hx & Hk & <-). by apply H1.
Qed.
