(* ===== verification/Unicode.v ===== *)
(** * Unicode data used by Go's [strings] and [unicode] packages

    The simple lower-case mapping of Unicode, as [unicode.ToLower] applies it,
    written as ranges [(first, last, stride, delta)]: a rune of a range at a
    multiple of the stride maps to itself plus the delta, and every other rune
    maps to itself.  [unicode.IsSpace] is the White_Space property. *)
From S2P Require Import Prelude.

Local Open Scope Z_scope.

Definition lower_ranges : list (Z * Z * Z * Z) :=
  [    (65, 90, 1, 32); (192, 214, 1, 32); (216, 222, 1, 32); (256, 302, 2, 1);
    (304, 304, 1, (-199)); (306, 310, 2, 1); (313, 327, 2, 1); (330, 374, 2, 1);
    (376, 376, 1, (-121)); (377, 381, 2, 1); (385, 385, 1, 210); (386, 388, 2, 1);
    (390, 390, 1, 206); (391, 391, 1, 1); (393, 394, 1, 205); (395, 395, 1, 1);
    (398, 398, 1, 79); (399, 399, 1, 202); (400, 400, 1, 203); (401, 401, 1, 1);
    (403, 403, 1, 205); (404, 404, 1, 207); (406, 406, 1, 211); (407, 407, 1, 209);
    (408, 408, 1, 1); (412, 412, 1, 211); (413, 413, 1, 213); (415, 415, 1, 214);
    (416, 420, 2, 1); (422, 422, 1, 218); (423, 423, 1, 1); (425, 425, 1, 218);
    (428, 428, 1, 1); (430, 430, 1, 218); (431, 431, 1, 1); (433, 434, 1, 217);
    (435, 437, 2, 1); (439, 439, 1, 219); (440, 440, 1, 1); (444, 444, 1, 1); (452, 452, 1, 2);
    (453, 453, 1, 1); (455, 455, 1, 2); (456, 456, 1, 1); (458, 458, 1, 2); (459, 475, 2, 1);
    (478, 494, 2, 1); (497, 497, 1, 2); (498, 500, 2, 1); (502, 502, 1, (-97));
    (503, 503, 1, (-56)); (504, 542, 2, 1); (544, 544, 1, (-130)); (546, 562, 2, 1);
    (570, 570, 1, 10795); (571, 571, 1, 1); (573, 573, 1, (-163)); (574, 574, 1, 10792);
    (577, 577, 1, 1); (579, 579, 1, (-195)); (580, 580, 1, 69); (581, 581, 1, 71);
    (582, 590, 2, 1); (880, 882, 2, 1); (886, 886, 1, 1); (895, 895, 1, 116); (902, 902, 1, 38);
    (904, 906, 1, 37); (908, 908, 1, 64); (910, 911, 1, 63); (913, 929, 1, 32);
    (931, 939, 1, 32); (975, 975, 1, 8); (984, 1006, 2, 1); (1012, 1012, 1, (-60));
    (1015, 1015, 1, 1); (1017, 1017, 1, (-7)); (1018, 1018, 1, 1); (1021, 1023, 1, (-130));
    (1024, 1039, 1, 80); (1040, 1071, 1, 32); (1120, 1152, 2, 1); (1162, 1214, 2, 1);
    (1216, 1216, 1, 15); (1217, 1229, 2, 1); (1232, 1326, 2, 1); (1329, 1366, 1, 48);
    (4256, 4293, 1, 7264); (4295, 4295, 1, 7264); (4301, 4301, 1, 7264); (5024, 5103, 1, 38864);
    (5104, 5109, 1, 8); (7312, 7354, 1, (-3008)); (7357, 7359, 1, (-3008)); (7680, 7828, 2, 1);
    (7838, 7838, 1, (-7615)); (7840, 7934, 2, 1); (7944, 7951, 1, (-8)); (7960, 7965, 1, (-8));
    (7976, 7983, 1, (-8)); (7992, 7999, 1, (-8)); (8008, 8013, 1, (-8)); (8025, 8031, 2, (-8));
    (8040, 8047, 1, (-8)); (8072, 8079, 1, (-8)); (8088, 8095, 1, (-8)); (8104, 8111, 1, (-8));
    (8120, 8121, 1, (-8)); (8122, 8123, 1, (-74)); (8124, 8124, 1, (-9));
    (8136, 8139, 1, (-86)); (8140, 8140, 1, (-9)); (8152, 8153, 1, (-8));
    (8154, 8155, 1, (-100)); (8168, 8169, 1, (-8)); (8170, 8171, 1, (-112));
    (8172, 8172, 1, (-7)); (8184, 8185, 1, (-128)); (8186, 8187, 1, (-126));
    (8188, 8188, 1, (-9)); (8486, 8486, 1, (-7517)); (8490, 8490, 1, (-8383));
    (8491, 8491, 1, (-8262)); (8498, 8498, 1, 28); (8544, 8559, 1, 16); (8579, 8579, 1, 1);
    (9398, 9423, 1, 26); (11264, 11311, 1, 48); (11360, 11360, 1, 1);
    (11362, 11362, 1, (-10743)); (11363, 11363, 1, (-3814)); (11364, 11364, 1, (-10727));
    (11367, 11371, 2, 1); (11373, 11373, 1, (-10780)); (11374, 11374, 1, (-10749));
    (11375, 11375, 1, (-10783)); (11376, 11376, 1, (-10782)); (11378, 11378, 1, 1);
    (11381, 11381, 1, 1); (11390, 11391, 1, (-10815)); (11392, 11490, 2, 1);
    (11499, 11501, 2, 1); (11506, 11506, 1, 1); (42560, 42604, 2, 1); (42624, 42650, 2, 1);
    (42786, 42798, 2, 1); (42802, 42862, 2, 1); (42873, 42875, 2, 1);
    (42877, 42877, 1, (-35332)); (42878, 42886, 2, 1); (42891, 42891, 1, 1);
    (42893, 42893, 1, (-42280)); (42896, 42898, 2, 1); (42902, 42920, 2, 1);
    (42922, 42922, 1, (-42308)); (42923, 42923, 1, (-42319)); (42924, 42924, 1, (-42315));
    (42925, 42925, 1, (-42305)); (42926, 42926, 1, (-42308)); (42928, 42928, 1, (-42258));
    (42929, 42929, 1, (-42282)); (42930, 42930, 1, (-42261)); (42931, 42931, 1, 928);
    (42932, 42946, 2, 1); (42948, 42948, 1, (-48)); (42949, 42949, 1, (-42307));
    (42950, 42950, 1, (-35384)); (42951, 42953, 2, 1); (42960, 42960, 1, 1);
    (42966, 42968, 2, 1); (42997, 42997, 1, 1); (65313, 65338, 1, 32); (66560, 66599, 1, 40);
    (66736, 66771, 1, 40); (66928, 66938, 1, 39); (66940, 66954, 1, 39); (66956, 66962, 1, 39);
    (66964, 66965, 1, 39); (68736, 68786, 1, 64); (71840, 71871, 1, 32); (93760, 93791, 1, 32);
    (125184, 125217, 1, 34)
  ].

(** Whether a rune belongs to a range of the table. *)
Definition in_range (r : Z) (e : Z * Z * Z * Z) : bool :=
  let '(lo, hi, stride, _) := e in
  (lo <=? r) && (r <=? hi) && ((r - lo) mod stride =? 0).

Fixpoint lookup_ranges (r : Z) (t : list (Z * Z * Z * Z)) : Z :=
  match t with
  | [] => r
  | e :: t => if in_range r e then r + e.2 else lookup_ranges r t
  end.

(** [unicode.ToLower]. *)
Definition rune_lower (r : Z) : Z := lookup_ranges r lower_ranges.

(** [unicode.IsSpace]. *)
Definition rune_is_space (r : Z) : bool :=
  ((9 <=? r) && (r <=? 13)) || (r =? 32) || (r =? 0x85) || (r =? 0xA0)
  || (r =? 0x1680) || ((0x2000 <=? r) && (r <=? 0x200a)) || (r =? 0x2028)
  || (r =? 0x2029) || (r =? 0x202f) || (r =? 0x205f) || (r =? 0x3000).

(** ** Facts about the table, by evaluation over its entries *)

(** The runes between the ends of a range. *)
Definition range_runes (e : Z * Z * Z * Z) : list Z :=
  let '(lo, hi, _, _) := e in seqZ lo (hi - lo + 1).

(** Every pair the table maps satisfies [chk]. *)
Definition table_check (chk : Z → Z → bool) : bool :=
  forallb (λ e, forallb (λ r, implb (in_range r e) (chk r (r + e.2))) (range_runes e)) lower_ranges.

Lemma lookup_ranges_cases r t :
  lookup_ranges r t = r ∨ ∃ e, e ∈ t ∧ in_range r e = true ∧ lookup_ranges r t = r + e.2.
Proof.
  induction t as [|e t IH]; simpl; [by left|].
  destruct (in_range r e) eqn:He.
  - right. exists e. by rewrite He, list_elem_of_In; simpl; auto.
  - destruct IH as [?|(e' & ? & ? & ?)]; [by left|].
    right. exists e'. split_and!; [by apply list_elem_of_further|done..].
Qed.

Lemma in_range_runes r e : in_range r e = true → r ∈ range_runes e.
Proof.
  destruct e as [[[lo hi] st] d]. unfold in_range, range_runes.
  intros H. apply elem_of_seqZ. lia.
Qed.

Lemma rune_lower_ind (chk : Z → Z → bool) r :
  table_check chk = true → rune_lower r = r ∨ chk r (rune_lower r) = true.
Proof.
  intros Htab. destruct (lookup_ranges_cases r lower_ranges) as [|(e & He & Hin & Heq)];
    [by left|right].
  unfold rune_lower. rewrite Heq.
  unfold table_check in Htab. rewrite forallb_forall in Htab.
  specialize (Htab e). rewrite <-list_elem_of_In in Htab. specialize (Htab He).
  rewrite forallb_forall in Htab. specialize (Htab r).
  rewrite <-list_elem_of_In in Htab. specialize (Htab (in_range_runes _ _ Hin)).
  by rewrite Hin in Htab.
Qed.

Lemma rune_lower_idemp r : rune_lower (rune_lower r) = rune_lower r.
Proof.
  assert (table_check (λ _ l, rune_lower l =? l) = true) as Htab by (by vm_compute).
  destruct (rune_lower_ind _ r Htab) as [Heq|?]; [by rewrite !Heq|lia].
Qed.

Lemma rune_is_space_lower r : rune_is_space (rune_lower r) = rune_is_space r.
Proof.
  assert (table_check (λ c l, negb (rune_is_space c) && negb (rune_is_space l)) = true) as Htab
    by (by vm_compute).
  destruct (rune_lower_ind _ r Htab) as [->|H]; [done|].
  by destruct (rune_is_space r), (rune_is_space (rune_lower r)).
Qed.
