(* ===== verification/GoString.v ===== *)
(** * Go strings: bytes, UTF-8 and the operations of package [strings]

    A Go string is a sequence of bytes, here a Rocq [string].  [for _, r := range s],
    [strings.ToLower] and [strings.TrimSpace] read it as UTF-8, one rune at a time,
    an invalid byte being read as U+FFFD with width one; [pieces] is that reading.
    The other operations the program uses (Split, Cut, Join, HasPrefix, Trim with an
    ASCII cutset) work on bytes. *)
From Stdlib Require Import Ascii String.
From S2P Require Import Prelude Unicode.

Local Open Scope Z_scope.

(** ** Bytes *)

Definition byte_val (a : ascii) : Z := Z.of_N (N_of_ascii a).
Definition byte_of (z : Z) : ascii := ascii_of_N (Z.to_N z).

Lemma byte_val_range a : 0 ≤ byte_val a < 256.
Proof. unfold byte_val. pose proof (N_ascii_bounded a). lia. Qed.

Lemma byte_val_of z : 0 ≤ z < 256 → byte_val (byte_of z) = z.
Proof. intros ?. unfold byte_val, byte_of. rewrite N_ascii_embedding; lia. Qed.

Lemma byte_of_val a : byte_of (byte_val a) = a.
Proof. unfold byte_val, byte_of. by rewrite N2Z.id, ascii_N_embedding. Qed.

#[export] Instance byte_val_inj : Inj (=) (=) byte_val.
Proof. intros a b H. by rewrite <-(byte_of_val a), H, byte_of_val. Qed.

(** ** UTF-8, as [utf8.DecodeRuneInString] and [utf8.AppendRune] *)

Definition rune_error : Z := 0xFFFD.

(** A Unicode scalar value: what a Go rune read from a string always is. *)
Definition valid_rune (r : Z) : bool :=
  ((0 <=? r) && (r <? 0xD800)) || ((0xE000 <=? r) && (r <? 0x110000)).

Definition is_cont (a : ascii) : bool := (0x80 <=? byte_val a) && (byte_val a <=? 0xBF).

(** The bytes that may follow a three- or four-byte lead byte: Go's [acceptRanges]. *)
Definition accept2 (b0 : Z) (a : ascii) : bool :=
  let lo := if b0 =? 0xE0 then 0xA0 else if b0 =? 0xF0 then 0x90 else 0x80 in
  let hi := if b0 =? 0xED then 0x9F else if b0 =? 0xF4 then 0x8F else 0xBF in
  (lo <=? byte_val a) && (byte_val a <=? hi).

(** The rune at the front of a string and its width in bytes. *)
Definition decode_rune (l : list ascii) : Z * nat :=
  let bad := (rune_error, 1%nat) in
  match l with
  | [] => (rune_error, 0%nat)
  | a :: t =>
    let b0 := byte_val a in
    if b0 <? 0x80 then (b0, 1%nat)
    else if (0xC2 <=? b0) && (b0 <=? 0xDF) then
      match t with
      | b :: _ => if is_cont b then ((b0 - 0xC0) * 64 + (byte_val b - 0x80), 2%nat) else bad
      | _ => bad
      end
    else if (0xE0 <=? b0) && (b0 <=? 0xEF) then
      match t with
      | b :: c :: _ =>
        if accept2 b0 b && is_cont c
        then (((b0 - 0xE0) * 64 + (byte_val b - 0x80)) * 64 + (byte_val c - 0x80), 3%nat)
        else bad
      | _ => bad
      end
    else if (0xF0 <=? b0) && (b0 <=? 0xF4) then
      match t with
      | b :: c :: d :: _ =>
        if accept2 b0 b && is_cont c && is_cont d
        then ((((b0 - 0xF0) * 64 + (byte_val b - 0x80)) * 64 + (byte_val c - 0x80)) * 64
              + (byte_val d - 0x80), 4%nat)
        else bad
      | _ => bad
      end
    else bad
  end.

(** The bytes of a rune; an invalid rune is written as U+FFFD. *)
Definition encode_rune (r : Z) : list ascii :=
  let r := if valid_rune r then r else rune_error in
  if r <? 0x80 then [byte_of r]
  else if r <? 0x800 then [byte_of (0xC0 + r / 64); byte_of (0x80 + r mod 64)]
  else if r <? 0x10000 then
    [byte_of (0xE0 + r / 4096); byte_of (0x80 + (r / 64) mod 64); byte_of (0x80 + r mod 64)]
  else
    [byte_of (0xF0 + r / 262144); byte_of (0x80 + (r / 4096) mod 64);
     byte_of (0x80 + (r / 64) mod 64); byte_of (0x80 + r mod 64)].

(** A string read as runes, each with the bytes it came from. *)
Fixpoint pieces_fuel (n : nat) (l : list ascii) : list (Z * list ascii) :=
  match n, l with
  | O, _ | _, [] => []
  | S n, _ => let '(r, w) := decode_rune l in (r, take w l) :: pieces_fuel n (drop w l)
  end.

Definition pieces (l : list ascii) : list (Z * list ascii) := pieces_fuel (length l) l.

(** The runes of [for _, r := range s]. *)
Definition runes (s : string) : list Z := (pieces (list_ascii_of_string s)).*1.

(** ** Operations of package [strings] *)

Fixpoint drop_while {A} (f : A → bool) (l : list A) : list A :=
  match l with [] => [] | x :: l' => if f x then drop_while f l' else l end.

Definition drop_while_end {A} (f : A → bool) (l : list A) : list A :=
  reverse (drop_while f (reverse l)).

Definition strip {A} (f : A → bool) (l : list A) : list A := drop_while_end f (drop_while f l).

Definition trim_bytes (l : list ascii) : list ascii :=
  mjoin (strip (λ p, rune_is_space p.1) (pieces l)).*2.

Definition lower_bytes (l : list ascii) : list ascii :=
  mjoin ((λ p, encode_rune (rune_lower p.1)) <$> pieces l).

(** [strings.TrimSpace], [strings.ToLower]. *)
Definition trim_space (s : string) : string :=
  string_of_list_ascii (trim_bytes (list_ascii_of_string s)).

Definition to_lower (s : string) : string :=
  string_of_list_ascii (lower_bytes (list_ascii_of_string s)).

(** [strings.Trim(s, c)], [strings.TrimRight(s, c)] for a one-byte ASCII cutset. *)
Definition trim_byte (c : ascii) (s : string) : string :=
  string_of_list_ascii (strip (Ascii.eqb c) (list_ascii_of_string s)).

Definition trim_right_byte (c : ascii) (s : string) : string :=
  string_of_list_ascii (drop_while_end (Ascii.eqb c) (list_ascii_of_string s)).

(** [strings.HasPrefix], [strings.HasSuffix]; what follows a prefix. *)
Fixpoint after_prefix (p s : string) : option string :=
  match p, s with
  | EmptyString, _ => Some s
  | String a p', String b s' => if Ascii.eqb a b then after_prefix p' s' else None
  | _, EmptyString => None
  end.

Definition has_prefix (s p : string) : bool :=
  match after_prefix p s with Some _ => true | None => false end.

Fixpoint has_suffix (s p : string) : bool :=
  String.eqb s p || match s with EmptyString => false | String _ s' => has_suffix s' p end.

Definition trim_prefix (s p : string) : string := default s (after_prefix p s).

(** [strings.Contains]. *)
Fixpoint contains (s sub : string) : bool :=
  has_prefix s sub || match s with EmptyString => false | String _ s' => contains s' sub end.

(** [strings.Cut(s, sep)]: what is before and after the first [sep]. *)
Fixpoint cut (sep s : string) : option (string * string) :=
  match after_prefix sep s with
  | Some rest => Some ("", rest)
  | None =>
    match s with
    | EmptyString => None
    | String a s' => match cut sep s' with
                     | Some (l, r) => Some (String a l, r)
                     | None => None
                     end
    end
  end.

(** [strings.Split(s, c)] for a one-byte separator. *)
Fixpoint split_byte (c : ascii) (s : string) : list string :=
  match s with
  | EmptyString => [""]
  | String a s' =>
    if Ascii.eqb a c then "" :: split_byte c s'
    else match split_byte c s' with
         | x :: xs => String a x :: xs
         | [] => [String a ""]
         end
  end.

(** [strings.LastIndexByte] with the two sides of the byte it finds. *)
Fixpoint cut_last (c : ascii) (s : string) : option (string * string) :=
  match s with
  | EmptyString => None
  | String a s' =>
    match cut_last c s' with
    | Some (l, r) => Some (String a l, r)
    | None => if Ascii.eqb a c then Some ("", s') else None
    end
  end.

(** [strings.Join]. *)
Definition str_join (l : list string) (sep : string) : string := String.concat sep l.

(** Go's [<] on strings compares bytes; [sort.Strings] and [sort.Slice] use it. *)
Definition sort_strings (l : list string) : list string := merge_sort String.le l.

(** [strings.EqualFold] when one of the two strings is ASCII, as in all the program's
    uses: besides the ASCII letters only U+212A (Kelvin sign) and U+017F (long s) fold
    to an ASCII letter. *)
Definition rune_fold (r : Z) : Z :=
  if (65 <=? r) && (r <=? 90) then r + 32
  else if r =? 0x212A then 107 else if r =? 0x17F then 115 else r.

Definition equal_fold (s t : string) : bool :=
  bool_decide (rune_fold <$> runes s = rune_fold <$> runes t).

(** [hex.EncodeToString]. *)
Definition hex_nibble (d : Z) : ascii := byte_of (if d <? 10 then 48 + d else 87 + d).

Fixpoint hex_encode (b : list Z) : string :=
  match b with
  | [] => ""
  | x :: b => String (hex_nibble (x / 16)) (String (hex_nibble (x mod 16)) (hex_encode b))
  end.
