(* ===== verification/GoStringFacts.v ===== *)
(** * Facts about Go strings

    UTF-8 decoding inverts encoding, trimming and lower-casing are idempotent and
    commute as the program relies on, and splitting inverts joining. *)
From Stdlib Require Import Ascii String.
From S2P Require Import Prelude Unicode GoString.

Local Open Scope Z_scope.

(** ** Stripping both ends of a list *)
Section strip.
Context {A : Type} (f : A → bool).
Implicit Types l : list A.

(** Neither end of the list satisfies [f]. *)
Definition bare l : Prop :=
  (∀ x, head l = Some x → f x = false) ∧ (∀ x, last l = Some x → f x = false).

Lemma drop_while_app l : ∃ k, l = k ++ drop_while f l ∧ Forall (λ x, f x = true) k.
Proof.
  induction l as [|x l (k & Hk & Hf)]; simpl; [by exists []|].
  destruct (f x) eqn:Hx; [|by exists []].
  exists (x :: k). split; [by rewrite Hk at 1|by constructor].
Qed.

Lemma drop_while_head l x : head (drop_while f l) = Some x → f x = false.
Proof.
  induction l as [|y l IH]; simpl; [done|].
  destruct (f y) eqn:Hy; [done|]. simpl. by intros [= ->].
Qed.

Lemma drop_while_id l : (∀ x, head l = Some x → f x = false) → drop_while f l = l.
Proof. destruct l as [|x l]; simpl; [done|]. intros H. by rewrite (H x). Qed.

Lemma drop_while_end_app l :
  ∃ k, l = drop_while_end f l ++ k ∧ Forall (λ x, f x = true) k.
Proof.
  destruct (drop_while_app (reverse l)) as (k & Hk & Hf).
  exists (reverse k). split; [|by apply Forall_reverse].
  unfold drop_while_end. by rewrite <-reverse_app, <-Hk, reverse_involutive.
Qed.

Lemma drop_while_end_last l x : last (drop_while_end f l) = Some x → f x = false.
Proof. unfold drop_while_end. rewrite last_reverse. apply drop_while_head. Qed.

Lemma drop_while_end_id l :
  (∀ x, last l = Some x → f x = false) → drop_while_end f l = l.
Proof.
  intros H. unfold drop_while_end. rewrite drop_while_id, reverse_involutive; [done|].
  intros x Hx. apply H. by rewrite <-head_reverse.
Qed.

Lemma strip_app l :
  ∃ k1 k2, l = k1 ++ strip f l ++ k2 ∧
    Forall (λ x, f x = true) k1 ∧ Forall (λ x, f x = true) k2.
Proof.
  destruct (drop_while_app l) as (k1 & H1 & ?).
  destruct (drop_while_end_app (drop_while f l)) as (k2 & H2 & ?).
  exists k1, k2. split_and!; [|done..]. unfold strip. by rewrite <-H2.
Qed.

Lemma strip_bare l : bare (strip f l).
Proof.
  split; [|apply drop_while_end_last].
  intros x Hx. destruct (drop_while_end_app (drop_while f l)) as (k & Hk & _).
  apply (drop_while_head l). unfold strip in Hx. rewrite Hk.
  by destruct (drop_while_end f (drop_while f l)).
Qed.

Lemma strip_id l : bare l → strip f l = l.
Proof. intros [? ?]. unfold strip. by rewrite drop_while_id, drop_while_end_id. Qed.

Lemma strip_sublist l x : x ∈ strip f l → x ∈ l.
Proof. destruct (strip_app l) as (k1 & k2 & Hl & _). rewrite Hl at 2. set_solver. Qed.

Lemma strip_none l : Forall (λ x, f x = false) l → strip f l = l.
Proof.
  rewrite Forall_forall. intros H. apply strip_id. split; intros x Hx; apply H.
  - destruct l; simplify_eq/=. set_solver.
  - apply last_Some in Hx as [l' ->]. set_solver.
Qed.

Lemma strip_nil : strip f [] = [].
Proof. done. Qed.
End strip.

Lemma bare_fmap {A B} (f : A → bool) (g : B → bool) (h : A → B) l :
  (∀ x, g (h x) = f x) → bare f l → bare g (h <$> l).
Proof.
  intros Hfg [H1 H2]. split; intros y.
  - destruct l as [|x l]; [done|]. intros [= <-]. rewrite Hfg. by apply H1.
  - rewrite fmap_last. destruct (last l) eqn:E; [|done]. intros [= <-]. rewrite Hfg. eauto.
Qed.

(** ** UTF-8: decoding inverts encoding *)

Lemma valid_rune_error : valid_rune rune_error = true.
Proof. done. Qed.

Lemma rune_lower_valid r : valid_rune r = true → valid_rune (rune_lower r) = true.
Proof.
  assert (table_check (λ _ l, valid_rune l) = true) as Htab by (by vm_compute).
  by destruct (rune_lower_ind _ r Htab) as [->|?].
Qed.

Lemma byte_val_cont z : 0 ≤ z < 64 → byte_val (byte_of (0x80 + z)) = 0x80 + z.
Proof. intros ?. rewrite byte_val_of; lia. Qed.

Lemma is_cont_of z : 0 ≤ z < 64 → is_cont (byte_of (0x80 + z)) = true.
Proof. intros ?. unfold is_cont. rewrite byte_val_cont by lia. lia. Qed.

Ltac split_lia := repeat split; lia.

(** The ranges of the digits of a rune in base 64. *)
Ltac rune_bounds r :=
  pose proof (Z.mod_pos_bound r 64 eq_refl);
  pose proof (Z.mod_pos_bound (r / 64) 64 eq_refl);
  pose proof (Z.mod_pos_bound (r / 4096) 64 eq_refl);
  pose proof (Z.div_mod r 64 ltac:(lia));
  pose proof (Z.div_mod (r / 64) 64 ltac:(lia));
  pose proof (Z.div_mod (r / 4096) 64 ltac:(lia));
  assert (r / 64 / 64 = r / 4096) by (rewrite Z.div_div by lia; done);
  assert (r / 4096 / 64 = r / 262144) by (rewrite Z.div_div by lia; done).

(** Decides the range tests of [decode_rune] on the bytes at hand. *)
Ltac range_tests :=
  repeat match goal with
  | |- context [?a <? ?b] =>
      first [rewrite (proj2 (Z.ltb_lt a b)) by lia | rewrite (proj2 (Z.ltb_ge a b)) by lia]
  | |- context [?a <=? ?b] =>
      first [rewrite (proj2 (Z.leb_le a b)) by lia | rewrite (proj2 (Z.leb_gt a b)) by lia]
  end.

Lemma accept2_of b0 z :
  0 ≤ z < 64 → (b0 = 0xE0 → 0x20 ≤ z) → (b0 = 0xF0 → 0x10 ≤ z) →
  (b0 = 0xED → z < 0x20) → (b0 = 0xF4 → z < 0x10) →
  accept2 b0 (byte_of (0x80 + z)) = true.
Proof.
  intros. unfold accept2. rewrite byte_val_cont by lia.
  repeat case_match; lia.
Qed.

Lemma decode_encode_rune r rest :
  valid_rune r = true → decode_rune (encode_rune r ++ rest) = (r, length (encode_rune r)).
Proof.
  intros Hr. unfold encode_rune. rewrite Hr. unfold valid_rune in Hr.
  assert (0 ≤ r < 0xD800 ∨ 0xE000 ≤ r < 0x110000) as Hrange by lia. rune_bounds r.
  destruct (r <? 0x80) eqn:HA; [|destruct (r <? 0x800) eqn:HB; [|destruct (r <? 0x10000) eqn:HC]];
    simpl; rewrite byte_val_of by lia.
  - by rewrite HA.
  - range_tests; simpl. rewrite is_cont_of, byte_val_cont by lia.
    f_equal. lia.
  - range_tests; simpl. rewrite accept2_of, is_cont_of, !byte_val_cont by lia.
    f_equal. lia.
  - range_tests; simpl. rewrite accept2_of, !is_cont_of, !byte_val_cont by lia.
    f_equal. lia.
Qed.

Lemma encode_rune_length r : (1 ≤ length (encode_rune r) ≤ 4)%nat.
Proof. unfold encode_rune. repeat case_match; simpl; lia. Qed.

Lemma div64_mul x y : 0 ≤ y < 64 → (x * 64 + y) / 64 = x.
Proof. intros. rewrite Z.div_add_l, Z.div_small; lia. Qed.

Lemma mod64_mul x y : 0 ≤ y < 64 → (x * 64 + y) mod 64 = y.
Proof. intros. rewrite Z.add_comm, Z_mod_plus_full, Z.mod_small; lia. Qed.

Lemma div4096_mul x : x / 4096 = x / 64 / 64.
Proof. by rewrite Z.div_div by lia. Qed.

Lemma div262144_mul x : x / 262144 = x / 64 / 64 / 64.
Proof. by rewrite !Z.div_div by lia. Qed.

Lemma byte_of_eq a z : z = byte_val a → byte_of z = a.
Proof. intros ->. apply byte_of_val. Qed.

Lemma is_cont_range a : is_cont a = true → 0x80 ≤ byte_val a ≤ 0xBF.
Proof. unfold is_cont. lia. Qed.

Lemma accept2_range b0 a :
  accept2 b0 a = true →
  0x80 ≤ byte_val a ≤ 0xBF ∧ (b0 = 0xE0 → 0xA0 ≤ byte_val a) ∧ (b0 = 0xF0 → 0x90 ≤ byte_val a)
  ∧ (b0 = 0xED → byte_val a ≤ 0x9F) ∧ (b0 = 0xF4 → byte_val a ≤ 0x8F).
Proof. unfold accept2. repeat case_match; lia. Qed.

(** Evaluates [encode_rune] on a rune written in base 64. *)
Ltac encode_digits :=
  unfold encode_rune;
  match goal with
  | H : valid_rune ?r = true |- context [valid_rune ?r] => rewrite H
  end;
  range_tests; rewrite ?div262144_mul, ?div4096_mul, ?div64_mul, ?mod64_mul by lia;
  repeat f_equal; symmetry; apply byte_of_eq; lia.

(** What [decode_rune] returns on a non-empty string: a valid rune with exactly its
    encoding, or the error rune for one byte. *)
Definition decoded (l : list ascii) (r : Z) (w : nat) : Prop :=
  valid_rune r = true ∧ (1 ≤ w ≤ length l)%nat ∧
  (take w l = encode_rune r ∨ (r = rune_error ∧ w = 1%nat)).

Lemma decoded_bad a t : decoded (a :: t) rune_error 1.
Proof. split_and!; [done|simpl; lia|simpl; lia|by right]. Qed.

Lemma decode_rune_sound a t r w : decode_rune (a :: t) = (r, w) → decoded (a :: t) r w.
Proof.
  pose proof (byte_val_range a). unfold decode_rune.
  assert (∀ r', 0 ≤ r' < 0xD800 ∨ 0xE000 ≤ r' < 0x110000 → valid_rune r' = true) as Hvalid
    by (unfold valid_rune; lia).
  intros Hd. repeat (case_match; simplify_eq/=); try apply decoded_bad;
    repeat match goal with
    | H : _ && _ = true |- _ => apply andb_true_iff in H as [? ?]
    | H : is_cont _ = true |- _ => apply is_cont_range in H
    | H : accept2 _ _ = true |- _ => apply accept2_range in H as (? & ? & ? & ? & ?)
    end;
    (match goal with |- decoded _ ?v _ => assert (valid_rune v = true) by (apply Hvalid; lia) end);
    split_and!; try done; simpl; try lia; left; encode_digits.
Qed.

(** ** Reading a string as runes *)

Lemma decode_rune_width a t : (1 ≤ (decode_rune (a :: t)).2 ≤ length (a :: t))%nat.
Proof.
  destruct (decode_rune (a :: t)) as [r w] eqn:Hd.
  by apply decode_rune_sound in Hd as (_ & ? & _).
Qed.

Lemma pieces_fuel_more n l : (length l ≤ n)%nat → pieces_fuel n l = pieces l.
Proof.
  unfold pieces. remember (length l) as m eqn:Hm.
  assert (length l ≤ m)%nat as Hl by lia. clear Hm. revert m l Hl.
  induction n as [|n IH]; intros m l Hl Hn.
  { destruct l; [by destruct m|simpl in *; lia]. }
  destruct l as [|a t]; [by destruct m|]. destruct m as [|m]; [simpl in *; lia|].
  cbn [pieces_fuel]. pose proof (decode_rune_width a t) as Hw.
  destruct (decode_rune (a :: t)) as [r w]. f_equal.
  pose proof (length_drop (a :: t) w) as Hlen. simpl in *. apply IH; lia.
Qed.

Lemma pieces_cons a t :
  let '(r, w) := decode_rune (a :: t) in
  pieces (a :: t) = (r, take w (a :: t)) :: pieces (drop w (a :: t)).
Proof.
  pose proof (decode_rune_width a t) as Hw. unfold pieces at 1. cbn [length pieces_fuel].
  destruct (decode_rune (a :: t)) as [r w]. f_equal. apply pieces_fuel_more.
  rewrite length_drop. simpl in *. lia.
Qed.

(** Induction along the reading of a string. *)
Lemma pieces_ind (P : list ascii → Prop) :
  P [] →
  (∀ a t r w, decode_rune (a :: t) = (r, w) → P (drop w (a :: t)) → P (a :: t)) →
  ∀ l, P l.
Proof.
  intros H0 HS l. remember (length l) as n eqn:Hn. revert l Hn.
  induction (lt_wf n) as [n _ IH]. intros [|a t] ->; [done|].
  pose proof (decode_rune_width a t) as Hw.
  destruct (decode_rune (a :: t)) as [r w] eqn:Hd. eapply HS; [done|].
  eapply IH; [|done]. rewrite length_drop. simpl in *. lia.
Qed.

Lemma pieces_bytes l : mjoin (pieces l).*2 = l.
Proof.
  induction l as [|a t r w Hd IH] using pieces_ind; [done|].
  pose proof (pieces_cons a t) as Hp. rewrite Hd in Hp. rewrite Hp. csimpl.
  by rewrite IH, take_drop.
Qed.

Definition piece_ok (p : Z * list ascii) : Prop :=
  valid_rune p.1 = true ∧ (p.2 = encode_rune p.1 ∨ p.1 = rune_error).

Lemma pieces_ok l : Forall piece_ok (pieces l).
Proof.
  induction l as [|a t r w Hd IH] using pieces_ind; [constructor|].
  pose proof (pieces_cons a t) as Hp. rewrite Hd in Hp. rewrite Hp.
  apply decode_rune_sound in Hd as (? & ? & [?|[? _]]); constructor; try done;
    (split; [done|]); [by left|by right].
Qed.

(** The next string, if any, does not start in the middle of a rune. *)
Definition starts_clean (q : list ascii) : Prop := ∀ a, head q = Some a → is_cont a = false.

Lemma accept2_cont b0 a : accept2 b0 a = true → is_cont a = true.
Proof. intros ?%accept2_range. unfold is_cont. lia. Qed.

Lemma decode_rune_app a t q :
  starts_clean q → decode_rune ((a :: t) ++ q) = decode_rune (a :: t).
Proof.
  intros Hq. cbn [app decode_rune].
  destruct q as [|c q']; [by rewrite app_nil_r|]. specialize (Hq c eq_refl).
  assert (∀ b0, accept2 b0 c = false) as Hacc.
  { intros b0. destruct (accept2 b0 c) eqn:E; [|done]. apply accept2_cont in E. congruence. }
  destruct t as [|b [|c' [|d t]]]; simpl; rewrite ?Hq, ?Hacc; repeat case_match;
    simplify_eq/=; rewrite ?andb_false_r in *; try done; simpl in *; congruence.
Qed.

Lemma pieces_app p q : starts_clean q → pieces (p ++ q) = pieces p ++ pieces q.
Proof.
  intros Hq. induction p as [|a t r w Hd IH] using pieces_ind; [done|].
  pose proof (pieces_cons a t) as Hp. rewrite Hd in Hp. rewrite Hp.
  pose proof (pieces_cons a (t ++ q)) as Hpq. rewrite app_comm_cons in Hpq.
  rewrite decode_rune_app, Hd in Hpq by done. rewrite Hpq.
  pose proof (decode_rune_width a t) as Hw. rewrite Hd in Hw. simpl in Hw.
  rewrite take_app_le, drop_app_le by (simpl; lia). by rewrite IH.
Qed.

Lemma encode_rune_head r : starts_clean (encode_rune r).
Proof.
  intros a. unfold encode_rune.
  assert (0 ≤ (if valid_rune r then r else rune_error) < 0x110000) as Hr.
  { unfold valid_rune, rune_error. case_match; lia. }
  revert Hr. generalize (if valid_rune r then r else rune_error). intros z Hr.
  rune_bounds z. unfold is_cont.
  repeat case_match; intros [= <-]; rewrite byte_val_of; lia.
Qed.

Lemma pieces_encode (rs : list Z) :
  Forall (λ r, valid_rune r = true) rs →
  pieces (mjoin (encode_rune <$> rs)) = (λ r, (r, encode_rune r)) <$> rs.
Proof.
  induction 1 as [|r rs Hr _ IH]; [done|]. csimpl. rewrite pieces_app.
  - rewrite IH. change ((r, encode_rune r) :: ?x) with ([(r, encode_rune r)] ++ x). f_equal.
    pose proof (decode_encode_rune r [] Hr) as Hd. rewrite app_nil_r in Hd.
    pose proof (encode_rune_length r) as Hlen.
    destruct (encode_rune r) as [|a t] eqn:He; [simpl in Hlen; lia|].
    pose proof (pieces_cons a t) as Hp. rewrite Hd in Hp.
    by rewrite Hp, take_ge, drop_ge by lia.
  - destruct rs as [|r' rs]; [by intros ?|]. csimpl. intros a Ha.
    apply (encode_rune_head r'). pose proof (encode_rune_length r').
    by destruct (encode_rune r'); [simpl in *; lia|].
Qed.

(** ** TrimSpace and ToLower *)

Lemma pieces_suffix l k r : pieces l = k ++ r → pieces (mjoin r.*2) = r.
Proof.
  revert l. induction k as [|p k IH]; intros l Hl.
  { simpl in Hl. by rewrite <-Hl, pieces_bytes. }
  destruct l as [|a t]; [done|]. pose proof (pieces_cons a t) as Hp.
  destruct (decode_rune (a :: t)) as [rn w]. rewrite Hl in Hp. simplify_eq/=. eauto.
Qed.

Definition piece_space (p : Z * list ascii) : bool := rune_is_space p.1.

Lemma spaces_clean ps :
  Forall piece_ok ps → Forall (λ p, piece_space p = true) ps → starts_clean (mjoin ps.*2).
Proof.
  intros Hok Hsp. destruct ps as [|p ps]; [by intros ?|].
  apply Forall_cons in Hok as [[_ Hp] _]. apply Forall_cons in Hsp as [Hs _].
  destruct Hp as [Hp|Hp]; [|unfold piece_space in Hs; rewrite Hp in Hs; done].
  csimpl. rewrite Hp. intros a Ha. apply (encode_rune_head p.1).
  pose proof (encode_rune_length p.1). by destruct (encode_rune p.1); [simpl in *; lia|].
Qed.

Lemma pieces_trim l : pieces (trim_bytes l) = strip piece_space (pieces l).
Proof.
  destruct (strip_app piece_space (pieces l)) as (k1 & k2 & Hl & _ & Hk2).
  unfold trim_bytes. change (λ p : Z * list ascii, rune_is_space p.1) with piece_space.
  assert (Forall piece_ok k2) as Hok2.
  { pose proof (pieces_ok l) as Hok. rewrite Hl in Hok. by decompose_Forall. }
  pose proof (pieces_suffix _ _ _ Hl) as Hr.
  rewrite fmap_app, join_app, pieces_app in Hr by (by apply spaces_clean).
  rewrite (app_assoc k1) in Hl. rewrite (pieces_suffix _ _ _ Hl) in Hr.
  by apply (inj (.++ k2)) in Hr.
Qed.

Lemma trim_bytes_idemp l : trim_bytes (trim_bytes l) = trim_bytes l.
Proof.
  unfold trim_bytes at 1. rewrite pieces_trim.
  change (λ p : Z * list ascii, rune_is_space p.1) with piece_space.
  by rewrite strip_id by apply strip_bare.
Qed.

Lemma pieces_lower l :
  pieces (lower_bytes l) = (λ p, (rune_lower p.1, encode_rune (rune_lower p.1))) <$> pieces l.
Proof.
  unfold lower_bytes.
  transitivity ((λ r, (r, encode_rune r)) <$> ((λ p, rune_lower p.1) <$> pieces l));
    [|by rewrite <-list_fmap_compose].
  rewrite <-pieces_encode; [by rewrite <-list_fmap_compose|].
  apply Forall_fmap. eapply Forall_impl; [apply pieces_ok|].
  intros p [? _]. by apply rune_lower_valid.
Qed.

Lemma lower_bytes_idemp l : lower_bytes (lower_bytes l) = lower_bytes l.
Proof.
  unfold lower_bytes at 1. rewrite pieces_lower, <-list_fmap_compose.
  unfold lower_bytes. f_equal. apply list_fmap_ext. intros _ p _. simpl.
  by rewrite rune_lower_idemp.
Qed.

(** Trimming does not undo lower-casing, so normal forms are stable. *)
Lemma trim_lower_trim_bytes l :
  trim_bytes (lower_bytes (trim_bytes l)) = lower_bytes (trim_bytes l).
Proof.
  unfold trim_bytes at 1. rewrite pieces_lower, pieces_trim.
  change (λ p : Z * list ascii, rune_is_space p.1) with piece_space.
  rewrite strip_id.
  - unfold lower_bytes. rewrite pieces_trim, <-list_fmap_compose. done.
  - apply (bare_fmap piece_space); [|apply strip_bare].
    intros p. unfold piece_space. simpl. apply rune_is_space_lower.
Qed.

Section on_strings.
Implicit Types s : string.
Let bs := list_ascii_of_string.
Let sb := string_of_list_ascii.

Lemma bytes_of_string_of l : list_ascii_of_string (string_of_list_ascii l) = l.
Proof. apply list_ascii_of_string_of_list_ascii. Qed.

Lemma trim_space_idemp s : trim_space (trim_space s) = trim_space s.
Proof. unfold trim_space. by rewrite bytes_of_string_of, trim_bytes_idemp. Qed.

Lemma to_lower_idemp s : to_lower (to_lower s) = to_lower s.
Proof. unfold to_lower. by rewrite bytes_of_string_of, lower_bytes_idemp. Qed.

Lemma trim_lower_trim s :
  trim_space (to_lower (trim_space s)) = to_lower (trim_space s).
Proof.
  unfold trim_space, to_lower. by rewrite !bytes_of_string_of, trim_lower_trim_bytes.
Qed.

Lemma lower_trim_lower_trim s :
  to_lower (trim_space (to_lower (trim_space s))) = to_lower (trim_space s).
Proof. by rewrite trim_lower_trim, to_lower_idemp. Qed.
End on_strings.

(** ** Strings of plain bytes *)

(** ASCII bytes that lower-casing and trimming leave alone. *)
Definition plain_byte (a : ascii) : bool :=
  (0x21 <=? byte_val a) && (byte_val a <? 0x80)
  && negb ((65 <=? byte_val a) && (byte_val a <=? 90)).

Definition plain (s : string) : bool := forallb plain_byte (list_ascii_of_string s).

Lemma pieces_ascii l :
  Forall (λ a, byte_val a < 0x80) l → pieces l = (λ a, (byte_val a, [a])) <$> l.
Proof.
  induction 1 as [|a t Ha _ IH]; [done|].
  pose proof (pieces_cons a t) as Hp. cbn [decode_rune] in Hp.
  rewrite (proj2 (Z.ltb_lt _ _) Ha) in Hp. rewrite Hp.
  change (drop 1 (a :: t)) with (drop 0 t). rewrite drop_0, IH. done.
Qed.

(** A text all of whose runes are ASCII is read byte by byte. *)
Lemma ascii_runes_bytes (P : Z → Prop) l :
  (∀ r, P r → 0 ≤ r < 0x80) → Forall (λ p, P p.1) (pieces l) → Forall (λ a, P (byte_val a)) l.
Proof.
  intros HP Hp. pose proof (pieces_ok l) as Hok. rewrite <-(pieces_bytes l).
  induction (pieces l) as [|[r bs] ps IH]; [constructor|].
  inversion_clear Hp as [|?? Hr Hps]. inversion_clear Hok as [|?? [_ Hb] Hoks].
  csimpl. apply Forall_app. split; [|by apply IH]. cbn [fst snd] in *.
  pose proof (HP r Hr) as Hrange.
  destruct Hb as [->| ->]; [|unfold rune_error in Hrange; lia].
  assert (encode_rune r = [byte_of r]) as ->.
  { unfold encode_rune. assert (valid_rune r = true) as -> by (unfold valid_rune; lia).
    by assert ((r <? 0x80) = true) as -> by lia. }
  constructor; [|constructor]. by rewrite byte_val_of by lia.
Qed.

Lemma plain_byte_ascii a : plain_byte a = true → byte_val a < 0x80.
Proof. unfold plain_byte. lia. Qed.

Lemma mjoin_singletons {A} (l : list A) : mjoin ((λ a, [a]) <$> l) = l.
Proof. induction l as [|a l IH]; [done|]. csimpl. by rewrite IH. Qed.

(** A decidable property of bytes holds of all of them when it does of each value. *)
Lemma ascii_forall (P : ascii → bool) :
  forallb (λ z, P (byte_of z)) (seqZ 0 256) = true → ∀ a, P a = true.
Proof.
  rewrite forallb_forall. intros H a. rewrite <-(byte_of_val a). apply H.
  rewrite <-list_elem_of_In, elem_of_seqZ. pose proof (byte_val_range a). lia.
Qed.

Lemma plain_rune_lower a : plain_byte a = true → encode_rune (rune_lower (byte_val a)) = [a].
Proof.
  assert (∀ a, implb (plain_byte a)
            (bool_decide (encode_rune (rune_lower (byte_val a)) = [a])) = true) as H.
  { apply ascii_forall. by vm_compute. }
  specialize (H a). intros Ha. rewrite Ha in H. cbn [implb] in H.
  by apply bool_decide_eq_true_1 in H.
Qed.

Lemma plain_not_space a : plain_byte a = true → rune_is_space (byte_val a) = false.
Proof. unfold plain_byte, rune_is_space. lia. Qed.

Lemma lower_bytes_plain l : Forall (λ a, plain_byte a = true) l → lower_bytes l = l.
Proof.
  intros Hl. unfold lower_bytes. rewrite pieces_ascii, <-list_fmap_compose.
  - rewrite <-(mjoin_singletons l) at 2. f_equal. apply list_fmap_ext.
    intros i a Ha. apply plain_rune_lower. exact (Forall_lookup_1 _ _ _ _ Hl Ha).
  - eapply Forall_impl; [done|apply plain_byte_ascii].
Qed.

(** ASCII without blanks: [strings.TrimSpace] keeps it. *)
Definition solid_byte (a : ascii) : bool := (0x21 <=? byte_val a) && (byte_val a <? 0x80).

Lemma trim_bytes_solid l : Forall (λ a, solid_byte a = true) l → trim_bytes l = l.
Proof.
  intros Hl. unfold trim_bytes. rewrite pieces_ascii.
  - rewrite strip_none; [rewrite <-list_fmap_compose; apply mjoin_singletons|].
    apply Forall_fmap. eapply Forall_impl; [done|]. intros a. unfold solid_byte, rune_is_space.
    cbn [compose fst]. lia.
  - eapply Forall_impl; [done|]. intros a. cbn beta. unfold solid_byte. lia.
Qed.

Lemma trim_space_solid s : Forall (λ a, solid_byte a = true) (list_ascii_of_string s) → trim_space s = s.
Proof. intros H. unfold trim_space. by rewrite trim_bytes_solid, string_of_list_ascii_of_string. Qed.

Lemma trim_bytes_plain l : Forall (λ a, plain_byte a = true) l → trim_bytes l = l.
Proof.
  intros Hl. apply trim_bytes_solid. eapply Forall_impl; [done|]. intros a.
  unfold plain_byte, solid_byte. lia.
Qed.

Lemma plain_bytes s :
  plain s = true ↔ Forall (λ a, plain_byte a = true) (list_ascii_of_string s).
Proof. unfold plain. rewrite forallb_forall, Forall_forall. by setoid_rewrite list_elem_of_In. Qed.

Lemma to_lower_plain s : plain s = true → to_lower s = s.
Proof.
  intros ?%plain_bytes. unfold to_lower.
  by rewrite lower_bytes_plain, string_of_list_ascii_of_string.
Qed.

Lemma trim_space_plain s : plain s = true → trim_space s = s.
Proof.
  intros ?%plain_bytes. unfold trim_space.
  by rewrite trim_bytes_plain, string_of_list_ascii_of_string.
Qed.

(** ** Cutting, splitting and joining *)

(** Whether a byte occurs in a string ([strings.IndexByte(s, c) >= 0]). *)
Fixpoint has_byte (c : ascii) (s : string) : bool :=
  match s with EmptyString => false | String a s' => Ascii.eqb a c || has_byte c s' end.

Lemma string_app_cons a s1 s2 : String a s1 +:+ s2 = String a (s1 +:+ s2).
Proof. done. Qed.

Lemma string_app_nil_l s : "" +:+ s = s.
Proof. done. Qed.

Lemma string_app_nil_r s : s +:+ "" = s.
Proof. induction s as [|a s IH]; [done|]. by rewrite string_app_cons, IH. Qed.

Lemma string_app_assoc s1 s2 s3 : (s1 +:+ s2) +:+ s3 = s1 +:+ (s2 +:+ s3).
Proof. induction s1 as [|a s1 IH]; [done|]. by rewrite !string_app_cons, IH. Qed.

Lemma list_ascii_app s1 s2 :
  list_ascii_of_string (s1 +:+ s2) = list_ascii_of_string s1 ++ list_ascii_of_string s2.
Proof. induction s1 as [|a s1 IH]; [done|]. rewrite string_app_cons. simpl. by rewrite IH. Qed.

Lemma has_byte_app c s1 s2 : has_byte c (s1 +:+ s2) = has_byte c s1 || has_byte c s2.
Proof.
  induction s1 as [|a s1 IH]; [done|].
  rewrite string_app_cons. cbn [has_byte]. by rewrite IH, orb_assoc.
Qed.

Lemma plain_app s1 s2 : plain (s1 +:+ s2) = plain s1 && plain s2.
Proof. unfold plain. by rewrite list_ascii_app, forallb_app. Qed.

Lemma after_prefix_app p s : after_prefix p (p +:+ s) = Some s.
Proof.
  induction p as [|a p IH]; [by destruct s|].
  rewrite string_app_cons. simpl. by rewrite Ascii.eqb_refl.
Qed.

Lemma after_prefix_sound p s r : after_prefix p s = Some r → s = p +:+ r.
Proof.
  revert s. induction p as [|a p IH]; intros s; [by destruct s; intros [= <-]|].
  destruct s as [|b s]; [done|]. simpl. destruct (Ascii.eqb_spec a b) as [->|]; [|done].
  intros ->%IH. done.
Qed.

Lemma cut_sound sep s l r : cut sep s = Some (l, r) → s = l +:+ sep +:+ r.
Proof.
  revert l r. induction s as [|a s IH]; intros l r; cbn [cut].
  - destruct (after_prefix sep "") eqn:E; [|done]. intros [= <- <-].
    by apply after_prefix_sound in E.
  - destruct (after_prefix sep (String a s)) eqn:E.
    + intros [= <- <-]. by apply after_prefix_sound in E.
    + destruct (cut sep s) as [[l' r']|]; [|done]. intros [= <- <-].
      rewrite string_app_cons. f_equal. by apply IH.
Qed.

Lemma cut_byte c l r :
  has_byte c l = false → cut (String c "") (l +:+ String c r) = Some (l, r).
Proof.
  induction l as [|a l IH].
  - intros _. rewrite string_app_nil_l. cbn. rewrite Ascii.eqb_refl. by destruct r.
  - rewrite string_app_cons. simpl. rewrite orb_false_iff. intros [Ha Hl].
    rewrite (Ascii.eqb_sym c a), Ha, IH by done. done.
Qed.

(** The first occurrence of a two-byte separator, when its second byte is not in the
    text before it. *)
Lemma cut_two_bytes a b l r :
  a ≠ b → has_byte b l = false →
  cut (String a (String b "")) (l +:+ String a (String b r)) = Some (l, r).
Proof.
  intros Hab. induction l as [|c l IH].
  - intros _. rewrite string_app_nil_l. cbn. rewrite !Ascii.eqb_refl. by destruct r.
  - rewrite string_app_cons. simpl. rewrite orb_false_iff. intros [Hc Hl].
    rewrite IH by done. destruct (Ascii.eqb_spec a c) as [->|]; [|done].
    destruct l as [|d l]; simpl in *.
    + by rewrite (proj2 (Ascii.eqb_neq b c)) by done.
    + apply orb_false_iff in Hl as [Hd _]. by rewrite (Ascii.eqb_sym b d), Hd.
Qed.

Lemma cut_last_app c l r :
  has_byte c r = false → cut_last c (l +:+ String c r) = Some (l, r).
Proof.
  intros Hr. assert (cut_last c r = None) as Hnone.
  { induction r as [|a r IH]; [done|]. simpl in *. apply orb_false_iff in Hr as [Ha Hr].
    by rewrite IH, Ha. }
  induction l as [|a l IH]; [rewrite string_app_nil_l; cbn; by rewrite Hnone, Ascii.eqb_refl|].
  rewrite string_app_cons. simpl. by rewrite IH.
Qed.

Lemma split_byte_ne c s : split_byte c s ≠ [].
Proof. destruct s as [|a s]; simpl; [done|]. repeat case_match; done. Qed.

Lemma split_byte_none c s : has_byte c s = false → split_byte c s = [s].
Proof.
  induction s as [|a s IH]; [done|]. simpl. rewrite orb_false_iff. intros [-> Hs].
  by rewrite IH.
Qed.

Lemma split_byte_app c l r :
  has_byte c l = false → split_byte c (l +:+ String c r) = l :: split_byte c r.
Proof.
  induction l as [|a l IH].
  - intros _. rewrite string_app_nil_l. cbn. by rewrite Ascii.eqb_refl.
  - rewrite string_app_cons. simpl. rewrite orb_false_iff. intros [-> Hl]. by rewrite IH.
Qed.

(** [strings.Split] takes apart what [strings.Join] put together. *)
Lemma split_join c l :
  l ≠ [] → Forall (λ s, has_byte c s = false) l → split_byte c (str_join l (String c "")) = l.
Proof.
  intros Hne Hl. destruct l as [|s l]; [done|]. clear Hne. revert s Hl.
  induction l as [|s' l IH]; intros s Hl; apply Forall_cons in Hl as [Hs Hl].
  - by apply split_byte_none.
  - unfold str_join in *. change (String.concat (String c "") (s :: s' :: l)) with
      (s +:+ String c (String.concat (String c "") (s' :: l))).
    rewrite split_byte_app by done. by rewrite IH.
Qed.

(** The pieces of a split hold no separator. *)
Lemma split_byte_no_byte c s : Forall (λ x, has_byte c x = false) (split_byte c s).
Proof.
  induction s as [|a s IH]; simpl; [by repeat constructor|].
  destruct (Ascii.eqb a c) eqn:Ha; [by constructor|].
  destruct (split_byte c s); [by repeat constructor; simpl; rewrite Ha|].
  apply Forall_cons in IH as [? ?]. constructor; [|done]. simpl. by rewrite Ha.
Qed.

Lemma eqb_string_spec (s1 s2 : string) : reflect (s1 = s2) (String.eqb s1 s2).
Proof. apply String.eqb_spec. Qed.

Lemma cut_last_sound c s l r :
  cut_last c s = Some (l, r) → s = l +:+ String c r ∧ has_byte c r = false.
Proof.
  revert l r. induction s as [|a s IH]; intros l r; [done|]. cbn [cut_last].
  destruct (cut_last c s) as [[l' r']|] eqn:Hs.
  - intros [= <- <-]. destruct (IH _ _ eq_refl) as [-> ?]. by rewrite string_app_cons.
  - destruct (Ascii.eqb_spec a c) as [->|]; [|done]. intros [= <- <-]. split; [done|].
    clear IH. induction s as [|b s IH]; [done|]. revert Hs. cbn [cut_last has_byte].
    destruct (cut_last c s) as [[? ?]|] eqn:Hs; [done|]. destruct (Ascii.eqb b c); [done|].
    intros _. by apply IH.
Qed.

Lemma cut_last_none c s : has_byte c s = false → cut_last c s = None.
Proof.
  induction s as [|a s IH]; [done|]. cbn [has_byte cut_last].
  intros [Ha Hs]%orb_false_iff. by rewrite IH, Ha.
Qed.

Lemma cut_byte_first c s l r : cut (String c "") s = Some (l, r) → has_byte c l = false.
Proof.
  revert l r. induction s as [|a s IH]; intros l r; [done|].
  cbn [cut after_prefix]. destruct (Ascii.eqb_spec c a) as [->|Hne]; [by intros [= <- <-]|].
  destruct (cut (String c "") s) as [[l' r']|]; [|done]. intros [= <- <-].
  cbn [has_byte]. rewrite (IH _ _ eq_refl), orb_false_r. by apply Ascii.eqb_neq.
Qed.
