(* ===== verification/HostPort.v ===== *)
(** * Package net: an address as host and port

    [net.SplitHostPort] and [net.JoinHostPort]; an error is [None]. *)
From Stdlib Require Import Ascii String.
From S2P Require Import Prelude GoString GoStringFacts.

Definition JoinHostPort (host port : string) : string :=
  if has_byte ":" host then "[" +:+ host +:+ "]:" +:+ port else host +:+ ":" +:+ port.

(** The port starts after the last colon.  A host in brackets ends at the first closing
    one, which must stand right before that colon; other brackets are refused. *)
Definition SplitHostPort (hostport : string) : option (string * string) :=
  match cut_last ":" hostport with
  | None => None
  | Some (before, port) =>
    match hostport with
    | String "["%char _ =>
      match cut "]" before with
      | Some (String _ host, EmptyString) =>
        if has_byte "[" host || has_byte "[" port || has_byte "]" port then None
        else Some (host, port)
      | _ => None
      end
    | _ => if has_byte ":" before || has_byte "[" hostport || has_byte "]" hostport then None
           else Some (before, port)
    end
  end.

(** A text free of the bytes that delimit hosts. *)
Definition unmarked (s : string) : Prop :=
  has_byte "[" s = false ∧ has_byte "]" s = false.

Example split_v4 : SplitHostPort "0.0.0.0:3478" = Some ("0.0.0.0", "3478")%string.
Proof. reflexivity. Qed.
Example split_v6 : SplitHostPort "[::1]:80" = Some ("::1", "80")%string.
Proof. reflexivity. Qed.
Example split_bare_v6 : SplitHostPort "::1" = None.
Proof. reflexivity. Qed.
Example split_no_port : SplitHostPort "vpn.example.com" = None.
Proof. reflexivity. Qed.

(** What is joined splits into the same parts. *)
Lemma SplitHostPort_Join host port :
  unmarked host → unmarked port → has_byte ":" port = false →
  SplitHostPort (JoinHostPort host port) = Some (host, port).
Proof.
  intros [Hh1 Hh2] [Hp1 Hp2] Hp. unfold JoinHostPort, SplitHostPort.
  destruct (has_byte ":" host) eqn:Hc.
  - change ("[" +:+ host +:+ "]:" +:+ port) with (String "[" (host +:+ "]:" +:+ port)).
    replace (String "[" (host +:+ "]:" +:+ port)) with ((String "[" host +:+ "]") +:+ String ":" port)
      by (by rewrite string_app_assoc).
    rewrite cut_last_app by done. rewrite !string_app_cons.
    rewrite <-string_app_cons. change "]"%string with (String "]" "") at 2.
    rewrite cut_byte by (cbn [has_byte]; by rewrite Hh2).
    by rewrite Hh1, Hp1, Hp2.
  - change (host +:+ ":" +:+ port) with (host +:+ String ":" port).
    rewrite cut_last_app by done. rewrite Hc, !has_byte_app. cbn [has_byte].
    rewrite Hh1, Hh2, Hp1, Hp2. destruct host as [|a host]; [done|].
    rewrite string_app_cons. destruct (Ascii.eqb_spec a "[") as [->|Hne]; [done|].
    by destruct a as [[] [] [] [] [] [] [] []].
Qed.

(** The parts of a split address hold no delimiter the other side could take. *)
Lemma SplitHostPort_parts s host port :
  SplitHostPort s = Some (host, port) → unmarked host ∧ unmarked port ∧ has_byte ":" port = false.
Proof.
  unfold SplitHostPort, unmarked. destruct (cut_last ":" s) as [[before p]|] eqn:Hc; [|done].
  apply cut_last_sound in Hc as [-> Hp].
  assert (∀ l, l = before +:+ String ":" p →
    (if has_byte ":" before || has_byte "[" l || has_byte "]" l then None else Some (before, p)) =
      Some (host, port) →
    (has_byte "[" host = false ∧ has_byte "]" host = false) ∧
    (has_byte "[" port = false ∧ has_byte "]" port = false) ∧ has_byte ":" port = false) as Hbare.
  { intros l ->. rewrite !has_byte_app. cbn [has_byte]. case_match eqn:Hm; [done|]. intros [= <- <-].
    rewrite !orb_false_iff in Hm. naive_solver. }
  destruct before as [|[[] [] [] [] [] [] [] []] before];
    try (rewrite ?string_app_cons, ?string_app_nil_l; by apply Hbare).
  rewrite string_app_cons.
  destruct (cut "]" _) as [[[|b h] [|]]|] eqn:Hcut; try done.
  apply cut_sound in Hcut as Hs. apply (cut_byte_first "]") in Hcut. cbn [has_byte] in Hcut.
  apply orb_false_iff in Hcut as [_ Hcut].
  case_match eqn:Hm; [done|]. intros [= <- <-]. rewrite !orb_false_iff in Hm. naive_solver.
Qed.

(** [url.PathEscape]: percent-encoding of what may not stand in a path segment. *)
Definition path_safe (c : ascii) : bool :=
  let b := byte_val c in
  (((97 <=? b) && (b <=? 122)) || ((65 <=? b) && (b <=? 90)) || ((48 <=? b) && (b <=? 57)) ||
   existsb (Ascii.eqb c) ["-"; "_"; "."; "~"; "$"; "&"; "+"; ":"; "="; "@"]%char)%Z.

Definition upper_hex (d : Z) : ascii := byte_of (if d <? 10 then 48 + d else 55 + d)%Z.

Fixpoint PathEscape (s : string) : string :=
  match s with
  | EmptyString => ""
  | String c s =>
    if path_safe c then String c (PathEscape s)
    else String "%" (String (upper_hex (byte_val c / 16)) (String (upper_hex (byte_val c mod 16))
           (PathEscape s)))
  end.
