(* ===== verification/Netip.v ===== *)
(** * Addresses: package [net/netip]

    The address values the program computes with: [netip.Addr], [netip.Prefix] and
    [netip.AddrPort], their parsers and printers, and the range tests.  An IPv4
    address is a 32-bit integer and an IPv6 address a 128-bit one, both as [Z]; a
    parse error is [None] (the program only wraps the message). *)
From Stdlib Require Import Ascii String.
From stdpp Require Import pretty.
From S2P Require Import Prelude Unicode GoString GoStringFacts HostPort.

Local Open Scope Z_scope.

Inductive Addr : Type :=
| AddrZero                          (** the zero [netip.Addr] *)
| Addr4 (v : Z)
| Addr6 (v : Z) (zone : string).

#[export] Instance addr_eq_dec : EqDecision Addr.
Proof. solve_decision. Defined.

#[export] Instance addr_countable : Countable Addr.
Proof.
  apply (inj_countable'
    (λ a, match a with AddrZero => None | Addr4 v => Some (v, None) | Addr6 v z => Some (v, Some z) end)
    (λ o, match o with None => AddrZero | Some (v, None) => Addr4 v | Some (v, Some z) => Addr6 v z end)).
  by intros [].
Defined.

Definition addr_Is4 (a : Addr) : bool := match a with Addr4 _ => true | _ => false end.
Definition addr_Is4In6 (a : Addr) : bool :=
  match a with Addr6 v _ => Z.shiftr v 32 =? 0xffff | _ => false end.
Definition addr_Is6 (a : Addr) : bool := match a with Addr6 _ _ => true | _ => false end.

(** [Unmap] turns an IPv4-mapped IPv6 address into the IPv4 address. *)
Definition addr_Unmap (a : Addr) : Addr :=
  match a with
  | Addr6 v _ => if addr_Is4In6 a then Addr4 (v mod 2 ^ 32) else a
  | _ => a
  end.

(** The bytes of a 32-bit address, and back ([As4], [AddrFrom4]).  [As4] panics on
    an address that is not IPv4: [None]. *)
Definition bytes4 (v : Z) : list Z :=
  [Z.shiftr v 24 mod 256; Z.shiftr v 16 mod 256; Z.shiftr v 8 mod 256; v mod 256].

Definition addr_As4 (a : Addr) : option (list Z) :=
  match addr_Unmap a with Addr4 v => Some (bytes4 v) | _ => None end.

Definition of_bytes4 (b : list Z) : Z :=
  match b with [b0; b1; b2; b3] => ((b0 * 256 + b1) * 256 + b2) * 256 + b3 | _ => 0 end.

Definition AddrFrom4 (b : list Z) : Addr := Addr4 (of_bytes4 b).

(** [Next]: the following address, the zero [Addr] past the last one. *)
Definition addr_Next (a : Addr) : Addr :=
  match a with
  | AddrZero => Addr6 1 ""
  | Addr4 v => if v + 1 =? 2 ^ 32 then AddrZero else Addr4 (v + 1)
  | Addr6 v z => if v + 1 =? 2 ^ 128 then AddrZero else Addr6 (v + 1) z
  end.

Definition addr_BitLen (a : Addr) : Z :=
  match a with AddrZero => 0 | Addr4 _ => 32 | Addr6 _ _ => 128 end.

(** ** Printing *)

Definition itoa (z : Z) : string := pretty z.

Definition string4 (v : Z) : string := str_join (itoa <$> bytes4 v) ".".

Definition hex_digit (d : Z) : string :=
  String (byte_of (if d <? 10 then 48 + d else 87 + d)) "".

Definition hex16 (g : Z) : string :=
  let d3 := g / 4096 in let d2 := g / 256 mod 16 in let d1 := g / 16 mod 16 in
  (if 0x1000 <=? g then hex_digit d3 else "") +:+ (if 0x100 <=? g then hex_digit d2 else "")
  +:+ (if 0x10 <=? g then hex_digit d1 else "") +:+ hex_digit (g mod 16).

(** The eight 16-bit groups of an IPv6 address. *)
Definition groups6 (v : Z) : list Z := (λ i, (v / 2 ^ (16 * i)) mod 65536) <$> [7;6;5;4;3;2;1;0].

Fixpoint zero_run (gs : list Z) : nat :=
  match gs with g :: gs => if g =? 0 then S (zero_run gs) else 0%nat | [] => 0%nat end.

(** The longest run of at least two zero groups, the first one of equals. *)
Fixpoint longest_run (i : nat) (gs : list Z) (best : nat * nat) : nat * nat :=
  match gs with
  | [] => best
  | _ :: gs' =>
    let l := zero_run gs in
    longest_run (S i) gs' (if (2 <=? l)%nat && (best.2 <? l)%nat then (i, l) else best)
  end.

Definition string6 (v : Z) (zone : string) : string :=
  let gs := groups6 v in
  let '(start, len) := longest_run 0 gs (0%nat, 0%nat) in
  let show l := str_join (hex16 <$> l) ":" in
  (if (len =? 0)%nat then show gs
   else show (take start gs) +:+ "::" +:+ show (drop (start + len) gs))
  +:+ (if String.eqb zone "" then "" else "%" +:+ zone).

Definition addr_String (a : Addr) : string :=
  match a with
  | AddrZero => "invalid IP"
  | Addr4 v => string4 v
  | Addr6 v z =>
    if addr_Is4In6 a
    then "::ffff:" +:+ string4 (v mod 2 ^ 32) +:+ (if String.eqb z "" then "" else "%" +:+ z)
    else string6 v z
  end.

(** ** Parsing *)

Definition is_digit (c : ascii) : bool := (48 <=? byte_val c) && (byte_val c <=? 57).
Definition digit_val (c : ascii) : Z := byte_val c - 48.

(** The fields of a dotted address: [val] and [dig] are the value and the number of
    digits of the field being read. *)
Fixpoint parse4_fields (s : string) (val dig : Z) (fields : list Z) : option (list Z) :=
  match s with
  | EmptyString => if (length fields <? 3)%nat then None else Some (fields ++ [val])
  | String c s' =>
    if is_digit c then
      if (dig =? 1) && (val =? 0) then None
      else let val' := val * 10 + digit_val c in
           if 255 <? val' then None else parse4_fields s' val' (dig + 1) fields
    else if Ascii.eqb c "."%char then
      if (dig =? 0) || String.eqb s' "" then None
      else if (length fields =? 3)%nat then None
      else parse4_fields s' 0 0 (fields ++ [val])
    else None
  end.

Definition parse4 (s : string) : option Addr := AddrFrom4 <$> parse4_fields s 0 0 [].

Definition hex_val (c : ascii) : option Z :=
  let b := byte_val c in
  if is_digit c then Some (b - 48)
  else if (97 <=? b) && (b <=? 102) then Some (b - 87)
  else if (65 <=? b) && (b <=? 70) then Some (b - 55)
  else None.

(** A hexadecimal group of at most four digits: digits read, value, rest. *)
Fixpoint scan_hex (s : string) (off acc : Z) : option (Z * Z * string) :=
  match s with
  | String c s' =>
    match hex_val c with
    | Some d => if 3 <? off then None else scan_hex s' (off + 1) (acc * 16 + d)
    | None => Some (off, acc, s)
    end
  | EmptyString => Some (off, acc, s)
  end.

(** The loop of [parseIPv6] over the groups; [ell] is where the ellipsis stands.  At
    most eight groups fit, so eight rounds are enough. *)
Fixpoint parse6_groups (n : nat) (s : string) (gs : list Z) (ell : option nat)
  : option (string * list Z * option nat) :=
  match n with
  | O => Some (s, gs, ell)
  | S n =>
    if (8 <=? length gs)%nat then Some (s, gs, ell) else
    match scan_hex s 0 0 with
    | None => None
    | Some (off, acc, rest) =>
      if off =? 0 then None else
      if has_prefix rest "." then
        if bool_decide (ell = None) && negb (length gs =? 6)%nat then None
        else if (6 <? length gs)%nat then None
        else match parse4_fields s 0 0 [] with
             | Some [a; b; c; d] => Some (""%string, gs ++ [a * 256 + b; c * 256 + d], ell)
             | _ => None
             end
      else
        let gs := gs ++ [acc] in
        match rest with
        | EmptyString => Some (""%string, gs, ell)
        | String c s1 =>
          if negb (Ascii.eqb c ":"%char) || String.eqb s1 "" then None
          else match s1 with
               | String ":"%char s2 =>
                 match ell with
                 | Some _ => None
                 | None => if String.eqb s2 "" then Some (s2, gs, Some (length gs))
                           else parse6_groups n s2 gs (Some (length gs))
                 end
               | _ => parse6_groups n s1 gs ell
               end
        end
    end
  end.

Definition groups_val (gs : list Z) : Z := foldl (λ acc g, acc * 65536 + g) 0 gs.

Definition parse6 (s0 : string) : option Addr :=
  let '(s, zone) := match cut "%" s0 with
                    | Some (s, z) => (s, Some z)
                    | None => (s0, None)
                    end in
  if bool_decide (zone = Some ""%string) then None else
  let z := default ""%string zone in
  match after_prefix "::" s with
  | Some EmptyString => Some (Addr6 0 z)
  | lead =>
    match (match lead with
           | Some s' => parse6_groups 8 s' [] (Some 0%nat)
           | None => parse6_groups 8 s [] None
           end) with
    | Some (EmptyString, gs, ell) =>
      match ell with
      | Some e =>
        if (length gs <? 8)%nat
        then Some (Addr6 (groups_val (take e gs ++ replicate (8 - length gs) 0 ++ drop e gs)) z)
        else None
      | None => if (length gs <? 8)%nat then None else Some (Addr6 (groups_val gs) z)
      end
    | _ => None
    end
  end.

(** [ParseAddr]: the first of the three marks decides. *)
Fixpoint parse_addr_scan (rest s : string) : option Addr :=
  match rest with
  | EmptyString => None
  | String c rest' =>
    if Ascii.eqb c "."%char then parse4 s
    else if Ascii.eqb c ":"%char then parse6 s
    else if Ascii.eqb c "%"%char then None
    else parse_addr_scan rest' s
  end.

Definition ParseAddr (s : string) : option Addr := parse_addr_scan s s.

(** Unsigned decimal digits, [None] for none or for anything else. *)
Fixpoint parse_digits (s : string) (acc : Z) : option Z :=
  match s with
  | EmptyString => Some acc
  | String c s' => if is_digit c then parse_digits s' (acc * 10 + digit_val c) else None
  end.

Definition parse_uint (s : string) : option Z :=
  if String.eqb s "" then None else parse_digits s 0.

(** ** Prefixes *)

(** [bits] is -1 in a prefix that is not valid, as [Bits] reports it. *)
Record Prefix : Type := MkPrefix { p_addr : Addr; p_bits : Z }.

#[export] Instance prefix_eq_dec : EqDecision Prefix.
Proof. solve_decision. Defined.

#[export] Instance prefix_countable : Countable Prefix.
Proof.
  apply (inj_countable' (λ p, (p_addr p, p_bits p)) (λ x, MkPrefix x.1 x.2)). by intros [].
Defined.

(** The zero [netip.Prefix]. *)
Definition prefix_zero : Prefix := MkPrefix AddrZero (-1).

Definition prefix_IsValid (p : Prefix) : bool := 0 <=? p_bits p.

Definition addr_without_zone (a : Addr) : Addr :=
  match a with Addr6 v _ => Addr6 v "" | _ => a end.

Definition PrefixFrom (a : Addr) (bits : Z) : Prefix :=
  MkPrefix (addr_without_zone a)
    (if negb (bool_decide (a = AddrZero)) && (0 <=? bits) && (bits <=? addr_BitLen a)
     then bits else -1).

(** Clears the bits after the first [bits] of a [len]-bit address. *)
Definition mask_bits (len bits v : Z) : Z := Z.shiftl (Z.shiftr v (len - bits)) (len - bits).

Definition prefix_Masked (p : Prefix) : Prefix :=
  if prefix_IsValid p then
    match p_addr p with
    | AddrZero => prefix_zero
    | Addr4 v => MkPrefix (Addr4 (mask_bits 32 (p_bits p) v)) (p_bits p)
    | Addr6 v _ => MkPrefix (Addr6 (mask_bits 128 (p_bits p) v) "") (p_bits p)
    end
  else prefix_zero.

Definition prefix_Contains (p : Prefix) (a : Addr) : bool :=
  prefix_IsValid p &&
  match p_addr p, a with
  | Addr4 pv, Addr4 v => Z.shiftr (Z.lxor v pv) (32 - p_bits p) =? 0
  | Addr6 pv _, Addr6 v z => String.eqb z "" && (Z.shiftr (Z.lxor v pv) (128 - p_bits p) =? 0)
  | _, _ => false
  end.

Definition prefix_String (p : Prefix) : string :=
  if prefix_IsValid p then addr_String (p_addr p) +:+ "/" +:+ itoa (p_bits p)
  else "invalid Prefix".

(** [strconv.Atoi] on the bits of a prefix: digits, no sign and no leading zero. *)
Definition prefix_bits (s : string) : option Z :=
  match s with
  | String c (String _ _) => if (49 <=? byte_val c) && (byte_val c <=? 57) then parse_uint s else None
  | _ => parse_uint s
  end.

Definition ParsePrefix (s : string) : option Prefix :=
  match cut_last "/" s with
  | None => None
  | Some (l, r) =>
    match ParseAddr l with
    | None => None
    | Some a =>
      match a with
      | Addr6 _ z => if String.eqb z "" then
                       match prefix_bits r with
                       | Some b => if b <=? 128 then Some (PrefixFrom a b) else None
                       | None => None
                       end
                     else None
      | _ => match prefix_bits r with
             | Some b => if b <=? 32 then Some (PrefixFrom a b) else None
             | None => None
             end
      end
    end
  end.

(** The first [bits] bits of an address, as [Addr.Prefix] keeps them. *)
Definition addr_high (a : Addr) (bits : Z) : option Addr :=
  match a with
  | AddrZero => None
  | Addr4 v => if bits <=? 32 then Some (Addr4 (mask_bits 32 bits v)) else None
  | Addr6 v _ => if bits <=? 128 then Some (Addr6 (mask_bits 128 bits v) "") else None
  end.

Definition prefix_Overlaps (p o : Prefix) : bool :=
  if negb (prefix_IsValid p) || negb (prefix_IsValid o) then false
  else if bool_decide (p = o) then true
  else if negb (Bool.eqb (addr_Is4 (p_addr p)) (addr_Is4 (p_addr o))) then false
  else
    let minBits := Z.min (p_bits p) (p_bits o) in
    if minBits =? 0 then true
    else match addr_high (p_addr p) minBits, addr_high (p_addr o) minBits with
         | Some a, Some b => bool_decide (a = b)
         | _, _ => false
         end.

(** ** Address and port *)

Record AddrPort : Type := MkAddrPort { ap_addr : Addr; ap_port : Z }.

#[export] Instance addrport_eq_dec : EqDecision AddrPort.
Proof. solve_decision. Defined.

#[export] Instance addrport_countable : Countable AddrPort.
Proof.
  apply (inj_countable' (λ p, (ap_addr p, ap_port p)) (λ x, MkAddrPort x.1 x.2)). by intros [].
Defined.

Definition AddrPort_String (ap : AddrPort) : string :=
  match ap_addr ap with
  | AddrZero => "invalid AddrPort"
  | a => JoinHostPort (addr_String a) (itoa (ap_port ap))
  end.

(** An address in brackets, without them; [None] when only one is there. *)
Definition unbracket (ip : string) : option (string * bool) :=
  match ip with
  | String "["%char rest =>
    match cut_last "]" rest with
    | Some (inner, EmptyString) => Some (inner, true)
    | _ => None
    end
  | _ => Some (ip, false)
  end.

Definition ParseAddrPort (s : string) : option AddrPort :=
  match cut_last ":" s with
  | None => None
  | Some (ip, port) =>
    if String.eqb ip "" || String.eqb port "" then None else
    match unbracket ip, parse_uint port with
    | Some (ip, v6), Some p =>
      if 65535 <? p then None else
      match ParseAddr ip with
      | Some a => if v6 && addr_Is4 a then None
                  else if negb v6 && addr_Is6 a then None
                  else Some (MkAddrPort a p)
      | None => None
      end
    | _, _ => None
    end
  end.
