(* ===== verification/NetipFacts.v ===== *)
(** * Facts about addresses

    The four bytes of an address determine it, printing an IPv4 address is inverted
    by parsing it, and a prefix contains exactly an interval of addresses. *)
From Stdlib Require Import Ascii String.
From stdpp Require Import pretty.
From S2P Require Import Prelude Unicode GoString GoStringFacts HostPort Netip.

Local Open Scope Z_scope.

(** A 32-bit value. *)
Definition is_u32 (v : Z) : Prop := 0 ≤ v < 2 ^ 32.

Lemma shiftr_div v n : 0 ≤ n → Z.shiftr v n = v / 2 ^ n.
Proof. apply Z.shiftr_div_pow2. Qed.

Ltac byte_digits v :=
  pose proof (Z.div_mod v 256 ltac:(lia)); pose proof (Z.mod_pos_bound v 256 eq_refl);
  pose proof (Z.div_mod (v / 256) 256 ltac:(lia));
  pose proof (Z.mod_pos_bound (v / 256) 256 eq_refl);
  pose proof (Z.div_mod (v / 65536) 256 ltac:(lia));
  pose proof (Z.mod_pos_bound (v / 65536) 256 eq_refl);
  pose proof (Z.mod_pos_bound (v / 16777216) 256 eq_refl);
  assert (v / 256 / 256 = v / 65536) by (rewrite Z.div_div by lia; done);
  assert (v / 65536 / 256 = v / 16777216) by (rewrite Z.div_div by lia; done).

Lemma bytes4_eq v :
  bytes4 v = [v / 16777216 mod 256; v / 65536 mod 256; v / 256 mod 256; v mod 256].
Proof. unfold bytes4. by rewrite !shiftr_div by lia. Qed.

Lemma of_bytes4_bytes4 v : is_u32 v → of_bytes4 (bytes4 v) = v.
Proof.
  intros [??]. rewrite bytes4_eq. unfold of_bytes4. byte_digits v.
  rewrite (Z.mod_small (v / 16777216)); [lia|].
  split; [lia|]. apply Z.div_lt_upper_bound; lia.
Qed.

Definition is_byte (b : Z) : Prop := 0 ≤ b < 256.

Lemma bytes4_bytes v : Forall is_byte (bytes4 v).
Proof. rewrite bytes4_eq. unfold is_byte. repeat constructor; apply Z.mod_pos_bound; lia. Qed.

Lemma bytes4_of_bytes4 b0 b1 b2 b3 :
  is_byte b0 → is_byte b1 → is_byte b2 → is_byte b3 →
  bytes4 (of_bytes4 [b0; b1; b2; b3]) = [b0; b1; b2; b3].
Proof.
  unfold is_byte. intros. rewrite bytes4_eq. unfold of_bytes4.
  set (v := ((b0 * 256 + b1) * 256 + b2) * 256 + b3).
  assert (v / 256 = (b0 * 256 + b1) * 256 + b2) as Hd1 by (unfold v; rewrite Z.div_add_l, Z.div_small; lia).
  assert (v / 65536 = b0 * 256 + b1) as Hd2.
  { replace (v / 65536) with (v / 256 / 256) by (rewrite Z.div_div by lia; done).
    rewrite Hd1, Z.div_add_l, Z.div_small; lia. }
  assert (v / 16777216 = b0) as Hd3.
  { replace (v / 16777216) with (v / 65536 / 256) by (rewrite Z.div_div by lia; done).
    rewrite Hd2, Z.div_add_l, Z.div_small; lia. }
  rewrite Hd1, Hd2, Hd3. unfold v.
  assert (∀ x y, is_byte y → (x * 256 + y) mod 256 = y) as Hm.
  { unfold is_byte. intros x y ?. rewrite Z.add_comm, Z_mod_plus_full, Z.mod_small; lia. }
  rewrite !Hm by (unfold is_byte; lia). rewrite Z.mod_small by lia. done.
Qed.

Lemma of_bytes4_range b0 b1 b2 b3 :
  is_byte b0 → is_byte b1 → is_byte b2 → is_byte b3 → is_u32 (of_bytes4 [b0; b1; b2; b3]).
Proof. unfold is_byte, is_u32, of_bytes4. lia. Qed.

Lemma bytes4_inj v w : is_u32 v → is_u32 w → bytes4 v = bytes4 w → v = w.
Proof. intros Hv Hw H. by rewrite <-(of_bytes4_bytes4 v), H, of_bytes4_bytes4. Qed.

(** ** Printing and parsing IPv4 *)

(** What reading the decimal digits of a field does to the parser's state. *)
Fixpoint scan_field (s : string) (val dig : Z) : option (Z * Z) :=
  match s with
  | EmptyString => Some (val, dig)
  | String c s' =>
    if is_digit c then
      if (dig =? 1) && (val =? 0) then None
      else let val' := val * 10 + digit_val c in
           if 255 <? val' then None else scan_field s' val' (dig + 1)
    else None
  end.

Lemma parse4_fields_app s t val dig fields val' dig' :
  scan_field s val dig = Some (val', dig') →
  parse4_fields (s +:+ t) val dig fields = parse4_fields t val' dig' fields.
Proof.
  revert val dig. induction s as [|c s IH]; intros val dig; [by intros [= <- <-]|].
  rewrite string_app_cons. simpl. repeat case_match; try done. apply IH.
Qed.

(** A property of bytes holds of all of them when it evaluates to true on each. *)
Lemma byte_forall (P : Z → bool) :
  forallb P (seqZ 0 256) = true → ∀ b, is_byte b → P b = true.
Proof.
  rewrite forallb_forall. intros H b Hb. apply H.
  rewrite <-list_elem_of_In, elem_of_seqZ. unfold is_byte in Hb. lia.
Qed.

Definition octet_ok (b : Z) : bool :=
  match scan_field (itoa b) 0 0 with
  | Some (v, d) => (v =? b) && (0 <? d)
  | None => false
  end.

Lemma scan_octet b : is_byte b → ∃ d, 0 < d ∧ scan_field (itoa b) 0 0 = Some (b, d).
Proof.
  intros Hb. assert (octet_ok b = true) as Hok by (revert b Hb; apply byte_forall; by vm_compute).
  unfold octet_ok in Hok. destruct (scan_field (itoa b) 0 0) as [[v d]|]; [|done].
  exists d. split; [lia|]. repeat f_equal. lia.
Qed.

Lemma parse4_octet b t fields :
  is_byte b → t ≠ ""%string → (length fields < 3)%nat →
  parse4_fields (itoa b +:+ String "." t) 0 0 fields = parse4_fields t 0 0 (fields ++ [b]).
Proof.
  intros Hb Ht Hf. destruct (scan_octet b Hb) as (d & Hd & Hs).
  rewrite (parse4_fields_app _ _ _ _ _ _ _ Hs). cbn [parse4_fields].
  change (is_digit ".") with false. change (Ascii.eqb "." ".") with true. cbv iota.
  rewrite (proj2 (Z.eqb_neq d 0)), (proj2 (String.eqb_neq t "")) by (lia || done).
  rewrite (proj2 (Nat.eqb_neq (length fields) 3)) by lia. done.
Qed.

Lemma parse4_last b fields :
  is_byte b → (3 ≤ length fields)%nat →
  parse4_fields (itoa b) 0 0 fields = Some (fields ++ [b]).
Proof.
  intros Hb Hf. destruct (scan_octet b Hb) as (d & Hd & Hs).
  rewrite <-(string_app_nil_r (itoa b)), (parse4_fields_app _ _ _ _ _ _ _ Hs).
  cbn [parse4_fields]. rewrite (proj2 (Nat.ltb_ge _ _)) by lia. done.
Qed.

Lemma itoa_byte_ne b : is_byte b → itoa b ≠ ""%string.
Proof. intros Hb. destruct (scan_octet b Hb) as (d & Hd & Hs). intros E. rewrite E in Hs. simplify_eq/=. Qed.

Lemma string4_dots b0 b1 b2 b3 :
  str_join (itoa <$> [b0; b1; b2; b3]) "." =
  itoa b0 +:+ String "." (itoa b1 +:+ String "." (itoa b2 +:+ String "." (itoa b3))).
Proof. done. Qed.

Lemma parse4_fields_string b0 b1 b2 b3 :
  Forall is_byte [b0; b1; b2; b3] →
  parse4_fields (str_join (itoa <$> [b0; b1; b2; b3]) ".") 0 0 [] = Some [b0; b1; b2; b3].
Proof.
  rewrite !Forall_cons. intros (H0 & H1 & H2 & H3 & _). rewrite string4_dots.
  assert (∀ b t, is_byte b → itoa b +:+ t ≠ ""%string) as Hne.
  { intros b t Hb. pose proof (itoa_byte_ne b Hb). by destruct (itoa b). }
  rewrite !parse4_octet by (try done; try apply Hne; try apply itoa_byte_ne; try done; simpl; lia).
  by rewrite parse4_last by (done || simpl; lia).
Qed.

Lemma parse_addr_scan_field s t full val dig res :
  scan_field s val dig = Some res →
  parse_addr_scan (s +:+ String "." t) full = parse4 full.
Proof.
  revert val dig. induction s as [|c s IH]; intros val dig; [done|].
  rewrite string_app_cons. simpl.
  assert (is_digit c = true →
    (c =? ".")%char = false ∧ (c =? ":")%char = false ∧ (c =? "%")%char = false) as Hc.
  { intros Hd. repeat split; apply Ascii.eqb_neq; intros ->; done. }
  destruct (is_digit c); [|done]. destruct (Hc eq_refl) as (-> & -> & ->).
  repeat case_match; try done. apply IH.
Qed.

(** Parsing an IPv4 address undoes printing it. *)
Lemma ParseAddr_string4 v : is_u32 v → ParseAddr (string4 v) = Some (Addr4 v).
Proof.
  intros Hv. unfold ParseAddr, string4. pose proof (bytes4_bytes v) as Hb.
  pose proof (of_bytes4_bytes4 v Hv) as Hrt.
  rewrite bytes4_eq in *. set (b0 := v / 16777216 mod 256) in *.
  pose proof (parse4_fields_string _ _ _ _ Hb) as Hp.
  assert (is_byte b0) as Hb0 by (by apply Forall_cons in Hb as [? _]).
  destruct (scan_octet b0 Hb0) as (d & _ & Hs).
  rewrite string4_dots at 1. rewrite (parse_addr_scan_field _ _ _ _ _ _ Hs).
  unfold parse4, AddrFrom4. rewrite Hp. simpl. by f_equal; f_equal.
Qed.

Lemma string4_inj v w : is_u32 v → is_u32 w → string4 v = string4 w → v = w.
Proof.
  intros Hv Hw H. pose proof (ParseAddr_string4 v Hv) as Hp.
  rewrite H, ParseAddr_string4 in Hp by done. by simplify_eq.
Qed.

(** ** Prefixes as intervals *)

Definition prefix_base (p : Prefix) : Z := match p_addr p with Addr4 v => v | _ => 0 end.
Definition prefix_size (p : Prefix) : Z := 2 ^ (32 - p_bits p).

(** A masked IPv4 prefix: what [ParsePrefix] followed by [Masked] yields. *)
Record prefix4 (p : Prefix) : Prop := {
  prefix4_addr : p_addr p = Addr4 (prefix_base p);
  prefix4_base : is_u32 (prefix_base p);
  prefix4_bits : 0 ≤ p_bits p ≤ 32;
  prefix4_mask : (prefix_size p | prefix_base p);
}.

Lemma prefix_size_pos p : p_bits p ≤ 32 → 0 < prefix_size p.
Proof. intros ?. unfold prefix_size. apply Z.pow_pos_nonneg; lia. Qed.

Lemma mask_bits_eq bits v :
  0 ≤ bits ≤ 32 → mask_bits 32 bits v = v - v mod 2 ^ (32 - bits).
Proof.
  intros Hb. unfold mask_bits. rewrite Z.shiftr_div_pow2, Z.shiftl_mul_pow2 by lia.
  pose proof (Z.pow_pos_nonneg 2 (32 - bits)) as Hp.
  rewrite (Z.mod_eq v) by lia. lia.
Qed.

Lemma masked_prefix4 v bits :
  is_u32 v → 0 ≤ bits ≤ 32 → prefix4 (prefix_Masked (MkPrefix (Addr4 v) bits)).
Proof.
  intros Hv Hb. unfold prefix_Masked, prefix_IsValid. simpl.
  rewrite (proj2 (Z.leb_le 0 bits)) by lia.
  assert (0 < 2 ^ (32 - bits)) by (apply Z.pow_pos_nonneg; lia).
  pose proof (Z.mod_pos_bound v (2 ^ (32 - bits)) ltac:(lia)).
  assert (v mod 2 ^ (32 - bits) ≤ v) by (apply Z.mod_le; unfold is_u32 in *; lia).
  split; unfold prefix_base, prefix_size, is_u32 in *; simpl; try done.
  - rewrite mask_bits_eq by lia. lia.
  - rewrite mask_bits_eq by lia. apply Z.mod_divide; [lia|].
    rewrite Zminus_mod, Z.mod_mod, Z.sub_diag by lia. done.
Qed.

(** Two values agree on their high bits exactly when they lie in one block. *)
Lemma same_high_bits n a b :
  0 ≤ n → (2 ^ n | b) → (Z.shiftr (Z.lxor a b) n =? 0) = ((b <=? a) && (a <? b + 2 ^ n)).
Proof.
  intros Hn [k ->]. assert (0 < 2 ^ n) as Hp by (apply Z.pow_pos_nonneg; lia).
  rewrite Z.shiftr_lxor, !Z.shiftr_div_pow2, Z.div_mul by lia.
  pose proof (Z.div_mod a (2 ^ n)) as Hd. pose proof (Z.mod_pos_bound a (2 ^ n) Hp) as Hm.
  apply eq_true_iff_eq. rewrite Z.eqb_eq, Z.lxor_eq_0_iff, andb_true_iff, Z.leb_le, Z.ltb_lt.
  split; [nia|]. intros [??]. symmetry. apply (Z.div_unique a _ k (a - k * 2 ^ n)); lia.
Qed.

Lemma prefix_Contains4 p v :
  prefix4 p →
  prefix_Contains p (Addr4 v) = ((prefix_base p <=? v) && (v <? prefix_base p + prefix_size p)).
Proof.
  intros [Ha Hu Hb Hm]. unfold prefix_Contains, prefix_IsValid. rewrite Ha.
  rewrite (proj2 (Z.leb_le 0 (p_bits p))) by lia. simpl.
  apply same_high_bits; [lia|done].
Qed.

Lemma prefix_Contains_4 p a : prefix4 p → prefix_Contains p a = true → ∃ v, a = Addr4 v.
Proof.
  intros [Ha _ _ _]. unfold prefix_Contains. rewrite Ha. rewrite andb_true_iff.
  destruct a; [by intros []|eauto|by intros []].
Qed.

Lemma prefix_end p : prefix4 p → prefix_base p + prefix_size p ≤ 2 ^ 32.
Proof.
  intros [_ [? ?] [? ?] [k Hk]]. unfold prefix_size in *.
  assert (0 < 2 ^ (32 - p_bits p)) as Hp by (apply Z.pow_pos_nonneg; lia).
  assert (2 ^ 32 = 2 ^ p_bits p * 2 ^ (32 - p_bits p)) as H32.
  { rewrite <-Z.pow_add_r by lia. f_equal. lia. }
  assert (k < 2 ^ p_bits p) as Hk' by nia. nia.
Qed.

(** Parsing yields IPv4 addresses in range. *)
Lemma digit_range c : is_digit c = true → 0 ≤ digit_val c ≤ 9.
Proof. unfold is_digit, digit_val. lia. Qed.

Lemma parse4_fields_bytes s val dig fields fs :
  is_byte val → Forall is_byte fields → (length fields ≤ 3)%nat →
  parse4_fields s val dig fields = Some fs → Forall is_byte fs ∧ length fs = 4%nat.
Proof.
  unfold is_byte. revert val dig fields.
  induction s as [|c s IH]; intros val dig fields Hval Hfs Hlen; simpl.
  - destruct (length fields <? 3)%nat eqn:Hl; [done|]. intros [= <-].
    apply Nat.ltb_ge in Hl. split; [|rewrite length_app; simpl; lia].
    apply Forall_app_2; [done|]. by apply Forall_singleton.
  - destruct (is_digit c) eqn:Hd.
    + apply digit_range in Hd. destruct ((dig =? 1) && (val =? 0)); [done|].
      destruct (255 <? val * 10 + digit_val c) eqn:Hv; [done|]. apply IH; [lia|done..].
    + destruct (c =? ".")%char; [|done].
      destruct ((dig =? 0) || (s =? "")%string); [done|].
      destruct (length fields =? 3)%nat eqn:Hl; [done|]. apply Nat.eqb_neq in Hl.
      apply IH; [lia| |rewrite length_app; simpl; lia].
      apply Forall_app_2; [done|]. by apply Forall_singleton.
Qed.

Lemma parse4_range s a : parse4 s = Some a → ∃ v, a = Addr4 v ∧ is_u32 v.
Proof.
  unfold parse4. destruct (parse4_fields s 0 0 []) as [fs|] eqn:Hp; [|done].
  apply parse4_fields_bytes in Hp as [Hb Hl]; [|done|constructor|simpl; lia].
  intros [= <-]. destruct fs as [|b0 [|b1 [|b2 [|b3 [|]]]]]; simplify_eq/=.
  rewrite !Forall_cons in Hb. destruct Hb as (?&?&?&?&_).
  eexists; split; [done|]. by apply of_bytes4_range.
Qed.

Lemma parse6_range s a : parse6 s = Some a → ∃ v z, a = Addr6 v z.
Proof. unfold parse6. intros H. repeat (case_match; simplify_eq); eauto. Qed.

Lemma ParseAddr_4 s v : ParseAddr s = Some (Addr4 v) → is_u32 v.
Proof.
  unfold ParseAddr. generalize s at 1. intros rest. induction rest as [|c rest IH]; [done|].
  simpl. destruct (c =? ".")%char.
  { intros (w & [= <-] & ?)%parse4_range. done. }
  destruct (c =? ":")%char; [|by destruct (c =? "%")%char].
  intros (?&?&[=])%parse6_range.
Qed.

(** ** Decimal numbers *)

Lemma pretty_digit x : (x < 10)%N →
  is_digit (pretty_N_char x) = true ∧ digit_val (pretty_N_char x) = Z.of_N x.
Proof.
  intros Hx. destruct x as [|p]; [done|]. do 4 (destruct p; try done; try lia).
Qed.

Lemma parse_pretty_go x s : parse_digits (pretty_N_go x s) 0 = parse_digits s (Z.of_N x).
Proof.
  revert s. induction x as [x IH] using (well_founded_induction N.lt_wf_0). intros s.
  destruct (decide (0 < x)%N) as [Hx|Hx].
  - rewrite pretty_N_go_step by done. rewrite IH by (apply N.div_lt; lia). cbn [parse_digits].
    destruct (pretty_digit (x mod 10)) as [-> ->]; [apply N.mod_lt; lia|].
    f_equal. rewrite N2Z.inj_mod, N2Z.inj_div. pose proof (Z.div_mod (Z.of_N x) 10). lia.
  - replace x with 0%N by lia. by rewrite pretty_N_go_0.
Qed.

Lemma pretty_go_nonempty x s : (0 < x)%N ∨ s ≠ ""%string → pretty_N_go x s ≠ ""%string.
Proof.
  revert s. induction x as [x IH] using (well_founded_induction N.lt_wf_0). intros s Hxs.
  destruct (decide (0 < x)%N) as [Hx|Hx].
  - rewrite pretty_N_go_step by done. apply IH; [apply N.div_lt; lia|by right].
  - replace x with 0%N in * by lia. rewrite pretty_N_go_0. destruct Hxs; [lia|done].
Qed.

(** A number printed reads back. *)
Lemma parse_uint_itoa z : 0 ≤ z → parse_uint (itoa z) = Some z.
Proof.
  intros Hz. destruct z as [|p|p]; [done| |lia].
  assert (itoa (Zpos p) = pretty_N_go (Npos p) "") as -> by done.
  unfold parse_uint. destruct (String.eqb_spec (pretty_N_go (Npos p) "") "") as [He|_].
  - exfalso. revert He. apply pretty_go_nonempty. left. lia.
  - by rewrite parse_pretty_go.
Qed.

Lemma parse_digits_bytes c s acc v :
  is_digit c = false → parse_digits s acc = Some v → has_byte c s = false.
Proof.
  intros Hc. revert acc. induction s as [|a s IH]; intros acc; [done|]. cbn [parse_digits has_byte].
  destruct (is_digit a) eqn:Ha; [|done]. intros Hs. rewrite (IH _ Hs), orb_false_r.
  apply Ascii.eqb_neq. intros ->. congruence.
Qed.

Lemma itoa_bytes c z : 0 ≤ z → is_digit c = false → has_byte c (itoa z) = false.
Proof.
  intros Hz Hc. pose proof (parse_uint_itoa z Hz) as Hp. unfold parse_uint in Hp.
  destruct (String.eqb (itoa z) ""); [done|]. by eapply parse_digits_bytes.
Qed.

Lemma string4_bytes c v : is_digit c = false → c ≠ "."%char → has_byte c (string4 v) = false.
Proof.
  intros Hd Hc. unfold string4. rewrite bytes4_eq, string4_dots.
  assert (Ascii.eqb "." c = false) as Hdot by (apply Ascii.eqb_neq; congruence).
  pose proof (bytes4_bytes v) as Hb. rewrite bytes4_eq, !Forall_cons in Hb. unfold is_byte in Hb.
  rewrite !has_byte_app. cbn [has_byte]. rewrite !has_byte_app. cbn [has_byte].
  rewrite !has_byte_app. cbn [has_byte]. rewrite Hdot, !itoa_bytes by (done || lia). done.
Qed.

Lemma addr_Unmap_idemp a : addr_Unmap (addr_Unmap a) = addr_Unmap a.
Proof.
  destruct a as [|v|v z]; [done..|]. unfold addr_Unmap at 2 3.
  destruct (addr_Is4In6 (Addr6 v z)) eqn:E; [done|]. unfold addr_Unmap. by rewrite E.
Qed.

(** ** Address and port *)

Lemma AddrPort_String_4 v p : AddrPort_String (MkAddrPort (Addr4 v) p) = string4 v +:+ String ":" (itoa p).
Proof.
  unfold AddrPort_String, JoinHostPort. cbn [ap_addr ap_port addr_String]. by rewrite string4_bytes.
Qed.

Lemma string4_no_bracket v : unbracket (string4 v) = Some (string4 v, false).
Proof.
  pose proof (string4_bytes "[" v eq_refl ltac:(done)) as Hb. unfold unbracket.
  destruct (string4 v) as [|[[] [] [] [] [] [] [] []] s']; done.
Qed.

Lemma ParseAddrPort_4 v p :
  is_u32 v → 0 ≤ p ≤ 65535 →
  ParseAddrPort (AddrPort_String (MkAddrPort (Addr4 v) p)) = Some (MkAddrPort (Addr4 v) p).
Proof.
  intros Hv Hp. rewrite AddrPort_String_4. unfold ParseAddrPort.
  rewrite cut_last_app by (apply itoa_bytes; [lia|done]).
  pose proof (ParseAddr_string4 v Hv) as Ha. pose proof (parse_uint_itoa p ltac:(lia)) as Hi.
  destruct (String.eqb_spec (string4 v) "") as [He|_]; [by rewrite He in Ha|].
  destruct (String.eqb_spec (itoa p) "") as [He|_]; [by rewrite He in Hi|]. cbn [orb].
  rewrite string4_no_bracket, Hi, Ha, (proj2 (Z.ltb_ge _ _)) by lia. done.
Qed.
