(* ===== verification/Pool.v ===== *)
(** * The interface between the control API and the address allocators

    [server/api] keeps two allocators and asks each for the address of a key.  It relies
    on a stable, injective assignment of IPv4 addresses; [server/ipam] provides it. *)
From Stdlib Require Import Ascii String.
From S2P Require Import Prelude Netip NetipFacts.

Class Pool (A E : Type) := {
  pool_alloc : A → string → A * result E Addr;   (** [Allocate] *)
  pool_map : A → gmap string Addr;               (** the address of each key *)
  pool_range : A → Addr → Prop;                  (** the addresses it may hand out *)
  pool_ok : A → Prop;                            (** its invariant *)
  pool_error : E → string;                       (** [err.Error()] *)

  pool_alloc_ok a k : pool_ok a → pool_ok (pool_alloc a k).1;
  pool_alloc_stable a k ip :
    pool_ok a → pool_map a !! k = Some ip → pool_alloc a k = (a, Ok ip);
  pool_alloc_success a k a' ip :
    pool_ok a → pool_alloc a k = (a', Ok ip) → pool_map a' = <[k := ip]> (pool_map a);
  pool_alloc_failure a k a' e :
    pool_ok a → pool_alloc a k = (a', Err e) → pool_map a' = pool_map a;
  pool_alloc_range a k : ∀ x, pool_range (pool_alloc a k).1 x ↔ pool_range a x;
  pool_injective a k1 k2 ip :
    pool_ok a → pool_map a !! k1 = Some ip → pool_map a !! k2 = Some ip → k1 = k2;
  pool_map_range a k ip : pool_ok a → pool_map a !! k = Some ip → pool_range a ip;
  pool_range_4 a ip : pool_ok a → pool_range a ip → ∃ v, ip = Addr4 v ∧ is_u32 v;
}.

(** Two pools that can never hand out the same address. *)
Definition pools_disjoint {A E} `{Pool A E} (a b : A) : Prop :=
  ∀ ip, pool_range a ip → ¬ pool_range b ip.

Section PoolFacts.
Context {A E : Type} `{P : Pool A E}.

(** What any client needs of one allocation. *)
Lemma pool_alloc_grows a k a' res :
  pool_ok a → pool_alloc a k = (a', res) →
  pool_ok a' ∧ pool_map a ⊆ pool_map a' ∧ (∀ y, pool_range a' y ↔ pool_range a y) ∧
  (∀ ip, res = Ok ip → pool_map a' !! k = Some ip).
Proof.
  intros Ha Halloc. pose proof (pool_alloc_ok a k Ha) as Hok.
  pose proof (pool_alloc_range a k) as Hr. rewrite Halloc in Hok, Hr.
  destruct res as [ip|e]; split_and!; try done.
  - destruct (pool_map a !! k) as [ip'|] eqn:Hip.
    + rewrite (pool_alloc_stable _ _ _ Ha Hip) in Halloc. by injection Halloc as <- _.
    + rewrite (pool_alloc_success _ _ _ _ Ha Halloc). by apply insert_subseteq.
  - intros ? [= ->]. rewrite (pool_alloc_success _ _ _ _ Ha Halloc). apply lookup_insert_eq.
  - by rewrite (pool_alloc_failure _ _ _ _ Ha Halloc).
Qed.

(** Addresses of pools print as different strings when they differ. *)
Lemma pool_string_inj (a b : A) x y :
  pool_ok a → pool_ok b → pool_range a x → pool_range b y → addr_String x = addr_String y → x = y.
Proof.
  intros Ha Hb Hx Hy. destruct (pool_range_4 _ _ Ha Hx) as (v & -> & ?).
  destruct (pool_range_4 _ _ Hb Hy) as (w & -> & ?). simpl. intros Heq.
  f_equal. by apply string4_inj.
Qed.

Lemma pool_string_nonempty (a : A) x : pool_ok a → pool_range a x → addr_String x ≠ ""%string.
Proof.
  intros Ha Hx. destruct (pool_range_4 _ _ Ha Hx) as (v & -> & Hv). simpl. intros He.
  pose proof (ParseAddr_string4 v Hv) as Hp. by rewrite He in Hp.
Qed.

End PoolFacts.
