(* ===== verification/Ipam.v ===== *)
(** * Address allocation (server/ipam/ipam.go)

    An allocator hands out the addresses of a prefix in order, one per key, and keeps a
    key's address for good.  [Split] gives the lower half of a network to nodes and
    the upper half to services.  The mutex makes every call one step. *)
From Stdlib Require Import Ascii String.
From S2P Require Import Prelude Netip NetipFacts GoString GoStringFacts Pool.

Local Open Scope Z_scope.
Local Open Scope zwan_scope.

Record Allocator : Type := MkAllocator {
  prefix : Prefix;
  next : Addr;
  byKey : gmap string Addr;
  used : gset Addr;
}.

Inductive ipam_error : Type :=
| EParse (cidr : string)
| ENotIPv4 (p : Prefix)
| ETooSmall (p : Prefix).

(** The error of [Allocate], and its message. *)
Inductive alloc_error : Type :=
| EExhausted (p : Prefix).

Definition alloc_error_string (e : alloc_error) : string :=
  match e with EExhausted p => "ipam: address space " +:+ prefix_String p +:+ " exhausted" end.

Definition newFrom (p : Prefix) : Allocator := MkAllocator p (addr_Next (p_addr p)) ∅ ∅.

Definition New (cidr : string) : result ipam_error Allocator :=
  match ParsePrefix cidr with
  | None => Err (EParse cidr)
  | Some p => let p := prefix_Masked p in Ok (MkAllocator p (addr_Next (p_addr p)) ∅ ∅)
  end.

(** The bytes of an address as a big-endian [uint32]. *)
Definition be32 (b : list Z) : Z :=
  match b with
  | [b0; b1; b2; b3] =>
    Z.lor (Z.lor (Z.lor (u32 (Z.shiftl b0 24)) (u32 (Z.shiftl b1 16))) (u32 (Z.shiftl b2 8))) b3
  | _ => 0
  end.

Definition Split (cidr : string) : result ipam_error (Allocator * Allocator) :=
  match ParsePrefix cidr with
  | None => Err (EParse cidr)
  | Some p =>
    let p := prefix_Masked p in
    match p_addr p with
    | Addr4 v =>
      if 28 <? p_bits p then Err (ETooSmall p) else
      let half := p_bits p + 1 in
      let lower := prefix_Masked (PrefixFrom (p_addr p) half) in
      let step := u32 (Z.shiftl 1 (32 - half)) in
      let base := be32 (bytes4 v) in
      let top := u32 (base + step) in
      let upperAddr := AddrFrom4 (bytes4 top) in
      let upper := prefix_Masked (PrefixFrom upperAddr half) in
      Ok (newFrom lower, newFrom upper)
    | _ => Err (ENotIPv4 p)
    end
  end.

(** The loop of [Allocate]: [None] when the fuel does not cover it. *)
Fixpoint alloc_loop (fuel : nat) (a : Allocator) (key : string)
  : option (Allocator * result alloc_error Addr) :=
  match fuel with
  | O => None
  | S fuel =>
    if prefix_Contains (prefix a) (next a) then
      let ip := next a in
      let a := MkAllocator (prefix a) (addr_Next (next a)) (byKey a) (used a) in
      if bool_decide (ip ∈ used a) then alloc_loop fuel a key
      else Some (MkAllocator (prefix a) (next a) (<[key := ip]> (byKey a)) ({[ip]} ∪ used a), Ok ip)
    else Some (a, Err (EExhausted (prefix a)))
  end.

(** Each round but the last skips an address of [used], so one round more than its
    size is enough. *)
Definition alloc_fuel (a : Allocator) : nat := S (size (used a)).

Definition Allocate (a : Allocator) (key : string) : Allocator * result alloc_error Addr :=
  match byKey a !! key with
  | Some ip => (a, Ok ip)
  | None => default (a, Err (EExhausted (prefix a))) (alloc_loop (alloc_fuel a) a key)
  end.

(** ** The loop terminates *)

Definition addr_rank (a : Addr) : Z :=
  match a with AddrZero => -1 | Addr4 v => v | Addr6 v _ => v end.

Lemma prefix_Contains_zero p : prefix_Contains p AddrZero = false.
Proof. unfold prefix_Contains. by destruct (prefix_IsValid p), (p_addr p). Qed.

(** A loop that runs out of fuel has skipped as many different used addresses. *)
Lemma alloc_loop_skips fuel a key :
  alloc_loop fuel a key = None →
  ∃ l, NoDup l ∧ length l = fuel ∧ ∀ x, x ∈ l → x ∈ used a ∧ addr_rank (next a) ≤ addr_rank x.
Proof.
  revert a. induction fuel as [|fuel IH]; intros a; simpl.
  { intros _. exists []. split_and!; [constructor|done|set_solver]. }
  destruct (prefix_Contains (prefix a) (next a)) eqn:Hc; [|done].
  case_bool_decide as Hu; [|done]. intros Hnone.
  destruct (decide (addr_Next (next a) = AddrZero)) as [Hz|Hnz].
  { destruct fuel as [|fuel].
    - exists [next a]. split_and!; [apply NoDup_singleton|done|].
      intros x ->%list_elem_of_singleton. done.
    - simpl in Hnone. by rewrite Hz, prefix_Contains_zero in Hnone. }
  destruct (IH _ Hnone) as (l & Hl & <- & Hin). simpl in Hin.
  assert (addr_rank (addr_Next (next a)) = addr_rank (next a) + 1) as Hrank.
  { destruct (next a); simpl in *; [by rewrite prefix_Contains_zero in Hc|..]; by case_match. }
  exists (next a :: l). split_and!; [|done|].
  - constructor; [|done]. intros Hx. apply Hin in Hx as [_ ?]. lia.
  - intros x [->|Hx]%elem_of_cons; [by split|]. apply Hin in Hx as [? ?]. split; [done|lia].
Qed.

(** C38: [Allocate] always returns: in every state the loop ends within its fuel, and more
    fuel changes nothing. *)
Theorem alloc_loop_total a key : is_Some (alloc_loop (alloc_fuel a) a key).
Proof.
  destruct (alloc_loop (alloc_fuel a) a key) eqn:Hl; [done|].
  apply alloc_loop_skips in Hl as (l & Hnd & Hlen & Hin).
  assert (list_to_set l ⊆ used a) as Hsub%subseteq_size.
  { intros x. rewrite elem_of_list_to_set. intros Hx. by apply Hin in Hx as [? _]. }
  rewrite size_list_to_set in Hsub by done. unfold alloc_fuel in Hlen. lia.
Qed.

(** ** Allocation in order

    The abstract allocator is the list of the keys in the order they were first asked
    for: the [i]-th key holds the [i]-th host address of the range. *)

Definition addr_at (n : Z) : Addr := if n =? 2 ^ 32 then AddrZero else Addr4 n.
Definition slot (p : Prefix) (i : nat) : Addr := addr_at (prefix_base p + 1 + Z.of_nat i).

Definition spec_alloc (p : Prefix) (ks : list string) (k : string) : list string * option nat :=
  match list_find (k =.) ks with
  | Some (i, _) => (ks, Some i)
  | None => if Z.of_nat (S (length ks)) <? prefix_size p then (ks ++ [k], Some (length ks))
            else (ks, None)
  end.

(** The concrete state stands for the list of keys [ks]. *)
Record alloc_repr (a : Allocator) (ks : list string) : Prop := {
  repr_prefix : prefix4 (prefix a);
  repr_nodup : NoDup ks;
  repr_room : Z.of_nat (length ks) < prefix_size (prefix a);
  repr_next : next a = slot (prefix a) (length ks);
  repr_byKey : ∀ k ip, byKey a !! k = Some ip ↔
                 ∃ i, ks !! i = Some k ∧ ip = slot (prefix a) i;
  repr_used : ∀ x, x ∈ used a ↔ ∃ i, (i < length ks)%nat ∧ x = slot (prefix a) i;
}.

Definition alloc_ok (a : Allocator) : Prop := ∃ ks, alloc_repr a ks.

Lemma slot_4 p i :
  prefix4 p → Z.of_nat (S i) < prefix_size p →
  slot p i = Addr4 (prefix_base p + 1 + Z.of_nat i) ∧ prefix_Contains p (slot p i) = true.
Proof.
  intros Hp Hi. pose proof (prefix_end p Hp). pose proof (prefix4_base p Hp) as [? _].
  unfold slot, addr_at. rewrite (proj2 (Z.eqb_neq _ _)) by lia.
  split; [done|]. rewrite prefix_Contains4 by done. lia.
Qed.

Lemma slot_inj p i j :
  prefix4 p → Z.of_nat (S i) < prefix_size p → Z.of_nat (S j) < prefix_size p →
  slot p i = slot p j → i = j.
Proof.
  intros Hp Hi Hj. destruct (slot_4 p i) as [-> _]; [done..|].
  destruct (slot_4 p j) as [-> _]; [done..|]. intros [=]. lia.
Qed.

Lemma slot_next p i :
  prefix4 p → Z.of_nat (S i) < prefix_size p → addr_Next (slot p i) = slot p (S i).
Proof.
  intros Hp Hi. destruct (slot_4 p i) as [-> _]; [done..|]. simpl. unfold slot, addr_at.
  replace (prefix_base p + 1 + Z.of_nat (S i)) with (prefix_base p + 1 + Z.of_nat i + 1) by lia.
  done.
Qed.

Lemma slot_full p i :
  prefix4 p → Z.of_nat i < prefix_size p → prefix_size p ≤ Z.of_nat (S i) →
  prefix_Contains p (slot p i) = false.
Proof.
  intros Hp Hi1 Hi2. pose proof (prefix_end p Hp). unfold slot, addr_at.
  case_match; [apply prefix_Contains_zero|]. rewrite prefix_Contains4 by done. lia.
Qed.

Lemma newFrom_repr p : prefix4 p → alloc_repr (newFrom p) [].
Proof.
  intros Hp. pose proof (prefix4_bits p Hp). split; simpl; try done.
  - constructor.
  - apply prefix_size_pos. lia.
  - unfold slot, addr_at. rewrite (prefix4_addr p Hp). simpl. by rewrite Z.add_0_r.
  - intros k ip. rewrite lookup_empty. split; [done|]. by intros (i & ? & _).
  - intros x. split; [set_solver|]. intros (i & ? & _). lia.
Qed.

Lemma repr_slot_4 a ks i k :
  alloc_repr a ks → ks !! i = Some k →
  ∃ v, slot (prefix a) i = Addr4 v ∧ is_u32 v ∧ prefix_Contains (prefix a) (Addr4 v) = true.
Proof.
  intros Ha Hi. apply lookup_lt_Some in Hi. pose proof (repr_room _ _ Ha).
  pose proof (repr_prefix _ _ Ha) as Hp. pose proof (prefix_end _ Hp).
  pose proof (prefix4_base _ Hp) as [? ?].
  destruct (slot_4 (prefix a) i) as [Hs Hc]; [done|lia|]. rewrite Hs in *.
  eexists; split_and!; [done|split; lia|done].
Qed.

Lemma repr_unused a ks : alloc_repr a ks → Z.of_nat (S (length ks)) < prefix_size (prefix a) →
  next a ∉ used a.
Proof.
  intros Ha Hroom. rewrite (repr_used _ _ Ha), (repr_next _ _ Ha). intros (i & Hi & Hs).
  apply slot_inj in Hs; [lia|by apply repr_prefix in Ha|lia..].
Qed.

Lemma repr_fresh a ks k : alloc_repr a ks → byKey a !! k = None ↔ k ∉ ks.
Proof.
  intros Ha. rewrite eq_None_not_Some, list_elem_of_lookup. unfold is_Some.
  setoid_rewrite (repr_byKey _ _ Ha). naive_solver.
Qed.

Lemma repr_push a ks k :
  alloc_repr a ks → k ∉ ks → Z.of_nat (S (length ks)) < prefix_size (prefix a) →
  alloc_repr (MkAllocator (prefix a) (addr_Next (next a)) (<[k := next a]> (byKey a))
                          ({[next a]} ∪ used a)) (ks ++ [k]).
Proof.
  intros Ha Hk Hroom. pose proof Ha as [Hp Hnd _ Hn Hb Hu]. split; simpl; [done|..].
  - apply NoDup_app. split_and!; [done| |apply NoDup_singleton].
    intros x Hx ->%list_elem_of_singleton. done.
  - rewrite length_app. simpl. lia.
  - rewrite Hn, slot_next, length_app by (done || lia). f_equal. simpl. lia.
  - intros k' ip. rewrite lookup_insert_Some, Hb, Hn. setoid_rewrite lookup_app_Some. split.
    + intros [[<- <-]|[Hne (i & Hi & ->)]]; [|eauto].
      exists (length ks). split; [right; by rewrite Nat.sub_diag|done].
    + intros (i & [Hi|[Hge Hi]] & ->).
      * right. split; [|eauto]. intros <-. apply Hk. by apply list_elem_of_lookup_2 in Hi.
      * apply list_lookup_singleton_Some in Hi as [Hi <-].
        left. split; [done|]. f_equal. lia.
  - intros x. rewrite elem_of_union, elem_of_singleton, Hu, Hn, length_app. simpl. split.
    + intros [->|(i & ? & ->)]; [exists (length ks)|exists i]; split; (done || lia).
    + intros (i & Hi & ->). destruct (decide (i = length ks)) as [->|]; [by left|].
      right. exists i. split; [lia|done].
Qed.

Lemma Allocate_cases a ks k :
  alloc_repr a ks →
  (∃ i, ks !! i = Some k ∧ Allocate a k = (a, Ok (slot (prefix a) i))) ∨
  ((k ∉ ks) ∧ Z.of_nat (S (length ks)) < prefix_size (prefix a) ∧ ∃ a', Allocate a k = (a', Ok (next a)) ∧ alloc_repr a' (ks ++ [k]) ∧
     byKey a' = <[k := next a]> (byKey a)) ∨
  ((k ∉ ks) ∧ prefix_size (prefix a) ≤ Z.of_nat (S (length ks)) ∧
     Allocate a k = (a, Err (EExhausted (prefix a)))).
Proof.
  intros Ha. pose proof Ha as [Hp Hnd Hr Hn Hb Hu].
  destruct (decide (k ∈ ks)) as [Hin|Hk].
  { apply list_elem_of_lookup in Hin as [i Hi]. left. exists i. split; [done|].
    unfold Allocate. by rewrite (proj2 (Hb k (slot (prefix a) i))) by eauto. }
  right. unfold Allocate.
  rewrite (proj2 (repr_fresh a ks k Ha) Hk). cbn [alloc_fuel alloc_loop].
  destruct (Z.ltb_spec (Z.of_nat (S (length ks))) (prefix_size (prefix a))) as [Hroom|Hfull].
  - left. split; [done|]. split; [done|]. destruct (slot_4 (prefix a) (length ks)) as [_ Hc]; [done|lia|].
    rewrite <-Hn in Hc. rewrite Hc, bool_decide_eq_false_2 by (by apply (repr_unused a ks)).
    eexists. split_and!; [done|by apply (repr_push a ks k)|done].
  - right. split; [done|]. split; [done|]. rewrite Hn, slot_full by (done || lia). done.
Qed.

(** C4: The allocator implements the list of keys: a known key keeps its place, a new key
    takes the next host address, and when the range is full the call fails and changes
    nothing. *)
Theorem Allocate_refines a ks k :
  alloc_repr a ks →
  match spec_alloc (prefix a) ks k, Allocate a k with
  | (ks', Some i), (a', r) => r = Ok (slot (prefix a) i) ∧ alloc_repr a' ks'
  | (ks', None), (a', r) => r = Err (EExhausted (prefix a)) ∧ a' = a ∧ ks' = ks
  end.
Proof.
  intros Ha. unfold spec_alloc.
  destruct (list_find (k =.) ks) as [[i k']|] eqn:Hf.
  - apply list_find_Some in Hf as (Hi & <- & _). unfold Allocate.
    rewrite (proj2 (repr_byKey a ks Ha k (slot (prefix a) i))) by eauto. done.
  - apply list_find_None in Hf.
    assert (k ∉ ks) as Hk by (rewrite Forall_forall in Hf; intros Hk; by apply (Hf k)).
    destruct (Allocate_cases a ks k Ha) as
      [(i & Hi & _)|[(_ & Hroom & a' & -> & Ha' & _)|(_ & Hfull & ->)]].
    + by apply list_elem_of_lookup_2 in Hi.
    + rewrite (proj2 (Z.ltb_lt _ _) Hroom). by rewrite <-(repr_next _ _ Ha).
    + by rewrite (proj2 (Z.ltb_ge _ _) Hfull).
Qed.

Lemma Allocate_prefix a k : prefix (Allocate a k).1 = prefix a.
Proof.
  unfold Allocate. destruct (byKey a !! k); [done|]. generalize (alloc_fuel a).
  assert (∀ fuel a, prefix (default (a, Err (EExhausted (prefix a))) (alloc_loop fuel a k)).1
            = prefix a ∧ (∀ r, alloc_loop fuel a k = Some r → prefix r.1 = prefix a)) as H.
  { intros fuel. induction fuel as [|fuel IH]; intros b; simpl; [done|].
    destruct (prefix_Contains (prefix b) (next b)); simpl; [|by split; [|intros ? [= <-]]].
    case_bool_decide; simpl; [|by split; [|intros ? [= <-]]].
    destruct (IH (MkAllocator (prefix b) (addr_Next (next b)) (byKey b) (used b))) as [_ Hr].
    destruct (alloc_loop fuel _ k) as [r|]; [|done]. simpl.
    specialize (Hr r eq_refl). split; [done|]. by intros ? [= <-]. }
  intros n. apply H.
Qed.

(** ** The allocator is a pool *)

#[export] Instance ipam_pool : Pool Allocator alloc_error.
Proof.
  refine {|
    pool_alloc := Allocate;
    pool_map := byKey;
    pool_range a x := prefix4 (prefix a) ∧ prefix_Contains (prefix a) x = true;
    pool_ok := alloc_ok;
    pool_error := alloc_error_string;
  |}.
  - intros a k [ks Ha]. destruct (Allocate_cases a ks k Ha) as
      [(i & _ & ->)|[(_ & _ & a' & -> & Ha' & _)|(_ & _ & ->)]]; [by exists ks|by eexists|by exists ks].
  - intros a k ip _ Hk. unfold Allocate. by rewrite Hk.
  - intros a k a' ip [ks Ha]. destruct (Allocate_cases a ks k Ha) as
      [(i & Hi & ->)|[(_ & _ & a'' & -> & _ & Hb)|(_ & _ & ->)]]; intros [= <- <-]; [|done].
    symmetry. apply insert_id. apply (repr_byKey _ _ Ha). eauto.
  - intros a k a' e [ks Ha]. destruct (Allocate_cases a ks k Ha) as
      [(i & Hi & ->)|[(_ & _ & a'' & -> & _ & Hb)|(_ & _ & ->)]]; by intros [= <- <-].
  - intros a k x. by rewrite Allocate_prefix.
  - intros a k1 k2 ip [ks Ha] H1 H2.
    apply (repr_byKey _ _ Ha) in H1 as (i & Hi & ->), H2 as (j & Hj & Hs).
    pose proof (repr_room _ _ Ha). pose proof (lookup_lt_Some _ _ _ Hi).
    pose proof (lookup_lt_Some _ _ _ Hj).
    apply slot_inj in Hs as ->; [congruence|by apply repr_prefix in Ha|lia..].
  - intros a k ip [ks Ha] (i & Hi & ->)%(repr_byKey _ _ Ha).
    destruct (repr_slot_4 a ks i k Ha Hi) as (v & -> & _ & Hc).
    split; [by apply repr_prefix in Ha|done].
  - intros a ip _ [Hp Hc]. destruct (prefix_Contains_4 _ _ Hp Hc) as [v ->].
    exists v. split; [done|]. rewrite prefix_Contains4 in Hc by done.
    pose proof (prefix_end _ Hp). pose proof (prefix4_base _ Hp) as [? _]. unfold is_u32. lia.
Defined.

(** ** Splitting a network *)

Lemma shiftl_mul x k : 0 ≤ k → Z.shiftl x k = x * 2 ^ k.
Proof. apply Z.shiftl_mul_pow2. Qed.

Lemma be32_of_bytes b0 b1 b2 b3 :
  is_byte b0 → is_byte b1 → is_byte b2 → is_byte b3 →
  be32 [b0; b1; b2; b3] = of_bytes4 [b0; b1; b2; b3].
Proof.
  unfold is_byte. intros. unfold be32, of_bytes4.
  rewrite !(u32_small (Z.shiftl _ _)) by (rewrite shiftl_mul; lia).
  rewrite lor_shiftl by (rewrite ?shiftl_mul; lia).
  replace (b0 * 2 ^ 24 + Z.shiftl b1 16) with (Z.shiftl (b0 * 256 + b1) 16)
    by (rewrite !shiftl_mul; lia).
  rewrite lor_shiftl by (rewrite ?shiftl_mul; lia).
  replace ((b0 * 256 + b1) * 2 ^ 16 + Z.shiftl b2 8) with (Z.shiftl ((b0 * 256 + b1) * 256 + b2) 8)
    by (rewrite !shiftl_mul; lia).
  rewrite lor_shiftl by lia. lia.
Qed.

Lemma be32_bytes4 v : is_u32 v → be32 (bytes4 v) = v.
Proof.
  intros Hv. pose proof (bytes4_bytes v) as Hb. pose proof (of_bytes4_bytes4 v Hv) as Hrt.
  rewrite bytes4_eq in *. rewrite !Forall_cons in Hb. destruct Hb as (?&?&?&?&_).
  by rewrite be32_of_bytes.
Qed.

Lemma parse_digits_nonneg s acc v : 0 ≤ acc → parse_digits s acc = Some v → 0 ≤ v.
Proof.
  revert acc. induction s as [|c s IH]; intros acc Hacc; simpl; [by intros [= <-]|].
  destruct (is_digit c) eqn:Hd; [|done]. apply digit_range in Hd. apply IH. lia.
Qed.

Lemma prefix_bits_nonneg s v : prefix_bits s = Some v → 0 ≤ v.
Proof.
  assert (∀ s', parse_uint s' = Some v → 0 ≤ v) as H.
  { intros s'. unfold parse_uint. case_match; [done|]. by apply parse_digits_nonneg. }
  unfold prefix_bits. repeat case_match; (done || apply H).
Qed.

Lemma ParsePrefix_range s p v :
  ParsePrefix s = Some p → p_addr p = Addr4 v → is_u32 v ∧ 0 ≤ p_bits p ≤ 32.
Proof.
  unfold ParsePrefix. destruct (cut_last "/" s) as [[l r]|]; [|done].
  destruct (ParseAddr l) as [[|w|w z]|] eqn:Ha; [..|done].
  - destruct (prefix_bits r); [|done]. case_match; [|done]. by intros [= <-].
  - destruct (prefix_bits r) as [b|] eqn:Hb; [|done].
    destruct (Z.leb_spec b 32); [|done]. intros [= <-] [= <-].
    apply prefix_bits_nonneg in Hb. split; [by eapply ParseAddr_4|].
    unfold PrefixFrom. simpl. case_match; simpl; lia.
  - destruct (String.eqb z ""); [|done]. destruct (prefix_bits r); [|done].
    case_match; [|done]. by intros [= <-].
Qed.

Lemma PrefixFrom_4 v b : 0 ≤ b ≤ 32 → PrefixFrom (Addr4 v) b = MkPrefix (Addr4 v) b.
Proof.
  intros Hb. unfold PrefixFrom. f_equal. rewrite bool_decide_eq_false_2 by done. simpl.
  by rewrite (proj2 (Z.leb_le 0 b)), (proj2 (Z.leb_le b 32)) by lia.
Qed.

Lemma Masked_id p : prefix4 p → prefix_Masked p = p.
Proof.
  intros [Ha _ Hb Hd]. unfold prefix_Masked, prefix_IsValid. rewrite Ha.
  rewrite (proj2 (Z.leb_le 0 (p_bits p))), mask_bits_eq by lia.
  apply Z.mod_divide in Hd; [|by apply Z.pow_nonzero; lia].
  unfold prefix_size in Hd. rewrite Hd, Z.sub_0_r, <-Ha. by destruct p.
Qed.

(** The halves of a network. *)
Definition lower_half (p : Prefix) : Prefix := MkPrefix (Addr4 (prefix_base p)) (p_bits p + 1).
Definition upper_half (p : Prefix) : Prefix :=
  MkPrefix (Addr4 (prefix_base p + 2 ^ (31 - p_bits p))) (p_bits p + 1).

Lemma halves_prefix4 p :
  prefix4 p → p_bits p < 32 → prefix4 (lower_half p) ∧ prefix4 (upper_half p).
Proof.
  intros Hp Hb. pose proof (prefix_end p Hp) as Hend. destruct Hp as [Ha [? ?] [? ?] [k Hk]].
  unfold prefix_size in *. assert (2 ^ (32 - p_bits p) = 2 * 2 ^ (31 - p_bits p)) as Hdouble.
  { rewrite <-Z.pow_succ_r by lia. f_equal. lia. }
  assert (0 < 2 ^ (31 - p_bits p)) by (apply Z.pow_pos_nonneg; lia).
  rewrite Hdouble in *.
  split; split; unfold prefix_size, prefix_base; simpl; try done; try (split; lia);
    replace (32 - (p_bits p + 1)) with (31 - p_bits p) by lia; fold (prefix_base p).
  - exists (2 * k). lia.
  - exists (2 * k + 1). lia.
Qed.

Lemma Split_halves cidr p v :
  ParsePrefix cidr = Some p → p_addr p = Addr4 v → p_bits p ≤ 28 →
  Split cidr = Ok (newFrom (lower_half (prefix_Masked p)), newFrom (upper_half (prefix_Masked p))).
Proof.
  intros Hp Ha Hb. destruct (ParsePrefix_range _ _ _ Hp Ha) as [Hv Hbits].
  unfold Split. rewrite Hp. destruct p as [pa pb].
  cbn [p_addr p_bits] in Ha, Hb, Hbits. subst pa.
  pose proof (masked_prefix4 v pb Hv Hbits) as Hm. pose proof (halves_prefix4 _ Hm) as Hh.
  pose proof (prefix_end _ Hm) as Hend.
  assert (p_bits (prefix_Masked (MkPrefix (Addr4 v) pb)) = pb) as Hpb.
  { unfold prefix_Masked, prefix_IsValid. simpl. by rewrite (proj2 (Z.leb_le 0 pb)) by lia. }
  set (m := prefix_Masked (MkPrefix (Addr4 v) pb)) in *.
  cbv zeta. rewrite (prefix4_addr m Hm), Hpb. rewrite (proj2 (Z.ltb_ge _ _)) by lia.
  cbv beta iota. rewrite ?Hpb in *.
  destruct Hh as [Hlo Hup]; [lia|]. pose proof (prefix4_base m Hm) as Hbase.
  assert (u32 (Z.shiftl 1 (32 - (pb + 1))) = 2 ^ (31 - pb)) as Hstep.
  { rewrite Z.shiftl_1_l. replace (32 - (pb + 1)) with (31 - pb) by lia. apply u32_small.
    split; [apply Z.pow_nonneg; lia|]. apply Z.pow_lt_mono_r; lia. }
  pose proof (prefix4_base _ Hup) as Hubase. unfold upper_half, prefix_base in Hubase.
  simpl in Hubase. fold (prefix_base m) in Hubase. rewrite Hpb in Hubase.
  rewrite Hstep, be32_bytes4, u32_small by done.
  unfold AddrFrom4. rewrite of_bytes4_bytes4 by done. rewrite !PrefixFrom_4 by lia.
  unfold lower_half, upper_half in *. rewrite Hpb in *. by rewrite !Masked_id.
Qed.

Lemma Masked_prefix4 cidr p v :
  ParsePrefix cidr = Some p → p_addr p = Addr4 v →
  prefix4 (prefix_Masked p) ∧ p_bits (prefix_Masked p) = p_bits p.
Proof.
  intros Hp Ha. destruct (ParsePrefix_range _ _ _ Hp Ha) as [Hv Hbits].
  destruct p as [pa pb]. simpl in *. subst pa. split; [by apply masked_prefix4|].
  unfold prefix_Masked, prefix_IsValid. simpl. by rewrite (proj2 (Z.leb_le 0 pb)) by lia.
Qed.

(** The two halves are disjoint and make up the whole. *)
Lemma halves_cover p w :
  prefix4 p → p_bits p ≤ 28 →
  prefix_Contains p (Addr4 w) =
    prefix_Contains (lower_half p) (Addr4 w) || prefix_Contains (upper_half p) (Addr4 w) ∧
  prefix_Contains (lower_half p) (Addr4 w) && prefix_Contains (upper_half p) (Addr4 w) = false.
Proof.
  intros Hm Hb. destruct (halves_prefix4 _ Hm) as [Hlo Hup]; [lia|].
  pose proof (prefix4_bits p Hm) as Hbits.
  assert (prefix_size p = 2 * 2 ^ (31 - p_bits p)) as Hsz
    by (unfold prefix_size; rewrite <-Z.pow_succ_r by lia; f_equal; lia).
  assert (prefix_size (lower_half p) = 2 ^ (31 - p_bits p) ∧
          prefix_size (upper_half p) = 2 ^ (31 - p_bits p)) as [Hl Hu]
    by (unfold prefix_size; simpl; split; f_equal; lia).
  assert (0 < 2 ^ (31 - p_bits p)) by (apply Z.pow_pos_nonneg; lia).
  assert (prefix_base (lower_half p) = prefix_base p ∧
          prefix_base (upper_half p) = prefix_base p + 2 ^ (31 - p_bits p)) as [Hlb Hub] by done.
  rewrite !prefix_Contains4 by done. lia.
Qed.

Lemma Split_ok cidr nodes services :
  Split cidr = Ok (nodes, services) →
  ∃ p, ParsePrefix cidr = Some p ∧ p_bits p ≤ 28 ∧
    alloc_repr nodes [] ∧ alloc_repr services [] ∧ pools_disjoint nodes services ∧
    ∀ v, prefix_Contains (prefix_Masked p) (Addr4 v) =
         prefix_Contains (prefix nodes) (Addr4 v) || prefix_Contains (prefix services) (Addr4 v).
Proof.
  intros Hsplit. destruct (ParsePrefix cidr) as [p|] eqn:Hp; [|unfold Split in Hsplit; by rewrite Hp in Hsplit].
  assert (∃ v, p_addr p = Addr4 v) as [v Ha].
  { unfold Split in Hsplit. rewrite Hp in Hsplit. unfold prefix_Masked in Hsplit.
    destruct (prefix_IsValid p); [|done]. destruct (p_addr p); [done|eauto|done]. }
  destruct (Masked_prefix4 _ _ _ Hp Ha) as [Hm Hpb].
  destruct (Z.le_gt_cases (p_bits p) 28) as [Hb|Hb].
  - rewrite (Split_halves _ _ _ Hp Ha Hb) in Hsplit. injection Hsplit as <- <-.
    destruct (halves_prefix4 _ Hm) as [Hlo Hup]; [lia|]. exists p. split_and!; [done|done|..].
    1,2: by apply newFrom_repr.
    + intros ip [_ Hin1] [_ Hin2]. simpl in Hin1, Hin2.
      destruct (prefix_Contains_4 _ _ Hlo Hin1) as [w ->].
      destruct (halves_cover (prefix_Masked p) w) as [_ Hd]; [done|lia|]. by rewrite Hin1, Hin2 in Hd.
    + intros w. by apply halves_cover; [|lia].
  - exfalso. unfold Split in Hsplit. rewrite Hp, (prefix4_addr _ Hm), Hpb in Hsplit.
    by rewrite (proj2 (Z.ltb_lt _ _)) in Hsplit by lia.
Qed.

(** [Split] refuses what is not an IPv4 network with room for both halves; otherwise it
    yields two empty allocators over disjoint ranges that together are the network. *)
Theorem Split_correct cidr :
  match Split cidr with
  | Err _ => ∀ p v, ParsePrefix cidr = Some p → p_addr p = Addr4 v → 28 < p_bits p
  | Ok (nodes, services) =>
      ∃ p, ParsePrefix cidr = Some p ∧ p_bits p ≤ 28 ∧
        alloc_repr nodes [] ∧ alloc_repr services [] ∧ pools_disjoint nodes services ∧
        ∀ v, prefix_Contains (prefix_Masked p) (Addr4 v) =
             prefix_Contains (prefix nodes) (Addr4 v) || prefix_Contains (prefix services) (Addr4 v)
  end.
Proof.
  destruct (Split cidr) as [[nodes services]|e] eqn:Hs; [by apply Split_ok|].
  intros p v Hp Ha. destruct (Z.le_gt_cases (p_bits p) 28) as [Hb|Hb]; [|done].
  by rewrite (Split_halves _ _ _ Hp Ha Hb) in Hs.
Qed.

(** 10.0.0.0/30 has two addresses to give. *)
Lemma Allocate_refines_witness :
  alloc_repr (newFrom (prefix_Masked (MkPrefix (Addr4 0x0a000003) 30))) [] ∧
  (Allocate (newFrom (prefix_Masked (MkPrefix (Addr4 0x0a000003) 30))) "pc").2 = Ok (Addr4 0x0a000001).
Proof.
  assert (alloc_repr (newFrom (prefix_Masked (MkPrefix (Addr4 0x0a000003) 30))) []) as Ha.
  { apply newFrom_repr, masked_prefix4; unfold is_u32; lia. }
  split; [exact Ha|]. pose proof (Allocate_refines _ [] "pc" Ha) as [Hr _].
  exact Hr.
Defined.
