(* ===== verification/Acl.v ===== *)
(** * Access policy (shared/acl/acl.go)

    Groups of members, the rules between them, and the join tokens that put a member
    in a group.  A nil policy is [None]; a token table is a finite map. *)
From Stdlib Require Import Ascii String.
From S2P Require Import Prelude Unicode GoString GoStringFacts.

Local Open Scope Z_scope.
Local Open Scope zwan_scope.

Definition Wildcard : string := "*".
Definition DefaultGroup : string := "default".

Record Rule : Type := MkRule { Src : list string; Dst : list string }.
Record Policy : Type := MkPolicy { Rules : list Rule }.

#[export] Instance rule_eq_dec : EqDecision Rule.
Proof. solve_decision. Defined.
#[export] Instance policy_eq_dec : EqDecision Policy.
Proof. solve_decision. Defined.

Definition normalize (g : string) : string := to_lower (trim_space g).

Definition policy_Empty (p : option Policy) : bool :=
  match p with None => true | Some p => (length (Rules p) =? 0)%nat end.

Definition matches (l : list string) (group : string) : bool :=
  existsb (λ g, String.eqb g Wildcard || String.eqb (normalize g) group) l.

Definition policy_Allows (p : option Policy) (src dst : string) : bool :=
  if policy_Empty p then true
  else let src := normalize src in
       let dst := normalize dst in
       match p with
       | Some p => existsb (λ r, matches (Src r) src && matches (Dst r) dst) (Rules p)
       | None => false
       end.

Definition policy_Connected (p : option Policy) (a b : string) : bool :=
  policy_Allows p a b || policy_Allows p b a.

Definition AllowsGroup (l : list string) (group : string) : bool :=
  if (length l =? 0)%nat then true else matches l (normalize group).

(** ** Reading rules *)

Inductive acl_error : Type :=
| EPolicyJSON                         (** the document is not JSON of the right shape *)
| EPolicyRule (n : nat)               (** rule n needs both src and dst *)
| ERuleArrow (s : string)             (** no arrow *)
| ERuleSide (s : string)              (** a side with no group *)
| EJoinToken (s : string)             (** not of the form group=token *)
| ESharedToken (prev group : string). (** one token, two groups *)

#[export] Instance acl_error_eq_dec : EqDecision acl_error.
Proof. solve_decision. Defined.

(** The check of [Parse] on the rules it decoded; rules are numbered from one. *)
Fixpoint check_rules (n : nat) (rs : list Rule) : result acl_error () :=
  match rs with
  | [] => Ok ()
  | r :: rs => if (length (Src r) =? 0)%nat || (length (Dst r) =? 0)%nat
               then Err (EPolicyRule n) else check_rules (S n) rs
  end.

(** [Parse]; [unmarshal] is [encoding/json] at the type of a policy. *)
Definition Parse (unmarshal : string → option Policy) (data : string) : result acl_error Policy :=
  match unmarshal data with
  | None => Err EPolicyJSON
  | Some p => let! _ := check_rules 1 (Rules p) in Ok p
  end.

Definition splitGroups (s : string) : list string :=
  filter (λ g, g ≠ ""%string) (normalize <$> split_byte "," s).

Definition ParseRule (s : string) : result acl_error Rule :=
  match cut "->" s with
  | None => Err (ERuleArrow s)
  | Some (src, dst) =>
    let r := MkRule (splitGroups src) (splitGroups dst) in
    if (length (Src r) =? 0)%nat || (length (Dst r) =? 0)%nat then Err (ERuleSide s) else Ok r
  end.

Definition rule_String (r : Rule) : string :=
  str_join (Src r) "," +:+ "->" +:+ str_join (Dst r) ",".

(** ** Join tokens *)

Abbreviation JoinTokens := (gmap string string).

Definition tokens_Group (t : JoinTokens) (token : string) : option string :=
  if String.eqb token "" then None else
  match t !! token with
  | None => None
  | Some g => let g := if String.eqb g "" then DefaultGroup else g in Some (normalize g)
  end.

Definition tokens_Add (t : JoinTokens) (group token : string) : JoinTokens :=
  if String.eqb token "" then t else
  let group := if String.eqb (normalize group) "" then DefaultGroup else group in
  <[token := normalize group]> t.

(** [Groups] over the values in the order the map yields them. *)
Fixpoint groups_loop (vals : list string) (seen : gset string) (out : list string) : list string :=
  match vals with
  | [] => out
  | g :: vals => if bool_decide (g ∈ seen) then groups_loop vals seen out
                 else groups_loop vals ({[g]} ∪ seen) (out ++ [g])
  end.

Definition tokens_Groups_in (vals : list string) : list string :=
  sort_strings (groups_loop vals ∅ []).

Definition tokens_Groups (t : JoinTokens) : list string := tokens_Groups_in (map_to_list t).*2.

Definition ParseJoinToken (s : string) : result acl_error (string * string) :=
  match cut "=" s with
  | None => Err (EJoinToken s)
  | Some (group, token) =>
    if String.eqb (normalize group) "" || String.eqb (trim_space token) "" then Err (EJoinToken s)
    else Ok (normalize group, trim_space token)
  end.

(** The closure [add] of [BuildJoinTokens]: the table and the owner of each token. *)
Definition build_add (st : JoinTokens * gmap string string) (group token : string)
  : result acl_error (JoinTokens * gmap string string) :=
  let '(out, owner) := st in
  let token := trim_space token in
  if String.eqb token "" then Ok st else
  let group := if String.eqb (normalize group) "" then DefaultGroup else group in
  match owner !! token with
  | Some prev =>
    if String.eqb prev (normalize group)
    then Ok (tokens_Add out group token, <[token := normalize group]> owner)
    else Err (ESharedToken prev (normalize group))
  | None => Ok (tokens_Add out group token, <[token := normalize group]> owner)
  end.

Fixpoint build_loop (st : JoinTokens * gmap string string) (l : list (string * string))
  : result acl_error (JoinTokens * gmap string string) :=
  match l with
  | [] => Ok st
  | (g, tok) :: l => let! st := build_add st g tok in build_loop st l
  end.

Definition BuildJoinTokens (defaultToken : string) (groupTokens : gmap string string)
  : result acl_error JoinTokens :=
  let groups := sort_strings (map_to_list groupTokens).*1 in
  let! st := build_add (∅, ∅) DefaultGroup defaultToken in
  let! st := build_loop st ((λ g, (g, default ""%string (groupTokens !! g))) <$> groups) in
  Ok st.1.

(** ** Group names up to spelling *)

Lemma normalize_idemp g : normalize (normalize g) = normalize g.
Proof. apply lower_trim_lower_trim. Qed.

#[export] Hint Rewrite normalize_idemp : zwan.

(** Two spellings of one group. *)
Definition same_group (a b : string) : Prop := normalize a = normalize b.

#[export] Instance same_group_equiv : Equivalence same_group.
Proof. unfold same_group. split; congruence. Qed.

Lemma same_group_normalize g : same_group (normalize g) g.
Proof. apply normalize_idemp. Qed.

#[export] Instance AllowsGroup_proper : Proper ((=) ==> same_group ==> (=)) AllowsGroup.
Proof. intros l _ <- a b Hab. unfold AllowsGroup. by rewrite Hab. Qed.

#[export] Instance policy_Allows_proper :
  Proper ((=) ==> same_group ==> same_group ==> (=)) policy_Allows.
Proof. intros p _ <- a b Hab c d Hcd. unfold policy_Allows. by rewrite Hab, Hcd. Qed.

#[export] Instance policy_Connected_proper :
  Proper ((=) ==> same_group ==> same_group ==> (=)) policy_Connected.
Proof. intros p _ <- a b Hab c d Hcd. unfold policy_Connected. by rewrite Hab, Hcd. Qed.

(** What a list of groups covers. *)
Definition covers (l : list string) (g : string) : Prop :=
  ∃ x, x ∈ l ∧ (x = Wildcard ∨ same_group x g).

Lemma matches_covers l g : matches l (normalize g) = true ↔ covers l g.
Proof.
  unfold matches, covers. rewrite existsb_exists. setoid_rewrite <-list_elem_of_In.
  by setoid_rewrite orb_true_iff; setoid_rewrite String.eqb_eq.
Qed.

Definition grants (r : Rule) (src dst : string) : Prop := covers (Src r) src ∧ covers (Dst r) dst.

Lemma Allows_cases p src dst :
  policy_Allows (Some p) src dst = true ↔
  Rules p = [] ∨ ∃ r, r ∈ Rules p ∧ grants r src dst.
Proof.
  unfold policy_Allows, policy_Empty, grants. destruct (Rules p) as [|r rs] eqn:Hr.
  { simpl. split; [by left|done]. }
  rewrite <-Hr. rewrite (proj2 (Nat.eqb_neq _ _)) by (by rewrite Hr).
  rewrite existsb_exists. setoid_rewrite <-list_elem_of_In.
  setoid_rewrite andb_true_iff. setoid_rewrite matches_covers.
  split; [by right|]. intros [?|?]; [congruence|done].
Qed.

(** An access decision is a grant of some rule, and the empty policy grants all. *)
Theorem policy_Allows_default_deny p src dst :
  policy_Allows p src dst = true ↔
  policy_Empty p = true ∨ ∃ q r, p = Some q ∧ r ∈ Rules q ∧ grants r src dst.
Proof.
  destruct p as [p|]; [|by split; [left|]].
  rewrite Allows_cases. unfold policy_Empty. rewrite Nat.eqb_eq, length_zero_iff_nil. naive_solver.
Qed.

(** Appending a rule to a policy that has one grants exactly what the rule says; the
    first rule of a policy can only take access away. *)
Theorem policy_add_rule rs r src dst :
  policy_Allows (Some (MkPolicy (rs ++ [r]))) src dst = true ↔
  (rs ≠ [] ∧ policy_Allows (Some (MkPolicy rs)) src dst = true) ∨ grants r src dst.
Proof.
  rewrite !Allows_cases. simpl. setoid_rewrite elem_of_app. setoid_rewrite list_elem_of_singleton.
  split.
  - intros [?%app_nil|(r' & [?| ->] & ?)]; [naive_solver| |by right].
    left. split; [by intros ->; set_solver|]. right. by exists r'.
  - intros [[? [?|(r' & ? & ?)]]|?]; [done|right; eauto..].
Qed.

(** Peer visibility is symmetric, and group names count only up to case and blanks. *)
Theorem policy_Connected_sym p a b a' b' :
  same_group a a' → same_group b b' →
  policy_Connected p a b = policy_Connected p b' a'.
Proof.
  intros Ha Hb. unfold policy_Connected. rewrite Ha, Hb. apply orb_comm.
Qed.

(** ** The command-line form of a rule *)

(** A group name in the form the parser yields it. *)
Definition group_name (g : string) : Prop :=
  normalize g = g ∧ g ≠ ""%string ∧ has_byte "," g = false ∧ has_byte ">" g = false.

Lemma has_byte_join c l sep :
  has_byte c sep = false → Forall (λ s, has_byte c s = false) l →
  has_byte c (str_join l sep) = false.
Proof.
  intros Hsep. induction 1 as [|s l Hs Hl IH]; [done|]. unfold str_join in *.
  destruct l as [|s' l]; [done|].
  change (String.concat sep (s :: s' :: l)) with (s +:+ sep +:+ String.concat sep (s' :: l)).
  by rewrite !has_byte_app, Hs, Hsep, IH.
Qed.

Lemma splitGroups_join l :
  l ≠ [] → Forall group_name l → splitGroups (str_join l ",") = l.
Proof.
  intros Hne Hl. unfold splitGroups.
  rewrite split_join; [|done|by eapply Forall_impl; [done|intros ? (?&?&?&?)]].
  assert (normalize <$> l = l) as ->.
  { rewrite <-(list_fmap_id l) at 2. apply Forall_fmap_ext_1.
    eapply Forall_impl; [done|]. by intros ? (?&?&?&?). }
  clear Hne. induction Hl as [|g l (?&?&?&?) _ IH]; [done|].
  rewrite filter_cons_True by done. by rewrite IH.
Qed.

(** The shorthand printed for a rule reads back as that rule. *)
Theorem ParseRule_String r :
  Src r ≠ [] → Dst r ≠ [] → Forall group_name (Src r) → Forall group_name (Dst r) →
  ParseRule (rule_String r) = Ok r.
Proof.
  intros Hs Hd HSrc HDst. unfold ParseRule, rule_String.
  change ("->" +:+ str_join (Dst r) ",") with
    (String "-" (String ">" (str_join (Dst r) ","))).
  rewrite cut_two_bytes; [|done|].
  - rewrite !splitGroups_join by done. destruct r as [[|??] [|??]]; done.
  - apply has_byte_join; [done|]. eapply Forall_impl; [done|]. by intros ? (?&?&?&?).
Qed.

(** ** The token table *)

(** The normalized group an entry of the token table stands for. *)
Definition eff_group (g : string) : string :=
  if String.eqb (normalize g) "" then DefaultGroup else normalize g.

Lemma normalize_default : normalize DefaultGroup = DefaultGroup.
Proof. by vm_compute. Qed.

Lemma eff_group_normal g : normalize (eff_group g) = eff_group g ∧ eff_group g ≠ ""%string.
Proof.
  unfold eff_group. destruct (String.eqb_spec (normalize g) "") as [_|Hne].
  - by rewrite normalize_default.
  - by rewrite normalize_idemp.
Qed.

(** What one entry adds to the table: nothing for a blank token, a conflict for a
    token that another group already owns. *)
Definition entry_token (e : string * string) : string := trim_space e.2.

Lemma build_add_step (m : JoinTokens) g tok :
  build_add (m, m) g tok =
  if String.eqb (trim_space tok) "" then Ok (m, m) else
  match m !! trim_space tok with
  | Some prev => if String.eqb prev (eff_group g)
                 then Ok (<[trim_space tok := eff_group g]> m, <[trim_space tok := eff_group g]> m)
                 else Err (ESharedToken prev (eff_group g))
  | None => Ok (<[trim_space tok := eff_group g]> m, <[trim_space tok := eff_group g]> m)
  end.
Proof.
  unfold build_add, tokens_Add. destruct (String.eqb_spec (trim_space tok) "") as [|Hne]; [done|].
  unfold eff_group. destruct (String.eqb_spec (normalize g) "") as [Hg|Hg].
  - by rewrite normalize_default.
  - by rewrite (proj2 (String.eqb_neq _ _) Hg).
Qed.

(** An entry of the list gives the group [g] to the token [tok]. *)
Definition assigns (l : list (string * string)) (tok g : string) : Prop :=
  tok ≠ ""%string ∧ ∃ e, e ∈ l ∧ trim_space e.2 = tok ∧ eff_group e.1 = g.

Lemma assigns_nil tok g : ¬ assigns [] tok g.
Proof. intros (_ & ? & H & _). by apply elem_of_nil in H. Qed.

Lemma assigns_cons e l tok g :
  assigns (e :: l) tok g ↔
  (tok ≠ ""%string ∧ trim_space e.2 = tok ∧ eff_group e.1 = g) ∨ assigns l tok g.
Proof. unfold assigns. setoid_rewrite elem_of_cons. naive_solver. Qed.

(** Two different groups want one token. *)
Definition conflict (P : string → string → Prop) : Prop :=
  ∃ tok g1 g2, g1 ≠ g2 ∧ P tok g1 ∧ P tok g2.

Lemma build_loop_spec l (m : JoinTokens) :
  match build_loop (m, m) l with
  | Ok st => ∃ m', st = (m', m') ∧
      ∀ tok g, m' !! tok = Some g ↔ m !! tok = Some g ∨ assigns l tok g
  | Err _ => conflict (λ tok g, m !! tok = Some g ∨ assigns l tok g)
  end.
Proof.
  revert m. induction l as [|[g tok] l IH]; intros m; cbn [build_loop].
  { exists m. split; [done|]. intros t g. pose proof (assigns_nil t g). naive_solver. }
  rewrite build_add_step.
  destruct (String.eqb_spec (trim_space tok) "") as [Hblank|Hne]; cbn [result_bind].
  - specialize (IH m). assert (∀ t g', assigns ((g, tok) :: l) t g' ↔ assigns l t g') as Hcons.
    { intros t g'. rewrite assigns_cons. simpl. naive_solver. }
    destruct (build_loop (m, m) l) as [st|e]; unfold conflict in *; by setoid_rewrite Hcons.
  - assert (∀ m' : JoinTokens, m' = <[trim_space tok := eff_group g]> m →
      (∀ prev, m !! trim_space tok = Some prev → prev = eff_group g) →
      ∀ t g', (m' !! t = Some g' ∨ assigns l t g') ↔
              (m !! t = Some g' ∨ assigns ((g, tok) :: l) t g')) as Hins.
    { intros m' -> Hprev t g'. rewrite assigns_cons, lookup_insert_Some. simpl.
      destruct (decide (trim_space tok = t)) as [<-|]; naive_solver. }
    assert (∀ m' : JoinTokens, m' = <[trim_space tok := eff_group g]> m →
      (∀ prev, m !! trim_space tok = Some prev → prev = eff_group g) →
      match build_loop (m', m') l with
      | Ok st => ∃ m'', st = (m'', m'') ∧
          ∀ tok' g', m'' !! tok' = Some g' ↔ m !! tok' = Some g' ∨ assigns ((g, tok) :: l) tok' g'
      | Err _ => conflict (λ tok' g', m !! tok' = Some g' ∨ assigns ((g, tok) :: l) tok' g')
      end) as Hgo.
    { intros m' Hm' Hprev. specialize (IH m'). pose proof (Hins m' Hm' Hprev) as Hiff.
      destruct (build_loop (m', m') l) as [st|e]; unfold conflict in *.
      - destruct IH as (m'' & ? & IH). exists m''. split; [done|]. intros. by rewrite IH, Hiff.
      - destruct IH as (t & g1 & g2 & ? & ?%Hiff & ?%Hiff). by exists t, g1, g2. }
    destruct (m !! trim_space tok) as [prev|] eqn:Hm.
    + destruct (String.eqb_spec prev (eff_group g)) as [->|Hdiff]; cbn [result_bind].
      * apply Hgo; [done|]. congruence.
      * exists (trim_space tok), prev, (eff_group g). split; [done|]. split; [by left|].
        right. apply assigns_cons. by left.
    + cbn [result_bind]. apply Hgo; [done|]. congruence.
Qed.

(** The entries [BuildJoinTokens] adds, in its order. *)
Definition token_entries (d : string) (gt : gmap string string) : list (string * string) :=
  (DefaultGroup, d) ::
  ((λ g, (g, default ""%string (gt !! g))) <$> sort_strings (map_to_list gt).*1).

Lemma BuildJoinTokens_loop d gt :
  BuildJoinTokens d gt = let! st := build_loop (∅, ∅) (token_entries d gt) in Ok st.1.
Proof.
  unfold BuildJoinTokens, token_entries. cbn [build_loop].
  by destruct (build_add (∅, ∅) DefaultGroup d).
Qed.

Lemma elem_of_sort_strings x l : x ∈ sort_strings l ↔ x ∈ l.
Proof. unfold sort_strings. by rewrite (merge_sort_Permutation String.le l). Qed.

Lemma elem_of_token_entries d gt g t :
  (g, t) ∈ token_entries d gt ↔ (g = DefaultGroup ∧ t = d) ∨ gt !! g = Some t.
Proof.
  unfold token_entries. rewrite elem_of_cons, list_elem_of_fmap.
  setoid_rewrite elem_of_sort_strings. setoid_rewrite list_elem_of_fmap. split.
  - intros [?|(k & ? & [k' v] & ? & Hv)]; [naive_solver|]. simplify_eq/=.
    apply elem_of_map_to_list in Hv. rewrite Hv. by right.
  - intros [[-> ->]|Hg]; [by left|right]. exists g. rewrite Hg. split; [done|].
    exists (g, t). split; [done|]. by apply elem_of_map_to_list.
Qed.

(** The configuration puts the token [tok] in group [g]. *)
Definition configured (d : string) (gt : gmap string string) (tok g : string) : Prop :=
  tok ≠ ""%string ∧ ∃ grp t, trim_space t = tok ∧ eff_group grp = g ∧
    ((grp = DefaultGroup ∧ t = d) ∨ gt !! grp = Some t).

Lemma assigns_configured d gt tok g : assigns (token_entries d gt) tok g ↔ configured d gt tok g.
Proof.
  unfold assigns, configured. split.
  - intros (? & [g' t] & ?%elem_of_token_entries & ? & ?). eauto 10.
  - intros (? & grp & t & ? & ? & H). split; [done|]. exists (grp, t).
    by rewrite elem_of_token_entries.
Qed.

(** A join token admits to exactly the group the configuration gives it, and a
    configuration in which two groups share a token is refused. *)
Theorem BuildJoinTokens_correct d gt :
  match BuildJoinTokens d gt with
  | Ok t => ∀ tok g, tokens_Group t tok = Some g ↔ configured d gt tok g
  | Err _ => conflict (configured d gt)
  end.
Proof.
  rewrite BuildJoinTokens_loop. pose proof (build_loop_spec (token_entries d gt) ∅) as H.
  destruct (build_loop (∅, ∅) (token_entries d gt)) as [st|e]; cbn [result_bind].
  - destruct H as (m & -> & H). intros tok g. cbn [fst].
    assert (∀ t g', m !! t = Some g' ↔ configured d gt t g') as Hm.
    { intros t g'. rewrite H, assigns_configured, lookup_empty. naive_solver. }
    unfold tokens_Group. destruct (String.eqb_spec tok "") as [->|Hne].
    { split; [done|]. by intros [? _]. }
    rewrite <-Hm. destruct (m !! tok) as [g'|] eqn:Hg; [|done].
    apply Hm in Hg as (_ & grp & t & _ & <- & _). destruct (eff_group_normal grp) as [Hn Hne'].
    by rewrite (proj2 (String.eqb_neq _ _) Hne'), Hn.
  - destruct H as (tok & g1 & g2 & ? & [|H1] & [|H2]); simplify_map_eq.
    exists tok, g1, g2. by rewrite <-!assigns_configured.
Qed.

Lemma ParseRule_String_witness :
  ParseRule (rule_String (MkRule ["dev"; "ops"] ["*"])) = Ok (MkRule ["dev"; "ops"] ["*"]).
Proof.
  apply (ParseRule_String (MkRule ["dev"; "ops"] ["*"])); [done..| |];
    repeat constructor; by vm_compute.
Defined.

Lemma policy_Connected_sym_witness :
  policy_Connected (Some (MkPolicy [MkRule ["dev"] ["ops"]])) " Dev" "ops" =
  policy_Connected (Some (MkPolicy [MkRule ["dev"] ["ops"]])) "OPS" "dev".
Proof. apply policy_Connected_sym; by vm_compute. Defined.
