(* ===== verification/Proto.v ===== *)
(** * Wire types (shared/proto/proto.go)

    The records exchanged between the control server and its clients. *)
From Stdlib Require Import Ascii String.
From S2P Require Import Prelude.

Record RegisterRequest : Type := MkRegisterRequest {
  rq_Token : string;
  rq_DeviceUUID : string;
  rq_Hostname : string;
  rq_PublicKey : string;
  rq_Endpoint : string;
}.

Record RegisterResponse : Type := MkRegisterResponse {
  rs_NetworkID : string;
  rs_DNSSuffix : string;
  rs_OverlayCIDR : string;
  rs_AssignedIP : string;
  rs_RelayAddr : string;
  rs_NodeToken : string;
}.

Record Peer : Type := MkPeer {
  pr_Hostname : string;
  pr_PublicKey : string;
  pr_AssignedIP : string;
  pr_Endpoint : string;
  pr_Group : string;
}.

Record Service : Type := MkService {
  sv_Name : string;
  sv_Proto : string;
  sv_Port : Z;
  sv_BackendPort : Z;
  sv_NodeIP : string;
  sv_VIP : string;
  sv_AllowGroups : list string;
}.

#[export] Instance register_request_eq_dec : EqDecision RegisterRequest.
Proof. solve_decision. Defined.
#[export] Instance register_response_eq_dec : EqDecision RegisterResponse.
Proof. solve_decision. Defined.
#[export] Instance peer_eq_dec : EqDecision Peer.
Proof. solve_decision. Defined.
#[export] Instance service_eq_dec : EqDecision Service.
Proof. solve_decision. Defined.
