(* ===== verification/Store.v ===== *)
(** * The control server's memory (server/store/store.go)

    One network with its members, indexed by device and by node token, and its
    services by name.  Every method takes the mutex, so each is one step; a [*Member]
    is never written after [Upsert] stored it, so the two indexes hold equal values. *)
From Stdlib Require Import Ascii String.
From S2P Require Import Prelude Proto.

Record Member : Type := MkMember {
  m_DeviceUUID : string;
  m_Hostname : string;
  m_PublicKey : string;
  m_AssignedIP : string;
  m_Endpoint : string;
  m_JoinedAt : Z;
  m_Token : string;
  m_Group : string;
}.

#[export] Instance member_eq_dec : EqDecision Member.
Proof. solve_decision. Defined.

(** [store.Service] has the fields of [proto.Service]. *)
Record Network : Type := MkNetwork {
  n_ID : string;
  n_DNSSuffix : string;
  n_OverlayCIDR : string;
  members : gmap string Member;
  byToken : gmap string Member;
  services : gmap string Service;
}.

Definition NewNetwork (id dnsSuffix overlayCIDR : string) : Network :=
  MkNetwork id dnsSuffix overlayCIDR ∅ ∅ ∅.

Definition Upsert (n : Network) (m : Member) : Network :=
  let byToken1 := match members n !! m_DeviceUUID m with
                  | Some prev => if String.eqb (m_Token prev) "" then byToken n
                                 else delete (m_Token prev) (byToken n)
                  | None => byToken n
                  end in
  let byToken2 := if String.eqb (m_Token m) "" then byToken1
                  else <[m_Token m := m]> byToken1 in
  MkNetwork (n_ID n) (n_DNSSuffix n) (n_OverlayCIDR n)
    (<[m_DeviceUUID m := m]> (members n)) byToken2 (services n).

Definition MemberByToken (n : Network) (token : string) : option Member :=
  if String.eqb token "" then None else byToken n !! token.

(** A Go map yields its entries in an unspecified order: [l] is the members in the
    order of one iteration. *)
Definition MemberByIP_in (l : list Member) (ip : string) : option Member :=
  if String.eqb ip "" then None else snd <$> list_find (λ m, m_AssignedIP m = ip) l.

Definition Members (n : Network) : list Member := (map_to_list (members n)).*2.

Definition MemberByIP (n : Network) (ip : string) : option Member := MemberByIP_in (Members n) ip.

Definition UpsertService (n : Network) (s : Service) : Network :=
  MkNetwork (n_ID n) (n_DNSSuffix n) (n_OverlayCIDR n) (members n) (byToken n)
    (<[sv_Name s := s]> (services n)).

Definition Services (n : Network) : list Service := (map_to_list (services n)).*2.

(** ** The indexes agree *)

Record net_ok (n : Network) : Prop := {
  net_member_key : ∀ d m, members n !! d = Some m → m_DeviceUUID m = d;
  net_token : ∀ t m, byToken n !! t = Some m ↔
                members n !! m_DeviceUUID m = Some m ∧ m_Token m = t ∧ t ≠ ""%string;
  net_service_key : ∀ k s, services n !! k = Some s → sv_Name s = k;
}.

Lemma NewNetwork_ok id suf cidr : net_ok (NewNetwork id suf cidr).
Proof. split; simpl; [done| |done]. intros t m. by rewrite !lookup_empty; split; [|intros [? _]]. Qed.

(** The token is not another device's. *)
Definition token_free (n : Network) (m : Member) : Prop :=
  ∀ m', byToken n !! m_Token m = Some m' → m_DeviceUUID m' = m_DeviceUUID m.

Lemma Upsert_ok n m : net_ok n → token_free n m → net_ok (Upsert n m).
Proof.
  intros [Hk Ht Hs] Hfree. split; simpl; [| |done].
  { intros d m'. rewrite lookup_insert_Some. naive_solver. }
  intros t m'. set (bt := match members n !! m_DeviceUUID m with Some _ => _ | None => _ end).
  assert (∀ t m', bt !! t = Some m' ↔
            byToken n !! t = Some m' ∧ m_DeviceUUID m' ≠ m_DeviceUUID m) as Hbt.
  { clear t m'. intros t m'. unfold bt. destruct (members n !! m_DeviceUUID m) as [prev|] eqn:Hp.
    - pose proof (Hk _ _ Hp) as Hpk.
      destruct (String.eqb_spec (m_Token prev) "") as [He|He].
      + split; [|naive_solver]. intros H. split; [done|]. intros Heq.
        apply Ht in H as (Hm & ? & ?). congruence.
      + rewrite lookup_delete_Some, Ht. split.
        * intros (Hne & Hm & ? & ?). split; [done|]. congruence.
        * intros [(Hm & Htok & ?) Hne]. split; [|done]. intros Heq.
          assert (byToken n !! t = Some prev) as H1 by (apply Ht; rewrite Hpk; naive_solver).
          assert (byToken n !! t = Some m') as H2 by (apply Ht; naive_solver).
          congruence.
    - split; [|naive_solver]. intros H. split; [done|]. apply Ht in H as (Hm & _ & _). congruence. }
  destruct (String.eqb_spec (m_Token m) "") as [He|He].
  - rewrite Hbt, Ht, lookup_insert_Some. naive_solver.
  - rewrite !lookup_insert_Some, Hbt, Ht. split.
    + intros [[<- <-]|(Hne & (Hm & ? & ?) & Hd)]; [naive_solver|].
      split_and!; [|done..]. by right.
    + intros ([[Hd <-]|[Hd Hm]] & <- & Hne); [by left|].
      destruct (decide (m_Token m = m_Token m')) as [Heq|]; [|right; naive_solver].
      exfalso. apply Hd. symmetry. apply Hfree. rewrite Heq. by apply Ht.
Qed.

Lemma UpsertService_ok n s : net_ok n → net_ok (UpsertService n s).
Proof.
  intros [Hk Ht Hs]. split; simpl; [done..|]. intros k s'. rewrite lookup_insert_Some. naive_solver.
Qed.

(** A registration replaces the device's node token: the new one finds the member, the
    device's earlier token finds nobody, and every other token finds whom it found. *)
Lemma Upsert_lookup n m t :
  net_ok n → token_free n m → m_Token m ≠ ""%string →
  MemberByToken (Upsert n m) t =
    if bool_decide (t = m_Token m) then Some m
    else match MemberByToken n t with
         | Some m' => if bool_decide (m_DeviceUUID m' = m_DeviceUUID m) then None else Some m'
         | None => None
         end.
Proof.
  intros Hn Hfree Hne. pose proof (Upsert_ok n m Hn Hfree) as [Hk' Ht' _].
  pose proof Hn as [Hk Ht _]. unfold MemberByToken.
  destruct (String.eqb_spec t "") as [->|Hte]; [by rewrite bool_decide_eq_false_2|].
  case_bool_decide as Heq.
  - apply Ht'. simpl. subst. by rewrite lookup_insert_eq.
  - apply option_eq. intros x. rewrite Ht'. simpl. rewrite lookup_insert_Some.
    destruct (byToken n !! t) as [m'|] eqn:Hm.
    + apply Ht in Hm as (Hm & Hmt & _). case_bool_decide as Hd.
      * split; [|done]. intros ([[_ <-]|[Hd' Hx]] & Htx & _); [done|].
        assert (byToken n !! t = Some x) as H1 by (apply Ht; naive_solver).
        assert (byToken n !! t = Some m') as H2 by (apply Ht; naive_solver). congruence.
      * split; [|naive_solver]. intros ([[_ <-]|[Hd' Hx]] & Htx & _); [done|].
        assert (byToken n !! t = Some x) as H1 by (apply Ht; naive_solver).
        assert (byToken n !! t = Some m') as H2 by (apply Ht; naive_solver). congruence.
    + split; [|done]. intros ([[_ <-]|[Hd' Hx]] & Htx & _); [done|].
      assert (byToken n !! t = Some x) as H1 by (apply Ht; naive_solver). congruence.
Qed.
