(* ===== verification/Api.v ===== *)
(** * The control API (server/api/api.go)

    The HTTP handlers over one network.  A handler takes the server's state and the
    request and returns the new state and the response.  What a handler reads from
    outside is an argument: the bytes [crypto/rand] delivers, the time, the result of
    [encoding/json] on the body (a Section variable), and the order in which a map
    iteration yields its entries (the [_in] definitions).

    [register] and the publishing half of [services] each change the state twice, in two
    steps of the locks that other requests can come between: the address ([..._enter])
    and then the store ([..._leave]). *)
From Stdlib Require Import Ascii String.
From S2P Require Import Prelude Unicode GoString GoStringFacts Netip NetipFacts Pool Acl Proto Store.

Local Open Scope Z_scope.
Local Open Scope zwan_scope.

Record Request : Type := MkRequest {
  r_Method : string;
  r_Path : string;
  r_Authorization : string;   (** [r.Header.Get("Authorization")] *)
  r_Body : string;
}.

Inductive Body : Type :=
| BHealth (fields : list (string * string))
| BRegister (r : RegisterResponse)
| BPeers (l : list Peer)
| BServices (l : list Service)
| BService (s : Service)
| BError (msg : string).

Record Response : Type := MkResponse { status : Z; body : Body }.

#[export] Instance body_eq_dec : EqDecision Body.
Proof. solve_decision. Defined.
#[export] Instance response_eq_dec : EqDecision Response.
Proof. solve_decision. Defined.

Definition writeErr (code : Z) (msg : string) : Response := MkResponse code (BError msg).

(** The credential of an Authorization header. *)
Definition bearer (r : Request) : string :=
  let h := r_Authorization r in
  if (String.length h <=? 7)%nat || negb (equal_fold (substring 0 7 h) "Bearer ") then ""
  else trim_space (substring 7 (String.length h - 7) h).

Definition cleanGroups (l : list string) : list string :=
  filter (λ g, g ≠ ""%string) (trim_space <$> l).

(** [rand] is what [rand.Read] put into the 32 bytes, [None] when it failed. *)
Definition newNodeToken (rand : option (list Z)) : option string := hex_encode <$> rand.

(** The orders of [sort.Slice]. *)
Definition by_ip (a b : Member) : Prop := String.le (m_AssignedIP a) (m_AssignedIP b).
Definition by_name (a b : Service) : Prop := String.le (sv_Name a) (sv_Name b).

#[export] Instance by_ip_dec : RelDecision by_ip.
Proof. intros a b. unfold by_ip. apply _. Defined.
#[export] Instance by_name_dec : RelDecision by_name.
Proof. intros a b. unfold by_name. apply _. Defined.

#[export] Instance by_ip_total : Total by_ip.
Proof. intros a b. unfold by_ip. apply String.le_total. Qed.
#[export] Instance by_ip_trans : Transitive by_ip.
Proof. intros a b c. unfold by_ip. apply String.le_po. Qed.
#[export] Instance by_name_total : Total by_name.
Proof. intros a b. unfold by_name. apply String.le_total. Qed.
#[export] Instance by_name_trans : Transitive by_name.
Proof. intros a b c. unfold by_name. apply String.le_po. Qed.

Definition peer_of (m : Member) : Peer :=
  MkPeer (m_Hostname m) (m_PublicKey m) (m_AssignedIP m) (m_Endpoint m) (m_Group m).

Set Default Proof Using "Type".
Section Api.
Context {A E : Type} `{P : Pool A E}.
Context (decodeRegister : string → option RegisterRequest).
Context (decodeService : string → option Service).
Context (ProductName Version : string).

Record Server : Type := MkServer {
  net : Network;
  nodeIPs : A;
  serviceIPs : A;
  tokens : JoinTokens;
  policy : option Policy;
  relayAddr : string;
}.

(** [New]: a nil token table becomes an empty one. *)
Definition New (n : Network) (nodes services : A) (toks : option JoinTokens)
    (pol : option Policy) (relay : string) : Server :=
  MkServer n nodes services (default ∅ toks) pol relay.

Definition set_net (s : Server) (n : Network) : Server :=
  MkServer n (nodeIPs s) (serviceIPs s) (tokens s) (policy s) (relayAddr s).
Definition set_nodeIPs (s : Server) (a : A) : Server :=
  MkServer (net s) a (serviceIPs s) (tokens s) (policy s) (relayAddr s).
Definition set_serviceIPs (s : Server) (a : A) : Server :=
  MkServer (net s) (nodeIPs s) a (tokens s) (policy s) (relayAddr s).

Definition health : Response :=
  MkResponse 200 (BHealth [("status", "ok"); ("product", ProductName);
                           ("component", "zwan-server"); ("version", Version)]).

(** ** Registration *)

(** Up to the call of [Allocate]: an answer, or what the rest of the handler uses. *)
Definition register_enter (s : Server) (r : Request)
  : Server * (Response + RegisterRequest * string * Addr) :=
  if negb (String.eqb (r_Method r) "POST") then (s, inl (writeErr 405 "POST only")) else
  match decodeRegister (r_Body r) with
  | None => (s, inl (writeErr 400 "invalid JSON body"))
  | Some req =>
    match tokens_Group (tokens s) (rq_Token req) with
    | None => (s, inl (writeErr 401 "invalid token"))
    | Some group =>
      if String.eqb (rq_DeviceUUID req) "" || String.eqb (rq_PublicKey req) ""
      then (s, inl (writeErr 400 "device_uuid and public_key are required")) else
      let '(a, res) := pool_alloc (nodeIPs s) (rq_DeviceUUID req) in
      let s := set_nodeIPs s a in
      match res with
      | Err e => (s, inl (writeErr 503 (pool_error e)))
      | Ok ip => (s, inr (req, group, ip))
      end
    end
  end.

Definition register_leave (s : Server) (x : RegisterRequest * string * Addr)
    (rand : option (list Z)) (now : Z) : Server * Response :=
  let '(req, group, ip) := x in
  match newNodeToken rand with
  | None => (s, writeErr 500 "could not issue a node token")
  | Some nodeToken =>
    let m := MkMember (rq_DeviceUUID req) (rq_Hostname req) (rq_PublicKey req) (addr_String ip)
                      (rq_Endpoint req) now nodeToken group in
    let s := set_net s (Upsert (net s) m) in
    (s, MkResponse 200 (BRegister (MkRegisterResponse (n_ID (net s)) (n_DNSSuffix (net s))
          (n_OverlayCIDR (net s)) (addr_String ip) (relayAddr s) nodeToken)))
  end.

Definition register (s : Server) (r : Request) (rand : option (list Z)) (now : Z)
  : Server * Response :=
  let '(s, x) := register_enter s r in
  match x with
  | inl resp => (s, resp)
  | inr x => register_leave s x rand now
  end.

(** ** Listings *)

Definition caller (s : Server) (r : Request) : result Response Member :=
  match MemberByToken (net s) (bearer r) with
  | None => Err (writeErr 401 "a node token is required; register first")
  | Some m => Ok m
  end.

Definition visiblePeer (s : Server) (c m : Member) : bool :=
  bool_decide (m_DeviceUUID m = m_DeviceUUID c) || policy_Connected (policy s) (m_Group c) (m_Group m).

Definition peers_in (s : Server) (ms : list Member) (r : Request) : Response :=
  match caller s r with
  | Err e => e
  | Ok c => MkResponse 200 (BPeers
      (peer_of <$> filter (λ m, visiblePeer s c m = true) (merge_sort by_ip ms)))
  end.

Definition peers (s : Server) (r : Request) : Response := peers_in s (Members (net s)) r.

Definition visibleService_in (s : Server) (ms : list Member) (c : Member) (sv : Service) : bool :=
  if bool_decide (sv_NodeIP sv = m_AssignedIP c) then true else
  match MemberByIP_in ms (sv_NodeIP sv) with
  | None => false
  | Some hostMember =>
    if negb (policy_Connected (policy s) (m_Group c) (m_Group hostMember)) then false
    else AllowsGroup (sv_AllowGroups sv) (m_Group c)
  end.

(** Each call of [visibleService] iterates over the members anew. *)
Definition services_get_in (s : Server) (svs : list Service) (mss : Service → list Member)
    (r : Request) : Response :=
  match caller s r with
  | Err e => e
  | Ok c => MkResponse 200 (BServices
      (merge_sort by_name (filter (λ sv, visibleService_in s (mss sv) c sv = true) svs)))
  end.

Definition services_get (s : Server) (r : Request) : Response :=
  services_get_in s (Services (net s)) (λ _, Members (net s)) r.

(** ** Publishing *)

Definition publish_enter (s : Server) (r : Request) : Server * (Response + Service) :=
  match caller s r with
  | Err e => (s, inl e)
  | Ok c =>
    match decodeService (r_Body r) with
    | None => (s, inl (writeErr 400 "invalid JSON body"))
    | Some req =>
      if String.eqb (sv_Name req) "" || (sv_Port req =? 0)
      then (s, inl (writeErr 400 "name and port are required")) else
      if negb (String.eqb (sv_NodeIP req) "") && negb (String.eqb (sv_NodeIP req) (m_AssignedIP c))
      then (s, inl (writeErr 403 "a service must be published on the calling node")) else
      let nodeIP := if String.eqb (sv_NodeIP req) "" then m_AssignedIP c else sv_NodeIP req in
      let protocol := if String.eqb (sv_Proto req) "" then "tcp"%string else sv_Proto req in
      let '(a, res) := pool_alloc (serviceIPs s) (sv_Name req) in
      let s := set_serviceIPs s a in
      match res with
      | Err e => (s, inl (writeErr 503 (pool_error e)))
      | Ok vip => (s, inr (MkService (sv_Name req) protocol (sv_Port req) (sv_BackendPort req)
                             nodeIP (addr_String vip) (cleanGroups (sv_AllowGroups req))))
      end
    end
  end.

Definition publish_leave (s : Server) (svc : Service) : Server * Response :=
  (set_net s (UpsertService (net s) svc), MkResponse 200 (BService svc)).

Definition publish (s : Server) (r : Request) : Server * Response :=
  let '(s, x) := publish_enter s r in
  match x with
  | inl resp => (s, resp)
  | inr svc => publish_leave s svc
  end.

(** [Server.services]. *)
Definition services_handler (s : Server) (r : Request) : Server * Response :=
  if String.eqb (r_Method r) "GET" then (s, services_get s r)
  else if String.eqb (r_Method r) "POST" then publish s r
  else (s, writeErr 405 "GET or POST only").

(** [Routes]: [None] for a path the mux answers itself. *)
Definition Routes (s : Server) (r : Request) (rand : option (list Z)) (now : Z)
  : Server * option Response :=
  if String.eqb (r_Path r) "/healthz" then (s, Some health)
  else if String.eqb (r_Path r) "/v1/register" then
    let '(s, resp) := register s r rand now in (s, Some resp)
  else if String.eqb (r_Path r) "/v1/peers" then (s, Some (peers s r))
  else if String.eqb (r_Path r) "/v1/services" then
    let '(s, resp) := services_handler s r in (s, Some resp)
  else (s, None).

(** ** Requests that interleave

    The state and, for every request between its two locked steps, what it carries. *)
Definition pending : Type := (RegisterRequest * string * Addr) + Service.

(** Fresh randomness: 32 bytes whose token nobody holds. *)
Definition rand_ok (s : Server) (rand : option (list Z)) : Prop :=
  ∀ b, rand = Some b → length b = 32%nat ∧ byToken (net s) !! hex_encode b = None.

Inductive step : Server * list pending → Server * list pending → Prop :=
| step_register_answer s ps r s' resp :
    register_enter s r = (s', inl resp) → step (s, ps) (s', ps)
| step_register_enter s ps r s' x :
    register_enter s r = (s', inr x) → step (s, ps) (s', inl x :: ps)
| step_register_leave s ps1 ps2 x rand now :
    rand_ok s rand →
    step (s, ps1 ++ inl x :: ps2) ((register_leave s x rand now).1, ps1 ++ ps2)
| step_publish_answer s ps r s' resp :
    publish_enter s r = (s', inl resp) → step (s, ps) (s', ps)
| step_publish_enter s ps r s' svc :
    publish_enter s r = (s', inr svc) → step (s, ps) (s', inr svc :: ps)
| step_publish_leave s ps1 ps2 svc :
    step (s, ps1 ++ inr svc :: ps2) ((publish_leave s svc).1, ps1 ++ ps2).

(** ** The invariant *)

Definition member_ok (s : Server) (m : Member) : Prop :=
  m_DeviceUUID m ≠ ""%string ∧ m_PublicKey m ≠ ""%string ∧ m_Token m ≠ ""%string ∧
  (∃ tok, tokens_Group (tokens s) tok = Some (m_Group m)) ∧
  ∃ ip, pool_map (nodeIPs s) !! m_DeviceUUID m = Some ip ∧ m_AssignedIP m = addr_String ip.

Definition service_ok (s : Server) (sv : Service) : Prop :=
  sv_Name sv ≠ ""%string ∧ sv_Port sv ≠ 0 ∧ sv_Proto sv ≠ ""%string ∧
  (∃ ip, pool_map (serviceIPs s) !! sv_Name sv = Some ip ∧ sv_VIP sv = addr_String ip) ∧
  ∃ d m, members (net s) !! d = Some m ∧ sv_NodeIP sv = m_AssignedIP m.

Definition pending_ok (s : Server) (p : pending) : Prop :=
  match p with
  | inl (req, group, ip) =>
      rq_DeviceUUID req ≠ ""%string ∧ rq_PublicKey req ≠ ""%string ∧
      (∃ tok, tokens_Group (tokens s) tok = Some group) ∧
      pool_map (nodeIPs s) !! rq_DeviceUUID req = Some ip
  | inr svc => service_ok s svc
  end.

Record server_ok (s : Server) : Prop := {
  ok_net : net_ok (net s);
  ok_nodes : pool_ok (nodeIPs s);
  ok_serviceIPs : pool_ok (serviceIPs s);
  ok_disjoint : pools_disjoint (nodeIPs s) (serviceIPs s);
  ok_member : ∀ d m, members (net s) !! d = Some m → member_ok s m;
  ok_service : ∀ k sv, services (net s) !! k = Some sv → service_ok s sv;
}.

(** What a step keeps: the configuration, every address given, every member's address. *)
Record extends (s s' : Server) : Prop := {
  ext_tokens : tokens s' = tokens s;
  ext_policy : policy s' = policy s;
  ext_nodes : pool_map (nodeIPs s) ⊆ pool_map (nodeIPs s');
  ext_services : pool_map (serviceIPs s) ⊆ pool_map (serviceIPs s');
  ext_members : ∀ d m, members (net s) !! d = Some m →
    ∃ m', members (net s') !! d = Some m' ∧ m_AssignedIP m' = m_AssignedIP m;
}.

#[export] Instance extends_preorder : PreOrder extends.
Proof.
  split; [by intros s; split; eauto|]. intros s1 s2 s3 [? ? ? ? H1] [? ? ? ? H2].
  split; [congruence..|by etrans|by etrans|].
  intros d m (m' & Hm' & <-)%H1. by apply H2.
Qed.

Lemma member_ok_extends s s' m : extends s s' → member_ok s m → member_ok s' m.
Proof.
  intros [Ht _ Hn _ _]. unfold member_ok. rewrite Ht. intros (? & ? & ? & ? & ip & ? & ?).
  split_and!; try done. exists ip. split; [|done]. by eapply lookup_weaken.
Qed.

Lemma service_ok_extends s s' sv : extends s s' → service_ok s sv → service_ok s' sv.
Proof.
  intros [_ _ _ Hv Hm]. intros (? & ? & ? & (ip & ? & ?) & d & m & Hd & Hip).
  split_and!; try done.
  - exists ip. split; [|done]. by eapply lookup_weaken.
  - apply Hm in Hd as (m' & ? & Hm'). exists d, m'. by rewrite Hm'.
Qed.

Lemma pending_ok_extends s s' p : extends s s' → pending_ok s p → pending_ok s' p.
Proof.
  intros He. destruct p as [[[req group] ip]|svc]; [|by apply service_ok_extends].
  pose proof He as [Ht _ Hn _ _]. simpl. rewrite Ht. intros (? & ? & ? & ?).
  split_and!; try done. by eapply lookup_weaken.
Qed.

Lemma caller_cases s r :
  (caller s r = Err (writeErr 401 "a node token is required; register first") ∧
   MemberByToken (net s) (bearer r) = None) ∨
  ∃ c, caller s r = Ok c ∧ MemberByToken (net s) (bearer r) = Some c.
Proof. unfold caller. destruct (MemberByToken (net s) (bearer r)); eauto. Qed.

Lemma caller_member s r c :
  server_ok s → caller s r = Ok c → members (net s) !! m_DeviceUUID c = Some c.
Proof.
  intros Hs Hc. destruct (caller_cases s r) as [[Hn _]|(c' & Hc' & Hm)]; [congruence|].
  assert (c' = c) as -> by congruence. unfold MemberByToken in Hm.
  destruct (String.eqb (bearer r) ""); [done|].
  by apply (net_token _ (ok_net _ Hs)) in Hm as [? _].
Qed.

(** ** Every step keeps the invariant *)

(** [s'] is a good state that [s] led to. *)
Definition good_step (s s' : Server) : Prop := server_ok s' ∧ extends s s'.

Lemma good_step_refl s : server_ok s → good_step s s.
Proof. intros Hs. split; [done|reflexivity]. Qed.

Lemma set_nodeIPs_ok s k a res :
  server_ok s → pool_alloc (nodeIPs s) k = (a, res) → good_step s (set_nodeIPs s a).
Proof.
  intros [? Hn Hv Hdis Hm Hsv] Ha.
  destruct (pool_alloc_grows _ _ _ _ Hn Ha) as (? & ? & Hrange & _).
  assert (extends s (set_nodeIPs s a)) as Hext by (split; simpl; eauto).
  split; [|done]. split; simpl; [done..| | |].
  - intros y Hy. apply Hdis. by apply Hrange.
  - intros d m Hd. eapply member_ok_extends; eauto.
  - intros d m Hd. eapply service_ok_extends; eauto.
Qed.

Lemma set_serviceIPs_ok s k a res :
  server_ok s → pool_alloc (serviceIPs s) k = (a, res) → good_step s (set_serviceIPs s a).
Proof.
  intros [? Hn Hv Hdis Hm Hsv] Ha.
  destruct (pool_alloc_grows _ _ _ _ Hv Ha) as (? & ? & Hrange & _).
  assert (extends s (set_serviceIPs s a)) as Hext by (split; simpl; eauto).
  split; [|done]. split; simpl; [done..| | |].
  - intros y Hy1 Hy2. apply (Hdis y); [done|]. by apply Hrange.
  - intros d m Hd. eapply member_ok_extends; eauto.
  - intros d m Hd. eapply service_ok_extends; eauto.
Qed.

Lemma register_enter_ok s r s' x :
  server_ok s → register_enter s r = (s', x) →
  good_step s s' ∧ net s' = net s ∧ ∀ y, x = inr y → pending_ok s' (inl y).
Proof.
  intros Hs. pose proof (good_step_refl s Hs). unfold register_enter.
  case_match; [by intros [= <- <-]|].
  destruct (decodeRegister (r_Body r)) as [req|]; [|by intros [= <- <-]].
  case_match eqn:Hg; [|by intros [= <- <-]].
  case_match eqn:Hkeys; [by intros [= <- <-]|].
  apply orb_false_iff in Hkeys as [Hd%String.eqb_neq Hk%String.eqb_neq].
  destruct (pool_alloc (nodeIPs s) _) as [a res] eqn:Ha.
  pose proof (set_nodeIPs_ok _ _ _ _ Hs Ha).
  destruct (pool_alloc_grows _ _ _ _ (ok_nodes _ Hs) Ha) as (_ & _ & _ & Hip).
  destruct res as [ip|e]; intros [= <- <-]; split_and!; try done.
  intros y [= <-]. split_and!; try done; [by eexists|by apply Hip].
Qed.

Lemma publish_enter_ok s r s' x :
  server_ok s → publish_enter s r = (s', x) →
  good_step s s' ∧ net s' = net s ∧ ∀ y, x = inr y → pending_ok s' (inr y).
Proof.
  intros Hs. pose proof (good_step_refl s Hs). unfold publish_enter.
  destruct (caller s r) as [c|e] eqn:Hc; [|by intros [= <- <-]].
  destruct (decodeService (r_Body r)) as [req|]; [|by intros [= <- <-]].
  case_match eqn:Hkeys; [by intros [= <- <-]|].
  apply orb_false_iff in Hkeys as [Hd%String.eqb_neq Hk%Z.eqb_neq].
  case_match eqn:Hnode; [by intros [= <- <-]|].
  destruct (pool_alloc (serviceIPs s) _) as [a res] eqn:Ha.
  pose proof (set_serviceIPs_ok _ _ _ _ Hs Ha).
  destruct (pool_alloc_grows _ _ _ _ (ok_serviceIPs _ Hs) Ha) as (_ & _ & _ & Hip).
  destruct res as [ip|e]; intros [= <- <-]; split_and!; try done.
  intros y [= <-]. split_and!; simpl; try done.
  - by destruct (String.eqb_spec (sv_Proto req) "").
  - eexists; split; [by apply Hip|done].
  - exists (m_DeviceUUID c), c. split; [by eapply caller_member|].
    destruct (String.eqb_spec (sv_NodeIP req) ""); [done|].
    simpl in Hnode. by apply negb_false_iff, String.eqb_eq in Hnode.
Qed.

Lemma hex_encode_nonempty b : length b = 32%nat → hex_encode b ≠ ""%string.
Proof. by destruct b. Qed.

Lemma register_leave_ok s x rand now s' resp :
  server_ok s → pending_ok s (inl x) → rand_ok s rand →
  register_leave s x rand now = (s', resp) → good_step s s'.
Proof.
  intros Hs Hx Hr. unfold register_leave. destruct x as [[req group] ip].
  destruct rand as [b|]; simpl; [|intros [= <- <-]; by apply good_step_refl].
  destruct (Hr b eq_refl) as [Hlen Hfree]. intros [= <- <-]. simpl in Hx.
  destruct Hx as (? & ? & ? & ?). pose proof Hs as [Hnet ? ? ? Hm Hsv].
  set (m := MkMember _ _ _ _ _ _ _ _).
  assert (extends s (set_net s (Upsert (net s) m))) as Hext.
  { split; simpl; try done. intros d m'. destruct (decide (d = m_DeviceUUID m)) as [->|Hne].
    - rewrite lookup_insert_eq. intros Hm'. exists m. split; [done|].
      pose proof (net_member_key _ Hnet _ _ Hm') as Hkey.
      destruct (Hm _ _ Hm') as (_ & _ & _ & _ & ip' & Hip & ->). simpl in *. congruence.
    - rewrite lookup_insert_ne by done. eauto. }
  split; [|done]. split; simpl; try done.
  - apply Upsert_ok; [done|]. intros m' Hm'. simpl in Hm'. congruence.
  - intros d m'. rewrite lookup_insert_Some. intros [[<- <-]|[_ Hd]].
    + split_and!; simpl; try done; [by apply hex_encode_nonempty|eauto].
    + eapply member_ok_extends; eauto.
  - intros k sv Hk. eapply service_ok_extends; eauto.
Qed.

Lemma publish_leave_ok s svc s' resp :
  server_ok s → pending_ok s (inr svc) → publish_leave s svc = (s', resp) → good_step s s'.
Proof.
  intros Hs Hx [= <- <-]. pose proof Hs as [? ? ? ? Hm Hsv].
  assert (extends s (set_net s (UpsertService (net s) svc))) as Hext by (split; simpl; eauto).
  split; [|done]. split; simpl; try done.
  - by apply UpsertService_ok.
  - intros k sv. rewrite lookup_insert_Some. intros [[<- <-]|[_ Hk]];
      (eapply service_ok_extends; [done|]); eauto.
Qed.

Definition sys_ok (x : Server * list pending) : Prop :=
  server_ok x.1 ∧ Forall (pending_ok x.1) x.2.

Lemma step_ok x y : sys_ok x → step x y → sys_ok y.
Proof.
  intros [Hs Hp] Hstep.
  assert (∀ s s' ps, good_step s s' → Forall (pending_ok s) ps → Forall (pending_ok s') ps) as Hmono.
  { intros s s' ps [_ He] Hps. eapply Forall_impl; [exact Hps|]. intros p. by apply pending_ok_extends. }
  destruct Hstep as [s ps r s' resp He|s ps r s' z He|s ps1 ps2 z rand now Hr
                    |s ps r s' resp He|s ps r s' svc He|s ps1 ps2 svc]; simpl in *.
  - apply register_enter_ok in He as (Hg & _ & _); [|done]. split; [apply Hg|eauto].
  - apply register_enter_ok in He as (Hg & _ & Hz); [|done]. split; [apply Hg|].
    constructor; [by apply Hz|eauto].
  - apply Forall_app in Hp as [Hp1 [Hz Hp2]%Forall_cons].
    destruct (register_leave s z rand now) as [s' resp] eqn:He.
    pose proof (register_leave_ok _ _ _ _ _ _ Hs Hz Hr He) as Hg.
    split; [apply Hg|]. simpl. apply Forall_app; eauto.
  - apply publish_enter_ok in He as (Hg & _ & _); [|done]. split; [apply Hg|eauto].
  - apply publish_enter_ok in He as (Hg & _ & Hz); [|done]. split; [apply Hg|].
    constructor; [by apply Hz|eauto].
  - apply Forall_app in Hp as [Hp1 [Hz Hp2]%Forall_cons].
    destruct (publish_leave s svc) as [s' resp] eqn:He.
    pose proof (publish_leave_ok _ _ _ _ Hs Hz He) as Hg.
    injection He as <- <-. split; [apply Hg|]. simpl. apply Forall_app; eauto.
Qed.

Lemma reachable_ok x y : sys_ok x → rtc step x y → sys_ok y.
Proof. intros Hx. induction 1; eauto using step_ok. Qed.

Lemma New_ok id suf cidr nodes svcs toks pol relay :
  pool_ok nodes → pool_ok svcs → pools_disjoint nodes svcs →
  server_ok (New (NewNetwork id suf cidr) nodes svcs toks pol relay).
Proof. intros. by split; simpl; [apply NewNetwork_ok|..]. Qed.

(** ** Addresses identify members and services *)

Lemma member_ip s d m :
  server_ok s → members (net s) !! d = Some m →
  m_DeviceUUID m = d ∧
  ∃ ip, pool_map (nodeIPs s) !! d = Some ip ∧ pool_range (nodeIPs s) ip ∧ m_AssignedIP m = addr_String ip.
Proof.
  intros Hs Hm. pose proof (net_member_key _ (ok_net _ Hs) _ _ Hm) as Hd. subst d.
  destruct (ok_member _ Hs _ _ Hm) as (_ & _ & _ & _ & ip & Hip & ?).
  split; [done|]. exists ip. split_and!; try done.
  eapply pool_map_range; [by apply ok_nodes|done].
Qed.

Lemma service_vip s k sv :
  server_ok s → services (net s) !! k = Some sv →
  sv_Name sv = k ∧
  ∃ ip, pool_map (serviceIPs s) !! k = Some ip ∧ pool_range (serviceIPs s) ip ∧ sv_VIP sv = addr_String ip.
Proof.
  intros Hs Hm. pose proof (net_service_key _ (ok_net _ Hs) _ _ Hm) as Hd. subst k.
  destruct (ok_service _ Hs _ _ Hm) as (_ & _ & _ & (ip & Hip & ?) & _).
  split; [done|]. exists ip. split_and!; try done.
  eapply pool_map_range; [by apply ok_serviceIPs|done].
Qed.

Lemma member_ip_inj s d1 d2 m1 m2 :
  server_ok s → members (net s) !! d1 = Some m1 → members (net s) !! d2 = Some m2 →
  m_AssignedIP m1 = m_AssignedIP m2 → d1 = d2 ∧ m1 = m2.
Proof.
  intros Hs Hm1 Hm2 Heq. destruct (member_ip _ _ _ Hs Hm1) as (_ & ip1 & Hip1 & Hr1 & H1).
  destruct (member_ip _ _ _ Hs Hm2) as (_ & ip2 & Hip2 & Hr2 & H2).
  assert (ip1 = ip2) as <-
    by (apply (pool_string_inj (nodeIPs s) (nodeIPs s)); (congruence || by eauto using ok_nodes)).
  assert (d1 = d2) as <- by (eapply pool_injective; eauto using ok_nodes).
  split; congruence.
Qed.

(** What the clients rely on. *)
Record addresses_ok (n : Network) : Prop := {
  members_differ : ∀ d1 d2 m1 m2, members n !! d1 = Some m1 → members n !! d2 = Some m2 →
    m_AssignedIP m1 = m_AssignedIP m2 → d1 = d2;
  services_differ : ∀ k1 k2 v1 v2, services n !! k1 = Some v1 → services n !! k2 = Some v2 →
    sv_VIP v1 = sv_VIP v2 → k1 = k2;
  kinds_differ : ∀ d m k v, members n !! d = Some m → services n !! k = Some v →
    m_AssignedIP m ≠ sv_VIP v;
  hosted : ∀ k v, services n !! k = Some v →
    ∃ d m, members n !! d = Some m ∧ sv_NodeIP v = m_AssignedIP m;
  credentials : ∀ d m, members n !! d = Some m → MemberByToken n (m_Token m) = Some m;
}.

(** C2: However the requests of a network interleave, from the empty network on: devices
    have different addresses, services have different addresses, no device has a
    service's, every service sits on a member's address, and each member's own token
    finds it. *)
Theorem reachable_addresses id suf cidr nodes svcs toks pol relay s ps :
  pool_ok nodes → pool_ok svcs → pools_disjoint nodes svcs →
  rtc step (New (NewNetwork id suf cidr) nodes svcs toks pol relay, []) (s, ps) →
  addresses_ok (net s).
Proof.
  intros Hn Hv Hdis Hsteps. apply reachable_ok in Hsteps as [Hs _];
    [|by split; [apply New_ok|constructor]]. simpl in Hs.
  split.
  - intros d1 d2 m1 m2 Hm1 Hm2 Heq. by eapply member_ip_inj.
  - intros k1 k2 v1 v2 H1 H2 Heq.
    destruct (service_vip _ _ _ Hs H1) as (_ & ip1 & Hip1 & Hr1 & Hv1).
    destruct (service_vip _ _ _ Hs H2) as (_ & ip2 & Hip2 & Hr2 & Hv2).
    assert (ip1 = ip2) as <-
      by (apply (pool_string_inj (serviceIPs s) (serviceIPs s)); (congruence || by eauto using ok_serviceIPs)).
    apply (pool_injective (serviceIPs s) k1 k2 ip1); eauto using ok_serviceIPs.
  - intros d m k v Hm Hk Heq. destruct (member_ip _ _ _ Hs Hm) as (_ & ip1 & _ & Hr1 & Hi1).
    destruct (service_vip _ _ _ Hs Hk) as (_ & ip2 & _ & Hr2 & Hi2).
    assert (ip1 = ip2) as <-
      by (apply (pool_string_inj (nodeIPs s) (serviceIPs s)); (congruence || by eauto using ok_nodes, ok_serviceIPs)).
    by eapply (ok_disjoint _ Hs).
  - intros k v Hk. by destruct (ok_service _ Hs _ _ Hk) as (_ & _ & _ & _ & ?).
  - intros d m Hm. destruct (ok_member _ Hs _ _ Hm) as (_ & _ & Htok & _).
    unfold MemberByToken. rewrite (proj2 (String.eqb_neq _ _)) by done.
    apply (net_token _ (ok_net _ Hs)). by rewrite (net_member_key _ (ok_net _ Hs) _ _ Hm).
Qed.

(** ** Registration *)

Lemma register_inv s r rand now :
  (∃ s1 resp, register_enter s r = (s1, inl resp) ∧ register s r rand now = (s1, resp)) ∨
  (∃ s1 x, register_enter s r = (s1, inr x) ∧ register s r rand now = register_leave s1 x rand now).
Proof. unfold register. destruct (register_enter s r) as [s1 [resp|x]]; eauto 10. Qed.

Lemma register_enter_success s r s1 req group ip :
  register_enter s r = (s1, inr (req, group, ip)) →
  r_Method r = "POST" ∧ decodeRegister (r_Body r) = Some req ∧
  tokens_Group (tokens s) (rq_Token req) = Some group.
Proof.
  unfold register_enter. destruct (String.eqb_spec (r_Method r) "POST") as [Hm|]; simpl; [|done].
  destruct (decodeRegister (r_Body r)); [|done]. case_match eqn:Hg; [|done].
  case_match; [done|]. destruct (pool_alloc _ _) as [a [ip'|e]]; [|done].
  intros [= <- <- <- <-]. by rewrite Hg.
Qed.

(** Without interference a whole request is a good step. *)
Lemma register_ok s r rand now :
  server_ok s → rand_ok s rand → good_step s (register s r rand now).1.
Proof.
  intros Hs Hr. destruct (register_inv s r rand now) as [(s1 & resp & He & ->)|(s1 & x & He & ->)].
  { by apply register_enter_ok in He as (Hg & _ & _). }
  apply register_enter_ok in He as ([Hs1 Hext] & Hnet & Hx); [|done].
  destruct (register_leave s1 x rand now) as [s2 resp] eqn:Hl.
  eapply register_leave_ok in Hl as [? Hext']; [|done|by apply Hx|].
  - split; [done|by etrans].
  - intros b Hb. rewrite Hnet. by apply Hr.
Qed.

Lemma publish_ok s r : server_ok s → good_step s (publish s r).1.
Proof.
  intros Hs. unfold publish. destruct (publish_enter s r) as [s1 [resp|svc]] eqn:He.
  { by apply publish_enter_ok in He as (Hg & _ & _). }
  apply publish_enter_ok in He as ([Hs1 Hext] & Hnet & Hx); [|done].
  destruct (publish_leave s1 svc) as [s2 resp] eqn:Hl.
  eapply publish_leave_ok in Hl as [? Hext']; [|done|by apply Hx].
  split; [done|by etrans].
Qed.

(** C10: A registration that succeeds was authorized by a join token and puts the device in
    that token's group; the answer's node token finds the device from now on; a
    device that was there keeps its address and loses its old token; no other device
    is touched. *)
Theorem register_grants s r rand now s' rs :
  server_ok s → rand_ok s rand →
  register s r rand now = (s', MkResponse 200 (BRegister rs)) →
  ∃ req m, decodeRegister (r_Body r) = Some req ∧
    tokens_Group (tokens s) (rq_Token req) = Some (m_Group m) ∧
    m_PublicKey m = rq_PublicKey req ∧ m_AssignedIP m = rs_AssignedIP rs ∧
    members (net s') = <[rq_DeviceUUID req := m]> (members (net s)) ∧
    MemberByToken (net s') (rs_NodeToken rs) = Some m ∧
    ∀ d old, members (net s) !! d = Some old →
      if bool_decide (d = rq_DeviceUUID req)
      then m_AssignedIP old = m_AssignedIP m ∧ MemberByToken (net s') (m_Token old) = None
      else MemberByToken (net s') (m_Token old) = Some old.
Proof.
  intros Hs Hr Hreg. destruct (register_inv s r rand now) as [(s1 & resp & He & Heq)|(s1 & x & He & Heq)].
  { exfalso. rewrite Heq in Hreg. revert He. unfold register_enter. injection Hreg as -> ->.
    repeat case_match; intros; simplify_eq. }
  destruct x as [[req group] ip]. pose proof (register_enter_success _ _ _ _ _ _ He) as (_ & Hreq & Hg).
  apply register_enter_ok in He as ([Hs1 Hext] & Hnet & Hx); [|done].
  specialize (Hx _ eq_refl). simpl in Hx. destruct Hx as (_ & _ & _ & Hip).
  rewrite Heq in Hreg. unfold register_leave in Hreg.
  destruct rand as [b|]; simpl in Hreg; [|done]. injection Hreg as <- <-.
  destruct (Hr b eq_refl) as [Hlen Hfree]. pose proof (hex_encode_nonempty b Hlen) as Hne.
  rewrite Hnet. exists req, (MkMember (rq_DeviceUUID req) (rq_Hostname req) (rq_PublicKey req)
    (addr_String ip) (rq_Endpoint req) now (hex_encode b) group). split_and!; [done|exact Hg|done|done|done|..]; simpl.
  - unfold MemberByToken. rewrite (proj2 (String.eqb_neq _ _)) by done. simpl.
    rewrite (proj2 (String.eqb_neq _ _)) by done. apply lookup_insert_eq.
  - intros d old Hold. pose proof (member_ip _ _ _ Hs Hold) as (Hd & ip' & Hip' & _ & Hold').
    assert (MemberByToken (net s) (m_Token old) = Some old ∧ m_Token old ≠ hex_encode b) as [Ht Htne].
    { destruct (ok_member _ Hs _ _ Hold) as (_ & _ & Hne' & _). unfold MemberByToken.
      assert (byToken (net s) !! m_Token old = Some old) as Ht
        by (apply (net_token _ (ok_net _ Hs)); by rewrite Hd).
      rewrite (proj2 (String.eqb_neq _ _)) by done. split; [done|congruence]. }
    set (m := MkMember _ _ _ _ _ _ _ _).
    assert (MemberByToken (Upsert (net s) m) (m_Token old) =
      if bool_decide (m_DeviceUUID old = m_DeviceUUID m) then None else Some old) as Hrot.
    { rewrite (Upsert_lookup (net s) m) by (first [by apply ok_net | done | by intros m'; simpl; rewrite Hfree]).
      rewrite (bool_decide_eq_false_2 (m_Token old = m_Token m)) by exact Htne. by rewrite Ht. }
    rewrite Hrot, Hd. change (m_DeviceUUID m) with (rq_DeviceUUID req).
    destruct (bool_decide (d = rq_DeviceUUID req)) eqn:Hcase; [|done]. split; [|done].
    apply bool_decide_eq_true in Hcase as ->.
    rewrite Hold'. f_equal. pose proof (lookup_weaken _ _ _ _ Hip' (ext_nodes _ _ Hext)). congruence.
Qed.

(** A registration succeeds exactly on a POST of a well-formed body with a join token,
    a device and a key, when an address and randomness are there; a missing join token
    is answered 401; and whatever is refused leaves the store as it was. *)
Theorem register_refusal s r rand now :
  let '(s', resp) := register s r rand now in
  (status resp = 200 ↔
     r_Method r = "POST" ∧ rand ≠ None ∧
     ∃ req, decodeRegister (r_Body r) = Some req ∧ tokens_Group (tokens s) (rq_Token req) ≠ None ∧
       rq_DeviceUUID req ≠ ""%string ∧ rq_PublicKey req ≠ ""%string ∧
       is_ok (pool_alloc (nodeIPs s) (rq_DeviceUUID req)).2 = true) ∧
  (status resp = 401 ↔
     r_Method r = "POST" ∧
     ∃ req, decodeRegister (r_Body r) = Some req ∧ tokens_Group (tokens s) (rq_Token req) = None) ∧
  (status resp ≠ 200 → net s' = net s ∧ ∃ msg, body resp = BError msg).
Proof.
  clear decodeService ProductName Version.
  unfold register, register_enter.
  destruct (String.eqb_spec (r_Method r) "POST"); simpl; [|split_and!; naive_solver].
  destruct (decodeRegister (r_Body r)) as [req|]; simpl; [|split_and!; naive_solver].
  destruct (tokens_Group (tokens s) (rq_Token req)) as [g|] eqn:Hg; simpl; [|split_and!; naive_solver].
  destruct (String.eqb_spec (rq_DeviceUUID req) ""); simpl; [split_and!; naive_solver|].
  destruct (String.eqb_spec (rq_PublicKey req) ""); simpl; [split_and!; naive_solver|].
  destruct (pool_alloc (nodeIPs s) (rq_DeviceUUID req)) as [a [ip|err]] eqn:Ha; simpl.
  - destruct rand as [b|]; simpl.
    + split_and!; [|split; [done|]|done].
      * split; [|done]. intros _. split_and!; [done|done|]. exists req. by rewrite Ha, Hg.
      * intros (_ & ? & [= <-] & ?). congruence.
    + split_and!; [split; [done|]|split; [done|]|by eauto].
      * by intros (_ & ? & _).
      * intros (_ & ? & [= <-] & ?). congruence.
  - split_and!; [split; [done|]|split; [done|]|by eauto].
    + intros (_ & _ & ? & [= <-] & _ & _ & _ & Hok). by rewrite Ha in Hok.
    + intros (_ & ? & [= <-] & ?). congruence.
Qed.

(** ** Who may ask *)

Lemma MemberByToken_None s t :
  server_ok s → MemberByToken (net s) t = None → ∀ d m, members (net s) !! d = Some m → m_Token m ≠ t.
Proof.
  intros Hs Ht d m Hm <-. destruct (ok_member _ Hs _ _ Hm) as (_ & _ & Hne & _).
  unfold MemberByToken in Ht. rewrite (proj2 (String.eqb_neq _ _) Hne) in Ht.
  assert (byToken (net s) !! m_Token m = Some m) as Hm'; [|congruence].
  apply (net_token _ (ok_net _ Hs)). by rewrite (net_member_key _ (ok_net _ Hs) _ _ Hm).
Qed.

Lemma MemberByToken_Some s t m :
  server_ok s → MemberByToken (net s) t = Some m →
  members (net s) !! m_DeviceUUID m = Some m ∧ m_Token m = t ∧ t ≠ ""%string.
Proof.
  intros Hs. unfold MemberByToken. destruct (String.eqb t ""); [done|].
  apply (net_token _ (ok_net _ Hs)).
Qed.

Lemma publish_cases s r c :
  caller s r = Ok c →
  (∃ s' code msg, publish s r = (s', writeErr code msg) ∧ code ∈ [400; 403; 503] ∧ net s' = net s) ∨
  ∃ s' req vip, decodeService (r_Body r) = Some req ∧
    sv_NodeIP req ∈ [""%string; m_AssignedIP c] ∧
    pool_alloc (serviceIPs s) (sv_Name req) = (serviceIPs s', Ok vip) ∧
    s' = set_serviceIPs s (serviceIPs s') ∧
    publish s r = publish_leave s' (MkService (sv_Name req)
      (if String.eqb (sv_Proto req) "" then "tcp"%string else sv_Proto req) (sv_Port req)
      (sv_BackendPort req) (m_AssignedIP c) (addr_String vip) (cleanGroups (sv_AllowGroups req))).
Proof.
  clear decodeRegister ProductName Version.
  intros Hc. unfold publish, publish_enter. rewrite Hc.
  destruct (decodeService (r_Body r)) as [req|]; [|left; repeat eexists; set_solver].
  destruct (String.eqb (sv_Name req) "" || _); [left; repeat eexists; set_solver|].
  destruct (String.eqb_spec (sv_NodeIP req) "") as [Hn|Hn]; simpl.
  2: destruct (String.eqb_spec (sv_NodeIP req) (m_AssignedIP c)) as [Hi|Hi]; simpl;
    [|left; repeat eexists; set_solver].
  all: destruct (pool_alloc (serviceIPs s) (sv_Name req)) as [a [vip|err]] eqn:Ha;
    [|left; repeat eexists; set_solver].
  all: right; exists (set_serviceIPs s a), req, vip; rewrite ?Hi; split_and!; try done; set_solver.
Qed.

(** C37: The listings and publishing answer whoever presents the current node token of a
    member; anyone else gets 401 and changes nothing. *)
Theorem node_token_required s r rand now :
  server_ok s → r_Path r = "/v1/peers" ∨ (r_Path r = "/v1/services" ∧ r_Method r ∈ ["GET"; "POST"]) →
  let '(s', resp) := Routes s r rand now in
  (∃ c, members (net s) !! m_DeviceUUID c = Some c ∧ m_Token c = bearer r ∧
        ∃ x, resp = Some x ∧ status x ≠ 401) ∨
  ((∀ d m, members (net s) !! d = Some m → m_Token m ≠ bearer r) ∧ s' = s ∧
   resp = Some (writeErr 401 "a node token is required; register first")).
Proof.
  intros Hs Hpath. destruct (caller_cases s r) as [[Hc Hn]|(c & Hc & Hn)].
  - assert (Routes s r rand now = (s, Some (writeErr 401 "a node token is required; register first"))) as ->.
    { unfold Routes, peers, peers_in, services_handler, services_get, services_get_in, publish, publish_enter.
      rewrite Hc. destruct Hpath as [->|[-> Hm]]; [done|]. simpl.
      rewrite !elem_of_cons in Hm. destruct Hm as [->|[->|Hm%elem_of_nil]]; done. }
    right. split; [by apply MemberByToken_None|done].
  - destruct (Routes s r rand now) as [s' resp] eqn:Hr. left. exists c.
    destruct (MemberByToken_Some _ _ _ Hs Hn) as (? & ? & _). split_and!; [done|done|].
    revert Hr. unfold Routes, peers, peers_in, services_handler, services_get, services_get_in.
    rewrite Hc. destruct Hpath as [->|[-> Hm]]; simpl; [intros [= <- <-]; by eexists|].
    rewrite !elem_of_cons in Hm. destruct Hm as [->|[->|Hm%elem_of_nil]]; simpl; [|..|done].
    + intros [= <- <-]. by eexists.
    + destruct (publish_cases s r c Hc) as [(s1 & code & msg & -> & Hcode & _)|(s1 & ? & ? & _ & _ & _ & _ & ->)].
      * intros [= <- <-]. eexists; split; [done|]. simpl. intros ->. set_solver.
      * intros [= <- <-]. by eexists.
Qed.

(** ** Listings *)

Lemma Members_lookup s m : server_ok s → m ∈ Members (net s) ↔ members (net s) !! m_DeviceUUID m = Some m.
Proof.
  intros Hs. unfold Members. rewrite list_elem_of_fmap. split.
  - intros ([d m'] & -> & Hm%elem_of_map_to_list). simpl.
    by rewrite (net_member_key _ (ok_net _ Hs) _ _ Hm).
  - intros Hm. exists (m_DeviceUUID m, m). split; [done|]. by apply elem_of_map_to_list.
Qed.

Lemma Services_lookup s sv : server_ok s → sv ∈ Services (net s) ↔ services (net s) !! sv_Name sv = Some sv.
Proof.
  intros Hs. unfold Services. rewrite list_elem_of_fmap. split.
  - intros ([d m'] & -> & Hm%elem_of_map_to_list). simpl.
    by rewrite (net_service_key _ (ok_net _ Hs) _ _ Hm).
  - intros Hm. exists (sv_Name sv, sv). split; [done|]. by apply elem_of_map_to_list.
Qed.

Lemma by_ip_anti s x y :
  server_ok s → x ∈ Members (net s) → y ∈ Members (net s) → by_ip x y → by_ip y x → x = y.
Proof.
  intros Hs Hx%(Members_lookup _ _ Hs) Hy%(Members_lookup _ _ Hs) Hxy Hyx.
  eapply (member_ip_inj s _ _ x y); [done..|]. by apply (anti_symm String.le).
Qed.

Lemma by_name_anti s x y :
  server_ok s → x ∈ Services (net s) → y ∈ Services (net s) → by_name x y → by_name y x → x = y.
Proof.
  intros Hs Hx%(Services_lookup _ _ Hs) Hy%(Services_lookup _ _ Hs) Hxy Hyx.
  assert (sv_Name x = sv_Name y) as Heq by (by apply (anti_symm String.le)). congruence.
Qed.

(** C28: The peer list holds the caller and the members its group is connected to, each
    once, in the order of their addresses; no map order or sorting tie shows. *)
Theorem peers_correct s r c ms l :
  server_ok s → caller s r = Ok c →
  ms ≡ₚ Members (net s) → l ≡ₚ Members (net s) → Sorted by_ip l →
  peers_in s ms r = MkResponse 200 (BPeers (peer_of <$> filter (λ m, visiblePeer s c m = true) l)) ∧
  ∀ m, m ∈ filter (λ m, visiblePeer s c m = true) l ↔
    members (net s) !! m_DeviceUUID m = Some m ∧
    (m = c ∨ policy_Connected (policy s) (m_Group c) (m_Group m) = true).
Proof.
  clear decodeRegister decodeService ProductName Version.
  intros Hs Hc Hms Hl Hsort. split.
  - unfold peers_in. rewrite Hc. do 2 f_equal. rewrite (merge_sort_unique by_ip l ms); try done.
    + intros x y. rewrite Hms. by apply by_ip_anti.
    + by rewrite Hl, Hms.
  - intros m. rewrite list_elem_of_filter, Hl, (Members_lookup _ _ Hs). unfold visiblePeer.
    rewrite orb_true_iff, bool_decide_eq_true. pose proof (caller_member _ _ _ Hs Hc).
    split; [|naive_solver]. intros [[Hd|?] Hm]; [|by split; [|right]].
    split; [done|left]. congruence.
Qed.

Lemma peer_of_inj s m1 m2 :
  server_ok s → members (net s) !! m_DeviceUUID m1 = Some m1 →
  members (net s) !! m_DeviceUUID m2 = Some m2 → peer_of m1 = peer_of m2 → m1 = m2.
Proof. intros Hs H1 H2 [= _ _ Hip _ _]. by eapply (member_ip_inj s _ _ m1 m2). Qed.

Lemma peers_visible s r c m l :
  server_ok s → caller s r = Ok c → members (net s) !! m_DeviceUUID m = Some m →
  peers s r = MkResponse 200 (BPeers l) → peer_of m ∈ l ↔ visiblePeer s c m = true.
Proof.
  intros Hs Hc Hm. unfold peers, peers_in. rewrite Hc. intros [= <-].
  rewrite list_elem_of_fmap. setoid_rewrite list_elem_of_filter.
  setoid_rewrite merge_sort_Permutation. setoid_rewrite (Members_lookup _ _ Hs). split; [|eauto].
  intros (m' & Heq & Hv & Hm'). by rewrite (peer_of_inj s m m').
Qed.

(** Two members are in each other's peer lists or neither is in the other's. *)
Theorem peers_symmetric s r1 r2 c1 c2 l1 l2 :
  server_ok s → caller s r1 = Ok c1 → caller s r2 = Ok c2 →
  peers s r1 = MkResponse 200 (BPeers l1) → peers s r2 = MkResponse 200 (BPeers l2) →
  peer_of c2 ∈ l1 ↔ peer_of c1 ∈ l2.
Proof.
  clear decodeRegister decodeService ProductName Version.
  intros Hs H1 H2 Hp1 Hp2.
  rewrite (peers_visible s r1 c1 c2 l1), (peers_visible s r2 c2 c1 l2) by eauto using caller_member.
  unfold visiblePeer, policy_Connected. rewrite !orb_true_iff, !bool_decide_eq_true.
  naive_solver.
Qed.

Lemma member_ip_nonempty s d m : server_ok s → members (net s) !! d = Some m → m_AssignedIP m ≠ ""%string.
Proof.
  intros Hs Hm. destruct (member_ip _ _ _ Hs Hm) as (_ & ip & _ & Hr & ->).
  by apply (pool_string_nonempty (nodeIPs s)); [apply ok_nodes|].
Qed.

Lemma MemberByIP_spec s ms ip h :
  server_ok s → ms ≡ₚ Members (net s) →
  MemberByIP_in ms ip = Some h ↔ members (net s) !! m_DeviceUUID h = Some h ∧ m_AssignedIP h = ip.
Proof.
  intros Hs Hms. unfold MemberByIP_in. destruct (String.eqb_spec ip "") as [->|Hne].
  { split; [done|]. intros [Hh Hip]. by destruct (member_ip_nonempty _ _ _ Hs Hh). }
  rewrite fmap_Some. split.
  - intros ([i h'] & (Hi & Hip & _)%list_find_Some & ->). simpl. split; [|done].
    apply (Members_lookup _ _ Hs). rewrite <-Hms. by eapply list_elem_of_lookup_2.
  - intros [Hh Hip]. assert (h ∈ ms) as Hin by (by rewrite Hms; apply (Members_lookup _ _ Hs)).
    destruct (list_find_elem_of (λ m, m_AssignedIP m = ip) ms h Hin Hip) as [[i h'] Hf].
    exists (i, h'). split; [done|]. simpl. apply list_find_Some in Hf as (Hi & Hip' & _).
    apply list_elem_of_lookup_2 in Hi. rewrite Hms in Hi. apply (Members_lookup _ _ Hs) in Hi.
    eapply (member_ip_inj s _ _ h h'); [done..|congruence].
Qed.

(** What a member may see of the services. *)
Definition may_see (s : Server) (c : Member) (sv : Service) : Prop :=
  sv_NodeIP sv = m_AssignedIP c ∨
  ∃ h, members (net s) !! m_DeviceUUID h = Some h ∧ m_AssignedIP h = sv_NodeIP sv ∧
    policy_Connected (policy s) (m_Group c) (m_Group h) = true ∧
    AllowsGroup (sv_AllowGroups sv) (m_Group c) = true.

Lemma visibleService_spec s ms c sv :
  server_ok s → ms ≡ₚ Members (net s) → visibleService_in s ms c sv = true ↔ may_see s c sv.
Proof.
  clear decodeRegister decodeService ProductName Version.
  intros Hs Hms. unfold visibleService_in, may_see. case_bool_decide as Hown; [naive_solver|].
  destruct (MemberByIP_in ms (sv_NodeIP sv)) as [h|] eqn:Hh.
  - apply (MemberByIP_spec _ _ _ _ Hs Hms) in Hh as [Hh Hip]. split.
    + destruct (policy_Connected _ _ _) eqn:Hc; [|done]. intros. right. by exists h.
    + intros [?|(h' & Hh' & Hip' & Hc & Ha)]; [done|].
      destruct (member_ip_inj _ _ _ _ _ Hs Hh Hh') as [_ <-]; [congruence|]. by rewrite Hc.
  - split; [done|]. intros [?|(h' & Hh' & Hip' & _)]; [done|].
    assert (MemberByIP_in ms (sv_NodeIP sv) = Some h') as ?; [|congruence].
    by apply (MemberByIP_spec _ _ _ _ Hs Hms).
Qed.

(** The service list holds the caller's own services and those of a host its group is
    connected to that allow its group, each once and by name; no map order shows. *)
Theorem services_correct s r c svs mss l :
  server_ok s → caller s r = Ok c → svs ≡ₚ Services (net s) → (∀ sv, mss sv ≡ₚ Members (net s)) →
  NoDup l → Sorted by_name l →
  (∀ sv, sv ∈ l ↔ services (net s) !! sv_Name sv = Some sv ∧ may_see s c sv) →
  services_get_in s svs mss r = MkResponse 200 (BServices l).
Proof.
  clear decodeRegister decodeService ProductName Version.
  intros Hs Hc Hsvs Hmss Hnd Hsort Hl. unfold services_get_in. rewrite Hc. do 2 f_equal.
  assert (∀ sv, sv ∈ filter (λ sv, visibleService_in s (mss sv) c sv = true) svs ↔ sv ∈ l) as Hin.
  { intros sv. rewrite Hl, list_elem_of_filter, Hsvs, (Services_lookup _ _ Hs), visibleService_spec by done.
    naive_solver. }
  apply (merge_sort_unique by_name l); [|symmetry|done].
  - intros x y Hx Hy. apply Hin, Hl in Hx as [Hx _]. apply Hin, Hl in Hy as [Hy _].
    apply (by_name_anti s); [done|by apply (Services_lookup _ _ Hs)..].
  - apply NoDup_Permutation; [|done|done]. apply NoDup_filter. rewrite Hsvs.
    unfold Services. apply NoDup_fmap_2_strong; [|apply NoDup_map_to_list].
    intros [k1 v1] [k2 v2] H1%elem_of_map_to_list H2%elem_of_map_to_list. simpl. intros <-.
    f_equal. rewrite <-(net_service_key _ (ok_net _ Hs) _ _ H1).
    apply (net_service_key _ (ok_net _ Hs) _ _ H2).
Qed.

(** Publishing puts a service on the caller's own address and touches no other; a
    service that was there keeps its address, wherever it is published from; a request
    for another node's address is refused, and a refusal changes no record. *)
Theorem publish_correct s r c s' resp :
  server_ok s → caller s r = Ok c → publish s r = (s', resp) →
  (status resp ≠ 200 ∧ net s' = net s) ∨
  ∃ req svc, resp = MkResponse 200 (BService svc) ∧ decodeService (r_Body r) = Some req ∧
    (sv_NodeIP req = ""%string ∨ sv_NodeIP req = m_AssignedIP c) ∧
    sv_Name svc = sv_Name req ∧ sv_NodeIP svc = m_AssignedIP c ∧
    Forall (λ g, g ≠ ""%string) (sv_AllowGroups svc) ∧
    members (net s') = members (net s) ∧
    services (net s') = <[sv_Name req := svc]> (services (net s)) ∧
    ∀ old, services (net s) !! sv_Name req = Some old → sv_VIP svc = sv_VIP old.
Proof.
  clear decodeRegister ProductName Version.
  intros Hs Hc Hp. destruct (publish_cases s r c Hc) as
    [(s1 & code & msg & Heq & Hcode & Hnet)|(s1 & req & vip & Hreq & Hnode & Ha & Hs1 & Heq)];
    rewrite Hp in Heq; injection Heq as -> ->.
  { left. split; [|done]. simpl. intros ->. set_solver. }
  right. eexists req, _. split_and!; [done|done|set_solver|done|done|..].
  - simpl. unfold cleanGroups. apply Forall_forall. by intros g [? _]%list_elem_of_filter.
  - simpl. by rewrite Hs1.
  - simpl. by rewrite Hs1.
  - intros old Hold. destruct (service_vip _ _ _ Hs Hold) as (_ & ip & Hip & _ & ->). simpl.
    rewrite (pool_alloc_stable _ _ _ (ok_serviceIPs _ Hs) Hip) in Ha. by injection Ha as _ <-.
Qed.

End Api.
