(* ===== verification/TlsConf.v ===== *)
(** * The TLS setup (server/tlsconf)

    Which mode a configuration resolves to and what it needs.  Certificates, keys and
    the ACME client are crypto and files: the pin of the persistent self-signed
    certificate and the machine's addresses are arguments. *)
From Stdlib Require Import Ascii String.
From S2P Require Import Prelude GoString GoStringFacts HostPort.

Definition Mode : Type := string.
Definition ModeAuto : Mode := "auto".
Definition ModeOff : Mode := "off".
Definition ModeSelf : Mode := "self".
Definition ModeACME : Mode := "acme".

(** [None] is the error for an unknown name. *)
Definition ParseMode (s : string) : option Mode :=
  let m := to_lower (trim_space s) in
  if String.eqb m "" || String.eqb m ModeAuto then Some ModeAuto
  else if String.eqb m ModeOff then Some ModeOff
  else if String.eqb m ModeSelf || String.eqb m "self-signed" || String.eqb m "selfsigned"
  then Some ModeSelf
  else if String.eqb m ModeACME then Some ModeACME
  else None.

Record Config : Type := MkConfig {
  t_Mode : Mode;
  t_Domains : list string;
  t_ExtraSANs : list string;
  t_Dir : string;
  t_Email : string;
  t_Directory : string;
  t_ListenAddr : string;
}.

(** [TLS] and [HTTPChallenge] say whether the field is set. *)
Record Result : Type := MkResult {
  res_Mode : Mode;
  res_TLS : bool;
  res_Pin : string;
  res_Domains : list string;
  res_HTTPChallenge : bool;
}.

Inductive tls_error : Type :=
| ESelfDir
| ESelfSigned
| EACMEDomain
| EACMEDir
| EUnknownMode (m : Mode).

Definition Scheme (r : Result) : string := if String.eqb (res_Mode r) ModeOff then "http" else "https".

Definition cleanHosts (l : list string) : list string :=
  filter (λ p, p ≠ ""%string) (s ← l; trim_space <$> split_byte "," s).

Definition isPort (addr port : string) : bool :=
  match SplitHostPort addr with Some (_, p) => String.eqb p port | None => false end.

Section TlsConf.
(** [selfSigned dir sans] is the pin, [None] an error; [localAddrs] are the addresses of
    the interfaces. *)
Context (selfSigned : string → list string → option string).
Context (localAddrs : list string).

Definition selfSANs (domains extra : list string) : list string :=
  ["localhost"; "127.0.0.1"; "::1"] ++ domains ++ cleanHosts extra ++ localAddrs.

Definition Build (cfg : Config) : result tls_error Result :=
  let mode := if String.eqb (t_Mode cfg) "" then ModeAuto else t_Mode cfg in
  let domains := cleanHosts (t_Domains cfg) in
  let mode := if String.eqb mode ModeAuto
              then if (0 <? length domains)%nat then ModeACME else ModeSelf
              else mode in
  if String.eqb mode ModeOff then Ok (MkResult ModeOff false "" [] false)
  else if String.eqb mode ModeSelf then
    if String.eqb (t_Dir cfg) "" then Err ESelfDir else
    match selfSigned (t_Dir cfg) (selfSANs domains (t_ExtraSANs cfg)) with
    | None => Err ESelfSigned
    | Some pin => Ok (MkResult ModeSelf true pin domains false)
    end
  else if String.eqb mode ModeACME then
    if (length domains =? 0)%nat then Err EACMEDomain
    else if String.eqb (t_Dir cfg) "" then Err EACMEDir
    else Ok (MkResult ModeACME true "" domains (negb (isPort (t_ListenAddr cfg) "443")))
  else Err (EUnknownMode mode).

(** What [Build] promises: the mode is never [auto], a pin comes with exactly the
    self-signed mode, domains with exactly ACME when the choice was left open, and
    plain HTTP only when the operator asked for it. *)
Theorem Build_modes cfg r :
  (∀ dir sans, selfSigned dir sans ≠ Some ""%string) → Build cfg = Ok r →
  res_Mode r ∈ [ModeOff; ModeSelf; ModeACME] ∧
  (res_TLS r = true ↔ res_Mode r ≠ ModeOff) ∧
  (res_Pin r ≠ ""%string ↔ res_Mode r = ModeSelf) ∧
  (res_Mode r = ModeOff ↔ t_Mode cfg = ModeOff) ∧
  (res_Mode r = ModeACME → res_Domains r ≠ []) ∧
  (t_Mode cfg ∈ [""%string; ModeAuto] →
     (res_Mode r = ModeACME ↔ cleanHosts (t_Domains cfg) ≠ [])) ∧
  (res_HTTPChallenge r = true ↔ res_Mode r = ModeACME ∧ isPort (t_ListenAddr cfg) "443" = false).
Proof.
  intros Hpin. unfold Build. set (doms := cleanHosts (t_Domains cfg)).
  set (mode0 := if String.eqb (t_Mode cfg) "" then ModeAuto else t_Mode cfg).
  set (mode := if String.eqb mode0 ModeAuto then _ else _).
  assert (mode = ModeOff ↔ t_Mode cfg = ModeOff) as Hoff.
  { unfold mode, mode0. destruct (String.eqb_spec (t_Mode cfg) "") as [->|]; simpl;
      [by destruct (length doms)|].
    destruct (String.eqb_spec (t_Mode cfg) ModeAuto) as [->|]; [by destruct (length doms)|done]. }
  assert (t_Mode cfg ∈ [""%string; ModeAuto] → mode = if decide (doms = []) then ModeSelf else ModeACME)
    as Hauto.
  { rewrite !elem_of_cons, elem_of_nil. intros [Hm|[Hm|[]]]; unfold mode, mode0; rewrite Hm; simpl;
      by destruct doms. }
  destruct (String.eqb_spec mode ModeOff) as [Hm|Hm].
  { intros [= <-]. simpl. split_and!; try done; [set_solver| | |by split; [|intros [? _]]].
    - split; [|done]. intros _. by apply Hoff.
    - intros Ha%Hauto. rewrite Hm in Ha. by destruct (decide (doms = [])). }
  destruct (String.eqb_spec mode ModeSelf) as [Hm'|Hm'].
  { destruct (String.eqb (t_Dir cfg) ""); [done|].
    destruct (selfSigned _ _) as [pin|] eqn:Hp; [|done]. intros [= <-]. simpl.
    assert (pin ≠ ""%string) by (intros ->; by apply Hpin in Hp).
    split_and!; try done; [set_solver| | |by split; [|intros [? _]]].
    - split; [done|]. intros Ha%Hoff. by rewrite Ha in Hm'.
    - intros Ha%Hauto. rewrite Hm' in Ha. by destruct (decide (doms = [])). }
  destruct (String.eqb_spec mode ModeACME) as [Hm''|]; [|done].
  destruct (Nat.eqb_spec (length doms) 0) as [|Hd]; [done|].
  destruct (String.eqb (t_Dir cfg) ""); [done|]. intros [= <-]. simpl.
  assert (doms ≠ []) by (intros He; by rewrite He in Hd).
  split_and!; try done; [set_solver| |by rewrite negb_true_iff; split; [|intros [_ ?]]].
  split; [done|]. intros Ha%Hoff. by rewrite Ha in Hm''.
Qed.

End TlsConf.

(** ** Certificates that can be kept *)

Section Sans.
(** [ParseIP] is net.ParseIP up to the equality of [IP.Equal]. *)
Context {IP : Type} `{EqDecision IP} (ParseIP : string → option IP).

(** The names and the addresses of a SAN list, each once, in order. *)
Fixpoint splitSANs_loop (sans : list string) (names : list string) (ips : list IP)
  : list string * list IP :=
  match sans with
  | [] => (names, ips)
  | s :: sans =>
    if String.eqb s "" then splitSANs_loop sans names ips else
    match ParseIP s with
    | Some ip => splitSANs_loop sans names
                   (if existsb (λ x, bool_decide (x = ip)) ips then ips else ips ++ [ip])
    | None => splitSANs_loop sans
                (if existsb (λ x, String.eqb x s) names then names else names ++ [s]) ips
    end
  end.

Definition splitSANs (sans : list string) : list string * list IP := splitSANs_loop sans [] [].

(** [certUsable] for a certificate whose key, expiry and names are given:
    [sameKey] the comparison of the public keys, [notAfter] and [now] in seconds. *)
Definition renewBefore : Z := 30 * 24 * 3600.

Definition certUsable (sameKey : bool) (notAfter now : Z) (certNames : list string)
    (certIPs : list IP) (dnsNames : list string) (ips : list IP) : bool :=
  if negb sameKey then false
  else if (notAfter <? now + renewBefore)%Z then false
  else forallb (λ w, existsb (λ x, String.eqb x w) certNames) dnsNames &&
       forallb (λ w, existsb (λ x, bool_decide (x = w)) certIPs) ips.

Lemma existsb_In {T} `{EqDecision T} (l : list T) x : existsb (λ y, bool_decide (y = x)) l = true ↔ x ∈ l.
Proof.
  rewrite existsb_exists. setoid_rewrite <-list_elem_of_In. setoid_rewrite bool_decide_eq_true.
  naive_solver.
Qed.

Lemma existsb_eqb (l : list string) x : existsb (λ y, String.eqb y x) l = true ↔ x ∈ l.
Proof using Type.
  clear ParseIP.
  rewrite existsb_exists. setoid_rewrite <-list_elem_of_In. setoid_rewrite String.eqb_eq.
  naive_solver.
Qed.

(** Adding what is not there yet. *)
Lemma add_new {T} (b : bool) (l : list T) x :
  (b = true ↔ x ∈ l) → ∀ y, y ∈ (if b then l else l ++ [x]) ↔ y ∈ l ∨ y = x.
Proof.
  intros Hb y. destruct b.
  - split; [by left|]. intros [?| ->]; [done|by apply Hb].
  - by rewrite elem_of_app, list_elem_of_singleton.
Qed.

Lemma splitSANs_loop_spec sans names ips :
  (∀ x, x ∈ (splitSANs_loop sans names ips).1 ↔
        x ∈ names ∨ (x ∈ sans ∧ x ≠ ""%string ∧ ParseIP x = None)) ∧
  (∀ p, p ∈ (splitSANs_loop sans names ips).2 ↔
        p ∈ ips ∨ ∃ x, x ∈ sans ∧ x ≠ ""%string ∧ ParseIP x = Some p).
Proof.
  revert names ips. induction sans as [|s sans IH]; intros names ips; cbn [splitSANs_loop].
  { setoid_rewrite elem_of_nil. naive_solver. }
  setoid_rewrite elem_of_cons. destruct (String.eqb_spec s "") as [->|Hs].
  { destruct (IH names ips) as [Hx Hp]. split; [intros x; rewrite Hx|intros p; rewrite Hp]; naive_solver. }
  destruct (ParseIP s) as [ip|] eqn:Hip; edestruct IH as [Hx Hp]; split.
  - intros x. rewrite Hx. naive_solver.
  - intros p. rewrite Hp, (add_new _ _ ip) by apply existsb_In. naive_solver.
  - intros x. rewrite Hx, (add_new _ _ s) by apply existsb_eqb. naive_solver.
  - intros p. rewrite Hp. naive_solver.
Qed.

(** A certificate issued for some names is kept, with its pin, as long as the names asked
    for are among them, in whatever order, and it is not near its expiry. *)
Theorem certificate_kept sans sans' notAfter now :
  sans' ⊆ sans → (now + renewBefore ≤ notAfter)%Z →
  certUsable true notAfter now (splitSANs sans).1 (splitSANs sans).2
    (splitSANs sans').1 (splitSANs sans').2 = true.
Proof.
  intros Hsub Ht. unfold certUsable, splitSANs. simpl. rewrite (proj2 (Z.ltb_ge _ _) Ht).
  destruct (splitSANs_loop_spec sans [] []) as [Hx Hp].
  destruct (splitSANs_loop_spec sans' [] []) as [Hx' Hp'].
  rewrite andb_true_iff, !forallb_forall. setoid_rewrite <-list_elem_of_In.
  setoid_rewrite existsb_eqb. setoid_rewrite existsb_In. split.
  - intros x. rewrite Hx, Hx'. intros [?%elem_of_nil|(? & ? & ?)]; [done|]. right. auto.
  - intros p. rewrite Hp, Hp'. intros [?%elem_of_nil|(x & ? & ? & ?)]; [done|]. right. exists x. auto.
Qed.

End Sans.
