(* ===== verification/Host.v ===== *)
(** * A hosted network (server/host/host.go)

    The host puts the parts together: it splits the range, builds the token table, opens
    the relay and the control listener and serves the API between [Start] and [Stop];
    and it decides which addresses clients are told. *)
From Stdlib Require Import Ascii String.
From S2P Require Import Prelude GoString GoStringFacts HostPort Netip NetipFacts Pool Ipam Acl Proto Store Api TlsConf.

Record Config : Type := MkConfig {
  NetworkID : string;
  DNSSuffix : string;
  CIDR : string;
  Token : string;
  ControlAddr : string;
  RelayAddr : string;
  RelayPublic : string;
  PublicHost : string;
  TLSMode : string;
  TLSDomains : list string;
  TLSExtraSANs : list string;
  TLSDir : string;
  ACMEEmail : string;
  ACMEDirectory : string;
  ACMEHTTPAddr : string;
  GroupTokens : gmap string string;
  ACL : list Rule;
}.

(** ** Addresses for clients *)

Definition localAddr (addr : string) : string :=
  match SplitHostPort addr with
  | None => addr
  | Some (host, port) =>
    let host := if String.eqb host "" || String.eqb host "0.0.0.0" || String.eqb host "::"
                then "127.0.0.1"%string else host in
    JoinHostPort host port
  end.

Definition withPort (hostname listenAddr : string) : string :=
  match SplitHostPort listenAddr with
  | Some (_, p) => if negb (String.eqb p "") && negb (String.eqb p "443")
                   then JoinHostPort hostname p else hostname
  | None => hostname
  end.

Definition ensurePort (hostport listenAddr : string) : string :=
  match SplitHostPort hostport with
  | Some _ => hostport
  | None => withPort hostport listenAddr
  end.

Definition hostOf (hostport : string) : string :=
  if String.eqb hostport "" then "" else
  match SplitHostPort hostport with Some (host, _) => host | None => hostport end.

Definition relayPublic (cfg : Config) (bound : string) : string :=
  if negb (String.eqb (RelayPublic cfg) "") then ensurePort (RelayPublic cfg) bound else
  let host := hostOf (PublicHost cfg) in
  match SplitHostPort bound with
  | Some (_, port) => if negb (String.eqb host "") && negb (String.eqb port "")
                      then JoinHostPort host port else localAddr bound
  | None => localAddr bound
  end.

(** ** Start and stop *)

Abbreviation ApiServer := (@Api.Server Allocator).

(** [httpSrv] stands for the server and for the network [nw] it serves, which are set
    and cleared together; [acmeSrv] holds the listener's address. *)
Record Host : Type := MkHost {
  h_cfg : Config;
  h_ctrlAddr : string;
  h_relayPub : string;
  h_httpSrv : option ApiServer;
  h_acmeSrv : option string;
  h_rly : bool;
  h_tlsRes : option TlsConf.Result;
}.

Definition zero_config : Config :=
  MkConfig "" "" "" "" "" "" "" "" "" [] [] "" "" "" "" ∅ [].

Definition New : Host := MkHost zero_config "" "" None None false None.

Inductive host_error : Type :=
| EAlreadyRunning
| EMode (s : string)
| EStateDir
| ETLS (e : tls_error)
| ECIDR (e : ipam_error)
| ETokens (e : acl_error)
| ERelayListen
| EControlListen.

(** What [Start] does to sockets. *)
Inductive socket_event : Type := OpenRelay | CloseRelay | OpenControl.

Section Host.
(** The machine: the state directory, the certificate store, the addresses of the
    interfaces, and what binding a socket yields. *)
Context (StateDir : option string).
Context (selfSigned : string → list string → option string).
Context (localAddrs : list string).
Context (listenUDP : string → option AddrPort).
Context (listenTCP : string → option string).

Definition Start (h : Host) (cfg : Config) : Host * list socket_event * result host_error () :=
  match h_httpSrv h with Some _ => (h, [], Err EAlreadyRunning) | None =>
  match ParseMode (TLSMode cfg) with None => (h, [], Err (EMode (TLSMode cfg))) | Some mode =>
  match (if String.eqb (TLSDir cfg) "" && negb (String.eqb mode ModeOff)
         then StateDir else Some (TLSDir cfg)) with None => (h, [], Err EStateDir) | Some dir =>
  match TlsConf.Build selfSigned localAddrs
          (TlsConf.MkConfig mode (TLSDomains cfg) (TLSExtraSANs cfg) dir (ACMEEmail cfg)
             (ACMEDirectory cfg) (ControlAddr cfg)) with Err e => (h, [], Err (ETLS e)) | Ok tlsRes =>
  match Split (CIDR cfg) with Err e => (h, [], Err (ECIDR e)) | Ok (nodes, services) =>
  match BuildJoinTokens (Token cfg) (GroupTokens cfg) with Err e => (h, [], Err (ETokens e)) | Ok tokens =>
  match listenUDP (RelayAddr cfg) with None => (h, [], Err ERelayListen) | Some bound =>
  let relayPub := relayPublic cfg (AddrPort_String bound) in
  let nw := NewNetwork (NetworkID cfg) (DNSSuffix cfg) (CIDR cfg) in
  let srv := Api.New nw nodes services (Some tokens) (Some (MkPolicy (ACL cfg))) relayPub in
  match listenTCP (ControlAddr cfg) with
  | None => (h, [OpenRelay; CloseRelay], Err EControlListen)
  | Some ln =>
    let acme := if res_HTTPChallenge tlsRes
                then Some (if String.eqb (ACMEHTTPAddr cfg) "" then ":80"%string else ACMEHTTPAddr cfg)
                else None in
    (MkHost cfg ln relayPub (Some srv) acme true (Some tlsRes), [OpenRelay; OpenControl], Ok ())
  end end end end end end end end.

Definition Stop (h : Host) : Host :=
  MkHost (h_cfg h) "" (h_relayPub h) None None false None.

Definition Running (h : Host) : bool := bool_decide (h_httpSrv h ≠ None).

(** ** What the host reports *)

Definition host_peer (m : Member) : Peer :=
  MkPeer (m_Hostname m) (m_PublicKey m) (m_AssignedIP m) (m_Endpoint m) "".

Definition host_Members (h : Host) : list Peer :=
  match h_httpSrv h with
  | None => []
  | Some s => host_peer <$> merge_sort by_ip (Members (net s))
  end.

Definition host_service (s : Service) : Service :=
  MkService (sv_Name s) (sv_Proto s) (sv_Port s) (sv_BackendPort s) (sv_NodeIP s) "" [].

Definition host_Services (h : Host) : list Service :=
  match h_httpSrv h with
  | None => []
  | Some s => merge_sort by_name (host_service <$> Services (net s))
  end.

Definition host_TLSMode (h : Host) : string :=
  match h_tlsRes h with None => "" | Some r => res_Mode r end.
Definition host_Pin (h : Host) : string :=
  match h_tlsRes h with None => "" | Some r => res_Pin r end.
Definition host_Scheme (h : Host) : string :=
  match h_tlsRes h with None => "http" | Some r => Scheme r end.

Definition LocalURL (h : Host) : string :=
  if Running h then host_Scheme h +:+ "://" +:+ localAddr (h_ctrlAddr h) else "".

Definition JoinURL (h : Host) (publicHost : string) : string :=
  match h_tlsRes h with
  | None => ""
  | Some r =>
    let hostport :=
      if String.eqb publicHost "" then
        match res_Domains r with
        | d :: _ => withPort d (h_ctrlAddr h)
        | [] => localAddr (h_ctrlAddr h)
        end
      else ensurePort publicHost (h_ctrlAddr h) in
    let u := host_Scheme h +:+ "://" +:+ hostport in
    if String.eqb (res_Pin r) "" then u else u +:+ "#" +:+ PathEscape (res_Pin r)
  end.

(** ** Starting *)

(** C39: A host that starts serves the network it was given: an empty one over two disjoint
    ranges of the CIDR, with the join tokens of the configuration and its rules, in a
    state where the API's invariant holds.  A start that fails changes nothing and
    leaves no socket open. *)
Theorem Start_serves h cfg :
  match Start h cfg with
  | (h', evs, Ok _) =>
      Running h = false ∧ Running h' = true ∧ evs = [OpenRelay; OpenControl] ∧
      ∃ s toks p, h_httpSrv h' = Some s ∧ server_ok s ∧
        net s = NewNetwork (NetworkID cfg) (DNSSuffix cfg) (CIDR cfg) ∧
        ParsePrefix (CIDR cfg) = Some p ∧
        (∀ v, prefix_Contains (prefix_Masked p) (Addr4 v) = false →
              ¬ pool_range (nodeIPs s) (Addr4 v) ∧ ¬ pool_range (serviceIPs s) (Addr4 v)) ∧
        BuildJoinTokens (Token cfg) (GroupTokens cfg) = Ok toks ∧ tokens s = toks ∧
        policy s = Some (MkPolicy (ACL cfg)) ∧ relayAddr s = h_relayPub h'
  | (h', evs, Err e) =>
      h' = h ∧ (evs = [] ∨ evs = [OpenRelay; CloseRelay]) ∧ (Running h = true ↔ e = EAlreadyRunning)
  end.
Proof.
  unfold Start, Running.
  destruct (h_httpSrv h) as [s0|]; [by split_and!; [|left|]|].
  destruct (ParseMode _) as [mode|]; [|by split_and!; [|left|]].
  destruct (if _ && _ then _ else _) as [dir|]; [|by split_and!; [|left|]].
  destruct (TlsConf.Build _ _ _) as [tls|e]; [|by split_and!; [|left|]].
  destruct (Split (CIDR cfg)) as [[nodes svcs]|e] eqn:Hsplit; [|by split_and!; [|left|]].
  destruct (BuildJoinTokens _ _) as [toks|e]; [|by split_and!; [|left|]].
  destruct (listenUDP _) as [bound|]; [|by split_and!; [|left|]].
  destruct (listenTCP _) as [ln|]; [|by split_and!; [|right|]].
  apply Split_ok in Hsplit as (p & Hp & _ & Hn & Hs & Hdis & Hcov).
  split_and!; [done..|]. eexists _, toks, p. split_and!; try done; simpl.
  - apply New_ok; [by exists []..|done].
  - intros v Hv. rewrite Hcov in Hv. apply orb_false_iff in Hv as [H1 H2].
    split; intros [_ H]; simpl in H; congruence.
Qed.

(** Stopping ends what starting began: nothing runs, nothing is reported, and the host
    can start again. *)
Theorem Stop_resets h cfg :
  Running (Stop h) = false ∧ host_Members (Stop h) = [] ∧ host_Services (Stop h) = [] ∧
  JoinURL (Stop h) (PublicHost cfg) = ""%string ∧ h_rly (Stop h) = false ∧
  (Start (Stop h) cfg).2 = (Start New cfg).2.
Proof.
  split_and!; try done. unfold Start. simpl. repeat case_match; done.
Qed.

End Host.

(** ** Where clients are sent *)

Lemma AddrPort_parts v p :
  is_u32 v → (0 ≤ p)%Z →
  SplitHostPort (AddrPort_String (MkAddrPort (Addr4 v) p)) = Some (string4 v, itoa p).
Proof.
  intros Hv Hp. unfold AddrPort_String. cbn [ap_addr ap_port addr_String]. apply SplitHostPort_Join.
  - split; by apply string4_bytes.
  - split; by apply itoa_bytes.
  - by apply itoa_bytes.
Qed.

Lemma localAddr_parts addr host port :
  SplitHostPort addr = Some (host, port) →
  ∃ host', SplitHostPort (localAddr addr) = Some (host', port) ∧
    host' ∉ [""%string; "0.0.0.0"%string; "::"%string].
Proof.
  intros Hs. unfold localAddr. rewrite Hs.
  destruct (SplitHostPort_parts _ _ _ Hs) as (Hh & Hp & Hc).
  set (host' := if _ || _ then _ else _). exists host'.
  assert (unmarked host' ∧ host' ∉ [""%string; "0.0.0.0"%string; "::"%string]) as [? ?].
  { unfold host'. destruct (String.eqb_spec host ""); [split; [done|set_solver]|].
    destruct (String.eqb_spec host "0.0.0.0"); [split; [done|set_solver]|].
    destruct (String.eqb_spec host "::"); simpl; [split; [done|set_solver]|].
    split; [done|set_solver]. }
  split; [by apply SplitHostPort_Join|done].
Qed.

(** Unless the operator published an address of their own, clients are told a host and
    the relay's port, never a wildcard: the host they reach the control plane at, or
    the bound address with a wildcard turned into loopback. *)
Theorem relayPublic_destination cfg v p :
  is_u32 v → (0 ≤ p)%Z → RelayPublic cfg = ""%string → unmarked (hostOf (PublicHost cfg)) →
  ∃ host, SplitHostPort (relayPublic cfg (AddrPort_String (MkAddrPort (Addr4 v) p))) = Some (host, itoa p) ∧
    if String.eqb (hostOf (PublicHost cfg)) ""
    then host ∉ [""%string; "0.0.0.0"%string; "::"%string] else host = hostOf (PublicHost cfg).
Proof.
  intros Hv Hp Hr Hu. pose proof (AddrPort_parts v p Hv Hp) as Hb. unfold relayPublic.
  rewrite Hr, Hb. simpl. pose proof (parse_uint_itoa p Hp) as Hne.
  destruct (String.eqb_spec (hostOf (PublicHost cfg)) "") as [He|He]; simpl.
  - by apply localAddr_parts in Hb.
  - destruct (String.eqb_spec (itoa p) "") as [Hz|_]; [by rewrite Hz in Hne|]. simpl.
    eexists. split; [|done]. apply SplitHostPort_Join; [done| |by apply itoa_bytes].
    split; by apply itoa_bytes.
Qed.

