(* ===== verification/Supervisor.v ===== *)
(** * The supervised network (server/config/config.go, server/supervisor/supervisor.go)

    The supervisor owns one host and the configuration saved on disk, and decides what comes
    up again after the machine restarts.  What a file holds is the configuration that was
    written to it; the text between is encoding/json's. *)
From Stdlib Require Import Ascii String.
From S2P Require Import Prelude GoString GoStringFacts HostPort Netip Pool Ipam Acl Proto Store Api TlsConf Host.

(** ** The configuration *)

Record SConfig : Type := MkSConfig {
  sc_NetworkID : string;
  sc_DNSSuffix : string;
  sc_CIDR : string;
  sc_Token : string;
  sc_ControlAddr : string;
  sc_RelayAddr : string;
  sc_RelayPublic : string;
  sc_TLSMode : string;
  sc_Domains : list string;
  sc_PublicHost : string;
  sc_GroupTokens : gmap string string;
  sc_ACL : list Rule;
  sc_AutoStart : bool;
}.

Definition Default : SConfig :=
  MkSConfig "home" "home.zwan" "100.64.0.0/16" "" "0.0.0.0:8787" "0.0.0.0:3478" "" "auto" [] "" ∅ [] false.

Definition set_AutoStart (c : SConfig) (b : bool) : SConfig :=
  MkSConfig (sc_NetworkID c) (sc_DNSSuffix c) (sc_CIDR c) (sc_Token c) (sc_ControlAddr c) (sc_RelayAddr c)
    (sc_RelayPublic c) (sc_TLSMode c) (sc_Domains c) (sc_PublicHost c) (sc_GroupTokens c) (sc_ACL c) b.

(** What reading the file yields: it is not there, it cannot be read or parsed, or it holds
    a configuration. *)
Inductive file : Type := NoFile | BadFile (msg : string) | Saved (c : SConfig).

Definition Load (f : file) : SConfig * option string :=
  match f with
  | NoFile => (Default, None)
  | BadFile msg => (Default, Some msg)
  | Saved c => (c, None)
  end.

Definition Valid (c : SConfig) : option string :=
  if String.eqb (trim_space (sc_Token c)) "" then Some "a join token is required"%string
  else if String.eqb (trim_space (sc_NetworkID c)) "" then Some "a network id is required"%string
  else if String.eqb (trim_space (sc_CIDR c)) "" then Some "an overlay CIDR is required"%string
  else if String.eqb (trim_space (sc_ControlAddr c)) "" then Some "a control listen address is required"%string
  else None.

(** [Config.Host]. *)
Definition to_host (c : SConfig) : Host.Config :=
  Host.MkConfig (sc_NetworkID c) (sc_DNSSuffix c) (sc_CIDR c) (sc_Token c) (sc_ControlAddr c)
    (sc_RelayAddr c) (sc_RelayPublic c) (sc_PublicHost c) (sc_TLSMode c) (sc_Domains c) [] "" "" "" ""
    (sc_GroupTokens c) (sc_ACL c).

(** ** The supervisor *)

Record Supervisor : Type := MkSupervisor {
  s_srv : Host;
  s_cfg : SConfig;
  s_lastErr : string;
}.

(** The machine during a call: what a host needs to start, and whether the file can be
    written. *)
Record machine : Type := MkMachine {
  ma_StateDir : option string;
  ma_selfSigned : string → list string → option string;
  ma_localAddrs : list string;
  ma_listenUDP : string → option AddrPort;
  ma_listenTCP : string → option string;
  ma_writable : bool;
}.

Definition host_start (w : machine) (h : Host) (c : Host.Config) : Host * result host_error () :=
  let '(h, _, r) := Host.Start (ma_StateDir w) (ma_selfSigned w) (ma_localAddrs w) (ma_listenUDP w) (ma_listenTCP w) h c in
  (h, r).

Definition New (f : file) : Supervisor := MkSupervisor Host.New (Load f).1 "".

(** [save]: a failure is only logged. *)
Definition save (w : machine) (s : Supervisor) (f : file) : file :=
  if ma_writable w then Saved (s_cfg s) else f.

Section Supervisor.
(** What an error of the host says. *)
Context (error_text : host_error → string).

Definition Start (w : machine) (s : Supervisor) (f : file) (c : SConfig) : Supervisor * file * option string :=
  match Valid c with
  | Some e => (MkSupervisor (s_srv s) (s_cfg s) e, f, Some e)
  | None =>
    let c := set_AutoStart c true in
    match host_start w (Host.Stop (s_srv s)) (to_host c) with
    | (h, Err e) => (MkSupervisor h c (error_text e), f, Some (error_text e))
    | (h, Ok _) =>
      let s := MkSupervisor h c "" in
      (s, save w s f, None)
    end
  end.

Definition Stop (w : machine) (s : Supervisor) (f : file) : Supervisor * file :=
  let s := MkSupervisor (Host.Stop (s_srv s)) (set_AutoStart (s_cfg s) false) "" in
  (s, save w s f).

Definition Shutdown (s : Supervisor) : Supervisor :=
  MkSupervisor (Host.Stop (s_srv s)) (s_cfg s) (s_lastErr s).

(** [AutoStart] reads the configuration under the lock, … *)
Definition wanted_config (s : Supervisor) : option SConfig := if sc_AutoStart (s_cfg s) then Some (s_cfg s) else None.

(** … lets go of it, and starts what it read. *)
Definition start_wanted (w : machine) (s : Supervisor) (f : file) (want : option SConfig) : Supervisor * file :=
  match want with Some c => (Start w s f c).1 | None => (s, f) end.

Definition AutoStart (w : machine) (s : Supervisor) (f : file) : Supervisor * file := start_wanted w s f (wanted_config s).

(** The service comes up on a machine with this file. *)
Definition boot (w : machine) (f : file) : Supervisor * file := AutoStart w (New f) f.

(** ** What the window is told (server/ipc) *)

Record State : Type := MkState {
  st_Running : bool;
  st_Config : SConfig;
  st_TLSMode : string;
  st_Pin : string;
  st_JoinURL : string;
  st_RelayPublic : string;
  st_Peers : list Peer;
  st_Services : list Service;
  st_LastError : string;
}.

Definition state_of (s : Supervisor) : State :=
  let h := s_srv s in
  if Running h then
    MkState true (s_cfg s) (host_TLSMode h) (host_Pin h) (JoinURL h (sc_PublicHost (s_cfg s))) (h_relayPub h)
      (host_Members h) (host_Services h) (s_lastErr s)
  else MkState false (s_cfg s) "" "" "" "" [] [] (s_lastErr s).

Record SRequest : Type := MkSRequest { sq_Op : string; sq_Config : option SConfig }.
Record SResponse : Type := MkSResponse { sp_OK : bool; sp_Error : string; sp_State : option State }.

(** [dispatch] when no other request comes between the change and the report. *)
Definition server_dispatch (w : machine) (s : Supervisor) (f : file) (q : SRequest) : Supervisor * file * SResponse :=
  if String.eqb (sq_Op q) "start" then
    match sq_Config q with
    | None => (s, f, MkSResponse false "missing server configuration" None)
    | Some c =>
      let '(s, f, err) := Start w s f c in
      match err with
      | Some e => (s, f, MkSResponse false e (Some (state_of s)))
      | None => (s, f, MkSResponse true "" (Some (state_of s)))
      end
    end
  else if String.eqb (sq_Op q) "stop" then
    let '(s, f) := Stop w s f in (s, f, MkSResponse true "" (Some (state_of s)))
  else if String.eqb (sq_Op q) "status" then (s, f, MkSResponse true "" (Some (state_of s)))
  else (s, f, MkSResponse false ("unknown op: " +:+ sq_Op q) None).

(** ** Starting *)

Lemma host_start_cases w h c :
  match host_start w (Host.Stop h) c with
  | (h', Ok _) => Running h' = true ∧ h_cfg h' = c
  | (h', Err _) => h' = Host.Stop h
  end.
Proof using Type.
  unfold host_start, Host.Start. cbn [Host.Stop h_httpSrv]. repeat case_match; by simplify_eq.
Qed.

Lemma Running_Stop h : Running (Host.Stop h) = false.
Proof using Type. done. Qed.

(** What a start leaves.  Settings that cannot be started change nothing but the reported
    error, even while a network runs; others take the running network down first, and become
    the supervisor's whether or not the host comes up, but reach the disk only when it
    does. *)
Theorem Start_correct w s f c :
  let '(s', f', r) := Start w s f c in
  (∀ e, Valid c = Some e → r = Some e ∧ s_srv s' = s_srv s ∧ s_cfg s' = s_cfg s ∧ f' = f) ∧
  (Valid c = None →
     s_cfg s' = set_AutoStart c true ∧ (Running (s_srv s') = true ↔ r = None) ∧
     (r = None → h_cfg (s_srv s') = to_host c ∧ f' = if ma_writable w then Saved (s_cfg s') else f) ∧
     (r ≠ None → s_srv s' = Host.Stop (s_srv s) ∧ f' = f)) ∧
  s_lastErr s' = default ""%string r.
Proof using Type.
  unfold Start. destruct (Valid c) as [e|]; [split_and!; [|done|done]; by intros ? [= <-]|].
  pose proof (host_start_cases w (s_srv s) (to_host (set_AutoStart c true))) as Hh.
  destruct (host_start _ _ _) as [h [u|e]]; (split_and!; [done| |done]); intros _; cbn [s_cfg s_srv].
  - destruct Hh as [Hr Hc]. split_and!; [done|by rewrite Hr|done|done].
  - subst h. rewrite Running_Stop. split_and!; [done|done|done|done].
Qed.

(** ** Every sequence of calls *)

Inductive sup_step : Supervisor * file → Supervisor * file → Prop :=
| step_start w s f c : ma_writable w = true → sup_step (s, f) (Start w s f c).1
| step_stop w s f : ma_writable w = true → sup_step (s, f) (Stop w s f)
| step_shutdown s f : sup_step (s, f) (Shutdown s, f)
(** the network that runs serves its members *)
| step_serve s f srv srv' :
    h_httpSrv (s_srv s) = Some srv →
    sup_step (s, f)
      (MkSupervisor (MkHost (h_cfg (s_srv s)) (h_ctrlAddr (s_srv s)) (h_relayPub (s_srv s)) (Some srv')
         (h_acmeSrv (s_srv s)) (h_rly (s_srv s)) (h_tlsRes (s_srv s))) (s_cfg s) (s_lastErr s), f).

(** A machine boots with a file, and its supervisor is used. *)
Definition supervised (x : Supervisor * file) : Prop :=
  ∃ w f, ma_writable w = true ∧ rtc sup_step (boot w f) x.

Definition sup_ok (x : Supervisor * file) : Prop :=
  Running (s_srv x.1) = true →
    h_cfg (s_srv x.1) = to_host (s_cfg x.1) ∧ Valid (s_cfg x.1) = None ∧
    sc_AutoStart (s_cfg x.1) = true ∧ x.2 = Saved (s_cfg x.1).

Lemma Start_ok w s f c : ma_writable w = true → sup_ok (s, f) → sup_ok (Start w s f c).1.
Proof using Type.
  intros Hw Hok. pose proof (Start_correct w s f c) as Hs. destruct (Start w s f c) as [[s' f'] r].
  destruct Hs as (Hbad & Hgood & _). unfold sup_ok. cbn [fst snd].
  destruct (Valid c) as [e|] eqn:Hv.
  - destruct (Hbad e eq_refl) as (_ & -> & -> & ->). exact Hok.
  - destruct (Hgood eq_refl) as (Hcfg & Hr & Hok' & _). intros Hrun. destruct (Hok' (proj1 Hr Hrun)) as [Hh Hf].
    rewrite Hw in Hf. rewrite Hh, Hcfg, Hf, Hcfg. by split_and!.
Qed.

Lemma supervised_ok x : supervised x → sup_ok x.
Proof using Type.
  intros (w & f & Hw & Hr). assert (sup_ok (boot w f)) as Hb.
  { unfold boot, AutoStart, wanted_config, start_wanted. destruct (sc_AutoStart _); [by apply Start_ok|done]. }
  induction Hr as [|x y z Hxy _ IH]; [done|]. apply IH. clear IH.
  destruct Hxy as [w' s f' c Hw'|w' s f' Hw'|s f'|s f' srv srv' Hsrv].
  - by apply Start_ok.
  - done.
  - done.
  - intros _. apply Hb. unfold Running. cbn [fst]. by rewrite Hsrv.
Qed.

Lemma boot_saved w c :
  sc_AutoStart c = true → Valid c = None →
  s_cfg (boot w (Saved c)).1 = c ∧ s_srv (boot w (Saved c)).1 = (host_start w Host.New (to_host c)).1.
Proof using Type.
  intros Ha Hv. unfold boot, AutoStart, wanted_config, start_wanted, New. cbn [Load fst s_cfg]. rewrite Ha. unfold Start. rewrite Hv.
  assert (set_AutoStart c true = c) as -> by (destruct c; cbn in Ha; by subst).
  cbn [s_srv]. change (Host.Stop Host.New) with Host.New.
  destruct (host_start w Host.New (to_host c)) as [h [u|e]]; done.
Qed.

(** C25: While a network runs, the settings that are reported are those it runs with.  A machine
    that restarts brings up the same network with the same settings, whatever the last
    sequence of calls was and even if it was shut down in an orderly way; a network that was
    stopped stays down. *)
Theorem reboot_restores s f :
  supervised (s, f) →
  (Running (s_srv s) = true →
     h_cfg (s_srv s) = to_host (st_Config (state_of s)) ∧ Valid (s_cfg s) = None ∧
     ∀ w, s_cfg (boot w f).1 = s_cfg s ∧
          s_srv (boot w f).1 = (host_start w Host.New (to_host (s_cfg s))).1) ∧
  (∀ w w', ma_writable w = true →
     let '(s', f') := Stop w s f in
     st_Running (state_of s') = false ∧ boot w' f' = (New f', f') ∧
     s_cfg (New f') = set_AutoStart (s_cfg s) false).
Proof using Type.
  intros Hs%supervised_ok. split.
  - intros Hrun. destruct (Hs Hrun) as (Hc & Hv & Ha & Hf). cbn [fst snd] in *. split_and!; [|done|].
    + unfold state_of. by rewrite Hrun.
    + intros w. rewrite Hf. by apply boot_saved.
  - intros w w' Hw. unfold Stop, save. rewrite Hw. done.
Qed.

(** A request to the service reports the state after it, succeeds exactly when the call did,
    and changes nothing when its operation is unknown. *)
Theorem server_dispatch_correct w s f q :
  let '(s', f', p) := server_dispatch w s f q in
  (sq_Op q ∉ ["start"; "stop"] → s' = s ∧ f' = f) ∧
  (sq_Op q = "start"%string → ∀ c, sq_Config q = Some c →
     (s', f') = (Start w s f c).1 ∧ sp_State p = Some (state_of s') ∧
     (sp_OK p = true → st_Running (state_of s') = true ∧ s_cfg s' = set_AutoStart c true)) ∧
  (sq_Op q = "stop"%string → (s', f') = Stop w s f ∧ ∃ st, sp_State p = Some st ∧ st_Running st = false).
Proof using Type.
  unfold server_dispatch. destruct (String.eqb_spec (sq_Op q) "start") as [->|Hs].
  { destruct (sq_Config q) as [c|]; [|split_and!; [set_solver|by intros|done]].
    pose proof (Start_correct w s f c) as Hc. destruct (Start w s f c) as [[s' f'] r] eqn:Hst.
    destruct Hc as (Hbad & Hgood & _).
    destruct r as [e|]; (split_and!; [set_solver| |done]); intros _ ? [= <-]; rewrite Hst; (split_and!; [done|done|]); [done|].
    intros _. destruct (Valid c) as [e|] eqn:Hv; [by destruct (Hbad e eq_refl) as (? & _)|].
    destruct (Hgood eq_refl) as (Hcfg & Hr & _). split; [|done].
    unfold state_of. by rewrite (proj2 Hr eq_refl). }
  destruct (String.eqb_spec (sq_Op q) "stop") as [->|Ht].
  { cbn [Stop]. split_and!; [set_solver|done|]. intros _. split; [done|]. by eexists. }
  destruct (String.eqb_spec (sq_Op q) "status"); split_and!; done.
Qed.
End Supervisor.

(** ** A machine that hosts a network *)

Definition host_machine : machine :=
  MkMachine (Some "/var/lib/zwan") (λ _ _, None) [] (λ _, Some (MkAddrPort (Addr4 0) 3478)) (λ a, Some a) true.

Definition hosted_config : SConfig :=
  MkSConfig "home" "home.zwan" "100.64.0.0/16" "secret" "0.0.0.0:8787" "0.0.0.0:3478" "" "off" [] "vpn.example.org" ∅ [] true.

(** A stop that comes between the two halves of [AutoStart] is undone, in the file too. *)
Lemma autostart_undoes_stop (error_text : host_error → string) :
  let s := New (Saved hosted_config) in
  let '(s1, f1) := Stop host_machine s (Saved hosted_config) in
  f1 = Saved (set_AutoStart hosted_config false) ∧
  let '(s2, f2) := start_wanted error_text host_machine s1 f1 (wanted_config s) in
  Running (s_srv s2) = true ∧ f2 = Saved hosted_config.
Proof. by vm_compute. Qed.

Lemma reboot_restores_witness :
  let '(s, f) := boot (λ _, "failed"%string) host_machine (Saved hosted_config) in
  Running (s_srv s) = true ∧ s_cfg (boot (λ _, "failed"%string) host_machine f).1 = hosted_config.
Proof.
  destruct (boot (λ _, "failed"%string) host_machine (Saved hosted_config)) as [s f] eqn:Hb.
  assert (Running (s_srv s) = true ∧ s_cfg s = hosted_config) as [Hr Hc].
  { change s with (s, f).1. rewrite <-Hb. split; [by vm_compute|apply boot_saved; by vm_compute]. }
  destruct (reboot_restores (λ _, "failed"%string) s f) as [H _].
  - exists host_machine, (Saved hosted_config). rewrite Hb. split; [done|apply rtc_refl].
  - destruct (H Hr) as (_ & _ & Hw). split; [exact Hr|]. rewrite <-Hc. apply Hw.
Defined.
