(* ===== verification/ServerMain.v ===== *)
(** * The server's command line and the rules typed in the window
      (cmd/zwan-server/main.go, gui/app.go)

    How flags and texts become the configuration of a host.  Reading the policy file and
    decoding it are arguments; a message that ends the program is an error. *)
From Stdlib Require Import Ascii String.
From S2P Require Import Prelude GoString GoStringFacts HostPort Netip Pool Ipam Acl Proto Store Api TlsConf Host Supervisor.

Local Open Scope Z_scope.

(** ** Flags *)

Inductive main_error : Type :=
| ETokenRequired
| EFlag (e : acl_error)
| ETwoTokens (group : string)
| EReadPolicy (msg : string)
| EStart (e : host_error).

Fixpoint joinTokens_loop (values : list string) (out : gmap string string) : result main_error (gmap string string) :=
  match values with
  | [] => Ok out
  | v :: values =>
    match ParseJoinToken v with
    | Err e => Err (EFlag e)
    | Ok (group, token) =>
      match out !! group with
      | Some prev => if String.eqb prev token then joinTokens_loop values (<[group := token]> out) else Err (ETwoTokens group)
      | None => joinTokens_loop values (<[group := token]> out)
      end
    end
  end.

Definition parseJoinTokens (values : list string) : result main_error (gmap string string) :=
  joinTokens_loop values ∅.

Fixpoint rules_loop (values : list string) : result main_error (list Rule) :=
  match values with
  | [] => Ok []
  | v :: values =>
    match ParseRule v with
    | Err e => Err (EFlag e)
    | Ok r => match rules_loop values with Ok rs => Ok (r :: rs) | Err e => Err e end
    end
  end.

Section main.
Context (unmarshal : string → option Policy).
Context (readFile : string → result string string).

Definition parsePolicy (values : list string) (file : string) : result main_error (list Rule) :=
  match rules_loop values with
  | Err e => Err e
  | Ok rules =>
    if String.eqb file "" then Ok rules else
    match readFile file with
    | Err e => Err (EReadPolicy e)
    | Ok data => match Acl.Parse unmarshal data with
                 | Err e => Err (EFlag e)
                 | Ok p => Ok (rules ++ Rules p)
                 end
    end
  end.

Definition splitList (s : string) : list string :=
  filter (λ p, p ≠ ""%string) (trim_space <$> split_byte "," s).

Record flags : Type := MkFlags {
  f_addr : string; f_network : string; f_dnsSuffix : string; f_cidr : string; f_token : string;
  f_relayAddr : string; f_relayPublic : string; f_tls : string; f_domain : string; f_tlsSAN : string;
  f_tlsDir : string; f_acmeEmail : string; f_acmeDirectory : string; f_acmeHTTPAddr : string;
  f_publicHost : string; f_joinToken : list string; f_acl : list string; f_aclFile : string;
}.

(** [runHeadless] up to the start of the host. *)
Definition headless_config (f : flags) : result main_error Host.Config :=
  if String.eqb (f_token f) "" then Err ETokenRequired else
  match parseJoinTokens (f_joinToken f) with
  | Err e => Err e
  | Ok groupTokens =>
    match parsePolicy (f_acl f) (f_aclFile f) with
    | Err e => Err e
    | Ok rules =>
      Ok (Host.MkConfig (f_network f) (f_dnsSuffix f) (f_cidr f) (f_token f) (f_addr f) (f_relayAddr f)
            (f_relayPublic f) "" (f_tls f) (splitList (f_domain f)) (splitList (f_tlsSAN f)) (f_tlsDir f)
            (f_acmeEmail f) (f_acmeDirectory f) (f_acmeHTTPAddr f) groupTokens rules)
    end
  end.

(** The host that runs, and the address clients are told in the log. *)
Definition runHeadless (w : machine) (f : flags) : result main_error (Host * string) :=
  match headless_config f with
  | Err e => Err e
  | Ok cfg => match host_start w Host.New cfg with
              | (_, Err e) => Err (EStart e)
              | (h, Ok _) => Ok (h, JoinURL h (f_publicHost f))
              end
  end.

(** [trustLabel]. *)
Definition trustLabel (h : Host) : string :=
  if String.eqb (host_TLSMode h) "off" then "plaintext HTTP"
  else if String.eqb (host_TLSMode h) "self" then "TLS, self-signed - clients must pin " +:+ host_Pin h
  else if String.eqb (host_TLSMode h) "acme" then "TLS, ACME certificate"
  else host_TLSMode h.

(** ** The rules of the window *)

Definition newline : ascii := "010".

Fixpoint acl_lines (i : Z) (lines : list string) : result (Z * acl_error) (list Rule) :=
  match lines with
  | [] => Ok []
  | l :: lines =>
    let l := trim_space l in
    if String.eqb l "" || has_prefix l "#" then acl_lines (i + 1) lines else
    match ParseRule l with
    | Err e => Err (i + 1, e)
    | Ok r => match acl_lines (i + 1) lines with Ok rs => Ok (r :: rs) | Err e => Err e end
    end
  end.

Definition ParseACL (text : string) : result (Z * acl_error) (list Rule) :=
  acl_lines 0 (split_byte newline text).

(** ** What the flags and texts mean *)

Lemma joinTokens_loop_spec values out :
  match joinTokens_loop values out with
  | Ok m => ∀ g t, m !! g = Some t ↔ out !! g = Some t ∨ ∃ v, v ∈ values ∧ ParseJoinToken v = Ok (g, t)
  | Err (EFlag e) => ∃ v, v ∈ values ∧ ParseJoinToken v = Err e
  | Err (ETwoTokens g) => ∃ v t t', v ∈ values ∧ ParseJoinToken v = Ok (g, t) ∧ t ≠ t' ∧
      (out !! g = Some t' ∨ ∃ v', v' ∈ values ∧ ParseJoinToken v' = Ok (g, t'))
  | Err _ => False
  end.
Proof using Type.
  clear unmarshal readFile. revert out. induction values as [|v values IH]; intros out; cbn [joinTokens_loop].
  { intros g t. split; [by left|]. by intros [?|(? & []%not_elem_of_nil & _)]. }
  destruct (ParseJoinToken v) as [[group token]|e] eqn:Hv; [|exists v; split; [apply list_elem_of_here|done]].
  assert (∀ g t, (∃ u, u ∈ v :: values ∧ ParseJoinToken u = Ok (g, t)) ↔
    (g = group ∧ t = token) ∨ ∃ u, u ∈ values ∧ ParseJoinToken u = Ok (g, t)) as Hcons.
  { intros g t. setoid_rewrite elem_of_cons. split.
    - intros (u & [->|Hu] & Hp); [left; rewrite Hv in Hp; by injection Hp as <- <-|right; eauto].
    - intros [[-> ->]|(u & Hu & Hp)]; eauto. }
  assert (∀ prev, out !! group = Some prev → prev = token → <[group := token]> out = out) as Hsame
    by (intros prev Ho ->; by apply insert_id).
  destruct (out !! group) as [prev|] eqn:Ho.
  - destruct (String.eqb_spec prev token) as [->|Hne].
    + rewrite (Hsame token) by done. specialize (IH out). destruct (joinTokens_loop values out) as [m|[]]; try done.
      * intros g t. rewrite IH, Hcons. naive_solver.
      * destruct IH as (u & ? & ?). exists u. split; [by right|done].
      * destruct IH as (u & t & t' & ? & ? & ? & Hor). exists u, t, t'. split_and!; [by right|done|done|].
        destruct Hor as [?|(u' & ? & ?)]; [by left|right; exists u'; split; [by right|done]].
    + exists v, token, prev. split_and!; [apply list_elem_of_here|done|congruence|by left].
  - specialize (IH (<[group := token]> out)). destruct (joinTokens_loop values _) as [m|[]]; try done.
    + intros g t. rewrite IH, Hcons, lookup_insert_Some. naive_solver.
    + destruct IH as (u & ? & ?). exists u. split; [by right|done].
    + destruct IH as (u & t & t' & ? & ? & ? & Hor). exists u, t, t'. split_and!; [by right|done|done|].
      destruct Hor as [[[<- <-]|[_ ?]]%lookup_insert_Some|(u' & ? & ?)]; [right|by left|right].
      * exists v. split; [apply list_elem_of_here|done].
      * exists u'. split; [by right|done].
Qed.

Lemma rules_loop_spec values :
  match rules_loop values with
  | Ok rs => Forall2 (λ v r, ParseRule v = Ok r) values rs
  | Err (EFlag e) => ∃ v, v ∈ values ∧ ParseRule v = Err e
  | Err _ => False
  end.
Proof using Type.
  induction values as [|v values IH]; cbn [rules_loop]; [constructor|].
  destruct (ParseRule v) as [r|e] eqn:Hv; [|exists v; split; [apply list_elem_of_here|done]].
  destruct (rules_loop values) as [rs|[]]; try done; [by constructor|].
  destruct IH as (u & ? & ?). exists u. split; [by right|done].
Qed.

(** The configuration a command line stands for: there is a join token, each group has the
    token some flag gives it and no other, and the rules are those of the flags in order
    followed by those of the file.  A flag that does not parse, or a group with two tokens,
    ends the program. *)
Theorem headless_config_correct f :
  match headless_config f with
  | Ok cfg =>
      Token cfg = f_token f ∧ f_token f ≠ ""%string ∧
      (∀ g t, GroupTokens cfg !! g = Some t ↔ ∃ v, v ∈ f_joinToken f ∧ ParseJoinToken v = Ok (g, t)) ∧
      ∃ rs fs, Forall2 (λ v r, ParseRule v = Ok r) (f_acl f) rs ∧ ACL cfg = rs ++ fs ∧
        (if String.eqb (f_aclFile f) "" then fs = []
         else ∃ data p, readFile (f_aclFile f) = Ok data ∧ Acl.Parse unmarshal data = Ok p ∧ fs = Rules p)
  | Err ETokenRequired => f_token f = ""%string
  | Err (ETwoTokens g) => ∃ v v' t t', v ∈ f_joinToken f ∧ v' ∈ f_joinToken f ∧
      ParseJoinToken v = Ok (g, t) ∧ ParseJoinToken v' = Ok (g, t') ∧ t ≠ t'
  | Err (EFlag e) => (∃ v, v ∈ f_joinToken f ∧ ParseJoinToken v = Err e) ∨ (∃ v, v ∈ f_acl f ∧ ParseRule v = Err e) ∨
      ∃ data, readFile (f_aclFile f) = Ok data ∧ Acl.Parse unmarshal data = Err e
  | Err (EReadPolicy e) => readFile (f_aclFile f) = Err e
  | Err (EStart _) => False
  end.
Proof using Type.
  unfold headless_config. destruct (String.eqb_spec (f_token f) "") as [|Htok]; [done|].
  unfold parseJoinTokens. pose proof (joinTokens_loop_spec (f_joinToken f) ∅) as Hj.
  destruct (joinTokens_loop _ _) as [gt|[]]; try done; [|by left|].
  2:{ destruct Hj as (v & t & t' & ? & ? & ? & [Hl|(v' & ? & ?)]); [by rewrite lookup_empty in Hl|].
      by exists v, v', t, t'. }
  assert (∀ g t, gt !! g = Some t ↔ ∃ v, v ∈ f_joinToken f ∧ ParseJoinToken v = Ok (g, t)) as Hgt.
  { intros g t. rewrite Hj, lookup_empty. naive_solver. }
  unfold parsePolicy. pose proof (rules_loop_spec (f_acl f)) as Hr.
  destruct (rules_loop (f_acl f)) as [rs|[]]; try done; [|by right; left].
  destruct (String.eqb_spec (f_aclFile f) "") as [Hf|Hf].
  { split_and!; [done|done|done|]. exists rs, []. rewrite app_nil_r. by split_and!. }
  destruct (readFile (f_aclFile f)) as [data|e]; [|done].
  destruct (Acl.Parse unmarshal data) as [p|e] eqn:Hp; [|right; right; by exists data].
  split_and!; [done|done|done|]. exists rs, (Rules p). split_and!; [done|done|]. by exists data, p.
Qed.
End main.

(** ** The rules as text *)

(** A rule whose text is one line of its own in the window. *)
Definition line_rule (r : Rule) : Prop :=
  ParseRule (rule_String r) = Ok r ∧ trim_space (rule_String r) = rule_String r ∧
  has_byte newline (rule_String r) = false ∧ has_prefix (rule_String r) "#" = false.

(** What the window shows for a policy is read back as that policy, with any number of
    blank lines and comments between: the text an operator sees and the rules the server
    enforces are the same. *)
Theorem ParseACL_text rs notes :
  Forall line_rule rs →
  Forall (λ n, has_byte newline n = false ∧ (trim_space n = ""%string ∨ has_prefix (trim_space n) "#" = true)) notes →
  ∀ lines, lines ≠ [] → filter (λ l, l ∉ notes) lines = rule_String <$> rs →
    ParseACL (str_join lines (String newline "")) = Ok rs.
Proof.
  intros Hrs Hnotes lines Hne Hf. unfold ParseACL. rewrite split_join; [|done|].
  2:{ apply Forall_forall. intros l Hl. destruct (decide (l ∈ notes)) as [Hn|Hn].
      - rewrite Forall_forall in Hnotes. by apply Hnotes.
      - assert (l ∈ rule_String <$> rs) as (r & -> & Hr)%list_elem_of_fmap by (rewrite <-Hf; by apply list_elem_of_filter).
        rewrite Forall_forall in Hrs. by apply Hrs. }
  clear Hne. generalize 0%Z. revert rs Hrs Hf. induction lines as [|l lines IH]; intros rs Hrs Hf i.
  { destruct rs; [done|]. by inversion Hf. }
  rewrite filter_cons in Hf. cbn [acl_lines]. case_decide as Hn.
  - destruct rs as [|r rs]; [done|]. injection Hf as -> Hf. inversion_clear Hrs as [|?? (Hp & Ht & _ & Hh) Hrs'].
    rewrite Ht. destruct (String.eqb_spec (rule_String r) "") as [E|_]; [by rewrite E in Hp|]. rewrite Hh. cbn [orb].
    by rewrite Hp, (IH rs).
  - rewrite Forall_forall in Hnotes. destruct (Hnotes l Hn) as [_ [->| ->]]; [|rewrite orb_true_r]; by apply IH.
Qed.

Lemma ParseACL_text_witness :
  ParseACL (str_join ["# game night"; "dev->*"; ""; "ops->dev,build"] (String newline "")) =
  Ok [MkRule ["dev"] ["*"]; MkRule ["ops"] ["dev"; "build"]].
Proof.
  apply (ParseACL_text [MkRule ["dev"] ["*"]; MkRule ["ops"] ["dev"; "build"]] ["# game night"; ""]%string).
  - repeat constructor; by vm_compute.
  - constructor; [split; [by vm_compute|right; by vm_compute]|].
    constructor; [split; [by vm_compute|left; by vm_compute]|constructor].
  - done.
  - by vm_compute.
Defined.
