(* ===== verification/Demo.v ===== *)
(** * A small network

    Concrete instances of the theorems about the control server: the network
    10.0.0.0/24 served by the allocators of [Ipam], with toy decoders for the bodies. *)
From Stdlib Require Import Ascii String.
From S2P Require Import Prelude GoString GoStringFacts HostPort Netip NetipFacts Pool Ipam Acl Proto Store Api TlsConf Host.

Local Open Scope Z_scope.

Definition demo_decodeRegister (s : string) : option RegisterRequest :=
  match split_byte " " s with
  | [t; u; k] => Some (MkRegisterRequest t u "host" k "")
  | _ => None
  end.

Definition demo_decodeService (s : string) : option Service :=
  match split_byte " " s with
  | [n; p] => (λ port, MkService n "" port 0 "" "" []) <$> parse_uint p
  | _ => None
  end.

Definition demo_nodes : Allocator := newFrom (MkPrefix (Addr4 0x0a000000) 25).
Definition demo_services : Allocator := newFrom (MkPrefix (Addr4 0x0a000080) 25).

Lemma demo_split : Split "10.0.0.0/24" = Ok (demo_nodes, demo_services).
Proof. by vm_compute. Qed.

Lemma demo_pools : pool_ok demo_nodes ∧ pool_ok demo_services ∧ pools_disjoint demo_nodes demo_services.
Proof.
  destruct (Split_ok _ _ _ demo_split) as (p & _ & _ & Hn & Hs & Hd & _).
  split_and!; [by exists []..|done].
Qed.

Definition demo_start : ApiServer :=
  Api.New (NewNetwork "home" "home.zwan" "10.0.0.0/24") demo_nodes demo_services
    (Some {["s3cret" := "default"]}) None "".

Definition demo_rand (b : Z) : option (list Z) := Some (replicate 32 b).
Definition demo_join (u : string) : Request := MkRequest "POST" "/v1/register" "" ("s3cret " +:+ u +:+ " key").

Definition demo_register (s : ApiServer) (u : string) (b : Z) : ApiServer * Response :=
  register demo_decodeRegister s (demo_join u) (demo_rand b) 0.

(** Two devices have joined. *)
Definition demo_one : ApiServer := (demo_register demo_start "pc" 1).1.
Definition demo_two : ApiServer := (demo_register demo_one "nas" 2).1.

Definition demo_token (b : Z) : string := hex_encode (replicate 32 b).
Definition demo_get (path : string) (b : Z) : Request :=
  MkRequest "GET" path ("Bearer " +:+ demo_token b) "".
Definition demo_publish : Request :=
  MkRequest "POST" "/v1/services" ("bearer " +:+ demo_token 2) "game 25565".

Definition demo_three : ApiServer := (publish demo_decodeService demo_two demo_publish).1.

Lemma demo_rand_ok (s : ApiServer) b : (∀ m, byToken (net s) !! demo_token b ≠ Some m) → rand_ok s (demo_rand b).
Proof.
  intros Hs b' [= <-]. split; [done|]. fold (demo_token b).
  destruct (byToken (net s) !! demo_token b) as [m|] eqn:Hm; [by destruct (Hs m)|done].
Qed.

Lemma demo_start_ok : server_ok demo_start.
Proof. destruct demo_pools as (? & ? & ?). by apply New_ok. Qed.

Lemma demo_one_ok : server_ok demo_one.
Proof.
  apply register_ok; [apply demo_start_ok|apply demo_rand_ok]. intros m. by vm_compute.
Qed.

Lemma demo_two_ok : server_ok demo_two.
Proof.
  apply register_ok; [apply demo_one_ok|apply demo_rand_ok]. intros m. by vm_compute.
Qed.

Lemma demo_three_ok : server_ok demo_three.
Proof. apply publish_ok, demo_two_ok. Qed.

(** ** Instances of the theorems *)

Definition demo_member (u : string) (ip : string) (b : Z) : Member :=
  MkMember u "host" "key" ip "" 0 (demo_token b) "default".

Lemma reachable_addresses_witness : addresses_ok (net demo_one).
Proof.
  destruct demo_pools as (Hn & Hs & Hd).
  apply (reachable_addresses demo_decodeRegister demo_decodeService "home" "home.zwan" "10.0.0.0/24"
           demo_nodes demo_services (Some {["s3cret" := "default"]}) None "" demo_one []); [done..|].
  transitivity ((register_enter demo_decodeRegister demo_start (demo_join "pc")).1,
    [inl (MkRegisterRequest "s3cret" "pc" "host" "key" "", "default"%string, Addr4 0x0a000001) : pending]).
  - apply rtc_once. apply (step_register_enter _ _ _ _ (demo_join "pc")).
    symmetry. rewrite (surjective_pairing (register_enter _ _ _)). f_equal; by vm_compute.
  - apply rtc_once. apply (step_register_leave _ _ _ [] [] _ (demo_rand 1) 0).
    apply demo_rand_ok. intros m. by vm_compute.
Defined.

Lemma register_grants_witness :
  ∃ m, members (net demo_one) = <["pc" := m]> ∅ ∧ m_AssignedIP m = "10.0.0.1"%string ∧
       MemberByToken (net demo_one) (demo_token 1) = Some m.
Proof.
  destruct (register_grants demo_decodeRegister demo_start (demo_join "pc") (demo_rand 1) 0 demo_one
    (MkRegisterResponse "home" "home.zwan" "10.0.0.0/24" "10.0.0.1" "" (demo_token 1)))
    as (req & m & Hreq & _ & _ & Hip & Hm & Htok & _).
  - apply demo_start_ok.
  - apply demo_rand_ok. intros m. by vm_compute.
  - unfold demo_one, demo_register. rewrite (surjective_pairing (register _ _ _ _ _)) at 1.
    f_equal; by vm_compute.
  - exists m. injection Hreq as <-. done.
Defined.

Lemma node_token_required_witness :
  Routes demo_decodeRegister demo_decodeService "MyWAN" "1" demo_one (demo_get "/v1/peers" 7) None 0 =
  (demo_one, Some (writeErr 401 "a node token is required; register first")).
Proof.
  pose proof (node_token_required demo_decodeRegister demo_decodeService "MyWAN" "1" demo_one
    (demo_get "/v1/peers" 7) None 0 demo_one_ok (or_introl eq_refl)) as H.
  destruct (Routes _ _ _ _ _ _ _ _) as [s' resp]. destruct H as [(c & Hc & Ht & _)|(_ & -> & ->)]; [|done].
  exfalso. assert (MemberByToken (net demo_one) (bearer (demo_get "/v1/peers" 7)) = None) as Hn
    by (by vm_compute).
  by apply (MemberByToken_None _ _ demo_one_ok Hn _ _ Hc).
Defined.

Lemma demo_callers :
  caller demo_two (demo_get "" 1) = Ok (demo_member "pc" "10.0.0.1" 1) ∧
  caller demo_two (demo_get "" 2) = Ok (demo_member "nas" "10.0.0.2" 2).
Proof. split; by vm_compute. Qed.

Lemma peers_correct_witness :
  peers_in demo_two [demo_member "nas" "10.0.0.2" 2; demo_member "pc" "10.0.0.1" 1] (demo_get "" 1) =
  MkResponse 200 (BPeers [peer_of (demo_member "pc" "10.0.0.1" 1); peer_of (demo_member "nas" "10.0.0.2" 2)]).
Proof.
  refine (proj1 (peers_correct demo_two (demo_get "" 1) (demo_member "pc" "10.0.0.1" 1)
    [demo_member "nas" "10.0.0.2" 2; demo_member "pc" "10.0.0.1" 1]
    [demo_member "pc" "10.0.0.1" 1; demo_member "nas" "10.0.0.2" 2] _ _ _ _ _)).
  - apply demo_two_ok.
  - apply demo_callers.
  - assert (Members (net demo_two) = [demo_member "nas" "10.0.0.2" 2; demo_member "pc" "10.0.0.1" 1] ∨
      Members (net demo_two) = [demo_member "pc" "10.0.0.1" 1; demo_member "nas" "10.0.0.2" 2]) as [->| ->]
      by (vm_compute; auto); [done|constructor].
  - assert (Members (net demo_two) = [demo_member "nas" "10.0.0.2" 2; demo_member "pc" "10.0.0.1" 1] ∨
      Members (net demo_two) = [demo_member "pc" "10.0.0.1" 1; demo_member "nas" "10.0.0.2" 2]) as [->| ->]
      by (vm_compute; auto); [constructor|done].
  - repeat constructor; by vm_compute.
Defined.

Lemma peers_symmetric_witness :
  peer_of (demo_member "nas" "10.0.0.2" 2) ∈
    [peer_of (demo_member "pc" "10.0.0.1" 1); peer_of (demo_member "nas" "10.0.0.2" 2)].
Proof.
  apply (peers_symmetric demo_two (demo_get "" 1) (demo_get "" 2) (demo_member "pc" "10.0.0.1" 1)
    (demo_member "nas" "10.0.0.2" 2) _
    [peer_of (demo_member "pc" "10.0.0.1" 1); peer_of (demo_member "nas" "10.0.0.2" 2)]).
  - apply demo_two_ok.
  - apply demo_callers.
  - apply demo_callers.
  - by vm_compute.
  - by vm_compute.
  - by left.
Defined.

Definition demo_game : Service := MkService "game" "tcp" 25565 0 "10.0.0.2" "10.0.0.129" [].

Lemma services_correct_witness :
  services_get_in demo_three (Services (net demo_three)) (λ _, Members (net demo_three)) (demo_get "" 1) =
  MkResponse 200 (BServices [demo_game]).
Proof.
  apply (services_correct demo_three (demo_get "" 1) (demo_member "pc" "10.0.0.1" 1)).
  - apply demo_three_ok.
  - by vm_compute.
  - done.
  - done.
  - apply NoDup_singleton.
  - repeat constructor.
  - intros sv. rewrite list_elem_of_singleton. split.
    + intros ->. split; [by vm_compute|]. right. exists (demo_member "nas" "10.0.0.2" 2).
      split_and!; by vm_compute.
    + intros [Hsv _]. assert (services (net demo_three) = <["game" := demo_game]> ∅) as Heq by (by vm_compute).
      rewrite Heq in Hsv. by apply lookup_insert_Some in Hsv as [[_ <-]|[_ ?]].
Defined.

Lemma publish_correct_witness :
  services (net demo_three) = <["game" := demo_game]> (services (net demo_two)).
Proof.
  destruct (publish_correct demo_decodeService demo_two demo_publish (demo_member "nas" "10.0.0.2" 2)
    demo_three (MkResponse 200 (BService demo_game))) as [[Hst _]|(req & svc & Hresp & Hreq & _ & _ & _ & _ & _ & Hsv & _)].
  - apply demo_two_ok.
  - by vm_compute.
  - unfold demo_three. rewrite (surjective_pairing (publish _ _ _)). f_equal; by vm_compute.
  - done.
  - injection Hresp as <-. injection Hreq as <-. exact Hsv.
Defined.

Lemma Build_modes_witness :
  ∃ r, Build (λ _ _, Some "sha256:x"%string) [] (TlsConf.MkConfig "auto" [" , "] [] "/var" "" "" "") = Ok r ∧
       res_Mode r = ModeSelf ∧ res_Pin r ≠ ""%string.
Proof.
  eexists. split; [done|]. split; [done|].
  apply (Build_modes (λ _ _, Some "sha256:x"%string) [] (TlsConf.MkConfig "auto" [" , "] [] "/var" "" "" "")); done.
Defined.

Lemma certificate_kept_witness :
  certUsable true 4000000 0
    (splitSANs (λ _, @None Addr) ["a"; "b"; "a"]).1 (splitSANs (λ _, @None Addr) ["a"; "b"; "a"]).2
    (splitSANs (λ _, @None Addr) ["b"]).1 (splitSANs (λ _, @None Addr) ["b"]).2 = true.
Proof. apply (certificate_kept (λ _, @None Addr)); [set_solver|by unfold renewBefore]. Defined.

Definition demo_config : Host.Config :=
  Host.MkConfig "home" "home.zwan" "10.0.0.0/24" "s3cret" "0.0.0.0:8787" "0.0.0.0:3478" "" "" "off" [] []
    "" "" "" "" ∅ [].

Lemma relayPublic_destination_witness :
  ∃ host, SplitHostPort (relayPublic demo_config (AddrPort_String (MkAddrPort (Addr4 0) 3478))) =
    Some (host, "3478"%string) ∧ host ∉ [""%string; "0.0.0.0"%string; "::"%string].
Proof. apply (relayPublic_destination demo_config 0 3478); [by split|done..]. Defined.
