(* ===== verification/Rewrite.v ===== *)
(** * Rewriting the addresses of a packet (client/vip/rewrite.go)

    A packet is its list of bytes.  The Go code writes through slices of the packet;
    here a function returns the new bytes, and what it wrote to a part is put back into
    the whole ([blit]).  Indexing and slicing are checked: [None] is the panic of an
    index out of range.  [translate] may allocate, so it threads a state. *)
From Stdlib Require Import Ascii String.
From S2P Require Import Prelude Netip NetipFacts.

Local Open Scope Z_scope.

Definition protoICMP : Z := 1.
Definition protoTCP : Z := 6.
Definition protoUDP : Z := 17.

(** ** Slices *)

Definition slice (l : list Z) (i j : nat) : option (list Z) :=
  if ((i <=? j) && (j <=? length l))%nat then Some (take (j - i) (drop i l)) else None.

(** [copy(l[i:i+len(b)], b)]. *)
Definition blit (l : list Z) (i : nat) (b : list Z) : option (list Z) :=
  if (i + length b <=? length l)%nat then Some (take i l ++ b ++ drop (i + length b) l) else None.

Definition be16 (hi lo : Z) : Z := hi * 256 + lo.

Definition get16 (b : list Z) : option Z :=
  match b with hi :: lo :: _ => Some (be16 hi lo) | _ => None end.

Definition u16_bytes (v : Z) : list Z := [Z.shiftr v 8 mod 256; v mod 256].

Definition put16 (l : list Z) (i : nat) (v : Z) : option (list Z) := blit l i (u16_bytes v).

Definition get16_at (l : list Z) (i : nat) : option Z := slice l i (i + 2) ≫= get16.

(** [addrAt] of a four-byte slice. *)
Definition addr_at (l : list Z) (i : nat) : option Addr := AddrFrom4 <$> slice l i (i + 4).

(** ** Checksums *)

Definition not16 (v : Z) : Z := u16 (Z.lnot v).

(** The sum over both parts; [None] when [updated] is the shorter one. *)
Fixpoint csum_sum (sum : Z) (old updated : list Z) : option Z :=
  match old with
  | o0 :: o1 :: old =>
    match updated with
    | n0 :: n1 :: updated =>
      csum_sum (u32 (u32 (sum + not16 (be16 o0 o1)) + be16 n0 n1)) old updated
    | _ => None
    end
  | _ => Some sum
  end.

(** The loop that adds the carries; two rounds are enough for 32 bits
    ([csum_fold_enough]). *)
Fixpoint csum_fold (fuel : nat) (sum : Z) : option Z :=
  if Z.shiftr sum 16 =? 0 then Some sum else
  match fuel with
  | O => None
  | S fuel => csum_fold fuel (u32 (Z.land sum 0xffff + Z.shiftr sum 16))
  end.

Definition csumUpdate (cs : Z) (old updated : list Z) : option Z :=
  sum ← csum_sum (not16 cs) old updated;
  sum ← csum_fold 2 sum;
  Some (not16 (u16 sum)).

(** ** The packet *)

Section Rewrite.
Context {S : Type} (translate : S → Addr → S * option Addr).

Definition ihl_of (b : Z) : nat := Z.to_nat (Z.land b 0x0f * 4).

(** The header an ICMP error quotes: [icmp] is the ICMP message. *)
Definition rewriteQuoted (s : S) (icmp : list Z) : option (S * list Z) :=
  if (length icmp <? 8)%nat then Some (s, icmp) else
  ty ← icmp !! 0%nat;
  if negb ((ty =? 3) || (ty =? 11) || (ty =? 12)) then Some (s, icmp) else
  inner ← slice icmp 8 (length icmp);
  if (length inner <? 20)%nat then Some (s, icmp) else
  b0 ← inner !! 0%nat;
  if negb (Z.shiftr b0 4 =? 4) then Some (s, icmp) else
  src ← addr_at inner 12;
  dst ← addr_at inner 16;
  let '(s, newSrc) := translate s src in
  let '(s, newDst) := translate s dst in
  match newSrc, newDst with
  | Some newSrc, Some newDst =>
    old ← slice inner 12 20;
    s4 ← addr_As4 newSrc;
    d4 ← addr_As4 newDst;
    let updated := s4 ++ d4 in
    if bool_decide (old = updated) then Some (s, icmp) else
    inner ← blit inner 12 updated;
    cs ← get16_at icmp 2;
    icmpCS ← csumUpdate cs old updated;
    let innerIHL := ihl_of b0 in
    '(inner, icmpCS) ←
      (if ((20 <=? innerIHL) && (innerIHL <=? length inner))%nat then
         before ← get16_at inner 10;
         after ← csumUpdate before old updated;
         inner ← put16 inner 10 after;
         icmpCS ← csumUpdate icmpCS (u16_bytes before) (u16_bytes after);
         Some (inner, icmpCS)
       else Some (inner, icmpCS));
    icmp ← blit icmp 8 inner;
    icmp ← put16 icmp 2 icmpCS;
    Some (s, icmp)
  | _, _ => Some (s, icmp)
  end.

(** The transport header after the addresses changed from [old] to [updated]. *)
Definition rewriteL4 (s : S) (proto : Z) (l4 old updated : list Z) : option (S * list Z) :=
  if proto =? protoTCP then
    if (18 <=? length l4)%nat then
      cs ← get16_at l4 16;
      cs ← csumUpdate cs old updated;
      l4 ← put16 l4 16 cs;
      Some (s, l4)
    else Some (s, l4)
  else if proto =? protoUDP then
    if (8 <=? length l4)%nat then
      cs ← get16_at l4 6;
      if negb (cs =? 0) then
        fixed ← csumUpdate cs old updated;
        let fixed := if fixed =? 0 then 0xffff else fixed in
        l4 ← put16 l4 6 fixed;
        Some (s, l4)
      else Some (s, l4)
    else Some (s, l4)
  else if proto =? protoICMP then rewriteQuoted s l4
  else Some (s, l4).

(** The rest of [rewrite] once both addresses are translated, to the bytes [updated]. *)
Definition replaceAddrs (s : S) (ihl : nat) (pkt updated : list Z) : option (S * list Z * bool) :=
  old ← slice pkt 12 20;
  if bool_decide (old = updated) then Some (s, pkt, true) else
  pkt ← blit pkt 12 updated;
  cs ← get16_at pkt 10;
  cs ← csumUpdate cs old updated;
  pkt ← put16 pkt 10 cs;
  b6 ← pkt !! 6%nat;
  b7 ← pkt !! 7%nat;
  if negb (Z.land b6 0x1f =? 0) || negb (b7 =? 0) then Some (s, pkt, true) else
  proto ← pkt !! 9%nat;
  l4 ← slice pkt ihl (length pkt);
  '(s, l4) ← rewriteL4 s proto l4 old updated;
  pkt ← blit pkt ihl l4;
  Some (s, pkt, true).

(** The state, the packet, and whether it can be forwarded. *)
Definition rewrite (s : S) (pkt : list Z) : option (S * list Z * bool) :=
  if (length pkt <? 20)%nat then Some (s, pkt, false) else
  b0 ← pkt !! 0%nat;
  if negb (Z.shiftr b0 4 =? 4) then Some (s, pkt, false) else
  let ihl := ihl_of b0 in
  if ((ihl <? 20) || (length pkt <? ihl))%nat then Some (s, pkt, false) else
  src ← addr_at pkt 12;
  dst ← addr_at pkt 16;
  let '(s, newSrc) := translate s src in
  let '(s, newDst) := translate s dst in
  match newSrc, newDst with
  | Some newSrc, Some newDst =>
    s4 ← addr_As4 newSrc;
    d4 ← addr_As4 newDst;
    replaceAddrs s ihl pkt (s4 ++ d4)
  | _, _ => Some (s, pkt, false)
  end.

End Rewrite.

(** ** Sums of words

    The internet checksum of RFC 1071 is the complement of the ones-complement sum of
    the 16-bit words; a text with a correct checksum sums to 0 modulo 65535. *)

Fixpoint wsum (l : list Z) : Z :=
  match l with
  | hi :: lo :: l => be16 hi lo + wsum l
  | [hi] => be16 hi 0
  | [] => 0
  end.

Definition bytes (l : list Z) : Prop := Forall is_byte l.

(** Equality of ones-complement sums. *)
Definition same_sum (a b : Z) : Prop := ∃ q, a = b + 65535 * q.

#[export] Instance same_sum_equiv : Equivalence same_sum.
Proof.
  split.
  - intros a. exists 0. lia.
  - intros a b [q Hq]. exists (- q). lia.
  - intros a b c [q Hq] [r Hr]. exists (q + r). lia.
Qed.

#[export] Instance same_sum_add : Proper (same_sum ==> same_sum ==> same_sum) Z.add.
Proof. intros a b [q Hq] c d [r Hr]. exists (q + r). lia. Qed.

Lemma wsum_app l1 l2 : Nat.Even (length l1) → wsum (l1 ++ l2) = wsum l1 + wsum l2.
Proof.
  induction l1 as [l1 IH] using (induction_ltof1 _ length). unfold ltof in IH.
  destruct l1 as [|a [|b l1]]; [done|by intros [k Hk]; simpl in Hk; lia|].
  intros [k Hk]. cbn [app wsum]. rewrite IH; [lia|simpl; lia|]. exists (k - 1)%nat. simpl in Hk. lia.
Qed.

Lemma wsum_nonneg l : bytes l → 0 ≤ wsum l.
Proof.
  induction l as [l IH] using (induction_ltof1 _ length). unfold ltof in IH.
  destruct l as [|a [|b l]]; [done|..]; unfold bytes, is_byte, be16; rewrite ?Forall_cons; simpl.
  - unfold be16. lia.
  - intros (? & ? & Hl). specialize (IH l). simpl in IH.
    assert (0 ≤ wsum l) by (apply IH; [lia|done]). unfold be16. lia.
Qed.

Lemma be16_range hi lo : is_byte hi → is_byte lo → 0 ≤ be16 hi lo < 65536.
Proof. unfold is_byte, be16. lia. Qed.

Lemma u16_bytes_ok v : 0 ≤ v < 65536 → bytes (u16_bytes v) ∧ wsum (u16_bytes v) = v ∧ get16 (u16_bytes v) = Some v.
Proof.
  intros Hv. unfold u16_bytes, bytes, is_byte, be16. rewrite Z.shiftr_div_pow2 by lia.
  change (2 ^ 8) with 256. assert (v / 256 mod 256 = v / 256) as Hd
    by (apply Z.mod_small; split; [apply Z.div_pos|apply Z.div_lt_upper_bound]; lia).
  pose proof (Z.div_mod v 256). pose proof (Z.mod_pos_bound v 256).
  assert (0 ≤ v / 256 < 256) by (rewrite <-Hd; apply Z.mod_pos_bound; lia).
  rewrite Hd. split_and!; [repeat constructor; lia|cbn [wsum]; unfold be16; lia|].
  cbn [get16]. unfold be16. f_equal. lia.
Qed.

(** ** Writing through slices *)

Lemma slice_Some l i j : (i ≤ j ≤ length l)%nat → slice l i j = Some (take (j - i) (drop i l)).
Proof. intros [? ?]. unfold slice. by rewrite !(proj2 (Nat.leb_le _ _)) by lia. Qed.

(** What a write leaves: everything outside it, and the sum changed by the difference. *)
Record written (l : list Z) (i : nat) (old b l' : list Z) : Prop := {
  wr_length : length l' = length l;
  wr_bytes : bytes l → bytes b → bytes l';
  wr_sum : Nat.Even i → Nat.Even (length b) ∨ (i + length b)%nat = length l →
    wsum l' = wsum l - wsum old + wsum b;
  wr_read : slice l' i (i + length b) = Some b;
  wr_other : ∀ j, (j < i)%nat ∨ (i + length b ≤ j)%nat → l' !! j = l !! j;
}.

Lemma blit_spec l i b :
  (i + length b ≤ length l)%nat →
  ∃ old l', slice l i (i + length b) = Some old ∧ length old = length b ∧ (bytes l → bytes old) ∧
    blit l i b = Some l' ∧ written l i old b l'.
Proof.
  intros Hi. set (n := length b) in *.
  exists (take n (drop i l)), (take i l ++ b ++ drop (i + n) l).
  assert (length (take i l) = i) as Hti by (rewrite length_take; lia).
  assert (l = take i l ++ take n (drop i l) ++ drop (i + n) l) as Hl.
  { rewrite <-(take_drop i l) at 1. f_equal. by rewrite <-(take_drop n (drop i l)) at 1; rewrite drop_drop. }
  assert (length (take n (drop i l)) = n) as Hn by (rewrite length_take, length_drop; lia).
  split_and!.
  - rewrite slice_Some by lia. do 2 f_equal. lia.
  - done.
  - intros Hb. by apply Forall_take, Forall_drop.
  - unfold blit. fold n. by rewrite (proj2 (Nat.leb_le _ _)) by lia.
  - split.
    + rewrite !length_app, length_take, length_drop. fold n. lia.
    + intros ? ?. apply Forall_app; split; [by apply Forall_take|].
      apply Forall_app; split; [done|by apply Forall_drop].
    + intros Hie Hbe. rewrite Hl at 3. destruct Hbe as [Hbe|Hbe].
      * rewrite !wsum_app by (by rewrite ?Hti, ?Hn). lia.
      * fold n in Hbe. rewrite Hbe, !drop_all, !app_nil_r, !wsum_app by (by rewrite ?Hti). lia.
    + fold n. rewrite slice_Some by (rewrite !length_app, length_take, length_drop; fold n; lia).
      rewrite drop_app_length' by done. replace (i + n - i)%nat with n by lia.
      by rewrite take_app_length'.
    + fold n. intros j [Hj|Hj].
      * rewrite lookup_app_l by lia. by rewrite lookup_take_lt.
      * rewrite lookup_app_r, lookup_app_r by (fold n; lia). rewrite lookup_drop. f_equal. fold n. lia.
Qed.

Lemma put16_spec l i :
  bytes l → (i + 2 ≤ length l)%nat →
  ∃ old v, get16_at l i = Some v ∧ slice l i (i + 2) = Some old ∧ wsum old = v ∧ 0 ≤ v < 65536 ∧
    ∀ w, 0 ≤ w < 65536 → ∃ l', put16 l i w = Some l' ∧ written l i old (u16_bytes w) l'.
Proof.
  intros Hl Hi. destruct (blit_spec l i (u16_bytes 0)) as (old & _ & Hs & Hlen & Hb & _ & _); [done|].
  specialize (Hb Hl). simpl in Hs, Hlen. destruct old as [|hi [|lo [|]]]; try done.
  pose proof (Forall_cons_1 _ _ _ Hb) as [Hhi Hb']. pose proof (Forall_cons_1 _ _ _ Hb') as [Hlo _].
  exists [hi; lo], (be16 hi lo). unfold get16_at. rewrite Hs. cbn [mbind option_bind get16 wsum].
  split_and!; [done|done|lia|by apply be16_range..|].
  intros w Hw. destruct (blit_spec l i (u16_bytes w)) as (old & l' & Hs' & _ & _ & Hbl & Hwr); [done|].
  simpl in Hs'. rewrite Hs in Hs'. injection Hs' as <-. eauto.
Qed.

(** ** The checksum update *)

Lemma not16_eq v : 0 ≤ v < 65536 → not16 v = 65535 - v.
Proof.
  intros Hv. unfold not16, u16, wrap. unfold Z.lnot. change (2 ^ 16) with 65536.
  replace (Z.pred (- v)) with (65535 - v + (-1) * 65536) by lia.
  rewrite Z.mod_add by lia. apply Z.mod_small. lia.
Qed.

Lemma csum_sum_spec n sum old updated :
  length old = (2 * n)%nat → length updated = (2 * n)%nat → bytes old → bytes updated →
  0 ≤ sum → sum + 131070 * Z.of_nat n < 2 ^ 32 →
  csum_sum sum old updated = Some (sum + 65535 * Z.of_nat n - wsum old + wsum updated) ∧
  0 ≤ 65535 * Z.of_nat n - wsum old ∧ wsum updated ≤ 65535 * Z.of_nat n.
Proof.
  revert sum old updated. induction n as [|n IH]; intros sum old updated Ho Hu Hbo Hbu Hs Hb.
  { destruct old, updated; try done. cbn [csum_sum wsum]. split; [f_equal|]; lia. }
  destruct old as [|o0 [|o1 old]], updated as [|n0 [|n1 updated]]; simpl in Ho, Hu; try lia.
  unfold bytes in Hbo, Hbu. rewrite !Forall_cons in Hbo, Hbu.
  destruct Hbo as (? & ? & ?), Hbu as (? & ? & ?). cbn [csum_sum wsum].
  assert (0 ≤ be16 o0 o1 < 65536) by by apply be16_range.
  assert (0 ≤ be16 n0 n1 < 65536) by by apply be16_range.
  rewrite not16_eq by auto. rewrite (u32_small (sum + _)) by lia.
  rewrite u32_small by lia.
  destruct (IH (sum + (65535 - be16 o0 o1) + be16 n0 n1) old updated) as (-> & ? & ?); try (done || lia).
  split_and!; [f_equal|..]; lia.
Qed.

Lemma fold_step s :
  0 ≤ s < 2 ^ 32 →
  u32 (Z.land s 0xffff + s / 65536) = s mod 65536 + s / 65536 ∧ Z.shiftr s 16 = s / 65536.
Proof.
  intros Hs. rewrite Z.shiftr_div_pow2 by lia. change 0xffff with (Z.ones 16).
  rewrite Z.land_ones by lia. change (2 ^ 16) with 65536.
  split; [|done]. apply u32_small. pose proof (Z.mod_pos_bound s 65536).
  assert (0 ≤ s / 65536 < 65536) by (split; [apply Z.div_pos|apply Z.div_lt_upper_bound]; lia). lia.
Qed.

(** The carries of a 32-bit sum are gone after two rounds: the result has 16 bits, the
    same ones-complement value, and is zero only for the sum zero. *)
Lemma csum_fold_enough s :
  0 ≤ s < 2 ^ 32 →
  ∃ f, csum_fold 2 s = Some f ∧ 0 ≤ f < 65536 ∧ same_sum f s ∧ (f = 0 → s = 0).
Proof.
  assert (∀ s, 0 ≤ s → s = 65536 * (s / 65536) + s mod 65536 ∧ 0 ≤ s mod 65536 < 65536 ∧ 0 ≤ s / 65536) as Hdm.
  { intros x Hx. pose proof (Z.div_mod x 65536). pose proof (Z.mod_pos_bound x 65536).
    pose proof (Z.div_pos x 65536). lia. }
  intros Hs. destruct (fold_step s Hs) as [Hn Hsh]. destruct (Hdm s) as (? & ? & ?); [lia|].
  cbn [csum_fold]. rewrite Hsh. destruct (Z.eqb_spec (s / 65536) 0) as [Hz|Hz].
  { exists s. split_and!; [done|lia|lia|reflexivity|done]. }
  rewrite Hn. set (s1 := s mod 65536 + s / 65536) in *. assert (0 ≤ s1 < 2 ^ 32) as Hs1 by lia.
  destruct (fold_step s1 Hs1) as [Hn1 Hsh1]. destruct (Hdm s1) as (? & ? & ?); [lia|].
  rewrite Hsh1. destruct (Z.eqb_spec (s1 / 65536) 0) as [Hz1|Hz1].
  { exists s1. split_and!; [done|lia|lia|exists (- (s / 65536)); lia|lia]. }
  rewrite Hn1. set (s2 := s1 mod 65536 + s1 / 65536) in *. assert (0 ≤ s2 < 2 ^ 32) as Hs2 by lia.
  destruct (fold_step s2 Hs2) as [_ Hsh2]. destruct (Hdm s2) as (? & ? & ?); [lia|].
  rewrite Hsh2, (proj2 (Z.eqb_eq _ _)) by lia. exists s2.
  split_and!; [done|lia|lia|exists (- (s / 65536) - s1 / 65536); lia|lia].
Qed.

Lemma csumUpdate_spec n cs old updated :
  length old = (2 * n)%nat → length updated = (2 * n)%nat → (n ≤ 100)%nat →
  bytes old → bytes updated → 0 ≤ cs < 65536 →
  ∃ cs', csumUpdate cs old updated = Some cs' ∧ 0 ≤ cs' < 65536 ∧
    same_sum (cs' + wsum updated) (cs + wsum old) ∧ (cs' = 65535 → cs = 65535).
Proof.
  intros Ho Hu Hn Hbo Hbu Hcs. unfold csumUpdate. rewrite not16_eq by done.
  destruct (csum_sum_spec n (65535 - cs) old updated) as (-> & ? & ?); try (done || lia).
  pose proof (wsum_nonneg old Hbo). pose proof (wsum_nonneg updated Hbu). cbn [mbind option_bind].
  edestruct csum_fold_enough as (f & -> & Hf & [q Hq] & Hz); [|cbn [mbind option_bind]].
  { split; [lia|]. apply Z.le_lt_trans with (65535 + 131070 * Z.of_nat n); [lia|].
    change (2 ^ 32) with 4294967296. lia. }
  rewrite u16_small, not16_eq by lia. eexists. split; [done|]. split; [lia|]. split; [|lia].
  exists (- q - Z.of_nat n). lia.
Qed.

(** The ones-complement sum with the carries folded in, and the checksum of RFC 1071. *)
Definition oc (s : Z) : Z := if s =? 0 then 0 else 1 + (s - 1) mod 65535.
Definition checksum (l : list Z) : Z := 65535 - oc (wsum l).

(** C40: Updating a checksum gives what summing the changed text anew would give. *)
Theorem csumUpdate_recomputes n rest old updated :
  length old = (2 * n)%nat → length updated = (2 * n)%nat → (n ≤ 100)%nat →
  bytes old → bytes updated → bytes rest → 0 < wsum old + wsum rest → 0 < wsum updated + wsum rest →
  csumUpdate (checksum (old ++ rest)) old updated = Some (checksum (updated ++ rest)).
Proof.
  intros Ho Hu Hn Hbo Hbu Hbr Hold Hnew.
  assert (∀ s, 0 < s → 0 < oc s < 65536 ∧ same_sum (oc s) s) as Hoc.
  { intros s Hs. unfold oc. rewrite (proj2 (Z.eqb_neq _ _)) by lia.
    pose proof (Z.mod_pos_bound (s - 1) 65535). split; [lia|].
    pose proof (Z.div_mod (s - 1) 65535). exists (- ((s - 1) / 65535)). lia. }
  unfold checksum. rewrite !wsum_app by (rewrite ?Ho, ?Hu; by exists n).
  destruct (Hoc _ Hold) as [Hro [a Ha]], (Hoc _ Hnew) as [Hrn [b Hb]].
  destruct (csumUpdate_spec n (65535 - oc (wsum old + wsum rest)) old updated)
    as (cs' & -> & Hr & [q Hq] & Hmax); try (done || lia).
  f_equal. assert (cs' ≠ 65535) by (intros ?%Hmax; lia). 
  assert (oc (wsum updated + wsum rest) + cs' = 65535 * (q + 1 - a + b)) as Hsum by lia.
  assert (q + 1 - a + b = 1) by nia. lia.
Qed.

(** ** What a rewrite promises *)

Lemma written_slice l i old b l' j k :
  written l i old b l' → (j ≤ k ≤ i)%nat → slice l' j k = slice l j k.
Proof.
  intros Hw Hjk. unfold slice. rewrite (wr_length _ _ _ _ _ Hw).
  destruct (_ && _); [|done]. f_equal. apply list_eq. intros x.
  destruct (decide (x < k - j)%nat) as [Hx|Hx].
  - rewrite !lookup_take_lt, !lookup_drop by done. apply (wr_other _ _ _ _ _ Hw). lia.
  - rewrite !lookup_take_ge by lia. done.
Qed.

Lemma even_2 n : (n = 2 * Nat.div2 n)%nat → Nat.Even n.
Proof. intros ->. by exists (Nat.div2 n). Qed.

(** The addresses and the checksum of a header after an update. *)
Record header_fixed (p updated p' : list Z) : Prop := {
  hf_length : length p' = length p;
  hf_bytes : bytes p';
  hf_addrs : slice p' 12 20 = Some updated;
  hf_other : ∀ j, (j < 10)%nat ∨ (20 ≤ j)%nat → p' !! j = p !! j;
}.

Lemma fix_header p updated :
  bytes p → (20 ≤ length p)%nat → length updated = 8%nat → bytes updated →
  ∃ old p1 cs cs' p2, slice p 12 20 = Some old ∧ length old = 8%nat ∧ bytes old ∧
    blit p 12 updated = Some p1 ∧ get16_at p1 10 = Some cs ∧ csumUpdate cs old updated = Some cs' ∧
    put16 p1 10 cs' = Some p2 ∧ 0 ≤ cs < 65536 ∧ 0 ≤ cs' < 65536 ∧
    same_sum (cs' + wsum updated) (cs + wsum old) ∧
    length p1 = length p ∧ bytes p1 ∧ (∀ j, (j < 12)%nat ∨ (20 ≤ j)%nat → p1 !! j = p !! j) ∧
    wsum p1 = wsum p - wsum old + wsum updated ∧ wsum p2 = wsum p1 - cs + cs' ∧ slice p1 12 20 = Some updated ∧
    header_fixed p updated p2.
Proof.
  intros Hp Hlen Hu Hbu. destruct (blit_spec p 12 updated) as (old & p1 & Hs & Hol & Hbo & Hb & Hw); [lia|].
  rewrite Hu in Hs, Hol. specialize (Hbo Hp). pose proof (wr_bytes _ _ _ _ _ Hw Hp Hbu) as Hp1.
  pose proof (wr_length _ _ _ _ _ Hw) as Hl1.
  destruct (put16_spec p1 10 Hp1) as (o & cs & Hg & Ho & Hwo & Hcs & Hput); [lia|].
  destruct (csumUpdate_spec 4 cs old updated) as (cs' & Hc & Hcs' & Hsum & _); try (done || lia).
  destruct (Hput cs' Hcs') as (p2 & Hp2 & Hw2). destruct (u16_bytes_ok cs' Hcs') as (Hub & Hus & _).
  pose proof (wr_sum _ _ _ _ _ Hw) as Hsum1. pose proof (wr_sum _ _ _ _ _ Hw2) as Hsum2.
  pose proof (wr_length _ _ _ _ _ Hw2) as Hl2.
  exists old, p1, cs, cs', p2. split_and!; try done; try lia.
  - intros j Hj. apply (wr_other _ _ _ _ _ Hw). lia.
  - apply Hsum1; [by apply even_2|left; rewrite Hu; by apply even_2].
  - rewrite Hsum2, Hwo, Hus; [done|by apply even_2|left; by apply even_2].
  - pose proof (wr_read _ _ _ _ _ Hw) as Hr. by rewrite Hu in Hr.
  - split; [lia|by apply (wr_bytes _ _ _ _ _ Hw2)| |].
    + assert (slice p2 12 20 = slice p1 12 20) as ->.
      { rewrite !slice_Some by lia. f_equal. apply list_eq. intros x.
        destruct (decide (x < 8)%nat); [|by rewrite !lookup_take_ge by lia].
        rewrite !lookup_take_lt, !lookup_drop by lia. apply (wr_other _ _ _ _ _ Hw2). simpl. lia. }
      pose proof (wr_read _ _ _ _ _ Hw) as Hr. by rewrite Hu in Hr.
    + intros j Hj. rewrite (wr_other _ _ _ _ _ Hw2) by (simpl; lia).
      apply (wr_other _ _ _ _ _ Hw). lia.
Qed.

(** The bytes of the transport part a rewrite may change: the checksum, or the quoted
    addresses and checksums of an ICMP error. *)
Definition l4_touched (proto : Z) (j : nat) : bool :=
  if proto =? protoTCP then ((16 <=? j) && (j <? 18))%nat
  else if proto =? protoUDP then ((6 <=? j) && (j <? 8))%nat
  else if proto =? protoICMP then ((2 <=? j) && (j <? 4) || (18 <=? j) && (j <? 28))%nat
  else false.

(** The checksum over the transport part and, for TCP and UDP, over the addresses
    [old], which became [updated], is as right as it was. *)
Record l4_ok (proto : Z) (old updated l4 l4' : list Z) : Prop := {
  l4_length : length l4' = length l4;
  l4_bytes : bytes l4';
  l4_tcp : proto = protoTCP → (18 ≤ length l4)%nat →
    same_sum (wsum updated + wsum l4') (wsum old + wsum l4);
  l4_udp : proto = protoUDP → (8 ≤ length l4)%nat →
    if bool_decide (get16_at l4 6 = Some 0) then l4' = l4
    else same_sum (wsum updated + wsum l4') (wsum old + wsum l4) ∧ get16_at l4' 6 ≠ Some 0;
  l4_icmp : proto = protoICMP → same_sum (wsum l4') (wsum l4);
  l4_other : ∀ j, l4_touched proto j = false → l4' !! j = l4 !! j;
}.

Lemma icmp_touched j :
  l4_touched protoICMP j = false → (j < 2)%nat ∨ (4 ≤ j < 18)%nat ∨ (28 ≤ j)%nat.
Proof.
  assert (l4_touched protoICMP j = ((2 <=? j) && (j <? 4) || (18 <=? j) && (j <? 28))%nat) as -> by done.
  rewrite orb_false_iff, !andb_false_iff, !Nat.leb_gt, !Nat.ltb_ge. lia.
Qed.

Lemma slice_lookup l i j b x : slice l i j = Some b → (x < length b)%nat → b !! x = l !! (i + x)%nat.
Proof.
  unfold slice. destruct (_ && _); [|done]. intros [= <-]. rewrite length_take. intros Hx.
  by rewrite lookup_take_lt, lookup_drop by lia.
Qed.

Section RewriteFacts.
Context {S : Type} (translate : S → Addr → S * option Addr).

(** Translations keep the invariant [Inv] of their state and yield IPv4 addresses. *)
Definition translates_4 (Inv : S → Prop) : Prop :=
  ∀ s a, Inv s → Inv (translate s a).1 ∧ ∀ a', (translate s a).2 = Some a' → ∃ v, a' = Addr4 v ∧ is_u32 v.

Context (Inv : S → Prop) (Htr : translates_4 Inv).

Lemma translated_bytes s a o s' b o' s'' :
  Inv s → translate s a = (s', o) → translate s' b = (s'', o') → Inv s'' ∧
  ∀ a' b', o = Some a' → o' = Some b' →
  ∃ v w, a' = Addr4 v ∧ b' = Addr4 w ∧ length (bytes4 v ++ bytes4 w) = 8%nat ∧ bytes (bytes4 v ++ bytes4 w).
Proof using Htr.
  intros Hs H1 H2. destruct (Htr s a Hs) as [Hs' Ha]. rewrite H1 in Hs', Ha.
  destruct (Htr s' b Hs') as [Hs'' Hb]. rewrite H2 in Hs'', Hb. split; [done|].
  intros a' b' -> ->. destruct (Ha _ eq_refl) as (v & -> & _), (Hb _ eq_refl) as (w & -> & _).
  exists v, w. split_and!; [done..|]. apply Forall_app. split; apply bytes4_bytes.
Qed.

Lemma addr_at_Some l i : (i + 4 ≤ length l)%nat → ∃ a, addr_at l i = Some a.
Proof using. intros Hi. unfold addr_at. rewrite slice_Some by lia. eauto. Qed.

Lemma lookup_Some_lt (l : list Z) i : (i < length l)%nat → ∃ x, l !! i = Some x.
Proof using. apply lookup_lt_is_Some_2. Qed.

(** The quoted header with its addresses replaced, and the checksum [cs] of the message
    around it brought along: the two together sum to what they summed to. *)
Lemma fix_quote inner updated cs b0 :
  bytes inner → (20 ≤ length inner)%nat → length updated = 8%nat → bytes updated → 0 ≤ cs < 65536 →
  ∃ old p1 cs1 p3 cs3, slice inner 12 20 = Some old ∧ blit inner 12 updated = Some p1 ∧
    csumUpdate cs old updated = Some cs1 ∧
    (if ((20 <=? ihl_of b0) && (ihl_of b0 <=? length p1))%nat
     then before ← get16_at p1 10; after ← csumUpdate before old updated; inner ← put16 p1 10 after;
          icmpCS ← csumUpdate cs1 (u16_bytes before) (u16_bytes after); Some (inner, icmpCS)
     else Some (p1, cs1)) = Some (p3, cs3) ∧
    length p3 = length inner ∧ bytes p3 ∧ 0 ≤ cs3 < 65536 ∧
    same_sum (cs3 + wsum p3) (cs + wsum inner) ∧
    ∀ j, (j < 10)%nat ∨ (20 ≤ j)%nat → p3 !! j = inner !! j.
Proof using.
  intros Hib Hi20 Hul Hub Hcsr.
  destruct (fix_header inner updated Hib Hi20 Hul Hub) as (old & p1 & before & after & p2 & Hold & Hol & Hbo &
    Hbl & Hg & Hc & Hput & Hbr & Har & [q Hq] & Hlp1 & Hbp1 & Hp1 & Hsum1 & Hsum2 & _ & Hfix).
  destruct (csumUpdate_spec 4 cs old updated) as (cs1 & Hc1 & Hcs1 & [q1 Hq1] & _); try (done || lia).
  destruct (u16_bytes_ok before Hbr) as (? & Hwb & _), (u16_bytes_ok after Har) as (? & Hwa & _).
  destruct (csumUpdate_spec 1 cs1 (u16_bytes before) (u16_bytes after)) as (cs2 & Hc2 & Hcs2 & [q2 Hq2] & _);
    try (done || lia).
  rewrite Hwb, Hwa in Hq2. exists old, p1, cs1.
  destruct (_ && _).
  - exists p2, cs2. rewrite Hg. cbn [mbind option_bind]. rewrite Hc. cbn [mbind option_bind].
    rewrite Hput. cbn [mbind option_bind]. rewrite Hc2. split_and!; try done; try lia.
    + apply (hf_length _ _ _ Hfix).
    + apply (hf_bytes _ _ _ Hfix).
    + exists (q1 + q2). lia.
    + apply (hf_other _ _ _ Hfix).
  - exists p1, cs1. split_and!; try done; try lia; [exists q1; lia|].
    intros j Hj. apply Hp1. lia.
Qed.

(** Putting the quote [p3] and the checksum [cs3] back into the message. *)
Lemma put_quote icmp inner p3 cs cs3 :
  bytes icmp → (8 ≤ length icmp)%nat → inner = take (length icmp - 8) (drop 8 icmp) →
  length p3 = length inner → bytes p3 → get16_at icmp 2 = Some cs → 0 ≤ cs3 < 65536 →
  same_sum (cs3 + wsum p3) (cs + wsum inner) →
  (∀ j, (j < 10)%nat ∨ (20 ≤ j)%nat → p3 !! j = inner !! j) →
  ∃ icmp1 icmp2, blit icmp 8 p3 = Some icmp1 ∧ put16 icmp1 2 cs3 = Some icmp2 ∧
    length icmp2 = length icmp ∧ bytes icmp2 ∧ same_sum (wsum icmp2) (wsum icmp) ∧
    ∀ j, l4_touched protoICMP j = false → icmp2 !! j = icmp !! j.
Proof using.
  intros Hb Hl Hin Hl3 Hb3 Hcs Hr3 [q3 Hq3] Ho3.
  assert (length inner = length icmp - 8)%nat as Hil by (rewrite Hin, length_take, length_drop; lia).
  destruct (blit_spec icmp 8 p3) as (o & icmp1 & Hoo & _ & _ & Hbl1 & Hw1); [lia|].
  assert (o = inner) as ->.
  { rewrite slice_Some in Hoo by lia. injection Hoo as <-. rewrite Hin. f_equal. lia. }
  pose proof (wr_length _ _ _ _ _ Hw1) as Hl1. pose proof (wr_bytes _ _ _ _ _ Hw1 Hb Hb3) as Hb1.
  destruct (put16_spec icmp1 2 Hb1) as (o2 & v2 & Hv2 & _ & Hwo2 & _ & Hput2); [lia|].
  assert (v2 = cs) as ->.
  { unfold get16_at in Hv2, Hcs. rewrite (written_slice _ _ _ _ _ 2 (2 + 2) Hw1) in Hv2 by lia. congruence. }
  destruct (Hput2 cs3 Hr3) as (icmp2 & Hbl2 & Hw2). destruct (u16_bytes_ok cs3 Hr3) as (Hub3 & Hus3 & _).
  exists icmp1, icmp2. split_and!; [done|done| | | |].
  - rewrite (wr_length _ _ _ _ _ Hw2). lia.
  - by apply (wr_bytes _ _ _ _ _ Hw2).
  - rewrite (wr_sum _ _ _ _ _ Hw2 (even_2 2 eq_refl) (or_introl (even_2 2 eq_refl))), Hwo2, Hus3.
    rewrite (wr_sum _ _ _ _ _ Hw1 (even_2 8 eq_refl)) by lia. exists q3. lia.
  - intros j Hj%icmp_touched. rewrite (wr_other _ _ _ _ _ Hw2) by (simpl; lia).
    destruct (decide (j < 8)%nat) as [Hj8|Hj8]; [apply (wr_other _ _ _ _ _ Hw1); lia|].
    assert (∃ x, j = (8 + x)%nat) as [x ->] by (exists (j - 8)%nat; lia).
    destruct (decide (x < length p3)%nat) as [Hx|Hx];
      [|by rewrite !lookup_ge_None_2 by lia].
    rewrite <-(slice_lookup _ _ _ _ x (wr_read _ _ _ _ _ Hw1)) by lia.
    rewrite Ho3, Hin by lia. by rewrite lookup_take_lt, lookup_drop by lia.
Qed.

(** The quoted header of an ICMP error: nothing but its addresses and checksums, and
    the message sums to what it summed to. *)
Lemma rewriteQuoted_spec s icmp :
  Inv s → bytes icmp →
  ∃ s' icmp', rewriteQuoted translate s icmp = Some (s', icmp') ∧ Inv s' ∧ length icmp' = length icmp ∧
    bytes icmp' ∧ same_sum (wsum icmp') (wsum icmp) ∧
    ∀ j, l4_touched protoICMP j = false → icmp' !! j = icmp !! j.
Proof using Htr.
  intros Hs Hb. unfold rewriteQuoted.
  assert (∀ s0 : S, Inv s0 → ∃ s' icmp', Some (s0, icmp) = Some (s', icmp') ∧ Inv s' ∧ length icmp' = length icmp ∧
    bytes icmp' ∧ same_sum (wsum icmp') (wsum icmp) ∧
    ∀ j, l4_touched protoICMP j = false → icmp' !! j = icmp !! j) as Hsame
    by (intros s0 ?; exists s0, icmp; by split_and!).
  destruct (Nat.ltb_spec (length icmp) 8) as [|Hl]; [by apply Hsame|].
  destruct (lookup_Some_lt icmp 0) as [ty ->]; [lia|]. cbn [mbind option_bind].
  destruct (negb _); [by apply Hsame|]. rewrite slice_Some by lia. cbn [mbind option_bind].
  set (inner := take (length icmp - 8) (drop 8 icmp)).
  assert (bytes inner) as Hib by (by apply Forall_take, Forall_drop).
  destruct (Nat.ltb_spec (length inner) 20) as [|Hi20]; [by apply Hsame|].
  destruct (lookup_Some_lt inner 0) as [b0 ->]; [lia|]. cbn [mbind option_bind].
  destruct (negb _); [by apply Hsame|].
  destruct (addr_at_Some inner 12) as [src ->]; [lia|]. destruct (addr_at_Some inner 16) as [dst ->]; [lia|].
  cbn [mbind option_bind]. destruct (translate s src) as [s1 ns] eqn:Hs1.
  destruct (translate s1 dst) as [s2 nd] eqn:Hs2.
  destruct (translated_bytes _ _ _ _ _ _ _ Hs Hs1 Hs2) as [Hi2 Hbytes].
  destruct ns as [ns|], nd as [nd|]; try by apply Hsame.
  destruct (Hbytes _ _ eq_refl eq_refl) as (v & w & -> & -> & Hul & Hub).
  cbn [addr_As4 addr_Unmap]. set (updated := bytes4 v ++ bytes4 w) in *.
  destruct (put16_spec icmp 2 Hb) as (_ & cs & Hcs & _ & _ & Hcsr & _); [lia|].
  destruct (fix_quote inner updated cs b0) as (old & p1 & cs1 & p3 & cs3 & Hold & Hbl & Hc1 & Hif & Hl3 & Hb3 &
    Hr3 & Hq3 & Ho3); [done..|].
  destruct (put_quote icmp inner p3 cs cs3) as (icmp1 & icmp2 & Hbl1 & Hbl2 & Hres); [done..|].
  rewrite Hold. cbn [mbind option_bind]. cbv zeta. fold updated. case_bool_decide; [by apply Hsame|].
  rewrite Hbl. cbn [mbind option_bind]. rewrite Hcs. cbn [mbind option_bind]. rewrite Hc1. cbn [mbind option_bind].
  rewrite Hif. cbn [mbind option_bind]. rewrite Hbl1. cbn [mbind option_bind]. rewrite Hbl2.
  exists s2, icmp2. by split; [|].
Qed.

(** The checksum at an even place of the transport part, replaced by the updated one or
    one of the same value. *)
Lemma update_checksum l4 i old updated :
  bytes l4 → Nat.Even i → (i + 2 ≤ length l4)%nat →
  length old = 8%nat → length updated = 8%nat → bytes old → bytes updated →
  ∃ cs cs', get16_at l4 i = Some cs ∧ csumUpdate cs old updated = Some cs' ∧ 0 ≤ cs' < 65536 ∧
    ∀ w, 0 ≤ w < 65536 → same_sum w cs' → ∃ l4', put16 l4 i w = Some l4' ∧ length l4' = length l4 ∧
      bytes l4' ∧ same_sum (wsum updated + wsum l4') (wsum old + wsum l4) ∧ get16_at l4' i = Some w ∧
      ∀ j, (j < i)%nat ∨ (i + 2 ≤ j)%nat → l4' !! j = l4 !! j.
Proof using.
  intros Hb He Hi Ho Hu Hbo Hbu. destruct (put16_spec l4 i Hb Hi) as (o & cs & Hg & _ & Hwo & Hr & Hput).
  destruct (csumUpdate_spec 4 cs old updated) as (cs' & Hc & Hr' & [q Hq] & _); try (done || lia).
  exists cs, cs'. split_and!; try done; try lia. intros w Hw [r Hwr].
  destruct (Hput w Hw) as (l4' & Hp & Hwr'). destruct (u16_bytes_ok w Hw) as (Hub & Hus & Hug).
  exists l4'. split_and!; [done|..].
  - apply (wr_length _ _ _ _ _ Hwr').
  - by apply (wr_bytes _ _ _ _ _ Hwr').
  - rewrite (wr_sum _ _ _ _ _ Hwr' He (or_introl (even_2 2 eq_refl))), Hwo, Hus. exists (q + r). lia.
  - unfold get16_at. pose proof (wr_read _ _ _ _ _ Hwr') as Hrd. simpl in Hrd. by rewrite Hrd.
  - apply (wr_other _ _ _ _ _ Hwr').
Qed.

Lemma touched_between proto i j :
  (proto = protoTCP ∧ i = 16%nat) ∨ (proto = protoUDP ∧ i = 6%nat) → l4_touched proto j = false →
  (j < i)%nat ∨ (i + 2 ≤ j)%nat.
Proof using.
  intros [[-> ->]|[-> ->]].
  - assert (l4_touched protoTCP j = ((16 <=? j) && (j <? 18))%nat) as -> by done.
    rewrite andb_false_iff, Nat.leb_gt, Nat.ltb_ge. lia.
  - assert (l4_touched protoUDP j = ((6 <=? j) && (j <? 8))%nat) as -> by done.
    rewrite andb_false_iff, Nat.leb_gt, Nat.ltb_ge. lia.
Qed.

Lemma rewriteL4_spec s proto l4 old updated :
  Inv s → bytes l4 → length old = 8%nat → length updated = 8%nat → bytes old → bytes updated →
  ∃ s' l4', rewriteL4 translate s proto l4 old updated = Some (s', l4') ∧ Inv s' ∧ l4_ok proto old updated l4 l4'.
Proof using Htr.
  intros Hs Hb Ho Hu Hbo Hbu. unfold rewriteL4.
  destruct (Z.eqb_spec proto protoTCP) as [->|Ht]; [|destruct (Z.eqb_spec proto protoUDP) as [->|Hd];
    [|destruct (Z.eqb_spec proto protoICMP) as [->|Hi]]].
  - destruct (Nat.leb_spec 18 (length l4)) as [Hl|Hl].
    2: { exists s, l4. split; [done|]. split; [done|]. split; (done || intros; lia). }
    destruct (update_checksum l4 16 old updated) as (cs & cs' & -> & Hc & Hr & Hput);
      [done|by apply even_2|lia|done..|].
    destruct (Hput cs' Hr) as (l4' & Hp & ? & ? & ? & _ & Hother); [reflexivity|].
    cbn [mbind option_bind]. rewrite Hc. cbn [mbind option_bind]. rewrite Hp. exists s, l4'.
    split; [done|]. split; [done|]. split; try done. intros j Hj. apply Hother. by apply (touched_between protoTCP); [left|].
  - destruct (Nat.leb_spec 8 (length l4)) as [Hl|Hl].
    2: { exists s, l4. split; [done|]. split; [done|]. split; (done || intros; lia). }
    destruct (update_checksum l4 6 old updated) as (cs & cs' & Hcs & Hc & Hr & Hput);
      [done|by apply even_2|lia|done..|].
    rewrite Hcs. cbn [mbind option_bind]. destruct (Z.eqb_spec cs 0) as [->|Hz]; cbn [negb].
    { exists s, l4. split; [done|]. split; [done|]. split; try done. intros _ _. by rewrite bool_decide_eq_true_2. }
    rewrite Hc. cbn [mbind option_bind]. cbv zeta. set (w := if cs' =? 0 then 0xffff else cs').
    assert (0 ≤ w < 65536 ∧ w ≠ 0 ∧ same_sum w cs') as (Hw & Hwz & Hws).
    { unfold w. destruct (Z.eqb_spec cs' 0) as [->|]; split_and!; try lia; [by exists 1|reflexivity]. }
    destruct (Hput w Hw Hws) as (l4' & Hp & ? & ? & ? & Hg & Hother). rewrite Hp.
    exists s, l4'. split; [done|]. split; [done|]. split; try done.
    + intros _ _. rewrite bool_decide_eq_false_2 by congruence. split; [done|]. rewrite Hg. congruence.
    + intros j Hj. apply Hother. by apply (touched_between protoUDP); [right|].
  - destruct (rewriteQuoted_spec s l4 Hs Hb) as (s' & l4' & -> & ? & ? & ? & ? & ?). exists s', l4'.
    split; [done|]. split; [done|]. by split.
  - exists s, l4. split; [done|]. split; [done|]. by split.
Qed.

(** ** The whole packet *)

Definition hdr_len (pkt : list Z) : nat := ihl_of (default 0 (pkt !! 0%nat)).
Definition l4_part (pkt : list Z) : list Z := drop (hdr_len pkt) pkt.
Definition hdr_part (pkt : list Z) : list Z := take (hdr_len pkt) pkt.
Definition addrs_part (pkt : list Z) : list Z := take 8 (drop 12 pkt).
Definition proto_of (pkt : list Z) : Z := default 0 (pkt !! 9%nat).
Definition later_fragment (pkt : list Z) : bool :=
  negb (Z.land (default 0 (pkt !! 6%nat)) 0x1f =? 0) || negb (default 0 (pkt !! 7%nat) =? 0).

Lemma ihl_even b : Nat.Even (ihl_of b).
Proof using.
  unfold ihl_of. exists (Z.to_nat (Z.land b 15 * 2)).
  assert (0 ≤ Z.land b 15) by (apply Z.land_nonneg; lia). lia.
Qed.

(** What a forwarded packet has become: [updated] are its new addresses. *)
Record rewritten (pkt updated pkt' : list Z) : Prop := {
  rw_length : length pkt' = length pkt;
  rw_bytes : bytes pkt';
  rw_addrs : addrs_part pkt' = updated;
  rw_header : same_sum (wsum (hdr_part pkt')) (wsum (hdr_part pkt));
  rw_other : ∀ j, (j < 10)%nat ∨ (20 ≤ j < hdr_len pkt)%nat → pkt' !! j = pkt !! j;
  rw_l4 : if later_fragment pkt || bool_decide (addrs_part pkt = updated)
          then l4_part pkt' = l4_part pkt
          else l4_ok (proto_of pkt) (addrs_part pkt) updated (l4_part pkt) (l4_part pkt');
}.

Lemma drop_eq (l l' : list Z) n : length l' = length l →
  (∀ j, (n ≤ j)%nat → l' !! j = l !! j) → drop n l' = drop n l.
Proof using. intros _ Hj. apply list_eq. intros x. rewrite !lookup_drop. apply Hj. lia. Qed.

(** The header part sums to what the whole and the rest say. *)
Lemma header_sum pkt pkt' :
  hdr_len pkt' = hdr_len pkt → length pkt' = length pkt → (hdr_len pkt ≤ length pkt)%nat →
  same_sum (wsum pkt') (wsum pkt) → l4_part pkt' = l4_part pkt →
  same_sum (wsum (hdr_part pkt')) (wsum (hdr_part pkt)).
Proof using.
  intros Hh Hlen Hle [q Hq] Hl4. unfold hdr_part, l4_part in *. rewrite Hh in *.
  rewrite <-(take_drop (hdr_len pkt) pkt), <-(take_drop (hdr_len pkt) pkt') in Hq.
  rewrite Hl4, !wsum_app in Hq
    by (rewrite length_take_le by lia; apply ihl_even). exists q. lia.
Qed.

Lemma addrs_slice pkt : (20 ≤ length pkt)%nat → slice pkt 12 20 = Some (addrs_part pkt).
Proof using. intros Hl. by rewrite slice_Some by lia. Qed.

Lemma replaceAddrs_spec s pkt updated :
  Inv s → bytes pkt → (20 ≤ length pkt)%nat → (20 ≤ hdr_len pkt ≤ length pkt)%nat →
  length updated = 8%nat → bytes updated →
  ∃ s' pkt', replaceAddrs translate s (hdr_len pkt) pkt updated = Some (s', pkt', true) ∧ Inv s' ∧
    rewritten pkt updated pkt'.
Proof using Htr.
  intros Hs Hb Hl Hihl Hu Hbu. unfold replaceAddrs. rewrite addrs_slice by done. cbn [mbind option_bind].
  case_bool_decide as Hsame.
  { exists s, pkt. split; [done|]. split; [done|]. split; try done. by rewrite Hsame, bool_decide_eq_true_2, orb_true_r. }
  destruct (fix_header pkt updated Hb Hl Hu Hbu) as (old & p1 & cs & cs' & p2 & Hold & Hol & Hbo & Hbl & Hg &
    Hc & Hput & _ & _ & [q Hq] & Hlp1 & _ & _ & Hsum1 & Hsum2 & _ & Hfix).
  rewrite addrs_slice in Hold by done. injection Hold as <-.
  rewrite Hbl. cbn [mbind option_bind]. rewrite Hg. cbn [mbind option_bind]. rewrite Hc.
  cbn [mbind option_bind]. rewrite Hput. cbn [mbind option_bind].
  pose proof Hfix as [Hlp2 Hbp2 Haddr2 Hother2].
  assert (hdr_len p2 = hdr_len pkt) as Hh by (unfold hdr_len; by rewrite Hother2 by lia).
  assert (l4_part p2 = l4_part pkt) as Hl4.
  { unfold l4_part. rewrite Hh. apply drop_eq; [done|]. intros j Hj. apply Hother2. lia. }
  assert (same_sum (wsum (hdr_part p2)) (wsum (hdr_part pkt))) as Hhdr
    by (apply header_sum; [done..|lia| |done]; exists q; lia).
  destruct (lookup_Some_lt pkt 6) as [b6 Hb6]; [lia|]. destruct (lookup_Some_lt pkt 7) as [b7 Hb7]; [lia|].
  destruct (lookup_Some_lt pkt 9) as [proto Hb9]; [lia|].
  rewrite (Hother2 6%nat), Hb6 by lia. cbn [mbind option_bind].
  rewrite (Hother2 7%nat), Hb7 by lia. cbn [mbind option_bind].
  assert (later_fragment pkt = negb (Z.land b6 0x1f =? 0) || negb (b7 =? 0)) as Hfrag
    by (unfold later_fragment; by rewrite Hb6, Hb7).
  assert (addrs_part p2 = updated) as Haddrs.
  { rewrite addrs_slice in Haddr2 by lia. congruence. }
  rewrite <-Hfrag. destruct (later_fragment pkt) eqn:Hlf.
  { exists s, p2. split; [done|]. split; [done|]. split; try done; [|by rewrite Hlf].
    intros j Hj. apply Hother2. lia. }
  rewrite (Hother2 9%nat), Hb9 by lia. cbn [mbind option_bind].
  rewrite slice_Some by lia. cbn [mbind option_bind].
  assert (take (length p2 - hdr_len pkt) (drop (hdr_len pkt) p2) = l4_part pkt) as ->.
  { rewrite <-Hl4. unfold l4_part. rewrite Hh. apply take_ge. rewrite length_drop. lia. }
  destruct (rewriteL4_spec s proto (l4_part pkt) (addrs_part pkt) updated) as (s' & l4' & -> & Hs' & Hok);
    [done|by apply Forall_drop|done..|]. cbn [mbind option_bind].
  pose proof (l4_length _ _ _ _ _ Hok) as Hll4. unfold l4_part in Hll4. rewrite length_drop in Hll4.
  destruct (blit_spec p2 (hdr_len pkt) l4') as (o & p3 & _ & _ & _ & Hbl3 & Hw3); [lia|].
  rewrite Hbl3. cbn [mbind option_bind]. exists s', p3. split; [done|]. split; [done|].
  pose proof (wr_length _ _ _ _ _ Hw3) as Hlp3. pose proof (wr_other _ _ _ _ _ Hw3) as Hother3.
  assert (take (hdr_len pkt) p3 = take (hdr_len pkt) p2) as Htake.
  { apply list_eq. intros x. destruct (decide (x < hdr_len pkt)%nat).
    - rewrite !lookup_take_lt by done. apply Hother3. lia.
    - by rewrite !lookup_take_ge by lia. }
  assert (hdr_len p3 = hdr_len pkt) as Hh3 by (unfold hdr_len in *; by rewrite Hother3 by lia).
  split.
  - lia.
  - apply (wr_bytes _ _ _ _ _ Hw3); [done|apply (l4_bytes _ _ _ _ _ Hok)].
  - pose proof (written_slice _ _ _ _ _ 12 20 Hw3) as Hsl. rewrite Haddr2, addrs_slice in Hsl by lia.
    assert (Some (addrs_part p3) = Some updated) as [=] by (apply Hsl; lia). done.
  - unfold hdr_part in *. rewrite Hh3, Htake. by rewrite Hh in Hhdr.
  - intros j Hj. rewrite Hother3 by lia. apply Hother2. lia.
  - rewrite Hlf, bool_decide_eq_false_2 by done. cbn [orb].
    assert (l4_part p3 = l4') as ->; [|by unfold proto_of; rewrite Hb9].
    unfold l4_part. rewrite Hh3. pose proof (wr_read _ _ _ _ _ Hw3) as Hr.
    rewrite slice_Some in Hr by lia. injection Hr as Hr. rewrite take_ge in Hr; [done|].
    rewrite length_drop. lia.
Qed.

Lemma rewrite_spec s pkt :
  Inv s → bytes pkt →
  ∃ s' pkt' ok, rewrite translate s pkt = Some (s', pkt', ok) ∧ Inv s' ∧
    if ok then
      ∃ src dst s1 s2 v w, addr_at pkt 12 = Some src ∧ addr_at pkt 16 = Some dst ∧
        translate s src = (s1, Some (Addr4 v)) ∧ translate s1 dst = (s2, Some (Addr4 w)) ∧
        rewritten pkt (bytes4 v ++ bytes4 w) pkt'
    else pkt' = pkt.
Proof using Htr.
  intros Hs Hb. unfold rewrite.
  destruct (Nat.ltb_spec (length pkt) 20) as [|Hl]; [by repeat eexists|].
  destruct (lookup_Some_lt pkt 0) as [b0 Hb0]; [lia|]. rewrite Hb0. cbn [mbind option_bind].
  destruct (negb _); [by repeat eexists|]. cbv zeta.
  assert (ihl_of b0 = hdr_len pkt) as -> by (unfold hdr_len; by rewrite Hb0).
  destruct (Nat.ltb_spec (hdr_len pkt) 20) as [|Hihl]; [by repeat eexists|].
  destruct (Nat.ltb_spec (length pkt) (hdr_len pkt)) as [|Hihl2]; [by repeat eexists|]. cbn [orb].
  destruct (addr_at_Some pkt 12) as [src Hsrc]; [lia|]. destruct (addr_at_Some pkt 16) as [dst Hdst]; [lia|].
  rewrite Hsrc, Hdst. cbn [mbind option_bind].
  destruct (translate s src) as [s1 ns] eqn:Hs1. destruct (translate s1 dst) as [s2 nd] eqn:Hs2.
  destruct (translated_bytes _ _ _ _ _ _ _ Hs Hs1 Hs2) as [Hi2 Hbytes].
  destruct ns as [ns|], nd as [nd|]; try (by repeat eexists).
  destruct (Hbytes _ _ eq_refl eq_refl) as (v & w & -> & -> & Hul & Hub).
  cbn [addr_As4 addr_Unmap mbind option_bind].
  destruct (replaceAddrs_spec s2 pkt (bytes4 v ++ bytes4 w)) as (s' & pkt' & Heq & Hs' & Hrw); [done..|].
  exists s', pkt', true. split; [done|]. split; [done|]. by exists src, dst, s1, s2, v, w.
Qed.

End RewriteFacts.

(** Rewriting never goes out of bounds.  A packet is dropped exactly as it came; a
    forwarded one has the translations of its two addresses and differs from the
    original in nothing but the addresses, the checksums that cover them and, in an
    ICMP error, those of the quoted header. *)
Theorem rewrite_translates {S} (translate : S → Addr → S * option Addr) Inv s pkt :
  translates_4 translate Inv → Inv s → bytes pkt →
  ∃ s' pkt' ok, rewrite translate s pkt = Some (s', pkt', ok) ∧ Inv s' ∧ length pkt' = length pkt ∧
    if ok then
      ∃ src dst s1 s2 v w, addr_at pkt 12 = Some src ∧ addr_at pkt 16 = Some dst ∧
        translate s src = (s1, Some (Addr4 v)) ∧ translate s1 dst = (s2, Some (Addr4 w)) ∧
        addrs_part pkt' = bytes4 v ++ bytes4 w ∧
        (∀ j, (j < 10)%nat ∨ (20 ≤ j < hdr_len pkt)%nat → pkt' !! j = pkt !! j) ∧
        ∀ j, later_fragment pkt = true ∨ l4_touched (proto_of pkt) j = false →
          l4_part pkt' !! j = l4_part pkt !! j
    else pkt' = pkt.
Proof.
  intros Htr Hs Hb. destruct (rewrite_spec translate Inv Htr s pkt Hs Hb) as (s' & pkt' & ok & Hr & Hs' & Hok).
  exists s', pkt', ok. split; [done|]. split; [done|]. destruct ok; [|by subst].
  destruct Hok as (src & dst & s1 & s2 & v & w & Hsrc & Hdst & Hs1 & Hs2 & Hrw).
  split; [apply (rw_length _ _ _ Hrw)|]. exists src, dst, s1, s2, v, w.
  split_and!; [done..|apply (rw_addrs _ _ _ Hrw)|apply (rw_other _ _ _ Hrw)|].
  intros j Hj. pose proof (rw_l4 _ _ _ Hrw) as Hl4. destruct (later_fragment pkt).
  - by simpl in Hl4; rewrite Hl4.
  - destruct Hj as [?|Hj]; [done|]. destruct (bool_decide _); cbn [orb] in Hl4; [by rewrite Hl4|].
    by apply (l4_other _ _ _ _ _ Hl4).
Qed.

(** C3: A forwarded packet is as valid as the one that came: the sums the header, TCP, UDP
    and ICMP checksums are taken over keep their ones-complement value, and a UDP
    checksum is zero, for not computed, only if it was. *)
Theorem rewrite_keeps_checksums {S} (translate : S → Addr → S * option Addr) Inv s pkt s' pkt' :
  translates_4 translate Inv → Inv s → bytes pkt → rewrite translate s pkt = Some (s', pkt', true) →
  same_sum (wsum (hdr_part pkt')) (wsum (hdr_part pkt)) ∧
  (later_fragment pkt = false → proto_of pkt = protoTCP → (18 ≤ length (l4_part pkt))%nat →
     same_sum (wsum (addrs_part pkt') + wsum (l4_part pkt')) (wsum (addrs_part pkt) + wsum (l4_part pkt))) ∧
  (later_fragment pkt = false → proto_of pkt = protoUDP → (8 ≤ length (l4_part pkt))%nat →
     if bool_decide (get16_at (l4_part pkt) 6 = Some 0) then l4_part pkt' = l4_part pkt
     else get16_at (l4_part pkt') 6 ≠ Some 0 ∧
       same_sum (wsum (addrs_part pkt') + wsum (l4_part pkt')) (wsum (addrs_part pkt) + wsum (l4_part pkt))) ∧
  (later_fragment pkt = false → proto_of pkt = protoICMP →
     same_sum (wsum (l4_part pkt')) (wsum (l4_part pkt))).
Proof.
  intros Htr Hs Hb Hr. destruct (rewrite_spec translate Inv Htr s pkt Hs Hb) as (s1 & p1 & ok & Hr1 & _ & Hok).
  rewrite Hr in Hr1. injection Hr1 as <- <- <-.
  destruct Hok as (? & ? & ? & ? & v & w & _ & _ & _ & _ & Hrw).
  pose proof (rw_addrs _ _ _ Hrw) as Ha. pose proof (rw_l4 _ _ _ Hrw) as Hl4. rewrite <-Ha in Hl4.
  split; [apply (rw_header _ _ _ Hrw)|].
  destruct (later_fragment pkt); [by split_and!|]. cbn [orb] in Hl4. case_bool_decide as Hsame.
  - rewrite <-Hsame, Hl4. split_and!; intros; try reflexivity. case_bool_decide; [done|by split].
  - split_and!.
    + intros _. apply (l4_tcp _ _ _ _ _ Hl4).
    + intros _ Hp Hlen. pose proof (l4_udp _ _ _ _ _ Hl4 Hp Hlen) as Hudp.
      case_bool_decide; [done|]. by destruct Hudp.
    + intros _. apply (l4_icmp _ _ _ _ _ Hl4).
Qed.

(** ** A packet *)

(** A UDP datagram of two bytes from 10.0.0.1 to 10.0.0.2, and the translation that
    moves 10.0.0.0/24 to 100.112.0.0/24. *)
Definition example_packet : list Z :=
  [0x45; 0; 0; 30; 0; 1; 0; 0; 64; 17; 0x66; 0xcc; 10; 0; 0; 1; 10; 0; 0; 2;
   0; 53; 0; 54; 0; 10; 0x12; 0x34; 1; 2].

Definition example_translate (s : ()) (a : Addr) : () * option Addr :=
  (s, match a with
      | Addr4 v => if v / 256 =? 0x0a0000 then Some (Addr4 (0x64700000 + v mod 256)) else None
      | _ => None
      end).

Lemma example_translates : translates_4 example_translate (λ _, True).
Proof.
  intros s a _. split; [done|]. intros a'. unfold example_translate. simpl. destruct a as [|v|]; [done| |done].
  destruct (Z.eqb_spec (v / 256) 0x0a0000); [|done]. intros [= <-].
  pose proof (Z.mod_pos_bound v 256). eexists. split; [done|]. unfold is_u32. lia.
Qed.

Lemma example_bytes : bytes example_packet.
Proof. repeat constructor; by vm_compute. Qed.

Lemma csumUpdate_recomputes_witness :
  csumUpdate (checksum [10; 0; 0; 1; 69; 0]) [10; 0; 0; 1] [100; 112; 0; 1] =
  Some (checksum [100; 112; 0; 1; 69; 0]).
Proof.
  apply (csumUpdate_recomputes 2 [69; 0] [10; 0; 0; 1] [100; 112; 0; 1]);
    [done|done|lia|repeat constructor; by vm_compute..|done|done].
Defined.

Lemma rewrite_translates_witness :
  ∃ s' pkt', rewrite example_translate () example_packet = Some (s', pkt', true) ∧
    length pkt' = 30%nat ∧ addrs_part pkt' = [100; 112; 0; 1; 100; 112; 0; 2].
Proof.
  destruct (rewrite_translates example_translate (λ _, True) () example_packet example_translates I example_bytes)
    as (s' & pkt' & ok & Hr & _ & Hlen & Hok).
  assert (ok = true) as -> by (vm_compute in Hr; congruence).
  exists s', pkt'. split; [exact Hr|]. split; [exact Hlen|].
  destruct Hok as (src & dst & s1 & s2 & v & w & Hsrc & Hdst & Hs1 & Hs2 & Ha & _).
  vm_compute in Hsrc, Hdst. injection Hsrc as <-. injection Hdst as <-.
  vm_compute in Hs1, Hs2. injection Hs1 as _ <-. injection Hs2 as _ <-. exact Ha.
Defined.

Lemma rewrite_keeps_checksums_witness :
  ∃ s' pkt', rewrite example_translate () example_packet = Some (s', pkt', true) ∧
    same_sum (wsum (hdr_part pkt')) (wsum (hdr_part example_packet)).
Proof.
  destruct (rewrite example_translate () example_packet) as [[[s' pkt'] ok]|] eqn:Hr; [|by vm_compute in Hr].
  assert (ok = true) as -> by (vm_compute in Hr; congruence).
  exists s', pkt'. split; [done|].
  apply (rewrite_keeps_checksums example_translate (λ _, True) () example_packet s' pkt' example_translates I example_bytes Hr).
Defined.
