(* ===== verification/VipTable.v ===== *)
(** * The local addresses of a network (client/vip/table.go)

    A table maps the overlay addresses of a network to local addresses of this device
    and back.  [Local] looks an address up under the read lock and, when it is not
    there, looks again under the write lock before it allocates: between the two any
    other call may run, so the two halves are separate definitions. *)
From Stdlib Require Import Ascii String.
From S2P Require Import Prelude Netip NetipFacts Ipam.

Local Open Scope Z_scope.

Record Table : Type := MkTable {
  t_prefix : Prefix;
  t_real : Prefix;
  t_base : Z;
  t_size : Z;
  t_toLocal : gmap Addr Addr;
  t_toReal : gmap Addr Addr;
  t_used : gset Z;
  t_next : Z;
}.

Inductive table_error : Type :=
| ELocalNotIPv4 (p : Prefix)
| EOverlayNotIPv4 (p : Prefix)
| ELocalTooSmall (p : Prefix).

(** [toUint32] panics on an address without four bytes: [None]. *)
Definition toUint32 (a : Addr) : option Z := be32 <$> addr_As4 a.

Definition fromUint32 (v : Z) : Addr := AddrFrom4 (bytes4 v).

Definition NewTable (local real : Prefix) : option (result table_error Table) :=
  let local := prefix_Masked local in
  let real := prefix_Masked real in
  if negb (addr_Is4 (p_addr local)) then Some (Err (ELocalNotIPv4 local)) else
  if negb (addr_Is4 (p_addr real)) then Some (Err (EOverlayNotIPv4 real)) else
  let bits := p_bits local in
  if 30 <? bits then Some (Err (ELocalTooSmall local)) else
  base ← toUint32 (p_addr local);
  Some (Ok (MkTable local real base (u32 (Z.shiftl 1 (32 - bits))) ∅ ∅ ∅ 1)).

Definition usable (idx size : Z) : bool := negb (idx =? 0) && negb (idx =? u32 (size - 1)).

Definition set_next (t : Table) (n : Z) : Table :=
  MkTable (t_prefix t) (t_real t) (t_base t) (t_size t) (t_toLocal t) (t_toReal t) (t_used t) n.

Definition free (t : Table) (idx : Z) : bool :=
  usable idx (t_size t) && negb (bool_decide (idx ∈ t_used t)).

(** The scan, for the [n] rounds that are left. *)
Fixpoint alloc_scan (n : nat) (t : Table) : Table * option Z :=
  match n with
  | O => (t, None)
  | S n =>
    let idx := t_next t in
    let next := u32 (t_next t + 1) in
    let t := set_next t (if t_size t <=? next then 1 else next) in
    if free t idx then (t, Some idx) else alloc_scan n t
  end.

(** The loop counts from 0 to [size], so it has [size] rounds. *)
Definition allocLocked (t : Table) (real : Z) : Table * option Z :=
  let want := Z.land real (u32 (t_size t - 1)) in
  if free t want then (t, Some want)
  else alloc_scan (Z.to_nat (t_size t)) t.

(** The guard on the address, before any lock. *)
Definition mappable (t : Table) (real : Addr) : bool :=
  addr_Is4 real && prefix_Contains (t_real t) real.

(** Under the write lock. *)
Definition local_locked (t : Table) (real : Addr) : option (Table * option Addr) :=
  match t_toLocal t !! real with
  | Some got => Some (t, Some got)
  | None =>
    v ← toUint32 real;
    let '(t, r) := allocLocked t v in
    match r with
    | None => Some (t, None)
    | Some idx =>
      let local := fromUint32 (u32 (t_base t + idx)) in
      Some (MkTable (t_prefix t) (t_real t) (t_base t) (t_size t) (<[real := local]> (t_toLocal t))
              (<[local := real]> (t_toReal t)) ({[idx]} ∪ t_used t) (t_next t), Some local)
    end
  end.

(** [Local], when nothing comes between its two halves. *)
Definition Local_ (t : Table) (real : Addr) : option (Table * option Addr) :=
  let real := addr_Unmap real in
  if negb (mappable t real) then Some (t, None) else
  match t_toLocal t !! real with
  | Some got => Some (t, Some got)
  | None => local_locked t real
  end.

Definition Real (t : Table) (local : Addr) : option Addr := t_toReal t !! addr_Unmap local.

Definition Pairs (t : Table) : gmap Addr Addr := t_toLocal t.

(** ** The invariant *)

(** How many addresses the local range has; [t_size] is this number in 32 bits, which
    is 0 for a range of all addresses. *)
Definition room (t : Table) : Z := prefix_size (t_prefix t).

Definition host_index (t : Table) (i : Z) : Prop := 0 < i < room t - 1.

Record table_ok (t : Table) : Prop := {
  tb_prefix : prefix4 (t_prefix t);
  tb_bits : p_bits (t_prefix t) ≤ 30;
  tb_real : prefix4 (t_real t);
  tb_base : t_base t = prefix_base (t_prefix t);
  tb_size : t_size t = u32 (room t);
  tb_next : 1 ≤ t_next t ∧ t_next t < Z.max 2 (t_size t);
  tb_inverse : ∀ r l, t_toLocal t !! r = Some l ↔ t_toReal t !! l = Some r;
  tb_entry : ∀ r l, t_toLocal t !! r = Some l →
    mappable t r = true ∧ ∃ i, l = Addr4 (t_base t + i) ∧ host_index t i ∧ i ∈ t_used t;
  tb_used : ∀ i, i ∈ t_used t → host_index t i ∧ is_Some (t_toReal t !! Addr4 (t_base t + i));
}.

Lemma room_bounds t : table_ok t → 4 ≤ room t ≤ 2 ^ 32 ∧ t_base t + room t ≤ 2 ^ 32 ∧ 0 ≤ t_base t.
Proof.
  intros Ht. pose proof (tb_bits t Ht). pose proof (prefix4_bits _ (tb_prefix t Ht)).
  pose proof (prefix_end _ (tb_prefix t Ht)) as Hend. pose proof (prefix4_base _ (tb_prefix t Ht)) as [? _].
  rewrite (tb_base t Ht). unfold room. split; [|done]. unfold prefix_size in *. split.
  - change 4 with (2 ^ 2). apply Z.pow_le_mono_r; lia.
  - apply Z.pow_le_mono_r; lia.
Qed.

Lemma mask_room t : table_ok t → u32 (t_size t - 1) = room t - 1.
Proof.
  intros Ht. destruct (room_bounds t Ht) as (Hr & _). rewrite (tb_size t Ht).
  destruct (decide (room t = 2 ^ 32)) as [->|Hne]; [done|].
  rewrite (u32_small (room t)) by lia. apply u32_small. lia.
Qed.

Lemma usable_iff t i : table_ok t → 0 ≤ i < room t → (usable i (t_size t) = true ↔ host_index t i).
Proof.
  intros Ht Hi. unfold usable, host_index. rewrite (mask_room t Ht).
  rewrite andb_true_iff, !negb_true_iff, !Z.eqb_neq. lia.
Qed.

Lemma want_mod t v : table_ok t → 0 ≤ v → Z.land v (u32 (t_size t - 1)) = v mod room t.
Proof.
  intros Ht Hv. rewrite (mask_room t Ht). unfold room, prefix_size.
  pose proof (prefix4_bits _ (tb_prefix t Ht)).
  rewrite <-Z.land_ones by lia. by rewrite Z.ones_equiv, Z.sub_1_r.
Qed.

(** ** The scan *)

(** The [k]-th index the scan looks at, starting from [c], in a range of [m + 1]. *)
Definition cursor (m c : Z) (k : nat) : Z := 1 + (c - 1 + Z.of_nat k) mod m.

Lemma cursor_next m c k :
  1 < m → 1 ≤ c ≤ m → cursor m (if m + 1 <=? c + 1 then 1 else c + 1) k = cursor m c (S k).
Proof.
  intros Hm Hc. unfold cursor. f_equal. destruct (Z.leb_spec (m + 1) (c + 1)).
  - assert (c = m) as -> by lia.
    replace (m - 1 + Z.of_nat (S k)) with (1 - 1 + Z.of_nat k + 1 * m) by lia. by rewrite Z.mod_add by lia.
  - f_equal. lia.
Qed.

Lemma alloc_scan_spec n t :
  1 < t_size t - 1 < 2 ^ 32 - 1 → 1 ≤ t_next t ≤ t_size t - 1 →
  ∃ c, (alloc_scan n t).1 = set_next t c ∧ 1 ≤ c ≤ t_size t - 1 ∧
    match (alloc_scan n t).2 with
    | Some i => free t i = true ∧ 1 ≤ i ≤ t_size t - 1
    | None => ∀ k, (k < n)%nat → free t (cursor (t_size t - 1) (t_next t) k) = false
    end.
Proof.
  intros Hs. revert t Hs. induction n as [|n IH]; intros t Hs Hc; cbn [alloc_scan].
  { exists (t_next t). split; [by destruct t|]. split; [done|]. intros k Hk. lia. }
  rewrite (u32_small (t_next t + 1)) by lia.
  set (c := if t_size t <=? t_next t + 1 then 1 else t_next t + 1).
  assert (1 ≤ c ≤ t_size t - 1) as Hc' by (unfold c; destruct (Z.leb_spec (t_size t) (t_next t + 1)); lia).
  change (free (set_next t c) (t_next t)) with (free t (t_next t)).
  destruct (free t (t_next t)) eqn:Hf; cbn [fst snd].
  { exists c. split; [done|]. split; [done|]. split; [done|lia]. }
  destruct (IH (set_next t c) Hs Hc') as (c2 & Hst & Hc2 & Hres). exists c2.
  rewrite Hst. split; [done|]. split; [done|].
  destruct (alloc_scan n (set_next t c)).2 as [i|]; [done|].
  intros [|k] Hk.
  - unfold cursor. replace (t_next t - 1 + Z.of_nat 0) with (t_next t - 1) by lia.
    rewrite Z.mod_small by lia. by replace (1 + (t_next t - 1)) with (t_next t) by lia.
  - rewrite <-cursor_next by lia. replace (t_size t - 1 + 1) with (t_size t) by lia. apply (Hres k). lia.
Qed.

(** Every index above 0 comes round. *)
Lemma cursor_reaches m c i :
  1 < m → 1 ≤ c ≤ m → 1 ≤ i ≤ m → ∃ k, (k < Z.to_nat (m + 1))%nat ∧ cursor m c k = i.
Proof.
  intros Hm Hc Hi. exists (Z.to_nat ((i - c) mod m)). pose proof (Z.mod_pos_bound (i - c) m).
  split; [lia|]. unfold cursor. rewrite Z2Nat.id by lia. rewrite Z.add_mod_idemp_r by lia.
  replace (c - 1 + (i - c)) with (i - 1) by lia. rewrite Z.mod_small by lia. lia.
Qed.

Lemma allocLocked_spec t v :
  table_ok t → is_u32 v →
  ∃ c, (allocLocked t v).1 = set_next t c ∧ 1 ≤ c < Z.max 2 (t_size t) ∧
    match (allocLocked t v).2 with
    | Some i => host_index t i ∧ (i ∉ t_used t) ∧
                (host_index t (v mod room t) → v mod room t ∉ t_used t → i = v mod room t)
    | None => 0 < p_bits (t_prefix t) → ∀ i, host_index t i → i ∈ t_used t
    end.
Proof.
  intros Ht [Hv _]. destruct (room_bounds t Ht) as (Hroom & _). unfold allocLocked.
  rewrite (want_mod t v Ht Hv). assert (0 ≤ v mod room t < room t) as Hmod by (apply Z.mod_pos_bound; lia).
  assert (∀ i, 0 ≤ i < room t → (free t i = true ↔ host_index t i ∧ i ∉ t_used t)) as Hfree.
  { intros i Hi. unfold free. by rewrite andb_true_iff, usable_iff, negb_true_iff, bool_decide_eq_false by done. }
  destruct (free t (v mod room t)) eqn:Hw; cbn [fst snd].
  { exists (t_next t). split; [by destruct t|]. split; [apply (tb_next t Ht)|].
    apply Hfree in Hw as [? ?]; [by split_and!|lia]. }
  assert (¬ (host_index t (v mod room t) ∧ v mod room t ∉ t_used t)) as Hno
    by (rewrite <-Hfree by lia; by rewrite Hw).
  destruct (decide (room t = 2 ^ 32)) as [Hall|Hpart].
  - assert (t_size t = 0) as Hz by (by rewrite (tb_size t Ht), Hall). rewrite Hz. cbn [Z.to_nat alloc_scan fst snd].
    exists (t_next t). split; [by destruct t|]. pose proof (tb_next t Ht). rewrite Hz in *. split; [lia|].
    intros Hb. exfalso. pose proof (tb_bits t Ht). unfold room, prefix_size in Hall.
    assert (32 - p_bits (t_prefix t) = 32); [|lia]. apply (Z.pow_inj_r 2); [lia..|done].
  - assert (t_size t = room t) as Hsz by (rewrite (tb_size t Ht); apply u32_small; lia).
    pose proof (tb_next t Ht) as Hn.
    destruct (alloc_scan_spec (Z.to_nat (t_size t)) t) as (c & Hst & Hc & Hres); [lia..|].
    exists c. split; [done|]. split; [lia|]. destruct (alloc_scan _ t).2 as [i|].
    + destruct Hres as [Hf Hi]. apply Hfree in Hf as [? ?]; [|lia]. split_and!; [done..|]. tauto.
    + intros _ i Hi. pose proof Hi as [? ?].
      destruct (cursor_reaches (t_size t - 1) (t_next t) i) as (k & Hk & Hck); [lia..|].
      replace (t_size t - 1 + 1) with (t_size t) in Hk by lia. specialize (Hres k Hk). rewrite Hck in Hres.
      destruct (decide (i ∈ t_used t)); [done|]. exfalso.
      assert (free t i = true); [|congruence]. apply Hfree; [lia|done].
Qed.

Lemma alloc_scan_frame n t : ∃ c, (alloc_scan n t).1 = set_next t c.
Proof.
  revert t. induction n as [|n IH]; intros t; cbn [alloc_scan]; [exists (t_next t); by destruct t|].
  destruct (free _ _); [by eexists|]. destruct (IH (set_next t (if t_size t <=? u32 (t_next t + 1) then 1
    else u32 (t_next t + 1)))) as [c ->]. by exists c.
Qed.

Lemma allocLocked_frame t v : ∃ c, (allocLocked t v).1 = set_next t c.
Proof.
  unfold allocLocked. destruct (free _ _); [exists (t_next t); by destruct t|]. apply alloc_scan_frame.
Qed.

(** ** Mapping an address *)

(** Later states of a table: nothing that was mapped changes. *)
Record grows (t t' : Table) : Prop := {
  gr_prefix : t_prefix t' = t_prefix t;
  gr_real : t_real t' = t_real t;
  gr_base : t_base t' = t_base t;
  gr_toLocal : t_toLocal t ⊆ t_toLocal t';
  gr_toReal : t_toReal t ⊆ t_toReal t';
}.

#[export] Instance grows_preorder : PreOrder grows.
Proof.
  split; [by intros t; split|]. intros t1 t2 t3 [? ? ? ? ?] [? ? ? ? ?].
  split; [congruence..|by etrans|by etrans].
Qed.

Lemma grows_mappable t t' r : grows t t' → mappable t' r = mappable t r.
Proof. intros Hg. unfold mappable. by rewrite (gr_real _ _ Hg). Qed.

Lemma set_next_ok t c : table_ok t → 1 ≤ c < Z.max 2 (t_size t) → table_ok (set_next t c).
Proof. intros [? ? ? ? ? ? ? ? ?] Hc. by split. Qed.

Lemma set_next_grows t c : grows t (set_next t c).
Proof. by split. Qed.

Lemma mappable_4 t r : table_ok t → mappable t r = true → ∃ v, r = Addr4 v ∧ is_u32 v.
Proof.
  intros Ht [_ Hc]%andb_true_iff. destruct (prefix_Contains_4 _ _ (tb_real t Ht) Hc) as [v ->].
  exists v. split; [done|]. rewrite prefix_Contains4 in Hc by apply (tb_real t Ht).
  pose proof (prefix_end _ (tb_real t Ht)). pose proof (prefix4_base _ (tb_real t Ht)) as [? _].
  unfold is_u32. lia.
Qed.

Lemma fromUint32_eq v : is_u32 v → fromUint32 v = Addr4 v.
Proof. intros Hv. unfold fromUint32, AddrFrom4. by rewrite of_bytes4_bytes4. Qed.

(** Entering a free index. *)
Definition map_index (t : Table) (real : Addr) (idx : Z) : Table :=
  MkTable (t_prefix t) (t_real t) (t_base t) (t_size t) (<[real := Addr4 (t_base t + idx)]> (t_toLocal t))
    (<[Addr4 (t_base t + idx) := real]> (t_toReal t)) ({[idx]} ∪ t_used t) (t_next t).

Lemma index_unmapped t i : table_ok t → i ∉ t_used t → t_toReal t !! Addr4 (t_base t + i) = None.
Proof.
  intros Ht Hi. destruct (t_toReal t !! _) as [r|] eqn:Hr; [|done]. exfalso.
  apply (tb_inverse t Ht) in Hr. apply (tb_entry t Ht) in Hr as (_ & j & [= Hj] & _ & Hused).
  by replace i with j in Hi by lia.
Qed.

Lemma map_index_ok t real idx :
  table_ok t → mappable t real = true → t_toLocal t !! real = None → host_index t idx → idx ∉ t_used t →
  table_ok (map_index t real idx) ∧ grows t (map_index t real idx).
Proof.
  intros Ht Hm Hn Hh Hi. pose proof (index_unmapped t idx Ht Hi) as Hl. split.
  - split; try apply Ht; simpl.
    + intros r l. rewrite !lookup_insert_Some. pose proof (tb_inverse t Ht r l) as Hinv. split.
      * intros [[<- <-]|[Hr Hrl]]; [by left|]. right. split; [|by apply Hinv].
        intros <-. apply Hinv in Hrl. congruence.
      * intros [[<- <-]|[Hr Hrl]]; [by left|]. right. split; [|by apply Hinv].
        intros <-. apply Hinv in Hrl. congruence.
    + intros r l. rewrite lookup_insert_Some. intros [[<- <-]|[_ Hrl]].
      * split; [done|]. exists idx. split_and!; [done|done|set_solver].
      * apply (tb_entry t Ht) in Hrl as (? & i & ? & ? & ?). split; [done|].
        exists i. split_and!; [done|done|set_solver].
    + intros i Hin. destruct (decide (i = idx)) as [->|Hne].
      * split; [done|]. by rewrite lookup_insert_eq.
      * assert (i ∈ t_used t) as [? ?]%(tb_used t Ht) by set_solver. split; [done|].
        rewrite lookup_insert_ne; [done|]. intros [= ?]. lia.
  - split; simpl; try done; by apply insert_subseteq.
Qed.

Lemma local_locked_spec t real :
  table_ok t → mappable t real = true →
  ∃ t' o, local_locked t real = Some (t', o) ∧ table_ok t' ∧ grows t t' ∧
    match o with
    | Some l => t_toLocal t' !! real = Some l ∧
        ∀ v, t_toLocal t !! real = None → real = Addr4 v → host_index t (v mod room t) →
          v mod room t ∉ t_used t → l = Addr4 (t_base t + v mod room t)
    | None => t_toLocal t !! real = None ∧
        (0 < p_bits (t_prefix t) → ∀ i, host_index t i → i ∈ t_used t)
    end.
Proof.
  intros Ht Hm. unfold local_locked. destruct (t_toLocal t !! real) as [got|] eqn:Hgot.
  { exists t, (Some got). by split_and!. }
  destruct (mappable_4 t real Ht Hm) as (v & -> & Hv).
  assert (toUint32 (Addr4 v) = Some v) as ->.
  { change (Some (be32 (bytes4 v)) = Some v). by rewrite be32_bytes4. }
  cbn [mbind option_bind]. destruct (allocLocked_spec t v Ht Hv) as (c & Hst & Hc & Hres).
  destruct (allocLocked t v) as [t1 r]. cbn [fst snd] in *. subst t1.
  pose proof (set_next_ok t c Ht Hc) as Ht1. destruct r as [idx|].
  - destruct Hres as (Hh & Hi & Hwant). destruct (room_bounds t Ht) as (_ & ? & ?).
    assert (is_u32 (t_base t + idx)) as Hu by (unfold is_u32, host_index in *; lia).
    simpl. rewrite u32_small by (unfold is_u32 in Hu; lia). rewrite fromUint32_eq by done.
    destruct (map_index_ok (set_next t c) (Addr4 v) idx Ht1) as [Hok Hg]; [done..|].
    eexists _, _. split; [done|]. split; [exact Hok|].
    split; [by transitivity (set_next t c); [apply set_next_grows|]|]. simpl.
    split; [by rewrite lookup_insert_eq|]. intros w _ [= <-] Hh' Hi'. by rewrite Hwant.
  - exists (set_next t c), None. split; [done|]. split; [done|]. split; [apply set_next_grows|]. by split.
Qed.

Lemma Local_spec t a :
  table_ok t →
  ∃ t' o, Local_ t a = Some (t', o) ∧ table_ok t' ∧ grows t t' ∧
    match o with
    | Some l => mappable t (addr_Unmap a) = true ∧ t_toLocal t' !! addr_Unmap a = Some l
    | None => mappable t (addr_Unmap a) = false ∨ t_toLocal t !! addr_Unmap a = None ∧
                (0 < p_bits (t_prefix t) → ∀ i, host_index t i → i ∈ t_used t)
    end.
Proof.
  intros Ht. unfold Local_. destruct (mappable t (addr_Unmap a)) eqn:Hm; cbn [negb].
  2: { exists t, None. split_and!; [done|done|done|by left]. }
  destruct (t_toLocal t !! addr_Unmap a) as [got|] eqn:Hgot.
  { exists t, (Some got). by split_and!. }
  destruct (local_locked_spec t (addr_Unmap a) Ht Hm) as (t' & o & -> & ? & ? & Ho).
  exists t', o. split_and!; try done. destruct o; [by destruct Ho|].
  right. split; [done|]. apply Ho.
Qed.

Lemma entry_unmap t r l : table_ok t → t_toLocal t !! r = Some l → addr_Unmap r = r ∧ addr_Unmap l = l.
Proof.
  intros Ht Hr. apply (tb_entry t Ht) in Hr as [Hm (i & -> & _)].
  by destruct (mappable_4 t r Ht Hm) as (v & -> & _).
Qed.

(** C8: An address of the network gets a local address that stands for it alone: it lies in
    the local range, is neither its first nor its last, translates back, is the same on
    every later call, and no other address ever changes or loses its own. *)
Theorem Local_maps t a t' l :
  table_ok t → Local_ t a = Some (t', Some l) →
  table_ok t' ∧ grows t t' ∧ mappable t (addr_Unmap a) = true ∧ Real t' l = Some (addr_Unmap a) ∧
  (∃ i, l = Addr4 (t_base t + i) ∧ host_index t i ∧ prefix_Contains (t_prefix t) l = true) ∧
  (∀ t'', table_ok t'' → grows t' t'' → Local_ t'' a = Some (t'', Some l)) ∧
  ∀ b, Real t' l = Some (addr_Unmap b) → addr_Unmap b = addr_Unmap a.
Proof.
  intros Ht Hl. destruct (Local_spec t a Ht) as (t1 & o & Heq & Ht' & Hg & Ho).
  rewrite Hl in Heq. injection Heq as <- <-. destruct Ho as [Hm Hent].
  destruct (entry_unmap t' _ _ Ht' Hent) as [Hur Hul].
  assert (Real t' l = Some (addr_Unmap a)) as Hreal
    by (unfold Real; rewrite Hul; by apply (tb_inverse t' Ht')).
  split_and!; try done.
  - destruct (tb_entry t' Ht' _ _ Hent) as (_ & i & -> & Hh & _). exists i.
    rewrite (gr_base _ _ Hg). unfold host_index, room in *. rewrite (gr_prefix _ _ Hg) in Hh.
    split; [done|]. split; [done|]. rewrite prefix_Contains4 by apply (tb_prefix t Ht).
    rewrite (tb_base t Ht). lia.
  - intros t'' Ht'' Hg'. unfold Local_.
    rewrite (grows_mappable _ _ _ Hg'), (grows_mappable _ _ _ Hg), Hm. cbn [negb].
    by rewrite (lookup_weaken _ _ _ _ Hent (gr_toLocal _ _ Hg')).
  - intros b. rewrite Hreal. congruence.
Qed.

(** [Local] fails, without harm, only for an address outside the network or when every
    host address of the local range is taken; and while the low bits of an address are
    free it keeps them. *)
Theorem Local_complete t a :
  table_ok t → 0 < p_bits (t_prefix t) →
  (∃ t', Local_ t a = Some (t', None) ∧ grows t t' ∧
     (mappable t (addr_Unmap a) = false ∨ ∀ i, host_index t i → is_Some (t_toReal t !! Addr4 (t_base t + i)))) ∨
  ∃ t' l, Local_ t a = Some (t', Some l) ∧ ∀ v, addr_Unmap a = Addr4 v → t_toLocal t !! Addr4 v = None →
    host_index t (v mod room t) → t_toReal t !! Addr4 (t_base t + v mod room t) = None →
    l = Addr4 (t_base t + v mod room t).
Proof.
  intros Ht Hb. destruct (Local_spec t a Ht) as (t' & o & Heq & Ht' & Hg & Ho).
  destruct o as [l|].
  - right. exists t', l. split; [done|]. intros v Hv Hnone Hh Hfree. destruct Ho as [Hm Hent].
    assert (v mod room t ∉ t_used t) as Hu by (intros [_ [? ?]]%(tb_used t Ht); congruence).
    rewrite Hv in *. destruct (local_locked_spec t (Addr4 v) Ht Hm) as (t1 & o & Hlk & _ & _ & Hkeep).
    unfold Local_ in Heq. rewrite Hv, Hm, Hnone in Heq. cbn [negb] in Heq. rewrite Hlk in Heq.
    injection Heq as -> ->. destruct Hkeep as [_ Hkeep]. by apply Hkeep.
  - left. exists t'. split_and!; try done. destruct Ho as [?|[_ Hall]]; [by left|right].
    intros i Hi. apply (tb_used t Ht). by apply Hall.
Qed.

(** ** New tables and concurrent callers *)

(** A prefix as [ParsePrefix] or [PrefixFrom] builds one. *)
Definition parsed_prefix (p : Prefix) : Prop :=
  ∀ v, p_addr p = Addr4 v → is_u32 v ∧ p_bits p ≤ 32.

Lemma masked_parsed p v :
  parsed_prefix p → p_addr (prefix_Masked p) = Addr4 v → prefix4 (prefix_Masked p) ∧ is_u32 v.
Proof.
  intros Hp Hv. unfold prefix_Masked, prefix_IsValid in Hv. destruct (Z.leb_spec 0 (p_bits p)) as [Hb|]; [|done].
  destruct p as [[|w|w z] b]; simpl in *; try done. destruct (Hp w eq_refl) as [Hw Hb'].
  pose proof (masked_prefix4 w b Hw (conj Hb Hb')) as Hm. split; [done|].
  pose proof (prefix4_base _ Hm) as Hbase. unfold prefix_base, prefix_Masked, prefix_IsValid in Hbase.
  simpl in Hbase. rewrite (proj2 (Z.leb_le 0 b) Hb) in Hbase. by injection Hv as <-.
Qed.

(** A new table is empty and keeps the ranges it was given; what cannot hold or name
    addresses is refused. *)
Lemma NewTable_spec local real :
  parsed_prefix local → parsed_prefix real →
  ∃ r, NewTable local real = Some r ∧
    match r with
    | Ok t => table_ok t ∧ t_toLocal t = ∅ ∧ t_prefix t = prefix_Masked local ∧ t_real t = prefix_Masked real
    | Err (ELocalNotIPv4 p) => p = prefix_Masked local ∧ addr_Is4 (p_addr p) = false
    | Err (EOverlayNotIPv4 p) => p = prefix_Masked real ∧ addr_Is4 (p_addr p) = false
    | Err (ELocalTooSmall p) => p = prefix_Masked local ∧ 30 < p_bits p
    end.
Proof.
  intros Hl Hr. unfold NewTable.
  destruct (p_addr (prefix_Masked local)) as [|v|] eqn:Hv; cbn [addr_Is4 negb].
  1,3: eexists; split; [done|]; split; [done|]; by rewrite Hv.
  destruct (p_addr (prefix_Masked real)) as [|w|] eqn:Hw; cbn [addr_Is4 negb].
  1,3: eexists; split; [done|]; split; [done|]; by rewrite Hw.
  destruct (masked_parsed _ _ Hl Hv) as [Hlp Hlv], (masked_parsed _ _ Hr Hw) as [Hrp _].
  destruct (Z.ltb_spec 30 (p_bits (prefix_Masked local))) as [Hb|Hb]; [by eexists|].
  assert (toUint32 (Addr4 v) = Some v) as ->.
  { change (Some (be32 (bytes4 v)) = Some v). by rewrite be32_bytes4. }
  cbn [mbind option_bind]. eexists. split; [done|]. cbn [t_toLocal t_prefix t_real]. split; [|done].
  pose proof (prefix4_bits _ Hlp).
  split; cbn [t_prefix t_real t_base t_size t_toLocal t_toReal t_used t_next]; try done.
  - unfold prefix_base. by rewrite Hv.
  - unfold room, prefix_size. simpl. by rewrite Z.shiftl_1_l.
  - lia.
Qed.

(** Calls of [Local] that interleave: the table, and the addresses whose caller found
    nothing under the read lock and now waits for the write lock. *)
Inductive table_step : Table * list Addr → Table * list Addr → Prop :=
| table_miss t ps a :
    mappable t (addr_Unmap a) = true → t_toLocal t !! addr_Unmap a = None →
    table_step (t, ps) (t, addr_Unmap a :: ps)
| table_commit t ps1 ps2 r t' o :
    local_locked t r = Some (t', o) → table_step (t, ps1 ++ r :: ps2) (t', ps1 ++ ps2).

Definition table_sys_ok (x : Table * list Addr) : Prop :=
  table_ok x.1 ∧ Forall (λ r, mappable x.1 r = true) x.2.

Lemma table_step_ok x y : table_sys_ok x → table_step x y → table_sys_ok y ∧ grows x.1 y.1.
Proof.
  intros [Ht Hp] Hs. destruct Hs as [t ps a Hm Hn|t ps1 ps2 r t' o Hlk]; simpl in *.
  - split; [|reflexivity]. split; [done|]. by constructor.
  - apply Forall_app in Hp as [Hp1 [Hr Hp2]%Forall_cons].
    destruct (local_locked_spec t r Ht Hr) as (t1 & o1 & Heq & Ht1 & Hg & _).
    rewrite Hlk in Heq. injection Heq as <- <-. split; [|done]. split; [done|]. simpl.
    rewrite Forall_app, !Forall_forall in *. setoid_rewrite (grows_mappable _ _ _ Hg). by split.
Qed.

(** Whatever calls interleave, no address is lost or changed, different addresses keep
    different local ones, and a caller that waited for the write lock gets the address
    the table then holds: the one another caller entered meanwhile, if there is one. *)
Theorem Local_interleaved t0 t r ps1 ps2 :
  table_ok t0 → rtc table_step (t0, []) (t, ps1 ++ r :: ps2) →
  table_ok t ∧ grows t0 t ∧
  (∀ a b l, t_toLocal t !! a = Some l → t_toLocal t !! b = Some l → a = b) ∧
  ∃ t' o, local_locked t r = Some (t', o) ∧ table_ok t' ∧ grows t t' ∧ t_toLocal t' !! r = o ∧
    ∀ l, t_toLocal t !! r = Some l → t' = t ∧ o = Some l.
Proof.
  intros Ht0 Hsteps.
  assert (table_sys_ok (t, ps1 ++ r :: ps2) ∧ grows t0 t) as [[Ht Hp] Hg].
  { change t0 with (t0, @nil Addr).1. change t with (t, ps1 ++ r :: ps2).1 at 2.
    assert (table_sys_ok (t0, [])) as Hok by (by split; [|constructor]).
    induction Hsteps as [x|x y z Hxy _ IH]; [by split|].
    destruct (table_step_ok _ _ Hok Hxy) as [Hy Hg]. destruct (IH Hy) as [Hz Hg']. split; [done|by etrans]. }
  split; [done|]. split; [done|]. split.
  { intros a b l Ha Hb. apply (tb_inverse t Ht) in Ha, Hb. congruence. }
  simpl in Ht, Hp. apply Forall_app in Hp as [_ [Hr _]%Forall_cons].
  destruct (local_locked_spec t r Ht Hr) as (t' & o & Hlk & Ht' & Hg' & Ho). exists t', o.
  split_and!; try done.
  - destruct o as [l|]; [by destruct Ho|]. destruct Ho as [Hn _].
    unfold local_locked in Hlk. rewrite Hn in Hlk. destruct (toUint32 r); [|done]. cbn [mbind option_bind] in Hlk.
    destruct (allocLocked_frame t z) as [c Hc]. destruct (allocLocked t z) as [t1 [i|]]; [done|].
    injection Hlk as <-. simpl in Hc. by subst t1.
  - intros l Hl. unfold local_locked in Hlk. rewrite Hl in Hlk. by injection Hlk as <- <-.
Qed.

(** ** A table *)

Definition demo_local : Prefix := MkPrefix (Addr4 0x64700000) 30.
Definition demo_overlay : Prefix := MkPrefix (Addr4 0x0a000000) 24.

Definition demo_table : Table := MkTable demo_local demo_overlay 0x64700000 4 ∅ ∅ ∅ 1.

Lemma demo_table_ok : table_ok demo_table.
Proof.
  destruct (NewTable_spec demo_local demo_overlay) as (r & Hr & Ht).
  1,2: intros v [= <-]; split; [by split|done].
  assert (NewTable demo_local demo_overlay = Some (Ok demo_table)) as Hd by (by vm_compute).
  rewrite Hd in Hr. injection Hr as <-. apply Ht.
Qed.

Lemma Local_maps_witness :
  ∃ t', Local_ demo_table (Addr4 0x0a000005) = Some (t', Some (Addr4 0x64700001)) ∧
    Real t' (Addr4 0x64700001) = Some (Addr4 0x0a000005).
Proof.
  destruct (Local_ demo_table (Addr4 0x0a000005)) as [[t' o]|] eqn:Hl; [|by vm_compute in Hl].
  exists t'. assert (o = Some (Addr4 0x64700001)) as -> by (vm_compute in Hl; congruence).
  split; [done|].
  apply (Local_maps demo_table (Addr4 0x0a000005) t' (Addr4 0x64700001) demo_table_ok Hl).
Defined.

Lemma Local_complete_witness :
  ∃ t' l, Local_ demo_table (Addr4 0x0a000002) = Some (t', Some l) ∧ l = Addr4 0x64700002.
Proof.
  destruct (Local_complete demo_table (Addr4 0x0a000002) demo_table_ok) as [(t' & Hl & _)|(t' & l & Hl & Hk)].
  - done.
  - vm_compute in Hl. congruence.
  - exists t', l. split; [exact Hl|]. apply (Hk 0x0a000002); [done|done| |done].
    vm_compute. by split.
Defined.

Lemma Local_interleaved_witness :
  ∃ t' o, local_locked demo_table (Addr4 0x0a000005) = Some (t', o) ∧ t_toLocal t' !! Addr4 0x0a000005 = o.
Proof.
  destruct (Local_interleaved demo_table demo_table (Addr4 0x0a000005) [] [] demo_table_ok)
    as (_ & _ & _ & t' & o & Hl & _ & _ & Ho & _).
  - apply rtc_once. by apply (table_miss demo_table [] (Addr4 0x0a000005)).
  - by exists t', o.
Defined.
