(* ===== verification/VipDevice.v ===== *)
(** * The translating device (client/vip/device.go)

    A TUN device between the operating system, which sees local addresses, and the
    tunnel, which carries overlay addresses.  The inner device is a parameter: what it
    read is an argument and what it is given to write is the result. *)
From Stdlib Require Import Ascii String.
From S2P Require Import Prelude Netip NetipFacts Rewrite VipTable.

Local Open Scope Z_scope.

Record Device : Type := MkDevice { selfReal : Addr; selfLocal : Addr }.

(** The table the wrapped device uses is shared, so it is passed along.  The outer
    option is a panic, the inner one the error of [Wrap]. *)
Definition Wrap (t : Table) (self : Addr) : option (Table * option (Device * Addr)) :=
  let self := addr_Unmap self in
  '(t, local) ← Local_ t self;
  match local with
  | None => Some (t, None)
  | Some local => Some (t, Some (MkDevice self local, local))
  end.

Definition toReal (d : Device) (t : Table) (a : Addr) : Table * option Addr :=
  (t, if bool_decide (a = selfLocal d) then Some (selfReal d) else Real t a).

(** [Local] never panics ([Local_total]). *)
Definition toLocal (d : Device) (t : Table) (a : Addr) : Table * option Addr :=
  if bool_decide (a = selfReal d) then (t, Some (selfLocal d)) else default (t, None) (Local_ t a).

(** The buffers the inner device filled, from the offset on, with their sizes. *)
Fixpoint Read (d : Device) (t : Table) (bufs : list (list Z * Z)) : option (Table * list (list Z * Z)) :=
  match bufs with
  | [] => Some (t, [])
  | (buf, size) :: bufs =>
    if size <=? 0 then
      '(t, bufs) ← Read d t bufs;
      Some (t, (buf, size) :: bufs)
    else
      pkt ← slice buf 0 (Z.to_nat size);
      '(t, pkt, ok) ← rewrite (toReal d) t pkt;
      buf ← blit buf 0 pkt;
      '(t, bufs) ← Read d t bufs;
      Some (t, (buf, if ok : bool then size else 0) :: bufs)
  end.

(** The buffers handed on to the inner device, with the packets after [offset]. *)
Fixpoint Write (d : Device) (t : Table) (bufs : list (list Z)) (offset : nat)
  : option (Table * list (list Z)) :=
  match bufs with
  | [] => Some (t, [])
  | b :: bufs =>
    if (length b <=? offset)%nat then Write d t bufs offset else
    pkt ← slice b offset (length b);
    '(t, pkt, ok) ← rewrite (toLocal d) t pkt;
    b ← blit b offset pkt;
    '(t, keep) ← Write d t bufs offset;
    Some (t, if ok : bool then b :: keep else keep)
  end.

(** ** Facts *)

Lemma Local_total t a : is_Some (Local_ t a).
Proof.
  unfold Local_. destruct (mappable t (addr_Unmap a)) eqn:Hm; [|done]. cbn [negb].
  destruct (t_toLocal t !! addr_Unmap a) eqn:Hl; [done|]. unfold local_locked. rewrite Hl.
  apply andb_true_iff in Hm as [H4 _]. destruct (addr_Unmap a); try done.
  change (toUint32 (Addr4 v)) with (Some (Ipam.be32 (bytes4 v))). cbn [mbind option_bind].
  by destruct (allocLocked _ _) as [? [|]].
Qed.

(** The device's own address is an entry of its table. *)
Definition device_ok (d : Device) (t : Table) : Prop :=
  table_ok t ∧ t_toLocal t !! selfReal d = Some (selfLocal d).

Lemma device_ok_grows d t t' : device_ok d t → table_ok t' → grows t t' → device_ok d t'.
Proof. intros [_ Hs] Ht Hg. split; [done|]. by eapply lookup_weaken; [|apply gr_toLocal]. Qed.

Lemma entry_4 t r l : table_ok t → t_toLocal t !! r = Some l →
  ∃ v w, r = Addr4 v ∧ is_u32 v ∧ l = Addr4 w ∧ is_u32 w ∧ prefix_Contains (t_prefix t) l = true ∧ mappable t r = true.
Proof.
  intros Ht Hr. destruct (tb_entry t Ht _ _ Hr) as (Hm & i & -> & Hh & _).
  destruct (mappable_4 t r Ht Hm) as (v & -> & Hv). destruct (room_bounds t Ht) as (_ & ? & ?).
  unfold host_index in Hh. exists v, (t_base t + i). split_and!; try done; try (unfold is_u32; lia).
  rewrite prefix_Contains4 by apply (tb_prefix t Ht). rewrite <-(tb_base t Ht). unfold room in *. lia.
Qed.

(** With the device's address in the table, both translations are those of the table. *)
Lemma toReal_Real d t a : device_ok d t → (toReal d t a).2 = Real t a.
Proof.
  intros [Ht Hs]. unfold toReal. simpl. case_bool_decide as Ha; [|done]. subst a.
  destruct (entry_unmap t _ _ Ht Hs) as [_ Hu]. unfold Real. rewrite Hu. symmetry. by apply (tb_inverse t Ht).
Qed.

Lemma toLocal_spec d t a :
  device_ok d t →
  ∃ t' o, toLocal d t a = (t', o) ∧ device_ok d t' ∧ grows t t' ∧
    ∀ l, o = Some l → t_toLocal t' !! addr_Unmap a = Some l.
Proof.
  intros Hd. pose proof Hd as [Ht Hs]. unfold toLocal. case_bool_decide as Ha.
  { subst a. exists t, (Some (selfLocal d)). split_and!; try done. intros l [= <-].
    by destruct (entry_unmap t _ _ Ht Hs) as [-> _]. }
  destruct (Local_spec t a Ht) as (t' & o & -> & Ht' & Hg & Ho). exists t', o. simpl.
  split_and!; [done|by eapply device_ok_grows|done|]. intros l ->. apply Ho.
Qed.

(** The states of the device from [t0] on. *)
Definition device_from (d : Device) (t0 t : Table) : Prop := device_ok d t ∧ grows t0 t.

Lemma toLocal_translates d t0 : translates_4 (toLocal d) (device_from d t0).
Proof.
  intros t a [Hd Hg]. destruct (toLocal_spec d t a Hd) as (t' & o & -> & Hd' & Hg' & Ho).
  split; [split; [done|by etrans]|].
  intros l Hl. destruct (entry_4 t' _ _ (proj1 Hd') (Ho l Hl)) as (_ & w & _ & _ & ? & ? & _). eauto.
Qed.

Lemma toReal_translates d t0 : translates_4 (toReal d) (device_from d t0).
Proof.
  intros t a [Hd Hg]. split; [done|]. intros r Hr. rewrite (toReal_Real d t a Hd) in Hr.
  apply (tb_inverse t (proj1 Hd)) in Hr. destruct (entry_4 t _ _ (proj1 Hd) Hr) as (v & _ & ? & ? & _). eauto.
Qed.

(** The two addresses of a packet satisfy [P]. *)
Definition both_addrs (P : Addr → Prop) (pkt : list Z) : Prop :=
  ∃ v w, addrs_part pkt = bytes4 v ++ bytes4 w ∧ P (Addr4 v) ∧ P (Addr4 w).

Lemma rewrite_toLocal d t pkt :
  device_ok d t → bytes pkt →
  ∃ t' pkt' ok, rewrite (toLocal d) t pkt = Some (t', pkt', ok) ∧ device_ok d t' ∧ grows t t' ∧
    length pkt' = length pkt ∧
    (ok = true → both_addrs (λ a, prefix_Contains (t_prefix t) a = true) pkt').
Proof.
  intros Hd Hb.
  destruct (rewrite_spec (toLocal d) (device_from d t) (toLocal_translates d t) t pkt)
    as (t' & pkt' & ok & Hr & [Hd' Hg] & Hok); [by split|done|].
  exists t', pkt', ok. destruct ok; [|by subst; split_and!].
  destruct Hok as (src & dst & s1 & s2 & v & w & _ & _ & Hs1 & Hs2 & Hrw).
  split_and!; try done; [apply (rw_length _ _ _ Hrw)|]. intros _. exists v, w.
  split; [apply (rw_addrs _ _ _ Hrw)|].
  destruct (toLocal_spec d t src Hd) as (t1 & o1 & Heq1 & Hd1 & Hg1 & Ho1). rewrite Hs1 in Heq1.
  injection Heq1 as -> <-. destruct (toLocal_spec d t1 dst Hd1) as (t2 & o2 & Heq2 & Hd2 & Hg2 & Ho2).
  rewrite Hs2 in Heq2. injection Heq2 as -> <-.
  destruct (entry_4 t1 _ _ (proj1 Hd1) (Ho1 _ eq_refl)) as (_ & ? & _ & _ & _ & _ & Hc1 & _).
  destruct (entry_4 t2 _ _ (proj1 Hd2) (Ho2 _ eq_refl)) as (_ & ? & _ & _ & _ & _ & Hc2 & _).
  rewrite (gr_prefix _ _ Hg1) in Hc1. rewrite (gr_prefix _ _ Hg2), (gr_prefix _ _ Hg1) in Hc2. done.
Qed.

Lemma rewrite_toReal d t pkt :
  device_ok d t → bytes pkt →
  ∃ pkt' ok, rewrite (toReal d) t pkt = Some (t, pkt', ok) ∧ length pkt' = length pkt ∧
    (ok = true → both_addrs (λ a, mappable t a = true) pkt').
Proof.
  intros Hd Hb.
  destruct (rewrite_spec (toReal d) (λ s, s = t) ) with (s := t) (pkt := pkt)
    as (t' & pkt' & ok & Hr & -> & Hok); [|done|done|].
  { intros s a ->. split; [done|]. by apply (toReal_translates d t t a). }
  exists pkt', ok. destruct ok; [|by subst; split_and!].
  destruct Hok as (src & dst & s1 & s2 & v & w & _ & _ & Hs1 & Hs2 & Hrw).
  split_and!; try done; [apply (rw_length _ _ _ Hrw)|]. intros _. exists v, w.
  split; [apply (rw_addrs _ _ _ Hrw)|].
  pose proof (toReal_Real d t src Hd) as H1. rewrite Hs1 in H1.
  assert (s1 = t) as -> by (unfold toReal in Hs1; congruence).
  pose proof (toReal_Real d t dst Hd) as H2. rewrite Hs2 in H2.
  symmetry in H1, H2. apply (tb_inverse t (proj1 Hd)) in H1, H2.
  destruct (entry_4 t _ _ (proj1 Hd) H1) as (? & _ & _ & _ & _ & _ & _ & Hc1).
  destruct (entry_4 t _ _ (proj1 Hd) H2) as (? & _ & _ & _ & _ & _ & _ & Hc2). done.
Qed.

(** ** What the device lets through *)

(** C18: A device is made only for an address of the network, and what its own translation
    sends to an address comes back from there: in any later state of the table, an
    overlay address that has a local one is what that local address stands for. *)
Theorem device_roundtrip t self t1 d local a t2 l t3 :
  table_ok t → Wrap t self = Some (t1, Some (d, local)) →
  table_ok t2 → grows t1 t2 → (toLocal d t2 a).2 = Some l →
  table_ok t3 → grows (toLocal d t2 a).1 t3 →
  device_ok d t1 ∧ local = selfLocal d ∧ selfReal d = addr_Unmap self ∧
  toReal d t3 l = (t3, Some (addr_Unmap a)).
Proof.
  intros Ht Hw Ht2 Hg12 Hl Ht3 Hg23. unfold Wrap in Hw.
  destruct (Local_spec t (addr_Unmap self) Ht) as (t' & o & Heq & Ht' & Hg & Ho).
  rewrite Heq in Hw. cbn [mbind option_bind] in Hw. destruct o as [loc|]; [|done]. injection Hw as <- <- <-.
  destruct Ho as [Hm Hent].
  rewrite addr_Unmap_idemp in Hent. set (d := MkDevice (addr_Unmap self) loc) in *.
  assert (device_ok d t') as Hd by done.
  assert (device_ok d t2) as Hd2 by (by apply (device_ok_grows d t')).
  destruct (toLocal_spec d t2 a Hd2) as (t2' & o & Heq2 & Hd2' & _ & Ho2).
  rewrite Heq2 in Hl, Hg23. simpl in Hl, Hg23. subst o. specialize (Ho2 l eq_refl).
  assert (device_ok d t3) as Hd3 by (by apply (device_ok_grows d t2')).
  split_and!; try done.
  assert ((toReal d t3 l).2 = Some (addr_Unmap a)) as Hr.
  { rewrite (toReal_Real d t3 l Hd3). pose proof (lookup_weaken _ _ _ _ Ho2 (gr_toLocal _ _ Hg23)) as Hent3.
    unfold Real. destruct (entry_unmap t3 _ _ Ht3 Hent3) as [_ ->]. by apply (tb_inverse t3 Ht3). }
  rewrite (surjective_pairing (toReal d t3 l)), Hr. done.
Qed.

(** [Write] never fails and hands the operating system only packets whose addresses
    both lie in the local range, in the order they came, each as long as it was. *)
Theorem Write_local d t bufs offset :
  device_ok d t → Forall bytes bufs →
  ∃ t' keep, Write d t bufs offset = Some (t', keep) ∧ device_ok d t' ∧ grows t t' ∧
    Forall (λ b, both_addrs (λ a, prefix_Contains (t_prefix t) a = true) (drop offset b)) keep ∧
    ∃ sent, sent `sublist_of` bufs ∧ length <$> keep = length <$> sent.
Proof.
  intros Hd Hb. revert t Hd. induction Hb as [|b bufs Hb _ IH]; intros t Hd; cbn [Write].
  { exists t, []. split_and!; try done. by exists []. }
  destruct (Nat.leb_spec (length b) offset) as [Hle|Hlt].
  { destruct (IH t Hd) as (t' & keep & -> & ? & ? & ? & sent & Hsub & ?). exists t', keep.
    split_and!; try done. exists sent. split; [by apply sublist_cons|done]. }
  rewrite slice_Some by lia. cbn [mbind option_bind].
  set (pkt := take (length b - offset) (drop offset b)).
  assert (length pkt = length b - offset)%nat as Hpl by (unfold pkt; rewrite length_take, length_drop; lia).
  destruct (rewrite_toLocal d t pkt Hd) as (t1 & pkt' & ok & -> & Hd1 & Hg1 & Hlen & Hok);
    [by apply Forall_take, Forall_drop|]. cbn [mbind option_bind].
  destruct (blit_spec b offset pkt') as (o & b' & _ & _ & _ & Hbl & Hwr); [lia|]. rewrite Hbl. cbn [mbind option_bind].
  destruct (IH t1 Hd1) as (t' & keep & -> & Hd' & Hg' & Hall & sent & Hsub & Hlens). cbn [mbind option_bind].
  rewrite (gr_prefix _ _ Hg1) in Hall.
  exists t', (if ok then b' :: keep else keep). split_and!; [done|done|by etrans| |].
  - destruct ok; [|done]. constructor; [|done]. specialize (Hok eq_refl).
    assert (drop offset b' = pkt') as ->; [|done]. pose proof (wr_read _ _ _ _ _ Hwr) as Hr.
    rewrite slice_Some in Hr by (rewrite (wr_length _ _ _ _ _ Hwr); lia). injection Hr as Hr.
    rewrite take_ge in Hr; [done|]. rewrite length_drop, (wr_length _ _ _ _ _ Hwr). lia.
  - destruct ok.
    + exists (b :: sent). split; [by constructor|]. cbn [fmap list_fmap]. f_equal; [|done].
      apply (wr_length _ _ _ _ _ Hwr).
    + exists sent. split; [by constructor|done].
Qed.

(** [Read] never fails when the inner device reports sizes that fit; it keeps the place
    of every buffer, and what it passes on has overlay addresses of this network. *)
Theorem Read_overlay d t bufs :
  device_ok d t → Forall (λ b, bytes b.1 ∧ b.2 ≤ Z.of_nat (length b.1)) bufs →
  ∃ bufs', Read d t bufs = Some (t, bufs') ∧
    Forall2 (λ b b', length b'.1 = length b.1 ∧ (b'.2 = b.2 ∨ b'.2 = 0) ∧
      (0 < b'.2 → both_addrs (λ a, mappable t a = true) (take (Z.to_nat b'.2) b'.1))) bufs bufs'.
Proof.
  intros Hd Hb. induction Hb as [|[buf size] bufs [Hb Hs] _ IH]; cbn [Read].
  { exists []. by split. }
  destruct IH as (bufs' & Hrd & Hall). simpl in Hb, Hs. destruct (Z.leb_spec size 0) as [Hz|Hz].
  { rewrite Hrd. exists ((buf, size) :: bufs'). split; [done|]. constructor; [|done]. simpl.
    split_and!; [done|by left|lia]. }
  rewrite slice_Some by lia. cbn [mbind option_bind]. rewrite Nat.sub_0_r, drop_0.
  assert (length (take (Z.to_nat size) buf) = Z.to_nat size) as Hpl by (rewrite length_take; lia).
  destruct (rewrite_toReal d t (take (Z.to_nat size) buf) Hd) as (pkt' & ok & -> & Hlen & Hok);
    [by apply Forall_take|]. cbn [mbind option_bind].
  destruct (blit_spec buf 0 pkt') as (o & buf' & _ & _ & _ & Hbl & Hwr); [lia|]. rewrite Hbl.
  cbn [mbind option_bind]. rewrite Hrd. cbn [mbind option_bind].
  exists ((buf', if ok then size else 0) :: bufs'). split; [done|]. constructor; [|done]. simpl.
  split_and!; [apply (wr_length _ _ _ _ _ Hwr)|by destruct ok; [left|right]|].
  destruct ok; [|lia]. intros _. specialize (Hok eq_refl). pose proof (wr_read _ _ _ _ _ Hwr) as Hr.
  rewrite slice_Some in Hr by (rewrite (wr_length _ _ _ _ _ Hwr); lia). injection Hr as Hr.
  rewrite drop_0, Nat.sub_0_r in Hr. simpl in Hr. replace (Z.to_nat size) with (length pkt') by lia.
  by rewrite Hr.
Qed.

(** ** A device *)

(** The network 10.0.0.0/24 seen as 100.112.0.0/30, this node being 10.0.0.1. *)
Definition demo_device : Device := MkDevice (Addr4 0x0a000001) (Addr4 0x64700001).

Definition demo_device_table : Table :=
  map_index demo_table (Addr4 0x0a000001) 1.

Lemma demo_wrap : Wrap demo_table (Addr4 0x0a000001) = Some (demo_device_table, Some (demo_device, Addr4 0x64700001)).
Proof. by vm_compute. Qed.

Lemma demo_device_ok : device_ok demo_device demo_device_table.
Proof.
  split; [|by apply lookup_insert_eq]. apply map_index_ok; [apply demo_table_ok|done|done|by vm_compute|].
  apply not_elem_of_empty.
Qed.

Lemma device_roundtrip_witness :
  toReal demo_device (toLocal demo_device demo_device_table (Addr4 0x0a000006)).1 (Addr4 0x64700002) =
  ((toLocal demo_device demo_device_table (Addr4 0x0a000006)).1, Some (Addr4 0x0a000006)).
Proof.
  destruct (toLocal_spec demo_device demo_device_table (Addr4 0x0a000006) demo_device_ok)
    as (t' & o & Heq & [Ht' _] & _).
  apply (device_roundtrip demo_table (Addr4 0x0a000001) demo_device_table demo_device (Addr4 0x64700001)
    (Addr4 0x0a000006) demo_device_table).
  - apply demo_table_ok.
  - apply demo_wrap.
  - apply demo_device_ok.
  - reflexivity.
  - by vm_compute.
  - by rewrite Heq.
  - reflexivity.
Defined.

Lemma Write_local_witness :
  ∃ t' keep, Write demo_device demo_device_table [example_packet; [0x45]] 0 = Some (t', keep) ∧ length keep = 1%nat.
Proof.
  destruct (Write_local demo_device demo_device_table [example_packet; [0x45]] 0 demo_device_ok)
    as (t' & keep & Hw & _).
  - repeat constructor; by vm_compute.
  - exists t', keep. split; [exact Hw|]. assert ((λ x, length x.2) <$> Write demo_device demo_device_table [example_packet; [0x45]] 0 =
      Some 1%nat) as Hl by (by vm_compute). rewrite Hw in Hl. by injection Hl.
Defined.

Lemma Read_overlay_witness :
  ∃ bufs', Read demo_device demo_device_table [(example_packet, 30); (example_packet, 0)] =
    Some (demo_device_table, bufs') ∧ bufs'.*2 = [0; 0].
Proof.
  destruct (Read_overlay demo_device demo_device_table [(example_packet, 30); (example_packet, 0)] demo_device_ok)
    as (bufs' & Hr & _).
  - repeat constructor; by vm_compute.
  - exists bufs'. split; [exact Hr|].
    assert ((λ x, x.2.*2) <$> Read demo_device demo_device_table [(example_packet, 30); (example_packet, 0)] =
      Some [0; 0]) as Hl by (by vm_compute). rewrite Hr in Hl. by injection Hl.
Defined.
