(* ===== verification/Relay.v ===== *)
(** * The packet relay (server/relay/relay.go) and its clients (client/wgbind/bind.go)

    A frame is its list of bytes.  [handle] is the relay's step for one datagram: the
    clients it knows, and the datagram it sends, if any.  [Send] and [relayReceive] are
    the two ends of a client in relay mode.  Both directions of the wire format are the
    source's; sockets, timers and the WireGuard device are outside. *)
From Stdlib Require Import Ascii String.
From S2P Require Import Prelude GoString GoStringFacts HostPort Netip NetipFacts Rewrite.

Local Open Scope Z_scope.

Definition typeRegister : Z := 0x01.
Definition typeData : Z := 0x02.

(** ** The relay *)

Record client : Type := MkClient { c_addr : AddrPort; c_lastSeen : Z }.

Abbreviation Clients := (gmap Addr client).

(** The client table after the packet and the datagram to write.  The outer [option] is
    the panic of a slice out of range. *)
Definition handle (cs : Clients) (pkt : list Z) (src : AddrPort) (now : Z)
  : option (Clients * option (list Z * AddrPort)) :=
  if (length pkt <? 1)%nat then Some (cs, None) else
  ty ← pkt !! 0%nat;
  if ty =? typeRegister then
    if (length pkt <? 5)%nat then Some (cs, None) else
    ip ← addr_at pkt 1;
    Some (<[ip := MkClient src now]> cs, None)
  else if ty =? typeData then
    if (length pkt <? 9)%nat then Some (cs, None) else
    srcIP ← addr_at pkt 1;
    dstIP ← addr_at pkt 5;
    payload ← slice pkt 9 (length pkt);
    let cs := <[srcIP := MkClient src now]> cs in
    match cs !! dstIP with
    | None => Some (cs, None)
    | Some dst =>
      s4 ← addr_As4 srcIP;
      Some (cs, Some (typeData :: s4 ++ payload, c_addr dst))
    end
  else Some (cs, None).

(** [Serve] reads each datagram into a buffer of 1500 bytes, so a longer one is cut. *)
Definition serve_one (cs : Clients) (datagram : list Z) (src : AddrPort) (now : Z)
  : option (Clients * option (list Z * AddrPort)) :=
  handle cs (take 1500 datagram) src now.

(** ** A client in relay mode *)

Record Bind : Type := MkBind { b_relayAP : AddrPort; b_selfIP : Addr }.

Inductive bind_error : Type :=
| ERelayAddr (s : string)
| ESelfNotIPv4 (a : Addr).

Definition NewRelay (relayAddr : string) (selfIP : Addr) : result bind_error Bind :=
  match ParseAddrPort relayAddr with
  | None => Err (ERelayAddr relayAddr)
  | Some ap => if negb (addr_Is4 selfIP) then Err (ESelfNotIPv4 selfIP) else Ok (MkBind ap selfIP)
  end.

(** [ParseEndpoint] in relay mode: the overlay address of the peer. *)
Definition ParseEndpoint (s : string) : option Addr :=
  match ParseAddrPort s with
  | Some ap => Some (ap_addr ap)
  | None => ParseAddr s
  end.

(** The datagrams [Send] writes, one per buffer; [None] is the panic of [As4]. *)
Definition Send (b : Bind) (bufs : list (list Z)) (ep : Addr) : option (list (list Z * AddrPort)) :=
  s4 ← addr_As4 (b_selfIP b);
  d4 ← addr_As4 ep;
  Some ((λ buf, (typeData :: s4 ++ d4 ++ buf, b_relayAP b)) <$> bufs).

Definition sendRegister (b : Bind) : option (list Z * AddrPort) :=
  s4 ← addr_As4 (b_selfIP b);
  Some (typeRegister :: s4, b_relayAP b).

(** One round of the receive loop on a datagram the socket yielded, which was read into
    a buffer of [cap] bytes: [None] to go round again, else the packet and its sender. *)
Definition relayReceive (cap : nat) (datagram : list Z) : option (option (list Z * Addr)) :=
  let buf := take cap datagram in
  let n := length buf in
  if (n <? 5)%nat then Some None else
  ty ← buf !! 0%nat;
  if negb (ty =? typeData) then Some None else
  srcIP ← addr_at buf 1;
  payload ← slice buf 5 n;
  Some (Some (payload, srcIP)).

(** ** Facts *)

Lemma addr_at_frame (ty : Z) v rest :
  is_u32 v → addr_at (ty :: bytes4 v ++ rest) 1 = Some (Addr4 v).
Proof.
  intros Hv. unfold addr_at.
  assert (slice (ty :: bytes4 v ++ rest) 1 (1 + 4) = Some (bytes4 v)) as -> by done.
  unfold AddrFrom4. cbn [fmap option_fmap option_map]. by rewrite of_bytes4_bytes4.
Qed.

Lemma addr_at_frame2 (ty : Z) u v rest :
  is_u32 v → addr_at (ty :: bytes4 u ++ bytes4 v ++ rest) 5 = Some (Addr4 v).
Proof.
  intros Hv. unfold addr_at.
  assert (slice (ty :: bytes4 u ++ bytes4 v ++ rest) 5 (5 + 4) = Some (bytes4 v)) as -> by done.
  unfold AddrFrom4. cbn [fmap option_fmap option_map]. by rewrite of_bytes4_bytes4.
Qed.

(** Reading an address off a frame and writing it out again gives the same bytes. *)
Lemma addr_at_bytes l i a :
  bytes l → addr_at l i = Some a → ∃ v, a = Addr4 v ∧ is_u32 v ∧ bytes4 v = take 4 (drop i l).
Proof.
  intros Hb. unfold addr_at, slice. destruct (_ && _) eqn:Hi; [|done]. cbn [fmap option_fmap option_map].
  intros [= <-]. apply andb_true_iff in Hi as [_ Hi%Nat.leb_le].
  replace (i + 4 - i)%nat with 4%nat by lia.
  assert (length (take 4 (drop i l)) = 4%nat) as Hl by (rewrite length_take, length_drop; lia).
  assert (bytes (take 4 (drop i l))) as Hbt by (by apply Forall_take, Forall_drop).
  destruct (take 4 (drop i l)) as [|b0 [|b1 [|b2 [|b3 [|]]]]]; try done.
  unfold bytes in Hbt. rewrite !Forall_cons in Hbt. destruct Hbt as (? & ? & ? & ? & _).
  exists (of_bytes4 [b0; b1; b2; b3]). split; [done|]. split; [by apply of_bytes4_range|].
  by apply bytes4_of_bytes4.
Qed.

(** ** The relay *)

(** The relay fails on no datagram, however malformed.  It remembers the sender under
    the address the datagram claims and nobody else; and it sends only what came in,
    less the destination, to the client known under that destination. *)
Theorem handle_total cs pkt src now :
  bytes pkt →
  ∃ cs' out, handle cs pkt src now = Some (cs', out) ∧
    (cs' = cs ∨ ∃ ip, addr_at pkt 1 = Some ip ∧ cs' = <[ip := MkClient src now]> cs) ∧
    ∀ frame to, out = Some (frame, to) →
      ∃ ip dst, pkt !! 0%nat = Some typeData ∧ addr_at pkt 5 = Some ip ∧ cs' !! ip = Some dst ∧
        to = c_addr dst ∧ frame = take 5 pkt ++ drop 9 pkt.
Proof.
  intros Hb. unfold handle. destruct (Nat.ltb_spec (length pkt) 1); [by exists cs, None; split_and!; [|left|]|].
  destruct (lookup_Some_lt pkt 0) as [ty Hty]; [lia|]. rewrite Hty. cbn [mbind option_bind].
  destruct (Z.eqb_spec ty typeRegister) as [->|_].
  { destruct (Nat.ltb_spec (length pkt) 5); [by exists cs, None; split_and!; [|left|]|].
    destruct (addr_at_Some pkt 1) as [ip Hip]; [lia|]. rewrite Hip. cbn [mbind option_bind].
    eexists _, None. split_and!; [done| |done]. right. by exists ip. }
  destruct (Z.eqb_spec ty typeData) as [->|_]; [|by exists cs, None; split_and!; [|left|]].
  destruct (Nat.ltb_spec (length pkt) 9); [by exists cs, None; split_and!; [|left|]|].
  destruct (addr_at_Some pkt 1) as [ip Hip]; [lia|]. destruct (addr_at_Some pkt 5) as [dip Hdip]; [lia|].
  rewrite Hip, Hdip. cbn [mbind option_bind]. rewrite slice_Some by lia. cbn [mbind option_bind]. cbv zeta.
  destruct (_ !! dip) as [dst|] eqn:Hdst.
  2: { eexists _, None. split_and!; [done| |done]. right. by exists ip. }
  destruct (addr_at_bytes pkt 1 ip Hb Hip) as (v & -> & _ & Hv).
  change (addr_As4 (Addr4 v)) with (Some (bytes4 v)). cbn [mbind option_bind].
  eexists _, (Some (_, _)). split_and!; [done|right; by eexists|].
  intros frame to [= <- <-]. exists dip, dst. split_and!; try done.
  change (typeData :: bytes4 v ++ take (length pkt - 9) (drop 9 pkt) = take 5 pkt ++ drop 9 pkt).
  rewrite Hv. destruct pkt as [|b pkt]; [done|]. injection Hty as ->. cbn [drop take app]. f_equal. f_equal.
  rewrite take_ge; [done|]. rewrite length_drop. simpl. lia.
Qed.

(** ** From one client to another *)

(** C12: A packet of up to 1491 bytes that a client sends to the address of another one, which
    has been heard from, reaches it unchanged and under the sender's address. *)
Theorem relay_delivers cs b v w dst packet src now cap :
  b_selfIP b = Addr4 v → is_u32 v → is_u32 w → cs !! Addr4 w = Some dst → w ≠ v →
  (length packet ≤ 1491)%nat → (length packet + 5 ≤ cap)%nat →
  ∃ frame cs' frame',
    Send b [packet] (Addr4 w) = Some [(frame, b_relayAP b)] ∧
    serve_one cs frame src now = Some (cs', Some (frame', c_addr dst)) ∧
    cs' = <[Addr4 v := MkClient src now]> cs ∧
    relayReceive cap frame' = Some (Some (packet, Addr4 v)).
Proof.
  intros Hb Hv Hw Hdst Hne Hlen Hcap.
  exists (typeData :: bytes4 v ++ bytes4 w ++ packet), (<[Addr4 v := MkClient src now]> cs), (typeData :: bytes4 v ++ packet).
  split; [by unfold Send; rewrite Hb|]. split; [|split; [done|]].
  - unfold serve_one. rewrite take_ge by (rewrite !length_cons, !length_app; simpl; lia). unfold handle.
    change (length (typeData :: bytes4 v ++ bytes4 w ++ packet) <? 1)%nat with false.
    change (length (typeData :: bytes4 v ++ bytes4 w ++ packet) <? 9)%nat with false.
    cbn [lookup list_lookup mbind option_bind]. change (typeData =? typeRegister) with false.
    change (typeData =? typeData) with true. cbv iota.
    rewrite addr_at_frame, addr_at_frame2 by done. cbn [mbind option_bind].
    rewrite slice_Some by (rewrite !length_cons, !length_app; simpl; lia). cbn [mbind option_bind]. cbv zeta.
    rewrite lookup_insert_ne by congruence. rewrite Hdst.
    change (addr_As4 (Addr4 v)) with (Some (bytes4 v)). cbn [mbind option_bind].
    change (drop 9 (typeData :: bytes4 v ++ bytes4 w ++ packet)) with packet.
    rewrite (take_ge packet) by (rewrite !length_cons, !length_app; simpl; lia). done.
  - unfold relayReceive. rewrite take_ge by (rewrite !length_cons, !length_app; simpl; lia).
    change (length (typeData :: bytes4 v ++ packet) <? 5)%nat with false.
    cbn [lookup list_lookup mbind option_bind]. change (typeData =? typeData) with true. cbv iota zeta. cbn [negb].
    rewrite addr_at_frame by done. cbn [mbind option_bind].
    rewrite slice_Some by (rewrite !length_cons, !length_app; simpl; lia). cbn [mbind option_bind].
    change (drop 5 (typeData :: bytes4 v ++ packet)) with packet.
    rewrite take_ge; [done|]. rewrite !length_cons, !length_app. simpl. lia.
Qed.

(** A peer is named to a client in relay mode by its overlay address, with or without a
    port; both name the endpoint of that address, and an endpoint's own text names it. *)
Theorem ParseEndpoint_names v p :
  is_u32 v → 0 ≤ p ≤ 65535 →
  ParseEndpoint (addr_String (Addr4 v)) = Some (Addr4 v) ∧
  ParseEndpoint (AddrPort_String (MkAddrPort (Addr4 v) p)) = Some (Addr4 v).
Proof.
  intros Hv Hp. unfold ParseEndpoint. rewrite ParseAddrPort_4 by done. split; [|done].
  unfold ParseAddrPort. cbn [addr_String]. rewrite cut_last_none by (by apply string4_bytes).
  by apply ParseAddr_string4.
Qed.

(** The relay address a client can use is an address literal: the name of a host, which
    the server may well advertise, is refused. *)
Example NewRelay_rejects_names :
  NewRelay "vpn.example.com:3478" (Addr4 1) = Err (ERelayAddr "vpn.example.com:3478") ∧
  NewRelay "203.0.113.5" (Addr4 1) = Err (ERelayAddr "203.0.113.5").
Proof. split; by vm_compute. Qed.

(** ** Two clients *)

Definition demo_endpoint (n : Z) : AddrPort := MkAddrPort (Addr4 n) 1000.
Definition demo_bind : Bind := MkBind (demo_endpoint 9) (Addr4 0x0a000001).
Definition demo_clients : Clients := {[ Addr4 0x0a000002 := MkClient (demo_endpoint 2) 0 ]}.

Lemma relay_delivers_witness :
  ∃ frame frame', Send demo_bind [[1; 2; 3]] (Addr4 0x0a000002) = Some [(frame, demo_endpoint 9)] ∧
    relayReceive 1500 frame' = Some (Some ([1; 2; 3], Addr4 0x0a000001)).
Proof.
  destruct (relay_delivers demo_clients demo_bind 0x0a000001 0x0a000002 (MkClient (demo_endpoint 2) 0)
    [1; 2; 3] (demo_endpoint 1) 5 1500) as (frame & cs' & frame' & Hs & _ & _ & Hr).
  1-7: first [done | by split | by vm_compute | simpl; lia].
  by exists frame, frame'.
Defined.

Lemma handle_total_witness : ∃ cs' out, handle demo_clients [2; 10; 0] (demo_endpoint 1) 5 = Some (cs', out).
Proof.
  destruct (handle_total demo_clients [2; 10; 0] (demo_endpoint 1) 5) as (cs' & out & Hh & _);
    [repeat constructor; by vm_compute|]. by exists cs', out.
Defined.

Lemma ParseEndpoint_names_witness : ParseEndpoint "10.0.0.2" = Some (Addr4 0x0a000002).
Proof. apply (ParseEndpoint_names 0x0a000002 51820); [by split|lia]. Defined.
