(* ===== verification/BindTraffic.v ===== *)
(** * Packets through a bind, in both modes (client/wgbind/bind.go)

    Relay.v has the wire format of relay mode; here are the receive functions as the loops
    they are, over what reading the socket gives one time after the other, and sending in
    both modes with writes that may fail.  The socket's results are the events of a list; at
    its end the receive function is still waiting. *)
From Stdlib Require Import Ascii String.
From S2P Require Import Prelude GoString GoStringFacts HostPort Netip NetipFacts Rewrite Relay.

Local Open Scope Z_scope.

(** [conn.Endpoint] as the two modes use it. *)
Inductive endpoint : Type :=
| StdNetEndpoint (ap : AddrPort)
| relayEndpoint (ip : Addr).

(** [New] and [NewRelay]. *)
Inductive mode : Type := Direct | ViaRelay (b : Bind).

(** ** Receiving *)

(** [net.ErrClosed], the connection reset that Windows reports for a port nobody listened
    on, and every other error. *)
Inductive read_error : Type := RClosed | RReset | ROther (what : string).

Inductive read_event : Type :=
| Datagram (data : list Z) (from : AddrPort)
| ReadError (e : read_error).

(** [isConnReset], on Windows and elsewhere. *)
Definition isConnReset (windows : bool) (e : read_error) : bool :=
  match e with RReset => windows | _ => false end.

(** [controlDisableConnReset]: the error of reaching the socket, else the ioctl's; elsewhere than
    on Windows there is nothing to do. *)
Definition controlDisableConnReset (windows : bool) (control ioctl : option string) : option string :=
  if negb windows then None else match control with Some e => Some e | None => ioctl end.

(** What a receive function returns, with the events left; [Blocked] when it is waiting. *)
Inductive received : Type :=
| Blocked
| Received (packet : list Z) (ep : endpoint) (rest : list read_event)
| Failed (e : read_error) (rest : list read_event)
| Panicked.

Section receive.
Context (windows : bool) (cap : nat).

(** The function [makeDirectReceive] returns, on a buffer of [cap] bytes. *)
Fixpoint makeDirectReceive (evs : list read_event) : received :=
  match evs with
  | [] => Blocked
  | ReadError e :: evs =>
    match e with
    | RClosed => Failed RClosed evs
    | _ => if isConnReset windows e then makeDirectReceive evs else Failed e evs
    end
  | Datagram data from :: evs => Received (take cap data) (StdNetEndpoint from) evs
  end.

Fixpoint makeRelayReceive (evs : list read_event) : received :=
  match evs with
  | [] => Blocked
  | ReadError e :: evs =>
    match e with
    | RClosed => Failed RClosed evs
    | _ => if isConnReset windows e then makeRelayReceive evs else Failed e evs
    end
  | Datagram data _ :: evs =>
    match relayReceive cap data with
    | None => Panicked
    | Some None => makeRelayReceive evs
    | Some (Some (packet, srcIP)) => Received packet (relayEndpoint srcIP) evs
    end
  end.

(** The receive function [Open] returns. *)
Definition receiveFunc (m : mode) : list read_event → received :=
  match m with Direct => makeDirectReceive | ViaRelay _ => makeRelayReceive end.

(** Calling it until it fails or waits: the packets it handed over and the error, if one
    ended it.  [None] is a panic, or fuel that ran out. *)
Fixpoint receive_all (fuel : nat) (m : mode) (evs : list read_event)
  : option (list (list Z * endpoint) * option read_error) :=
  match fuel with
  | O => None
  | S fuel =>
    match receiveFunc m evs with
    | Blocked => Some ([], None)
    | Failed e _ => Some ([], Some e)
    | Panicked => None
    | Received packet ep rest =>
      '(got, e) ← receive_all fuel m rest;
      Some ((packet, ep) :: got, e)
    end
  end.
End receive.

(** ** Sending *)

Inductive send_error : Type :=
| SClosed                         (** [net.ErrClosed] *)
| SEndpoint (ep : endpoint)       (** an endpoint of the other mode *)
| SWrite (what : string).

(** The writes of one call in turn, the [k]-th failing as [fails k] says: what was written
    and the error that stopped it. *)
Fixpoint write_all (fails : nat → option string) (k : nat) (frames : list (list Z * AddrPort))
  : list (list Z * AddrPort) * option send_error :=
  match frames with
  | [] => ([], None)
  | f :: frames =>
    match fails k with
    | Some e => ([], Some (SWrite e))
    | None => let '(written, e) := write_all fails (S k) frames in (f :: written, e)
    end
  end.

(** [Bind.Send] of an open or closed bind; [None] is a panic. *)
Definition bind_Send (m : mode) (open : bool) (fails : nat → option string) (bufs : list (list Z))
    (ep : endpoint) : option (list (list Z * AddrPort) * option send_error) :=
  if negb open then Some ([], Some SClosed) else
  match m, ep with
  | ViaRelay b, relayEndpoint ip => frames ← Send b bufs ip; Some (write_all fails 0 frames)
  | Direct, StdNetEndpoint ap => Some (write_all fails 0 ((λ buf, (buf, ap)) <$> bufs))
  | _, _ => Some ([], Some (SEndpoint ep))
  end.

Definition bind_ParseEndpoint (m : mode) (s : string) : option endpoint :=
  match m with
  | ViaRelay _ => relayEndpoint <$> ParseEndpoint s
  | Direct => StdNetEndpoint <$> ParseAddrPort s
  end.

(** The methods of [relayEndpoint]; [None] is the panic of [As4]. *)
Definition DstToString (ip : Addr) : string := addr_String ip.
Definition DstToBytes (ip : Addr) : option (list Z) := addr_As4 ip.
Definition DstIP (ip : Addr) : Addr := ip.
Definition SrcIP (ip : Addr) : Addr := AddrZero.
Definition SrcToString (ip : Addr) : string := "".

(** [BatchSize]: one buffer per receive. *)
Definition BatchSize : nat := 1.

(** ** What a bind promises about receiving *)

(** A datagram that stands for a packet from an endpoint. *)
Definition carries (m : mode) (data : list Z) (from : AddrPort) (packet : list Z) (ep : endpoint) : Prop :=
  match m with
  | Direct => packet = data ∧ ep = StdNetEndpoint from
  | ViaRelay _ => ∃ v, is_u32 v ∧ data = typeData :: bytes4 v ++ packet ∧ ep = relayEndpoint (Addr4 v)
  end.

(** The packets of a sequence of socket results, resets and foreign datagrams left out. *)
Inductive hands_over (windows : bool) (m : mode) : list read_event → list (list Z * endpoint) → Prop :=
| ho_nil : hands_over windows m [] []
| ho_packet data from packet ep evs got :
    carries m data from packet ep → hands_over windows m evs got →
    hands_over windows m (Datagram data from :: evs) ((packet, ep) :: got)
| ho_foreign data from evs got :
    (∀ packet ep, ¬ carries m data from packet ep) → hands_over windows m evs got →
    hands_over windows m (Datagram data from :: evs) got
| ho_reset evs got : windows = true → hands_over windows m evs got → hands_over windows m (ReadError RReset :: evs) got.

Definition fits (cap : nat) (ev : read_event) : Prop :=
  match ev with Datagram data _ => bytes data ∧ (length data ≤ cap)%nat | ReadError _ => True end.

(** What one datagram gives in relay mode. *)
Lemma relayReceive_carries b cap data from :
  bytes data → (length data ≤ cap)%nat →
  match relayReceive cap data with
  | None => False
  | Some None => ∀ packet ep, ¬ carries (ViaRelay b) data from packet ep
  | Some (Some (packet, srcIP)) => carries (ViaRelay b) data from packet (relayEndpoint srcIP)
  end.
Proof.
  intros Hb Hl. unfold relayReceive. rewrite take_ge by done. cbv zeta.
  destruct (Nat.ltb_spec (length data) 5) as [Hs|Hs].
  { intros packet ep (v & _ & -> & _). rewrite length_cons, length_app in Hs. simpl in Hs. lia. }
  destruct data as [|ty data]; [simpl in Hs; lia|]. cbn [lookup list_lookup mbind option_bind].
  destruct (Z.eqb_spec ty typeData) as [->|Hne]; cbn [negb].
  2: { intros packet ep (v & _ & He & _). injection He. congruence. }
  destruct (addr_at_Some (typeData :: data) 1) as [ip Hip]; [lia|]. rewrite Hip. cbn [mbind option_bind].
  rewrite slice_Some by lia. cbn [mbind option_bind].
  destruct (addr_at_bytes _ 1 ip Hb Hip) as (v & -> & Hv & Hbs).
  exists v. split; [done|]. split; [|done]. rewrite Hbs. cbn [drop]. f_equal.
  rewrite (take_ge (drop 4 data)), take_drop; [done|]. rewrite length_drop. simpl in *. lia.
Qed.

Section receive_facts.
Context (windows : bool) (cap : nat).

(** What one call may give: the first packet, or the first error that is not a reset. *)
Definition receive_ok (m : mode) (evs : list read_event) (r : received) : Prop :=
  match r with
  | Panicked => False
  | Blocked => hands_over windows m evs []
  | Received packet ep rest =>
    (length rest < length evs)%nat ∧ Forall (fits cap) rest ∧ ∃ data from pre,
      evs = pre ++ Datagram data from :: rest ∧ hands_over windows m pre [] ∧ carries m data from packet ep
  | Failed e rest =>
    isConnReset windows e = false ∧ ∃ pre, evs = pre ++ ReadError e :: rest ∧ hands_over windows m pre []
  end.

(** An event that is passed over changes nothing. *)
Lemma receive_ok_skip m ev evs r : hands_over windows m [ev] [] → receive_ok m evs r → receive_ok m (ev :: evs) r.
Proof using Type.
  intros Hh Hr.
  assert (∀ l got, hands_over windows m l got → hands_over windows m (ev :: l) got) as Hcons.
  { intros l got Hl. inversion Hh; subst; by constructor. }
  destruct r as [|packet ep rest|e rest|]; [by apply Hcons| | |done].
  - destruct Hr as (Hlen & Hf & data & from & pre & -> & Hp & Hc).
    split; [simpl; lia|]. split; [done|]. exists data, from, (ev :: pre). split_and!; [done|by apply Hcons|done].
  - destruct Hr as (He & pre & -> & Hp). split; [done|]. exists (ev :: pre). split; [done|by apply Hcons].
Qed.

Lemma receive_ok_error m e evs :
  receive_ok m evs (receiveFunc windows cap m evs) →
  receive_ok m (ReadError e :: evs) (receiveFunc windows cap m (ReadError e :: evs)).
Proof using Type.
  intros IH. destruct (isConnReset windows e) eqn:Hr.
  - destruct e; [done| |done]. cbn [isConnReset] in Hr.
    replace (receiveFunc windows cap m (ReadError RReset :: evs)) with (receiveFunc windows cap m evs)
      by (destruct m; cbn [receiveFunc makeDirectReceive makeRelayReceive isConnReset]; by rewrite Hr).
    apply receive_ok_skip; [constructor; [done|constructor]|done].
  - replace (receiveFunc windows cap m (ReadError e :: evs)) with (Failed e evs)
      by (destruct m, e; cbn [receiveFunc makeDirectReceive makeRelayReceive isConnReset] in *; by rewrite ?Hr).
    split; [done|]. exists []. split; [done|constructor].
Qed.

Lemma receive_ok_datagram m data from evs :
  bytes data → (length data ≤ cap)%nat → Forall (fits cap) evs →
  receive_ok m evs (receiveFunc windows cap m evs) →
  receive_ok m (Datagram data from :: evs) (receiveFunc windows cap m (Datagram data from :: evs)).
Proof using Type.
  intros Hb Hl Hevs IH.
  assert (∀ packet ep, carries m data from packet ep →
    receive_ok m (Datagram data from :: evs) (Received packet ep evs)) as Hgot.
  { intros packet ep Hc. split; [simpl; lia|]. split; [done|]. exists data, from, [].
    split_and!; [done|constructor|done]. }
  destruct m as [|b]; cbn [receiveFunc makeDirectReceive makeRelayReceive].
  { apply Hgot. by rewrite take_ge. }
  pose proof (relayReceive_carries b cap data from Hb Hl) as Hr.
  destruct (relayReceive cap data) as [[[packet ip]|]|]; [by apply Hgot| |done].
  apply receive_ok_skip; [by constructor; [|constructor]|done].
Qed.

Lemma receiveFunc_ok m evs : Forall (fits cap) evs → receive_ok m evs (receiveFunc windows cap m evs).
Proof using Type.
  induction 1 as [|[data from|e] evs Hev Hevs IH]; [destruct m; constructor| |by apply receive_ok_error].
  destruct Hev. by apply receive_ok_datagram.
Qed.
End receive_facts.

Lemma hands_over_app windows m l1 l2 g1 g2 :
  hands_over windows m l1 g1 → hands_over windows m l2 g2 → hands_over windows m (l1 ++ l2) (g1 ++ g2).
Proof. intros H H2. induction H; [done|by constructor..]. Qed.

(** C19: Calling a bind's receive function until it fails hands over, in both modes, exactly the
    packets that arrived before the first error that is not a connection reset, unchanged, in
    order and each with its sender; datagrams that are no packets and resets are passed over. *)
Theorem receives_in_order windows cap m evs :
  Forall (fits cap) evs →
  ∃ got err, receive_all windows cap (S (length evs)) m evs = Some (got, err) ∧
    match err with
    | None => hands_over windows m evs got
    | Some e => isConnReset windows e = false ∧
        ∃ pre post, evs = pre ++ ReadError e :: post ∧ hands_over windows m pre got
    end.
Proof.
  enough (∀ fuel, (length evs < fuel)%nat → Forall (fits cap) evs →
    ∃ got err, receive_all windows cap fuel m evs = Some (got, err) ∧
    match err with
    | None => hands_over windows m evs got
    | Some e => isConnReset windows e = false ∧
        ∃ pre post, evs = pre ++ ReadError e :: post ∧ hands_over windows m pre got
    end) as Hf by (intros; apply Hf; [lia|done]).
  intros fuel. revert evs. induction fuel as [|fuel IH]; intros evs Hlen Hevs; [lia|].
  cbn [receive_all]. pose proof (receiveFunc_ok windows cap m evs Hevs) as Hr.
  destruct (receiveFunc windows cap m evs) as [|packet ep rest|e rest|]; [by eexists _, _| |  |done].
  - destruct Hr as (Hl & Hf & data & from & pre & -> & Hp & Hc).
    destruct (IH rest ltac:(lia) Hf) as (got & err & -> & Hgot). eexists _, _. split; [done|].
    destruct err as [e|].
    + destruct Hgot as (He & pre' & post & -> & Hh). split; [done|].
      exists (pre ++ Datagram data from :: pre'), post. split; [by rewrite <- app_assoc|].
      apply (hands_over_app _ _ _ _ [] _ Hp). by constructor.
    + apply (hands_over_app _ _ _ _ [] _ Hp). by constructor.
  - destruct Hr as (He & pre & -> & Hp). eexists _, _. split; [done|]. split; [done|]. by exists pre, rest.
Qed.

(** ** Sending *)

(** What is written is the datagrams up to the first write that fails. *)
Lemma write_all_prefix fails k frames written e :
  write_all fails k frames = (written, e) →
  match e with
  | None => written = frames ∧ ∀ i, (i < length frames)%nat → fails (k + i)%nat = None
  | Some e => ∃ i w, e = SWrite w ∧ fails (k + i)%nat = Some w ∧ (i < length frames)%nat ∧ written = take i frames
  end.
Proof.
  revert k written e. induction frames as [|f frames IH]; intros k written e; cbn [write_all].
  { intros [= <- <-]. split; [done|]. simpl. lia. }
  destruct (fails k) as [w|] eqn:Hk.
  { intros [= <- <-]. exists 0%nat, w. rewrite Nat.add_0_r. split_and!; [done|done|simpl; lia|done]. }
  destruct (write_all fails (S k) frames) as [written' e'] eqn:Hw. intros [= <- <-]. specialize (IH _ _ _ Hw).
  destruct e' as [e'|].
  - destruct IH as (i & w & -> & Hf & Hi & ->). exists (S i), w. rewrite <- Nat.add_succ_comm. split_and!; [done|done|simpl; lia|done].
  - destruct IH as [-> Hf]. split; [done|]. intros [|i] Hi; [by rewrite Nat.add_0_r|].
    rewrite <- Nat.add_succ_comm. apply Hf. simpl in Hi. lia.
Qed.

(** Every endpoint a bind hands over with a packet can be sent to: no address on the way back
    makes [Send] panic, and on a working socket every buffer goes out. *)
Theorem reply_reaches m data from packet ep bufs :
  match m with Direct => True | ViaRelay b => addr_Is4 (b_selfIP b) = true end →
  carries m data from packet ep →
  ∃ written, bind_Send m true (λ _, None) bufs ep = Some (written, None) ∧ length written = length bufs ∧
    match m with
    | Direct => Forall (λ w, w.2 = from) written
    | ViaRelay b => Forall (λ w, w.2 = b_relayAP b ∧ take 4 (drop 5 w.1) = take 4 (drop 1 data)) written
    end.
Proof.
  intros Hm Hc.
  assert (∀ k frames, write_all (λ _, None) k frames = (frames, None)) as Hw.
  { intros k frames. destruct (write_all (λ _, None) k frames) as [w e] eqn:He.
    pose proof (write_all_prefix _ _ _ _ _ He) as Hp. destruct e; [by destruct Hp as (? & ? & _ & ? & _)|].
    by destruct Hp as [-> _]. }
  destruct m as [|b].
  - destruct Hc as [-> ->]. cbn [bind_Send negb]. rewrite Hw. eexists. split; [done|]. rewrite length_fmap. split; [done|].
    apply Forall_fmap, Forall_forall. by intros.
  - destruct Hc as (v & Hv & -> & ->). cbn [bind_Send negb]. unfold Send.
    destruct (b_selfIP b) as [|u|u z]; [done| |done].
    change (addr_As4 (Addr4 u)) with (Some (bytes4 u)). change (addr_As4 (Addr4 v)) with (Some (bytes4 v)).
    cbn [mbind option_bind]. rewrite Hw. eexists. split; [done|]. rewrite length_fmap. split; [done|].
    apply Forall_fmap, Forall_forall. by intros.
Qed.

(** Two devices in direct mode: the packets one sends to the text that names the other arrive,
    from an endpoint whose own text leads back. *)
Theorem direct_delivers windows cap (a b : AddrPort) v w bufs :
  ap_addr a = Addr4 v → is_u32 v → 0 ≤ ap_port a ≤ 65535 → ap_addr b = Addr4 w → is_u32 w → 0 ≤ ap_port b ≤ 65535 →
  Forall (λ buf, (length buf ≤ cap)%nat) bufs →
  ∃ ep, bind_ParseEndpoint Direct (AddrPort_String b) = Some ep ∧
    bind_Send Direct true (λ _, None) bufs ep = Some ((λ buf, (buf, b)) <$> bufs, None) ∧
    receive_all windows cap (S (length bufs)) Direct ((λ buf, Datagram buf a) <$> bufs) =
      Some ((λ buf, (buf, StdNetEndpoint a)) <$> bufs, None) ∧
    bind_ParseEndpoint Direct (AddrPort_String a) = Some (StdNetEndpoint a).
Proof.
  destruct a as [aa p], b as [ba q]. cbn [ap_addr ap_port]. intros -> Hv Hp -> Hw Hq Hl.
  exists (StdNetEndpoint (MkAddrPort (Addr4 w) q)). unfold bind_ParseEndpoint. rewrite !ParseAddrPort_4 by done.
  split_and!; [done| | |done].
  - cbn [bind_Send negb]. f_equal. generalize 0%nat. induction bufs as [|buf bufs IH]; intros k; [done|].
    inversion Hl; subst. cbn [fmap list_fmap write_all]. by rewrite (IH ltac:(done)).
  - induction Hl as [|buf bufs Hbuf Hl IH]; [done|].
    cbn [fmap list_fmap length receive_all receiveFunc makeDirectReceive] in *. rewrite IH. cbn [mbind option_bind].
    by rewrite take_ge.
Qed.

(** A bind that is closed, and an endpoint of the other mode, are refused with nothing sent. *)
Lemma bind_Send_refused m fails bufs ep :
  bind_Send m false fails bufs ep = Some ([], Some SClosed) ∧
  bind_Send Direct true fails bufs (relayEndpoint (DstIP AddrZero)) = Some ([], Some (SEndpoint (relayEndpoint AddrZero))) ∧
  ∀ b ap, bind_Send (ViaRelay b) true fails bufs (StdNetEndpoint ap) = Some ([], Some (SEndpoint (StdNetEndpoint ap))).
Proof. by destruct m. Qed.

(** The text of an endpoint of relay mode names it, and so do its bytes. *)
Lemma relayEndpoint_texts b v :
  is_u32 v →
  bind_ParseEndpoint (ViaRelay b) (DstToString (Addr4 v)) = Some (relayEndpoint (Addr4 v)) ∧
  (of_bytes4 <$> DstToBytes (Addr4 v)) = Some v.
Proof.
  intros Hv. unfold bind_ParseEndpoint, DstToString. split.
  - unfold ParseEndpoint, ParseAddrPort. cbn [addr_String].
    rewrite cut_last_none by (by apply string4_bytes). by rewrite ParseAddr_string4.
  - unfold DstToBytes. change (addr_As4 (Addr4 v)) with (Some (bytes4 v)). cbn [fmap option_fmap option_map].
    by rewrite of_bytes4_bytes4.
Qed.

(** An IPv6 address is accepted for a peer in relay mode, and sending to it panics, whatever
    the state of the socket. *)
Lemma ipv6_peer_panics fails bufs :
  ∃ ip, bind_ParseEndpoint (ViaRelay demo_bind) "fd00::1" = Some (relayEndpoint ip) ∧
    bind_Send (ViaRelay demo_bind) true fails bufs (relayEndpoint ip) = None.
Proof. eexists. split; [by vm_compute|]. by vm_compute. Qed.

(** ** A relay client's socket *)

Definition demo_events : list read_event :=
  [Datagram [1; 0; 0; 0; 0] (demo_endpoint 9); ReadError RReset; Datagram [2; 10; 0; 0; 2; 7; 8] (demo_endpoint 9);
   Datagram [2; 10; 0] (demo_endpoint 9); Datagram [2; 10; 0; 0; 3] (demo_endpoint 9); ReadError RClosed].

Lemma receives_in_order_witness :
  ∃ got err, receive_all true 1500 7 (ViaRelay demo_bind) demo_events = Some (got, err) ∧
    got = [([7; 8], relayEndpoint (Addr4 0x0a000002)); ([], relayEndpoint (Addr4 0x0a000003))] ∧ err = Some RClosed.
Proof.
  destruct (receives_in_order true 1500 (ViaRelay demo_bind) demo_events) as (got & err & Hr & _).
  { repeat (constructor; [first [done | split; [repeat constructor; by vm_compute | simpl; lia]]|]). constructor. }
  exists got, err. split; [exact Hr|]. vm_compute in Hr. by injection Hr as <- <-.
Defined.

Lemma reply_reaches_witness :
  ∃ written, bind_Send (ViaRelay demo_bind) true (λ _, None) [[1]; [2]] (relayEndpoint (Addr4 0x0a000002)) = Some (written, None).
Proof.
  destruct (reply_reaches (ViaRelay demo_bind) [2; 10; 0; 0; 2; 7; 8] (demo_endpoint 9) [7; 8]
    (relayEndpoint (Addr4 0x0a000002)) [[1]; [2]]) as (written & Hw & _); [done| |by exists written].
  exists 0x0a000002. by split.
Defined.

Lemma direct_delivers_witness :
  receive_all false 1500 2 Direct [Datagram [5; 6] (demo_endpoint 1)] = Some ([([5; 6], StdNetEndpoint (demo_endpoint 1))], None).
Proof.
  destruct (direct_delivers false 1500 (demo_endpoint 1) (demo_endpoint 2) 1 2 [[5; 6]]) as (ep & _ & _ & Hr & _);
    [done|by split|vm_compute; by split|done|by split|vm_compute; by split|repeat constructor; simpl; lia|exact Hr].
Defined.
