(* ===== verification/RelayRun.v ===== *)
(** * The relay at work (server/relay/relay.go with client/wgbind/bind.go)

    The relay's life, the loop of [Serve] over what its socket yields, and a network of
    clients around it in which datagrams are lost, repeated and overtake one another. *)
From Stdlib Require Import Ascii String.
From S2P Require Import Prelude GoString GoStringFacts HostPort Netip NetipFacts Rewrite Relay BindTraffic.

Local Open Scope Z_scope.

(** ** Its life *)

Inductive relay_conn : Type := NoConn | OpenConn | ClosedConn.

Record RelayServer : Type := MkRelayServer { rl_clients : Clients; rl_conn : relay_conn }.

Definition relay_New : RelayServer := MkRelayServer ∅ NoConn.

(** The events of a read from the relay's socket, each with the clock of its handling. *)
Definition timed : Type := read_event * Z.

Section relay.
(** [net.ResolveUDPAddr] and [net.ListenUDP] with the address that was bound. *)
Context (resolve : string → option AddrPort) (listenUDP : AddrPort → option AddrPort).

Definition relay_Listen (r : RelayServer) (addr : string) : RelayServer * option AddrPort :=
  match resolve addr with
  | None => (r, None)
  | Some uaddr =>
    match listenUDP uaddr with
    | None => (r, None)
    | Some bound => (MkRelayServer (rl_clients r) OpenConn, Some bound)
    end
  end.

(** The loop of [Serve]: the clients, what was sent, and the error that ended it; none while
    it waits.  [None] is a panic. *)
Fixpoint relay_serve (cs : Clients) (evs : list timed)
  : option (Clients * list (list Z * AddrPort) * option read_error) :=
  match evs with
  | [] => Some (cs, [], None)
  | (ReadError e, _) :: _ => Some (cs, [], Some e)
  | (Datagram data from, now) :: evs =>
    '(cs, out) ← serve_one cs data from now;
    '(cs, outs, e) ← relay_serve cs evs;
    Some (cs, match out with Some o => o :: outs | None => outs end, e)
  end.

(** [Serve]; without a socket a read fails at once. *)
Definition relay_Serve (r : RelayServer) (evs : list timed) : option (RelayServer * list (list Z * AddrPort) * option read_error) :=
  match rl_conn r with
  | NoConn => Some (r, [], Some (ROther "invalid argument"))
  | ClosedConn => Some (r, [], Some RClosed)
  | OpenConn => '(cs, outs, e) ← relay_serve (rl_clients r) evs; Some (MkRelayServer cs OpenConn, outs, e)
  end.

Definition relay_ListenAndServe (r : RelayServer) (addr : string) (evs : list timed)
  : option (RelayServer * list (list Z * AddrPort) * option read_error) :=
  match relay_Listen r addr with
  | (r, None) => Some (r, [], Some (ROther "listen"))
  | (r, Some _) => relay_Serve r evs
  end.

(** [Close] and whether it reports an error: of a socket that is closed already. *)
Definition relay_Close (r : RelayServer) : RelayServer * bool :=
  match rl_conn r with
  | NoConn => (r, false)
  | OpenConn => (MkRelayServer (rl_clients r) ClosedConn, false)
  | ClosedConn => (r, true)
  end.
End relay.

(** No datagram stops the relay; it stops at the first error of its socket, whatever it is. *)
Lemma relay_serve_stops cs evs :
  Forall (λ ev : timed, match ev.1 with Datagram data _ => bytes data | ReadError _ => True end) evs →
  ∃ cs' outs err, relay_serve cs evs = Some (cs', outs, err) ∧
    match err with
    | None => Forall (λ ev : timed, match ev.1 with Datagram _ _ => True | ReadError _ => False end) evs
    | Some e => ∃ pre now post, evs = pre ++ (ReadError e, now) :: post ∧
        Forall (λ ev : timed, match ev.1 with Datagram _ _ => True | ReadError _ => False end) pre
    end.
Proof.
  intros Hevs. revert cs. induction Hevs as [|[[data from|e] now] evs Hb _ IH]; intros cs; cbn [relay_serve].
  - eexists _, _, None. by split.
  - cbn [fst] in Hb. destruct (handle_total cs (take 1500 data) from now) as (cs1 & out & Hh & _); [by apply Forall_take|].
    unfold serve_one. rewrite Hh. cbn [mbind option_bind]. destruct (IH cs1) as (cs2 & outs & err & -> & Herr).
    cbn [mbind option_bind]. eexists _, _, err. split; [done|]. destruct err as [e|]; [|by constructor].
    destruct Herr as (pre & now' & post & -> & Hpre). exists ((Datagram data from, now) :: pre), now', post.
    split; [done|by constructor].
  - eexists _, _, (Some e). split; [done|]. exists [], now, evs. split; [done|constructor].
Qed.

(** On Windows the socket reports a reset when a client that was sent to has gone, and the
    relay, unlike the clients' own receive functions, takes it for the end: the packet of
    every other client that comes after it is not relayed. *)
Lemma one_reset_ends_relay cs evs now :
  relay_serve cs ((ReadError RReset, now) :: evs) = Some (cs, [], Some RReset) ∧
  ∀ m, receiveFunc true 1500 m [ReadError RReset] = Blocked.
Proof. split; [done|]. by intros []. Qed.

(** ** Clients around it *)

(** [n_sock] is who opened a socket address, ever; [n_up] and [n_down] are what was ever put on
    the way to the relay, with the sender's address, and from it, with the receiver's; [n_sent]
    and [n_got] are the packets the clients sent and were handed, with the addresses in the
    overlay. *)
Record relay_net : Type := MkRelayNet {
  n_clients : Clients;
  n_sock : gmap AddrPort Z;
  n_up : list (list Z * AddrPort);
  n_down : list (list Z * AddrPort);
  n_sent : list (Z * Z * list Z);
  n_got : list (Z * Addr * list Z);
}.

Definition net_start : relay_net := MkRelayNet ∅ ∅ [] [] [] [].

Section net.
(** Where the relay is, and the size of the buffers the clients receive into. *)
Context (relayAP : AddrPort) (cap : nat).

Definition client_bind (v : Z) : Bind := MkBind relayAP (Addr4 v).

Inductive net_step : relay_net → relay_net → Prop :=
(** A client opens a socket, which nobody had before, and registers. *)
| ns_open n v ap : is_u32 v → n_sock n !! ap = None →
    net_step n (MkRelayNet (n_clients n) (<[ap := v]> (n_sock n)) (n_up n) (n_down n) (n_sent n) (n_got n))
(** The client of a socket registers, at once or later. *)
| ns_register n v ap frame to : n_sock n !! ap = Some v → sendRegister (client_bind v) = Some (frame, to) →
    net_step n (MkRelayNet (n_clients n) (n_sock n) ((frame, ap) :: n_up n) (n_down n) (n_sent n) (n_got n))
| ns_send n v ap w packet frames : n_sock n !! ap = Some v → is_u32 w → bytes packet →
    Send (client_bind v) [packet] (Addr4 w) = Some frames →
    net_step n (MkRelayNet (n_clients n) (n_sock n) (((λ f, (f.1, ap)) <$> frames) ++ n_up n) (n_down n)
      ((v, w, packet) :: n_sent n) (n_got n))
(** The relay gets something that was sent to it, perhaps not for the first time. *)
| ns_relay n data from now cs out : (data, from) ∈ n_up n → serve_one (n_clients n) data from now = Some (cs, out) →
    net_step n (MkRelayNet cs (n_sock n) (n_up n) (match out with Some o => [o] | None => [] end ++ n_down n) (n_sent n) (n_got n))
(** So does a client. *)
| ns_receive n data to v packet src : (data, to) ∈ n_down n → n_sock n !! to = Some v →
    relayReceive cap data = Some (Some (packet, src)) →
    net_step n (MkRelayNet (n_clients n) (n_sock n) (n_up n) (n_down n) (n_sent n) ((v, src, packet) :: n_got n)).

(** What the relay passes on of a packet: a datagram of 1500 bytes less the header. *)
Definition relayed (packet : list Z) : list Z := take 1491 packet.

Record net_ok (n : relay_net) : Prop := {
  no_u32 : ∀ ap v, n_sock n !! ap = Some v → is_u32 v;
  no_up : ∀ data ap, (data, ap) ∈ n_up n → ∃ v, n_sock n !! ap = Some v ∧
    (data = typeRegister :: bytes4 v ∨
     ∃ w packet, (v, w, packet) ∈ n_sent n ∧ is_u32 w ∧ data = typeData :: bytes4 v ++ bytes4 w ++ packet);
  no_clients : ∀ a c, n_clients n !! a = Some c → ∃ v, a = Addr4 v ∧ n_sock n !! c_addr c = Some v;
  no_down : ∀ data to, (data, to) ∈ n_down n → ∃ v w packet, n_sock n !! to = Some w ∧ is_u32 v ∧ (v, w, packet) ∈ n_sent n ∧
    data = typeData :: bytes4 v ++ relayed packet;
  no_got : ∀ w src got, (w, src, got) ∈ n_got n → ∃ v packet, src = Addr4 v ∧ (v, w, packet) ∈ n_sent n ∧
    got = take (cap - 5) (relayed packet);
}.

(** The relay's handling of a frame a client made: the sender is learned under its own
    address, and what goes out is the frame's packet, to whom it is for. *)
Lemma serve_register cs v from now : is_u32 v →
  serve_one cs (typeRegister :: bytes4 v) from now = Some (<[Addr4 v := MkClient from now]> cs, None).
Proof using Type.
  intros Hv. unfold serve_one, handle. change (take 1500 (typeRegister :: bytes4 v)) with (typeRegister :: bytes4 v).
  cbn [lookup list_lookup mbind option_bind]. change (length (typeRegister :: bytes4 v) <? 1)%nat with false.
  change (length (typeRegister :: bytes4 v) <? 5)%nat with false. change (typeRegister =? typeRegister) with true. cbv iota.
  rewrite <- (app_nil_r (bytes4 v)), addr_at_frame by done. done.
Qed.

Lemma serve_data cs v w packet from now : is_u32 v → is_u32 w →
  let cs' := <[Addr4 v := MkClient from now]> cs in
  serve_one cs (typeData :: bytes4 v ++ bytes4 w ++ packet) from now =
    Some (cs', (λ dst, (typeData :: bytes4 v ++ relayed packet, c_addr dst)) <$> cs' !! Addr4 w).
Proof using Type.
  intros Hv Hw cs'. unfold serve_one, handle.
  change (take 1500 (typeData :: bytes4 v ++ bytes4 w ++ packet)) with (typeData :: bytes4 v ++ bytes4 w ++ relayed packet).
  set (p := relayed packet). change (length (typeData :: bytes4 v ++ bytes4 w ++ p) <? 1)%nat with false.
  change (length (typeData :: bytes4 v ++ bytes4 w ++ p) <? 9)%nat with false.
  cbn [lookup list_lookup mbind option_bind]. change (typeData =? typeRegister) with false.
  change (typeData =? typeData) with true. cbv iota.
  rewrite addr_at_frame, addr_at_frame2 by done. cbn [mbind option_bind].
  rewrite slice_Some by (rewrite !length_cons, !length_app; simpl; lia). cbn [mbind option_bind]. cbv zeta.
  change (drop 9 (typeData :: bytes4 v ++ bytes4 w ++ p)) with p.
  rewrite (take_ge p) by (rewrite !length_cons, !length_app; simpl; lia). fold cs'.
  destruct (cs' !! Addr4 w) as [dst|]; [|done]. change (addr_As4 (Addr4 v)) with (Some (bytes4 v)). done.
Qed.

Lemma receive_data v p packet src : is_u32 v →
  relayReceive cap (typeData :: bytes4 v ++ p) = Some (Some (packet, src)) → src = Addr4 v ∧ packet = take (cap - 5) p.
Proof using Type.
  intros Hv. unfold relayReceive. set (buf := take cap _). destruct (Nat.ltb_spec (length buf) 5) as [Hl|Hl]; [done|].
  assert (5 ≤ cap)%nat as Hc by (unfold buf in Hl; rewrite length_take in Hl; lia).
  assert (buf = typeData :: bytes4 v ++ take (cap - 5) p) as ->.
  { unfold buf. replace cap with (5 + (cap - 5))%nat at 1 by lia. done. }
  cbn [lookup list_lookup mbind option_bind]. change (typeData =? typeData) with true. cbv iota zeta. cbn [negb].
  rewrite addr_at_frame by done. cbn [mbind option_bind].
  rewrite slice_Some by done. cbn [mbind option_bind].
  change (drop 5 (typeData :: bytes4 v ++ take (cap - 5) p)) with (take (cap - 5) p).
  rewrite (take_ge (take _ _)) by (rewrite !length_cons, !length_app; simpl; lia). by intros [= <- <-].
Qed.

Lemma net_step_ok n n' : net_ok n → net_step n n' → net_ok n'.
Proof using Type.
  intros [Hu Hup Hcl Hdn Hgot] Hs.
  destruct Hs as [n v ap Hv Hap|n v ap frame to Hap Hf|n v ap w packet frames Hap Hw Hb Hf|n data from now cs out Hin Hs|n data to v packet src Hin Hto Hr];
    (split; cbn [n_clients n_sock n_up n_down n_sent n_got]); try done.
  - intros ap' v' [[<- <-]|[_ ?]]%lookup_insert_Some; [done|by eapply Hu].
  - intros data ap' (v' & Hv' & Hd)%Hup. exists v'. split; [|done]. by rewrite lookup_insert_ne by congruence.
  - intros a c (v' & ? & Hc)%Hcl. exists v'. split; [done|]. by rewrite lookup_insert_ne by congruence.
  - intros data to (v' & w & packet & Hto & Hd)%Hdn. exists v', w, packet. split; [|done].
    by rewrite lookup_insert_ne by congruence.
  - intros data ap' [[= -> ->]|Hin]%elem_of_cons; [|by apply Hup]. exists v. split; [done|]. left.
    unfold sendRegister in Hf. cbn [client_bind b_selfIP b_relayAP] in Hf.
    change (addr_As4 (Addr4 v)) with (Some (bytes4 v)) in Hf. by injection Hf as <- _.
  - intros data ap' [Hin|Hin]%elem_of_app.
    + unfold Send in Hf. cbn [client_bind b_selfIP b_relayAP] in Hf.
      change (addr_As4 (Addr4 v)) with (Some (bytes4 v)) in Hf. change (addr_As4 (Addr4 w)) with (Some (bytes4 w)) in Hf.
      cbn [mbind option_bind fmap list_fmap] in Hf. injection Hf as <-. cbn [fmap list_fmap fst] in Hin.
      apply list_elem_of_singleton in Hin as [= -> ->]. exists v. split; [done|]. right. exists w, packet. split_and!; [by left|done|done].
    + destruct (Hup _ _ Hin) as (v' & Hv' & [Hd|(w' & p' & Hs & Hd)]); exists v'; (split; [done|]); [by left|right].
      exists w', p'. split; [by right|done].
  - intros data to (v' & w' & p' & Hto & Hv' & Hs & Hd)%Hdn. exists v', w', p'. split_and!; [done|done|by right|done].
  - intros w' src got (v' & p' & -> & Hs & Hd)%Hgot. exists v', p'. split_and!; [done|by right|done].
  - destruct (Hup _ _ Hin) as (v & Hv & Hd). pose proof (Hu _ _ Hv) as Hv32.
    assert (cs = <[Addr4 v := MkClient from now]> (n_clients n)) as ->.
    { destruct Hd as [->|(w & packet & _ & Hw & ->)]; [rewrite serve_register in Hs by done|rewrite serve_data in Hs by done];
        apply (f_equal (λ r, fst <$> r)) in Hs; by injection Hs as <-. }
    intros a c [[<- <-]|[_ Hc]]%lookup_insert_Some; [by exists v|by apply Hcl].
  - destruct (Hup _ _ Hin) as (v & Hv & Hd). pose proof (Hu _ _ Hv) as Hv32.
    intros data' to [Hout|Hold]%elem_of_app; [|by apply Hdn].
    destruct Hd as [->|(w & packet & Hsent & Hw & ->)]; [rewrite serve_register in Hs by done|rewrite serve_data in Hs by done];
      apply (f_equal (λ r, snd <$> r)) in Hs; injection Hs as <-; [by apply elem_of_nil in Hout|].
    destruct (<[Addr4 v := MkClient from now]> (n_clients n) !! Addr4 w) as [dst|] eqn:Hdst; [|by apply elem_of_nil in Hout].
    apply list_elem_of_singleton in Hout as [= -> ->].
    exists v, w, packet. split_and!; [|done|done|done].
    apply lookup_insert_Some in Hdst as [[[= ->] <-]|[_ Hdst]]; [done|].
    by destruct (Hcl _ _ Hdst) as (? & [= <-] & ?).
  - intros w' src' got [[= -> -> ->]|Hin']%elem_of_cons; [|by apply Hgot].
    destruct (Hdn _ _ Hin) as (v' & w & p & Hw & Hv' & Hsent & ->). rewrite Hto in Hw. injection Hw as <-.
    destruct (receive_data _ _ _ _ Hv' Hr) as [-> ->]. by exists v', p.
Qed.

Lemma net_start_ok : net_ok net_start.
Proof using Type.
  split; cbn; [intros ? ? H; by rewrite lookup_empty in H|by intros ? ? ?%elem_of_nil|
    intros ? ? H; by rewrite lookup_empty in H|by intros ? ? ?%elem_of_nil|by intros ? ? ? ?%elem_of_nil].
Qed.

Lemma net_reach_ok n : rtc net_step net_start n → net_ok n.
Proof using Type.
  intros Hr. pose proof net_start_ok as H0. revert H0. induction Hr as [|x y z Hs _ IH]; [done|].
  intros H0. apply IH. by eapply net_step_ok.
Qed.

(** C13: Whatever the network loses, repeats or reorders, and however clients come back under new
    sockets: a packet of up to 1491 bytes that a client is handed was sent, unchanged, by the
    client it is said to be from, to this very client; and the relay sends to no socket but
    the one last heard from under the address. *)
Theorem relayed_as_sent n w src got :
  (1496 ≤ cap)%nat → rtc net_step net_start n → (w, src, got) ∈ n_got n →
  ∃ v packet, src = Addr4 v ∧ (v, w, packet) ∈ n_sent n ∧ got = take 1491 packet ∧
    ((length packet ≤ 1491)%nat → got = packet) ∧
    ∀ a c, n_clients n !! a = Some c → ∃ u, a = Addr4 u ∧ n_sock n !! c_addr c = Some u.
Proof using Type.
  intros Hcap Hr Hin. apply net_reach_ok in Hr as [_ _ Hcl _ Hgot].
  destruct (Hgot _ _ _ Hin) as (v & packet & -> & Hs & ->). exists v, packet.
  assert (take (cap - 5) (relayed packet) = take 1491 packet) as He.
  { unfold relayed. rewrite take_take. f_equal. lia. }
  rewrite He. split_and!; [done|done|done|intros Hl; by rewrite take_ge by lia|exact Hcl].
Qed.
End net.

(** ** Two clients *)

Lemma demo_net : ∃ n, rtc (net_step (demo_endpoint 9) 1500) net_start n ∧ (2, Addr4 1, [7; 8]) ∈ n_got n.
Proof.
  eexists. split.
  - eapply rtc_l; [apply (ns_open _ _ _ 1 (demo_endpoint 1)); [by split|apply lookup_empty]|].
    eapply rtc_l; [apply (ns_open _ _ _ 2 (demo_endpoint 2)); [by split|cbn [n_sock net_start]]|].
    { rewrite lookup_insert_ne by done. apply lookup_empty. }
    eapply rtc_l; [eapply (ns_register _ _ _ 2 (demo_endpoint 2)); [apply lookup_insert_eq|reflexivity]|].
    eapply rtc_l; [eapply (ns_send _ _ _ 1 (demo_endpoint 1) 2 [7; 8]); [|by split|by repeat constructor|reflexivity]|].
    { cbn [n_sock]. rewrite lookup_insert_ne by done. apply lookup_insert_eq. }
    eapply rtc_l; [eapply (ns_relay _ _ _ (typeRegister :: bytes4 2) (demo_endpoint 2) 4); [right; by left|by apply serve_register]|].
    eapply rtc_l; [eapply (ns_relay _ _ _ (typeData :: bytes4 1 ++ bytes4 2 ++ [7; 8]) (demo_endpoint 1) 5); [by left|]|].
    { rewrite serve_data by done. cbn [n_clients].
      rewrite lookup_insert_ne, lookup_insert_eq by done. reflexivity. }
    eapply rtc_l; [eapply (ns_receive _ _ _ _ (demo_endpoint 2) 2); [by left|apply lookup_insert_eq|by vm_compute]|].
    apply rtc_refl.
  - by left.
Qed.

Lemma relayed_as_sent_witness :
  ∃ n packet, rtc (net_step (demo_endpoint 9) 1500) net_start n ∧ (2, Addr4 1, [7; 8]) ∈ n_got n ∧
    (1, 2, packet) ∈ n_sent n ∧ [7; 8] = take 1491 packet.
Proof.
  destruct demo_net as (n & Hr & Hin).
  destruct (relayed_as_sent (demo_endpoint 9) 1500 n 2 (Addr4 1) [7; 8]) as (v & packet & [= <-] & Hs & Hg & _);
    [apply Nat.leb_le; reflexivity|exact Hr|exact Hin|].
  exists n, packet. split; [exact Hr|]. split; [exact Hin|]. split; [exact Hs|exact Hg].
Defined.
