(* ===== verification/BindLife.v ===== *)
(** * The life of a bind's socket (client/wgbind/bind.go)

    [Open] and [Close] hold the bind's mutex; in relay mode [Open] also starts a goroutine
    that registers with the relay every so often until a channel is closed.  The goroutine
    reads the bind's [stop] field anew, and without the mutex, every time round its loop. *)
From S2P Require Import Prelude.

(** Where a keepalive goroutine is: before its [select], in it with the channel it has
    read, sending, or at its end. *)
Inductive keeper : Type := Looping | Waiting (ch : option N) | Sending | Gone.

(** Sockets and channels are numbered as they are made; a socket and the channel made with
    it have the same number, and the keeper belongs to it. *)
Record bind_state : Type := MkBindState {
  b_uc : option N;
  b_stop : option N;
  b_sockets : gset N;
  b_closed : gset N;
  b_keepers : gmap N keeper;
  b_next : N;
}.

(** [New] and [NewRelay]. *)
Definition idle : bind_state := MkBindState None None ∅ ∅ ∅ 0.

(** [Open] with the outcome of listening: [None] is an error. *)
Definition Open (relay listening : bool) (b : bind_state) : option bind_state :=
  match b_uc b with
  | Some _ => None
  | None =>
    if negb listening then None else
    let n := b_next b in
    Some (MkBindState (Some n) (if relay then Some n else b_stop b) ({[n]} ∪ b_sockets b) (b_closed b)
            (if relay then <[n := Looping]> (b_keepers b) else b_keepers b) (n + 1)%N)
  end.

Definition Close (b : bind_state) : bind_state :=
  let closed := match b_stop b with Some ch => {[ch]} ∪ b_closed b | None => b_closed b end in
  match b_uc b with
  | None => MkBindState None None (b_sockets b) closed (b_keepers b) (b_next b)
  | Some n => MkBindState None None (b_sockets b ∖ {[n]}) closed (b_keepers b) (b_next b)
  end.

Definition set_keeper (b : bind_state) (n : N) (k : keeper) : bind_state :=
  MkBindState (b_uc b) (b_stop b) (b_sockets b) (b_closed b) (<[n := k]> (b_keepers b)) (b_next b).

(** Which call or goroutine moves. *)
Inductive move : Type := MOpen | MClose | MKeeper.

Inductive bind_step (relay : bool) : bind_state → move → bind_state → Prop :=
| step_open b listening b' : Open relay listening b = Some b' → bind_step relay b MOpen b'
| step_close b : bind_step relay b MClose (Close b)
| step_select b n : b_keepers b !! n = Some Looping → bind_step relay b MKeeper (set_keeper b n (Waiting (b_stop b)))
| step_tick b n ch : b_keepers b !! n = Some (Waiting ch) → bind_step relay b MKeeper (set_keeper b n Sending)
| step_sent b n : b_keepers b !! n = Some Sending → bind_step relay b MKeeper (set_keeper b n Looping)
| step_stopped b n ch : b_keepers b !! n = Some (Waiting (Some ch)) → ch ∈ b_closed b →
    bind_step relay b MKeeper (set_keeper b n Gone).

Definition any_step (relay : bool) (b b' : bind_state) : Prop := ∃ m, bind_step relay b m b'.

Record bind_ok (relay : bool) (b : bind_state) : Prop := {
  bk_sockets : b_sockets b = match b_uc b with Some n => {[n]} | None => ∅ end;
  bk_stop : b_stop b = if relay then b_uc b else None;
  bk_latest : ∀ n, b_uc b = Some n → b_next b = (n + 1)%N ∧ (n ∉ b_closed b);
  bk_closed : ∀ n, n ∈ b_closed b → (n < b_next b)%N;
  bk_keepers : ∀ n, is_Some (b_keepers b !! n) →
    relay = true ∧ (n < b_next b)%N ∧ (b_uc b = Some n ∨ n ∈ b_closed b);
  bk_waits : ∀ n ch, b_keepers b !! n = Some (Waiting (Some ch)) → (n ≤ ch < b_next b)%N;
  bk_gone : ∀ n, b_keepers b !! n = Some Gone → n ∈ b_closed b;
}.

(** A goroutine moves on; what it waits for is known and it ends only when it may. *)
Lemma set_keeper_ok relay b n k :
  bind_ok relay b → is_Some (b_keepers b !! n) →
  (∀ ch, k = Waiting (Some ch) → (n ≤ ch < b_next b)%N) → (k = Gone → n ∈ b_closed b) →
  bind_ok relay (set_keeper b n k).
Proof.
  intros [H1 H2 H3 H4 H5 H6 H7] Hn Hw Hg.
  split; cbn [set_keeper b_sockets b_uc b_stop b_closed b_keepers b_next]; try done.
  - intros m Hm. destruct (decide (n = m)) as [<-|Hne]; [by apply H5|].
    rewrite lookup_insert_ne in Hm by done. by apply H5.
  - intros m ch [[<- ->]|[_ Hm]]%lookup_insert_Some; [by apply Hw|by apply H6].
  - intros m [[<- ->]|[_ Hm]]%lookup_insert_Some; [by apply Hg|by apply H7].
Qed.

Lemma Open_ok relay listening b b' : bind_ok relay b → Open relay listening b = Some b' → bind_ok relay b'.
Proof.
  intros [H1 H2 H3 H4 H5 H6 H7] Ho. unfold Open in Ho. destruct (b_uc b) eqn:Hu; [done|].
  destruct listening; [|done]. injection Ho as <-. split; cbn [b_sockets b_uc b_stop b_closed b_keepers b_next].
  - rewrite H1. set_solver.
  - rewrite H2. by destruct relay.
  - intros n [= <-]. split; [done|]. intros Hc%H4. lia.
  - intros n Hc%H4. lia.
  - intros n Hn. destruct relay; [|by destruct (H5 n Hn)].
    destruct (decide (b_next b = n)) as [<-|Hne]; [split_and!; [done|lia|by left]|].
    rewrite lookup_insert_ne in Hn by done. destruct (H5 n Hn) as (_ & ? & [|]); [done|].
    split_and!; [done|lia|by right].
  - intros n ch Hn. destruct relay; [|apply H6 in Hn; lia].
    apply lookup_insert_Some in Hn as [[_ ?]|[_ Hn]]; [done|]. apply H6 in Hn. lia.
  - intros n Hn. destruct relay; [|by apply H7].
    apply lookup_insert_Some in Hn as [[_ ?]|[_ Hn]]; [done|]. by apply H7.
Qed.

Lemma Close_ok relay b : bind_ok relay b → bind_ok relay (Close b).
Proof.
  intros [H1 H2 H3 H4 H5 H6 H7]. unfold Close. rewrite H2.
  destruct (b_uc b) as [u|] eqn:Hu; (split; cbn [b_sockets b_uc b_stop b_closed b_keepers b_next]); try done.
  - rewrite H1. set_solver.
  - by destruct relay.
  - intros n Hn. destruct (H3 u eq_refl). destruct relay; [|by apply H4].
    apply elem_of_union in Hn as [->%elem_of_singleton|Hn]; [lia|by apply H4].
  - intros n Hn. destruct (H5 n Hn) as (-> & ? & [[= ->]|?]); (split_and!; [done|done|right]); set_solver.
  - intros n Hn%H7. destruct relay; set_solver.
  - by destruct relay.
  - intros n Hn. destruct relay; by apply H4.
  - intros n Hn. destruct (H5 n Hn) as (-> & ? & [|]); [done|]. split_and!; [done|done|by right].
  - intros n Hn%H7. by destruct relay.
Qed.

Lemma bind_step_ok relay b m b' : bind_ok relay b → bind_step relay b m b' → bind_ok relay b'.
Proof.
  intros Hok Hs. pose proof Hok as [H1 H2 H3 H4 H5 H6 H7].
  destruct Hs as [b listening b' Ho|b|b n Hk|b n ch Hk|b n Hk|b n ch Hk Hch].
  - by eapply Open_ok.
  - by apply Close_ok.
  - apply set_keeper_ok; [done|eauto| |done]. intros ch [= Hst]. rewrite H2 in Hst.
    destruct (H5 n) as (-> & ? & _); [eauto|]. destruct (H3 ch Hst). lia.
  - by apply set_keeper_ok; [|eauto| |].
  - by apply set_keeper_ok; [|eauto| |].
  - apply set_keeper_ok; [done|eauto|done|]. intros _.
    destruct (H5 n) as (_ & _ & [Hu|]); [eauto| |done].
    destruct (H3 n Hu) as [? Hn]. apply H6 in Hk. by replace n with ch by lia.
Qed.

Lemma idle_bind_ok relay : bind_ok relay idle.
Proof. split; cbn; try done; [by destruct relay|by intros n []]. Qed.

Lemma bind_reach_ok relay b : rtc (any_step relay) idle b → bind_ok relay b.
Proof.
  intros Hr. pose proof (idle_bind_ok relay) as H0.
  induction Hr as [|x y z [m Hm] _ IH]; [done|]. apply IH. by eapply bind_step_ok.
Qed.

(** However opening, closing and the goroutines interleave: the sockets that are open are
    the one the bind uses and no other, closing leaves none and lets the bind be opened
    again, and the goroutine of the socket in use has not ended. *)
Theorem bind_sockets relay b :
  rtc (any_step relay) idle b →
  b_sockets b = match b_uc b with Some n => {[n]} | None => ∅ end ∧
  b_sockets (Close b) = ∅ ∧ is_Some (Open relay true (Close b)) ∧
  (∀ n, b_uc b = Some n → b_keepers b !! n ≠ Some Gone).
Proof.
  intros Hr. pose proof (bind_reach_ok relay b Hr) as [H1 H2 H3 H4 H5 H6 H7]. split_and!; [done| | |].
  - unfold Close. destruct (b_uc b); cbn [b_sockets]; rewrite H1; set_solver.
  - unfold Close. destruct (b_uc b); by eexists.
  - intros n Hn Hg%H7. by destruct (H3 n Hn).
Qed.

(** ** The goroutine that is not stopped *)

Definition restless (b : bind_state) (n : N) : Prop :=
  b_stop b = None ∧ b_keepers b !! n ∈ [Some Looping; Some (Waiting None); Some Sending].

Lemma restless_step relay b m b' n : m ≠ MOpen → restless b n → bind_step relay b m b' → restless b' n.
Proof.
  intros Hm [Hst Hk] Hs.
  destruct Hs as [b listening b' Ho|b|b i Hi|b i ch Hi|b i Hi|b i ch Hi Hch]; [done| |..];
    (split; [first [by unfold Close; destruct (b_uc b)|done]|]).
  { unfold Close. by destruct (b_uc b). }
  all: cbn [set_keeper b_keepers]; (destruct (decide (i = n)) as [->|Hne]; [|by rewrite lookup_insert_ne]);
    rewrite lookup_insert_eq, ?Hst; try set_solver.
Qed.

(** Closing the bind while the goroutine sends leaves it without a channel to wait for: it
    sends on for ever, unless the bind is opened again. *)
Lemma keepalive_outlives_close :
  ∃ b, rtc (any_step true) idle b ∧ b_uc b = None ∧
    ∀ b', rtc (λ x y, ∃ m, m ≠ MOpen ∧ bind_step true x m y) b b' → restless b' 0.
Proof.
  set (b1 := MkBindState (Some 0%N) (Some 0%N) {[0%N]} ∅ {[0%N := Looping]} 1).
  set (b2 := set_keeper b1 0 (Waiting (Some 0%N))). set (b3 := set_keeper b2 0 Sending).
  exists (Close b3). split_and!; [|done|].
  - apply (rtc_l _ _ b1); [exists MOpen; apply (step_open _ _ true); by vm_compute|].
    apply (rtc_l _ _ b2); [exists MKeeper; by apply (step_select _ b1)|].
    apply (rtc_l _ _ b3); [exists MKeeper; by eapply (step_tick _ b2)|].
    apply rtc_once. exists MClose. apply step_close.
  - intros b' Hr. assert (restless (Close b3) 0) as H by (split; [done|by vm_compute; right; right; left]).
    revert H. induction Hr as [|x y z (m & Hm & Hs) _ IH]; [done|]. intros H. apply IH. by eapply restless_step.
Qed.

Lemma bind_sockets_witness :
  ∃ b, rtc (any_step true) idle b ∧ b_uc b = Some 0%N ∧ b_sockets b = {[0%N]} ∧ b_keepers b !! 0%N ≠ Some Gone.
Proof.
  set (b := MkBindState (Some 0%N) (Some 0%N) {[0%N]} ∅ {[0%N := Looping]} 1).
  assert (rtc (any_step true) idle b) as Hr
    by (apply rtc_once; exists MOpen; apply (step_open _ _ true); by vm_compute).
  destruct (bind_sockets true b Hr) as (Hs & _ & _ & Hk). exists b. split_and!; [exact Hr|done|exact Hs|by apply Hk].
Defined.
