(* ===== verification/Profile.v ===== *)
(** * Networks as a device remembers them (client/profile/networks.go)

    The saved record of a joined network, the normal form of its local name (alias) and
    of the services it publishes, and the checks made before a network is stored.  Error
    values carry the arguments of the messages the code formats. *)
From Stdlib Require Import Ascii String.
From S2P Require Import Prelude Unicode GoString GoStringFacts Proto.

Local Open Scope Z_scope.

Record Network : Type := MkNetwork {
  n_Alias : string;
  n_Server : string;
  n_Pin : string;
  n_Token : string;
  n_Name : string;
  n_UseRelay : bool;
  n_AutoConnect : bool;
  n_Publish : list Service;
}.

Definition set_alias (n : Network) (a : string) : Network :=
  MkNetwork a (n_Server n) (n_Pin n) (n_Token n) (n_Name n) (n_UseRelay n) (n_AutoConnect n) (n_Publish n).
Definition set_publish (n : Network) (l : list Service) : Network :=
  MkNetwork (n_Alias n) (n_Server n) (n_Pin n) (n_Token n) (n_Name n) (n_UseRelay n) (n_AutoConnect n) l.
Definition set_auto (n : Network) (b : bool) : Network :=
  MkNetwork (n_Alias n) (n_Server n) (n_Pin n) (n_Token n) (n_Name n) (n_UseRelay n) b (n_Publish n).

Inductive profile_error : Type :=
| ENoAlias
| EAliasLong
| EAliasEmptyPart (alias : string)
| EAliasPartLong (label : string)
| EAliasLetters (alias : string)
| ENoServer
| ENoToken
| ETwoServices (name : string)
| ENoServiceName
| EServiceLong (name : string)
| EServiceLetters (name : string)
| EServiceProto (name : string)
| EServicePort (name : string)
| EServiceBackend (name : string).

Definition hyphen : Z := 45.

(** The rune ranges [a-z] and [0-9] of the switches. *)
Definition lower_alnum (r : Z) : bool :=
  ((97 <=? r) && (r <=? 122)) || ((48 <=? r) && (r <=? 57)).

(** [for i, r := range name]: [i] is the byte offset of the rune, [n] the length. *)
Fixpoint name_chars (n i : Z) (ps : list (Z * list ascii)) : bool :=
  match ps with
  | [] => true
  | (r, bs) :: ps =>
    (lower_alnum r || ((r =? hyphen) && (0 <? i) && (i <? n - 1)))
    && name_chars n (i + Z.of_nat (length bs)) ps
  end.

Definition len (s : string) : Z := Z.of_nat (String.length s).

Definition label_chars (s : string) : bool := name_chars (len s) 0 (pieces (list_ascii_of_string s)).

Definition NormalizeAlias (alias : string) : string :=
  to_lower (trim_byte "." (trim_space alias)).

Fixpoint check_labels (alias : string) (labels : list string) : option profile_error :=
  match labels with
  | [] => None
  | l :: ls =>
    if String.eqb l "" then Some (EAliasEmptyPart alias)
    else if 63 <? len l then Some (EAliasPartLong l)
    else if label_chars l then check_labels alias ls
    else Some (EAliasLetters alias)
  end.

(** [None] is the nil error. *)
Definition ValidAlias (alias : string) : option profile_error :=
  let a := NormalizeAlias alias in
  if String.eqb a "" then Some ENoAlias
  else if 253 <? len a then Some EAliasLong
  else check_labels alias (split_byte "." a).

Definition service_proto (s : Service) : string := to_lower (trim_space (sv_Proto s)).
Definition service_name (s : Service) : string := to_lower (trim_space (sv_Name s)).

Definition ValidService (s : Service) : option profile_error :=
  let name := service_name s in
  if String.eqb name "" then Some ENoServiceName
  else if 63 <? len name then Some (EServiceLong (sv_Name s))
  else if negb (label_chars name) then Some (EServiceLetters (sv_Name s))
  else if negb (bool_decide (service_proto s ∈ [""; "tcp"; "udp"]%string)) then Some (EServiceProto (sv_Name s))
  else if (sv_Port s <? 1) || (65535 <? sv_Port s) then Some (EServicePort (sv_Name s))
  else if (sv_BackendPort s <? 0) || (65535 <? sv_BackendPort s) then Some (EServiceBackend (sv_Name s))
  else None.

Fixpoint check_publish (seen : gset string) (l : list Service) : option profile_error :=
  match l with
  | [] => None
  | s :: l =>
    match ValidService s with
    | Some e => Some e
    | None =>
      let name := service_name s in
      if bool_decide (name ∈ seen) then Some (ETwoServices (sv_Name s))
      else check_publish ({[name]} ∪ seen) l
    end
  end.

Definition Validate (n : Network) : option profile_error :=
  match ValidAlias (n_Alias n) with
  | Some e => Some e
  | None =>
    if String.eqb (trim_space (n_Server n)) "" then Some ENoServer
    else if String.eqb (trim_space (n_Token n)) "" then Some ENoToken
    else check_publish ∅ (n_Publish n)
  end.

Definition clean_groups (l : list string) : list string :=
  filter (λ g, g ≠ ""%string) (trim_space <$> l).

Definition normal_service (s : Service) : Service :=
  let proto := service_proto s in
  MkService (service_name s) (if String.eqb proto "" then "tcp" else proto)
    (sv_Port s) (sv_BackendPort s) "" "" (clean_groups (sv_AllowGroups s)).

Definition NormalizePublish (l : list Service) : list Service := normal_service <$> l.

(** ** DNS labels

    What the checks are for: a name made of one or more labels of at most 63 letters,
    digits and inner hyphens. *)
Definition label_byte (a : ascii) : bool := lower_alnum (byte_val a) || (byte_val a =? hyphen).

Definition inner_hyphens (l : list ascii) : Prop :=
  Forall (λ a, label_byte a = true) l ∧ head l ≠ Some "-"%char ∧ last l ≠ Some "-"%char.

Definition dns_label (s : string) : Prop :=
  s ≠ ""%string ∧ len s ≤ 63 ∧ inner_hyphens (list_ascii_of_string s).

Lemma len_bytes s : len s = Z.of_nat (length (list_ascii_of_string s)).
Proof.
  unfold len. f_equal. induction s as [|a s IH]; [done|].
  cbn [String.length list_ascii_of_string length]. by rewrite IH.
Qed.

Lemma name_chars_runes n i ps :
  name_chars n i ps = true → Forall (λ p, lower_alnum p.1 = true ∨ p.1 = hyphen) ps.
Proof.
  revert i. induction ps as [|[r bs] ps IH]; intros i; [by constructor|]. cbn [name_chars].
  rewrite andb_true_iff, orb_true_iff, !andb_true_iff. intros [Hr Hps].
  constructor; [cbn [fst]; rewrite ?Z.eqb_eq in Hr; tauto|by eapply IH].
Qed.

(** A text whose runes are all label characters is plain ASCII. *)
Lemma label_runes_ascii l :
  Forall (λ p, lower_alnum p.1 = true ∨ p.1 = hyphen) (pieces l) →
  Forall (λ a, label_byte a = true) l.
Proof.
  intros Hp. apply (ascii_runes_bytes (λ r, lower_alnum r = true ∨ r = hyphen)) in Hp.
  - eapply Forall_impl; [done|]. intros a. unfold label_byte, lower_alnum, hyphen. cbn beta. lia.
  - intros r. unfold lower_alnum, hyphen. lia.
Qed.

Lemma label_byte_ascii a : label_byte a = true → byte_val a < 0x80.
Proof. unfold label_byte, lower_alnum, hyphen. lia. Qed.

Lemma byte_val_hyphen a : byte_val a = hyphen ↔ a = "-"%char.
Proof. split; [intros H; by apply byte_val_inj|by intros ->]. Qed.

(** The loop over an ASCII text, position by position. *)
Lemma name_chars_ascii n i l :
  Forall (λ a, label_byte a = true) l → 0 ≤ i → n = i + Z.of_nat (length l) →
  name_chars n i ((λ a, (byte_val a, [a])) <$> l) = true ↔
    (i = 0 → head l ≠ Some "-"%char) ∧ last l ≠ Some "-"%char ∨ l = [].
Proof.
  revert i. induction l as [|a l IH]; intros i Hl Hi Hn; [by intuition|].
  inversion_clear Hl as [|?? Ha Hl']. cbn [fmap list_fmap name_chars length] in *.
  rewrite andb_true_iff, IH by (done || lia). unfold label_byte in Ha.
  rewrite orb_true_iff, !andb_true_iff, !Z.eqb_eq, !Z.ltb_lt. rewrite byte_val_hyphen in *.
  assert (lower_alnum (byte_val a) = true → a ≠ "-"%char) as Hne by (by intros Hb ->).
  assert (lower_alnum (byte_val a) = true ∨ a = "-"%char) as Hor.
  { destruct (lower_alnum (byte_val a)); [by left|right]. apply byte_val_hyphen. by apply Z.eqb_eq. }
  destruct l as [|b l]; cbn [head last length] in *.
  - split; [|intros [[Hh Hla]|]; [|done]].
    + intros [[?|[[? ?] ?]] _]; [|lia]. left. split; [intros _|]; intros [= ->]; by apply Hne.
    + destruct Hor as [?| ->]; [by split; [left|right]|done].
  - split; [intros [Hc Hr]; left|intros [[Hh Hla]|]; [|done]].
    + destruct Hr as [[_ Hr]|]; [|done]. split; [|done].
      intros -> [= ->]. destruct Hc as [?|[[? ?] ?]]; [by apply Hne|lia].
    + split; [|left; split; [lia|done]].
      destruct Hor as [?| ->]; [by left|right]. split_and!; [done| |lia].
      destruct (Z.eq_dec i 0) as [->|]; [by destruct Hh|lia].
Qed.

Lemma label_chars_spec s :
  s ≠ ""%string → label_chars s = true ↔ inner_hyphens (list_ascii_of_string s).
Proof.
  intros Hne. unfold label_chars, inner_hyphens. rewrite len_bytes.
  assert (list_ascii_of_string s ≠ []) as Hnil by (by destruct s).
  generalize dependent (list_ascii_of_string s). clear s Hne. intros l Hnil.
  assert (Forall (λ a, label_byte a = true) l →
    name_chars (Z.of_nat (length l)) 0 (pieces l) = true ↔ head l ≠ Some "-"%char ∧ last l ≠ Some "-"%char) as Hasc.
  { intros Hl. rewrite pieces_ascii by (eapply Forall_impl; [done|]; apply label_byte_ascii).
    rewrite name_chars_ascii by (done || lia). naive_solver. }
  split; [intros Hn|intros [Hl Hh]; by apply Hasc].
  pose proof (label_runes_ascii l (name_chars_runes _ _ _ Hn)) as Hl.
  split; [done|by apply Hasc].
Qed.

(** ** What the checks accept *)

Lemma label_ok_iff l :
  l ≠ ""%string ∧ ¬ 63 < len l ∧ label_chars l = true ↔ dns_label l.
Proof.
  unfold dns_label. split; intros (Hne & ? & H); split_and!; [done|lia| |done|lia|];
    by apply label_chars_spec.
Qed.

Lemma check_labels_spec alias ls : check_labels alias ls = None ↔ Forall dns_label ls.
Proof.
  induction ls as [|l ls IH]; [split; [constructor|done]|]. cbn [check_labels].
  rewrite Forall_cons, <-label_ok_iff, <-IH.
  destruct (String.eqb_spec l ""), (Z.ltb_spec 63 (len l)), (label_chars l) eqn:Hl;
    (split; [try done|intros [(? & ? & ?) ?]; try done; try lia]).
  intros ?. split_and!; [done|lia|done..].
Qed.

Lemma ValidAlias_labels alias :
  ValidAlias alias = None ↔
    len (NormalizeAlias alias) ≤ 253 ∧ Forall dns_label (split_byte "." (NormalizeAlias alias)).
Proof.
  unfold ValidAlias. destruct (String.eqb_spec (NormalizeAlias alias) "") as [->|Hne].
  - split; [done|intros [_ H]]. inversion_clear H as [|?? [Hl _]]. by destruct Hl.
  - destruct (Z.ltb_spec 253 (len (NormalizeAlias alias))).
    + split; [done|lia].
    + rewrite check_labels_spec. intuition lia.
Qed.

(** The bytes of a text are the separators and the bytes of its parts. *)
Lemma split_byte_bytes c s :
  ∀ a, a ∈ list_ascii_of_string s → a = c ∨ ∃ l, l ∈ split_byte c s ∧ a ∈ list_ascii_of_string l.
Proof.
  induction s as [|b s IH]; [set_solver|]. intros a. cbn [list_ascii_of_string split_byte].
  rewrite elem_of_cons. intros [->|Ha].
  - destruct (Ascii.eqb_spec b c) as [|]; [by left|right].
    destruct (split_byte c s) as [|x xs]; eexists; (split; [apply list_elem_of_here|apply list_elem_of_here]).
  - destruct (IH a Ha) as [|(l & Hl & Hal)]; [by left|right].
    destruct (Ascii.eqb_spec b c); [exists l; split; [by apply list_elem_of_further|done]|].
    destruct (split_byte c s) as [|x xs]; [set_solver|].
    apply elem_of_cons in Hl as [->|Hl].
    + exists (String b x). split; [apply list_elem_of_here|]. cbn. by apply list_elem_of_further.
    + exists l. split; [by apply list_elem_of_further|done].
Qed.

Lemma split_byte_head c s :
  head (list_ascii_of_string s) = Some c → ∃ ls, split_byte c s = ""%string :: ls.
Proof. destruct s as [|b s]; [done|]. cbn. intros [= ->]. rewrite Ascii.eqb_refl. eauto. Qed.

Lemma split_byte_last c s :
  last (list_ascii_of_string s) = Some c → last (split_byte c s) = Some ""%string.
Proof.
  induction s as [|b s IH]; [done|]. cbn [list_ascii_of_string split_byte].
  destruct s as [|d s].
  - cbn. intros [= ->]. by rewrite Ascii.eqb_refl.
  - intros Hl. change (last (list_ascii_of_string (String d s)) = Some c) in Hl.
    specialize (IH Hl). destruct (Ascii.eqb b c).
    + pose proof (split_byte_ne c (String d s)). by destruct (split_byte c (String d s)).
    + destruct (split_byte c (String d s)) as [|x xs] eqn:Hs; [done|].
      destruct xs as [|y xs]; [|done]. cbn [last] in *. injection IH as ->.
      exfalso. cbn [split_byte] in Hs. destruct (Ascii.eqb d c).
      * injection Hs as Hs. by apply (split_byte_ne c s).
      * destruct (split_byte c s) eqn:E; [by apply (split_byte_ne c s)|done].
Qed.

Lemma label_byte_plain a : label_byte a = true ∨ a = "."%char → plain_byte a = true.
Proof.
  intros [H| ->]; [|done]. unfold label_byte, lower_alnum, hyphen, plain_byte in *. lia.
Qed.

Lemma trim_byte_id c s :
  head (list_ascii_of_string s) ≠ Some c → last (list_ascii_of_string s) ≠ Some c →
  trim_byte c s = s.
Proof.
  intros Hh Hl. unfold trim_byte. rewrite strip_id; [apply string_of_list_ascii_of_string|].
  split; intros x Hx; apply Ascii.eqb_neq; congruence.
Qed.

(** A dotted name of labels is its own normal form. *)
Lemma labels_normal s : Forall dns_label (split_byte "." s) → NormalizeAlias s = s ∧ plain s = true.
Proof.
  intros Hs. assert (plain s = true) as Hp.
  { apply plain_bytes. apply Forall_forall. intros a Ha. apply label_byte_plain.
    destruct (split_byte_bytes "." s a Ha) as [|(l & Hl & Hal)]; [by right|left].
    rewrite Forall_forall in Hs. destruct (Hs l Hl) as (_ & _ & Hb & _).
    rewrite Forall_forall in Hb. by apply Hb. }
  split; [|done]. unfold NormalizeAlias. rewrite trim_space_plain by done.
  rewrite trim_byte_id; [by apply to_lower_plain| |].
  - intros H. destruct (split_byte_head _ _ H) as [ls Hls]. rewrite Hls in Hs.
    inversion_clear Hs as [|?? [Hl _]]. done.
  - intros H%split_byte_last. apply last_Some in H as [ls Hls]. rewrite Hls in Hs.
    apply Forall_app in Hs as [_ Hs]. inversion_clear Hs as [|?? [Hl _]]. done.
Qed.

Lemma valid_alias_normal a :
  ValidAlias a = None → NormalizeAlias (NormalizeAlias a) = NormalizeAlias a.
Proof. intros [_ H]%ValidAlias_labels. by apply labels_normal. Qed.

Definition service_ok (s : Service) : Prop :=
  dns_label (service_name s) ∧ service_proto s ∈ [""; "tcp"; "udp"]%string ∧
  1 ≤ sv_Port s ≤ 65535 ∧ 0 ≤ sv_BackendPort s ≤ 65535.

Lemma ValidService_spec s : ValidService s = None ↔ service_ok s.
Proof.
  unfold ValidService, service_ok. rewrite <-label_ok_iff.
  destruct (String.eqb_spec (service_name s) ""), (Z.ltb_spec 63 (len (service_name s))),
    (label_chars (service_name s)) eqn:Hl; cbn [negb]; try (split; [done|intros [[? [? ?]] _]; done || lia]).
  case_bool_decide as Hp; cbn [negb]; [|split; [done|intros (_ & ? & _); done]].
  destruct (Z.ltb_spec (sv_Port s) 1), (Z.ltb_spec 65535 (sv_Port s)); cbn [orb];
    try (split; [done|intros (_ & _ & ? & _); lia]).
  destruct (Z.ltb_spec (sv_BackendPort s) 0), (Z.ltb_spec 65535 (sv_BackendPort s)); cbn [orb];
    try (split; [done|intros (_ & _ & _ & ?); lia]).
  split; [|done]. intros _. split_and!; done || lia.
Qed.

Lemma check_publish_spec seen l :
  check_publish seen l = None ↔
    Forall service_ok l ∧ NoDup (service_name <$> l) ∧ (∀ x, x ∈ service_name <$> l → x ∉ seen).
Proof.
  revert seen. induction l as [|s l IH]; intros seen.
  { split; [|done]. intros _. split_and!; [constructor|constructor|intros x Hx; by inversion Hx]. }
  cbn [check_publish fmap list_fmap]. rewrite Forall_cons, NoDup_cons, <-ValidService_spec.
  destruct (ValidService s) as [e|]; [split; [done|intros [[? _] _]; done]|].
  case_bool_decide as Hin.
  - split; [done|]. intros (_ & _ & Hx). exfalso. by apply (Hx (service_name s)); [apply list_elem_of_here|].
  - rewrite IH. setoid_rewrite elem_of_cons. setoid_rewrite not_elem_of_union.
    setoid_rewrite not_elem_of_singleton. split.
    + intros (Hok & Hnd & Hx). split_and!; [done|done| |done|].
      * intros Hs. by destruct (Hx _ Hs).
      * intros x [->|Hxl]; [done|]. by apply Hx.
    + intros ([_ Hok] & [Hs Hnd] & Hx). split_and!; [done|done|].
      intros x Hxl. split; [intros ->; done|apply Hx; by right].
Qed.

(** A network is accepted exactly when its alias, in normal form, is a DNS name of at most
    253 bytes made of labels, a server and a token are given, every service it publishes can
    be published, and no two of the services share a name. *)
Theorem Validate_correct n :
  Validate n = None ↔
    len (NormalizeAlias (n_Alias n)) ≤ 253 ∧
    Forall dns_label (split_byte "." (NormalizeAlias (n_Alias n))) ∧
    trim_space (n_Server n) ≠ ""%string ∧ trim_space (n_Token n) ≠ ""%string ∧
    Forall service_ok (n_Publish n) ∧ NoDup (service_name <$> n_Publish n).
Proof.
  unfold Validate. pose proof (ValidAlias_labels (n_Alias n)) as Ha.
  destruct (ValidAlias (n_Alias n)) as [e|]; [split; [done|intros (? & ? & _); by destruct Ha as [_ ->]]|].
  destruct Ha as [[? ?] _]; [done|].
  destruct (String.eqb_spec (trim_space (n_Server n)) ""); [split; [done|intros (_ & _ & ? & _); done]|].
  destruct (String.eqb_spec (trim_space (n_Token n)) ""); [split; [done|intros (_ & _ & _ & ? & _); done]|].
  rewrite check_publish_spec. split; [intros (? & ? & _); done|].
  intros (_ & _ & _ & _ & ? & ?). split_and!; [done|done|]. intros x _. apply not_elem_of_empty.
Qed.

(** ** Normal forms *)

Lemma clean_groups_idemp l : clean_groups (clean_groups l) = clean_groups l.
Proof.
  unfold clean_groups at 1.
  assert (trim_space <$> clean_groups l = clean_groups l) as ->.
  { unfold clean_groups. induction l as [|g l IH]; [done|]. cbn [fmap list_fmap filter list_filter] in *.
    destruct (decide (trim_space g ≠ "")); [|done]. cbn [fmap list_fmap].
    f_equal; [apply trim_space_idemp|exact IH]. }
  unfold clean_groups. by rewrite list_filter_filter_l by done.
Qed.

Lemma normal_service_name s : service_name (normal_service s) = service_name s.
Proof. apply lower_trim_lower_trim. Qed.

Lemma normal_service_proto s :
  service_proto (normal_service s) = if String.eqb (service_proto s) "" then "tcp"%string else service_proto s.
Proof.
  unfold service_proto at 1. cbn [normal_service sv_Proto].
  destruct (String.eqb (service_proto s) ""); [by vm_compute|apply lower_trim_lower_trim].
Qed.

Lemma normal_service_idemp s : normal_service (normal_service s) = normal_service s.
Proof.
  unfold normal_service at 1. rewrite normal_service_name, normal_service_proto.
  cbn [normal_service sv_Port sv_BackendPort sv_AllowGroups]. rewrite clean_groups_idemp.
  unfold normal_service. destruct (String.eqb_spec (service_proto s) "") as [|Hne]; [done|].
  by rewrite (proj2 (String.eqb_neq _ _) Hne).
Qed.

Lemma normal_service_ok s : service_ok (normal_service s) ↔ service_ok s.
Proof.
  unfold service_ok. rewrite normal_service_name, normal_service_proto.
  cbn [normal_service sv_Port sv_BackendPort].
  destruct (String.eqb_spec (service_proto s) "") as [->|]; [|done]. set_solver.
Qed.

(** The forms [Connect] stores are stable: an accepted alias in normal form stays as it
    is when it is normalised again, and so does a normalised list of services, which is
    accepted exactly when the list the operator gave was. *)
Theorem normal_forms_stable a l :
  (ValidAlias a = None →
     NormalizeAlias (NormalizeAlias a) = NormalizeAlias a ∧ ValidAlias (NormalizeAlias a) = None) ∧
  NormalizePublish (NormalizePublish l) = NormalizePublish l ∧
  (check_publish ∅ (NormalizePublish l) = None ↔ check_publish ∅ l = None).
Proof.
  split_and!.
  - intros Ha. pose proof (valid_alias_normal a Ha) as Hn. split; [done|].
    apply ValidAlias_labels. rewrite Hn. by apply ValidAlias_labels.
  - unfold NormalizePublish. rewrite <-list_fmap_compose. apply list_fmap_ext.
    intros i s _. apply normal_service_idemp.
  - rewrite !check_publish_spec. unfold NormalizePublish.
    rewrite Forall_fmap, <-list_fmap_compose.
    rewrite (list_fmap_ext (service_name ∘ normal_service) service_name l)
      by (intros; apply normal_service_name).
    assert (Forall (service_ok ∘ normal_service) l ↔ Forall service_ok l) as ->; [|done].
    apply Forall_proper; [intros s; apply normal_service_ok|done].
Qed.

(** An alias is not always stable: dots are trimmed before the spaces inside them, so the
    normal form of a dot followed by a space still starts with a space, which the next
    normalisation removes.  The check normalises again and accepts it. *)
Lemma alias_normalised_twice :
  NormalizeAlias ". home" = " home"%string ∧ ValidAlias (NormalizeAlias ". home") = None ∧
  NormalizeAlias (NormalizeAlias ". home") = "home"%string.
Proof. by vm_compute. Qed.
