(* ===== verification/Resolver.v ===== *)
(** * The local DNS resolver (client/resolver/resolver.go)

    One resolver answers for every joined network: a zone per local suffix, each a map
    from full names to addresses.  Go ranges over the zones in an unspecified order, so
    a lookup takes the order as an argument and the theorems hold for every order.  The
    DNS message library is a parameter: it parses the text of a resource record. *)
From Stdlib Require Import Ascii String.
From S2P Require Import Prelude GoString GoStringFacts Netip Profile.

Local Open Scope Z_scope.

(** A [net.IP]: nil, or an address; four-byte and IPv4-mapped values are the same. *)
Definition IP : Type := option Addr.

Definition ip_String (ip : IP) : string :=
  match ip with None => "<nil>" | Some a => addr_String (addr_Unmap a) end.

(** [net.ParseIP] refuses a zone. *)
Definition ParseIP (s : string) : IP :=
  match ParseAddr s with
  | Some (Addr6 v z) => if String.eqb z "" then Some (addr_Unmap (Addr6 v z)) else None
  | Some a => Some a
  | None => None
  end.

Record Resolver : Type := MkResolver {
  r_ttl : Z;
  r_zones : gmap string (gmap string IP);
}.

Definition New : Resolver := MkResolver 30 ∅.

Definition normalize (s : string) : string := to_lower (trim_byte "." (trim_space s)).

(** The records a zone is set from, in the order they are read. *)
Definition zone_of_list (recs : list (string * IP)) : gmap string IP :=
  foldl (λ m kv, <[normalize kv.1 := kv.2]> m) ∅ recs.

Definition SetZone (r : Resolver) (suffix : string) (recs : list (string * IP)) : Resolver :=
  let suffix := normalize suffix in
  if String.eqb suffix "" then r
  else MkResolver (r_ttl r) (<[suffix := zone_of_list recs]> (r_zones r)).

Definition RemoveZone (r : Resolver) (suffix : string) : Resolver :=
  MkResolver (r_ttl r) (delete (normalize suffix) (r_zones r)).

Definition Suffixes (r : Resolver) : list string := sort_strings (map_to_list (r_zones r)).*1.

(** A suffix covers itself and the names below it. *)
Definition covered (name suffix : string) : bool :=
  String.eqb name suffix || has_suffix name ("." +:+ suffix).

(** The loop of [lookup] over the zones in some order. *)
Fixpoint lookup_in (zs : list (string * gmap string IP)) (name : string) (inZone : bool) : IP * bool :=
  match zs with
  | [] => (None, inZone)
  | (suffix, recs) :: zs =>
    if negb (covered name suffix) then lookup_in zs name inZone
    else match recs !! name with
         | Some got => (got, true)
         | None => lookup_in zs name true
         end
  end.

Definition lookup_name (zs : list (string * gmap string IP)) (name : string) : IP * bool :=
  lookup_in zs name false.

(** An order in which Go may range over the zones. *)
Definition zone_order (r : Resolver) (zs : list (string * gmap string IP)) : Prop :=
  zs ≡ₚ map_to_list (r_zones r).

(** ** Answering *)

Definition TypeA : Z := 1.
Definition TypeAAAA : Z := 28.
Definition RcodeSuccess : Z := 0.
Definition RcodeNameError : Z := 3.
Definition RcodeRefused : Z := 5.

Record Question : Type := MkQuestion { q_Name : string; q_Qtype : Z }.

Section handle.
Context {RR : Type} (NewRR : string → option RR).

Record Reply : Type := MkReply { m_Rcode : Z; m_Answer : list RR }.

Definition record_text (r : Resolver) (name : string) (ip : IP) : string :=
  name +:+ " " +:+ itoa (r_ttl r) +:+ " IN A " +:+ ip_String ip.

(** A question with the zones there are when it is looked up and the order in which they are
    ranged over, which is another one each time. *)
Definition asked : Type := Question * Resolver * list (string * gmap string IP).

Definition answer (m : Reply) (a : asked) : Reply :=
  let '(q, r, zs) := a in
  if negb (q_Qtype q =? TypeA) && negb (q_Qtype q =? TypeAAAA) then m
  else
    let '(ip, inZone) := lookup_name zs (normalize (q_Name q)) in
    if negb inZone then MkReply RcodeRefused (m_Answer m)
    else if bool_decide (ip = None) then MkReply RcodeNameError (m_Answer m)
    else if q_Qtype q =? TypeA then
      match NewRR (record_text r (q_Name q) ip) with
      | Some rr => MkReply (m_Rcode m) (m_Answer m ++ [rr])
      | None => m
      end
    else m.

Definition handle (qs : list asked) : Reply := foldl answer (MkReply RcodeSuccess []) qs.
End handle.
Arguments MkReply {_} _ _.

(** ** Lookup *)

(** [ip] is recorded for the name in some zone that covers it. *)
Definition recorded (zs : list (string * gmap string IP)) (name : string) (ip : IP) : Prop :=
  ∃ suffix recs, (suffix, recs) ∈ zs ∧ covered name suffix = true ∧ recs !! name = Some ip.

Definition in_zones (zs : list (string * gmap string IP)) (name : string) : Prop :=
  ∃ suffix recs, (suffix, recs) ∈ zs ∧ covered name suffix = true.

Lemma lookup_in_cases zs name b :
  (∃ ip, recorded zs name ip ∧ lookup_in zs name b = (ip, true)) ∨
  ((∀ ip, ¬ recorded zs name ip) ∧
   ∃ b', lookup_in zs name b = (None, b') ∧ (b' = true ↔ b = true ∨ in_zones zs name)).
Proof.
  revert b. induction zs as [|[suf recs] zs IH]; intros b.
  { right. split; [by intros ip (? & ? & H & _); inversion H|]. exists b. split; [done|].
    split; [by left|]. intros [|(? & ? & H & _)]; [done|inversion H]. }
  cbn [lookup_in]. destruct (covered name suf) eqn:Hc; cbn [negb].
  - destruct (recs !! name) as [ip|] eqn:Hr.
    { left. exists ip. split; [|done]. exists suf, recs. split_and!; [apply list_elem_of_here|done|done]. }
    destruct (IH true) as [(ip & (s' & r' & Hin & Hrest) & Hl)|[Hno (b' & Hl & Hb)]].
    + left. exists ip. split; [|done]. exists s', r'. split; [by apply list_elem_of_further|done].
    + right. split.
      * intros ip (s' & r' & Hin & Hc' & Hr'). apply elem_of_cons in Hin as [[= -> ->]|Hin]; [congruence|].
        apply (Hno ip). by exists s', r'.
      * exists b'. split; [done|]. split; [|intros _; apply Hb; by left].
        intros _. right. exists suf, recs. split; [apply list_elem_of_here|done].
  - destruct (IH b) as [(ip & (s' & r' & Hin & Hrest) & Hl)|[Hno (b' & Hl & Hb)]].
    + left. exists ip. split; [|done]. exists s', r'. split; [by apply list_elem_of_further|done].
    + right. split.
      * intros ip (s' & r' & Hin & Hc' & Hr'). apply elem_of_cons in Hin as [[= -> ->]|Hin]; [congruence|].
        apply (Hno ip). by exists s', r'.
      * exists b'. split; [done|]. rewrite Hb. split.
        -- intros [|(s' & r' & Hin & Hc')]; [by left|right]. exists s', r'. split; [by apply list_elem_of_further|done].
        -- intros [|(s' & r' & Hin & Hc')]; [by left|right].
           apply elem_of_cons in Hin as [[= -> ->]|Hin]; [congruence|]. by exists s', r'.
Qed.

(** The network that a name resolves in: a zone of the resolver that covers it. *)
Definition resolves (r : Resolver) (name : string) (ip : IP) : Prop :=
  ∃ suffix recs, r_zones r !! suffix = Some recs ∧ covered name suffix = true ∧ recs !! name = Some ip.

Definition owned (r : Resolver) (name : string) : Prop :=
  ∃ suffix, is_Some (r_zones r !! suffix) ∧ covered name suffix = true.

Lemma recorded_resolves r zs name ip : zone_order r zs → recorded zs name ip ↔ resolves r name ip.
Proof.
  intros Hz. unfold recorded, resolves. setoid_rewrite Hz. by setoid_rewrite elem_of_map_to_list.
Qed.

Lemma in_zones_owned r zs name : zone_order r zs → in_zones zs name ↔ owned r name.
Proof.
  intros Hz. unfold in_zones, owned. setoid_rewrite Hz. setoid_rewrite elem_of_map_to_list.
  split; [intros (s & recs & ? & ?); exists s; eauto|intros (s & [recs ?] & ?); eauto].
Qed.

(** One lookup, for every order of the zones. *)
Lemma lookup_name_cases r zs name :
  zone_order r zs →
  (∃ ip, resolves r name ip ∧ lookup_name zs name = (ip, true)) ∨
  ((∀ ip, ¬ resolves r name ip) ∧ owned r name ∧ lookup_name zs name = (None, true)) ∨
  (¬ owned r name ∧ lookup_name zs name = (None, false)).
Proof.
  intros Hz. destruct (lookup_in_cases zs name false) as [(ip & Hr & Hl)|[Hno (b & Hl & Hb)]].
  - left. exists ip. by rewrite <-(recorded_resolves r zs).
  - right. rewrite (in_zones_owned r) in Hb by done. setoid_rewrite (recorded_resolves r zs) in Hno; [|done].
    destruct b; [left|right].
    + split_and!; [done| |done]. by destruct Hb as [[?|?] _].
    + split; [|done]. intros Ho. destruct Hb as [_ Hb]. by discriminate Hb; right.
Qed.

Section answers.
Context {RR : Type} (NewRR : string → option RR).

(** What a question comes to. *)
Inductive outcome : Type := Skipped | Refused | NoSuchName | Found (a : Addr).

(** A name no joined network owns is refused.  A name that is owned does not exist when no zone
    that covers it has it, or one has it without an address; it is found under any address
    that such a zone has for it. *)
Inductive verdict : asked → outcome → Prop :=
| verdict_skipped q r zs : q_Qtype q ≠ TypeA → q_Qtype q ≠ TypeAAAA → verdict (q, r, zs) Skipped
| verdict_refused q r zs : q_Qtype q = TypeA ∨ q_Qtype q = TypeAAAA → ¬ owned r (normalize (q_Name q)) → verdict (q, r, zs) Refused
| verdict_missing q r zs : q_Qtype q = TypeA ∨ q_Qtype q = TypeAAAA → owned r (normalize (q_Name q)) →
    (∀ ip, ¬ resolves r (normalize (q_Name q)) ip) ∨ resolves r (normalize (q_Name q)) None → verdict (q, r, zs) NoSuchName
| verdict_found q r zs a : q_Qtype q = TypeA ∨ q_Qtype q = TypeAAAA → resolves r (normalize (q_Name q)) (Some a) → verdict (q, r, zs) (Found a).

(** The records of what was found, for the questions of type A alone. *)
Definition records (x : asked * outcome) : list RR :=
  match x with
  | ((q, r, _), Found a) => if q_Qtype q =? TypeA then option_list (NewRR (record_text r (q_Name q) (Some a))) else []
  | _ => []
  end.

Definition rcode_of (o : outcome) : option Z :=
  match o with Refused => Some RcodeRefused | NoSuchName => Some RcodeNameError | Skipped | Found _ => None end.

(** The code of the last question that has one, and all records. *)
Definition reply_of (xs : list (asked * outcome)) : Reply :=
  MkReply (default RcodeSuccess (last (omap (λ x, rcode_of x.2) xs))) (mjoin (records <$> xs)).

Definition answered (m : Reply) (x : asked * outcome) : Reply :=
  MkReply (default (m_Rcode m) (rcode_of x.2)) (m_Answer m ++ records x).

Lemma resolves_owned r name ip : resolves r name ip → owned r name.
Proof using Type. intros (s & recs & Hs & Hc & _). exists s. eauto. Qed.

Lemma answer_verdict m q r zs : zone_order r zs → ∃ o, verdict (q, r, zs) o ∧ answer NewRR m (q, r, zs) = answered m ((q, r, zs), o).
Proof using Type.
  intros Hz. unfold answer, answered. destruct (Z.eqb_spec (q_Qtype q) TypeA) as [Ha|Ha].
  1: assert (q_Qtype q = TypeA ∨ q_Qtype q = TypeAAAA) as Hq by (by left).
  2: destruct (Z.eqb_spec (q_Qtype q) TypeAAAA) as [Hb|Hb].
  3: { exists Skipped. split; [by constructor|]. cbn. rewrite app_nil_r. by destruct m. }
  2: assert (q_Qtype q = TypeA ∨ q_Qtype q = TypeAAAA) as Hq by (by right).
  all: cbn [negb andb]; destruct (lookup_name_cases r zs (normalize (q_Name q)) Hz) as [(ip & Hr & ->)|[(Hno & Ho & ->)|(Ho & ->)]]; cbn [negb].
  1, 4: destruct ip as [a|]; [exists (Found a); split; [by constructor|]|exists NoSuchName; split; [constructor; [done|by eapply resolves_owned|by right]|]].
  all: rewrite ?bool_decide_eq_false_2 by done; rewrite ?bool_decide_eq_true_2 by done.
  all: try (exists NoSuchName; split; [constructor; [done|done|by left]|]).
  all: try (exists Refused; split; [by constructor|]).
  all: cbn [rcode_of records snd default]; rewrite ?app_nil_r; try done.
  - rewrite Ha. change (TypeA =? TypeA) with true. destruct (NewRR _); cbn; rewrite ?app_nil_r; by destruct m.
  - rewrite (proj2 (Z.eqb_neq _ _) Ha), app_nil_r. by destruct m.
Qed.

Lemma reply_of_fold xs m : foldl answered m xs = MkReply (default (m_Rcode m) (last (omap (λ x, rcode_of x.2) xs))) (m_Answer m ++ mjoin (records <$> xs)).
Proof using Type.
  revert m. induction xs as [|x xs IH]; intros m; cbn [foldl]; [cbn; rewrite app_nil_r; by destruct m|].
  rewrite IH. cbn [answered m_Rcode m_Answer fmap list_fmap omap list_omap mjoin list_join]. rewrite app_assoc. f_equal.
  destruct (rcode_of x.2) as [c|]; [|done]. rewrite last_cons. by destruct (last _).
Qed.

Lemma foldl_answered m qs : Forall (λ '(q, r, zs), zone_order r zs) qs →
  ∃ os, Forall2 verdict qs os ∧ foldl (answer NewRR) m qs = foldl answered m (zip qs os).
Proof using Type.
  intros Hqs. revert m. induction Hqs as [|[[q r] zs] qs Hz _ IH]; intros m; [by exists []|].
  destruct (answer_verdict m q r zs Hz) as (o & Ho & He). destruct (IH (answered m ((q, r, zs), o))) as (os & Hos & Hf).
  exists (o :: os). split; [by constructor|]. cbn [foldl zip zip_with]. by rewrite He.
Qed.

(** Whatever is right to say of a question is said, if the zones are read in some order. *)
Lemma verdict_possible q r zs o : verdict (q, r, zs) o →
  ∃ zs', zone_order r zs' ∧ verdict (q, r, zs') o ∧ ∀ m, answer NewRR m (q, r, zs') = answered m ((q, r, zs'), o).
Proof using Type.
  assert (∀ name ip, resolves r name ip → ∃ zs', zone_order r zs' ∧ lookup_name zs' name = (ip, true)) as Hpick.
  { intros name ip (s & recs & Hs & Hc & Hr). apply elem_of_map_to_list in Hs.
    apply elem_of_Permutation in Hs as [rest Hp]. exists ((s, recs) :: rest). split; [unfold zone_order; by symmetry|].
    unfold lookup_name. cbn [lookup_in]. by rewrite Hc, Hr. }
  assert (∀ zs' (Hz : zone_order r zs'), (∀ o', verdict (q, r, zs') o' → o' = o) → verdict (q, r, zs') o →
    ∃ zs', zone_order r zs' ∧ verdict (q, r, zs') o ∧ ∀ m, answer NewRR m (q, r, zs') = answered m ((q, r, zs'), o)) as Honly.
  { intros zs' Hz Hu Hv. exists zs'. split_and!; [done|done|]. intros m.
    destruct (answer_verdict m q r zs' Hz) as (o' & Ho' & He). by rewrite He, (Hu o' Ho'). }
  assert (zone_order r (map_to_list (r_zones r))) as Hz0 by (unfold zone_order; done).
  assert (∀ ip, q_Qtype q = TypeA ∨ q_Qtype q = TypeAAAA → resolves r (normalize (q_Name q)) ip →
    o = match ip with Some a => Found a | None => NoSuchName end → (∀ zs', verdict (q, r, zs') o) →
    ∃ zs', zone_order r zs' ∧ verdict (q, r, zs') o ∧ ∀ m, answer NewRR m (q, r, zs') = answered m ((q, r, zs'), o)) as Hfound.
  { intros ip Hq Hr Ho Hv. destruct (Hpick _ _ Hr) as (zs' & Hz & Hl). exists zs'. split_and!; [done|done|]. intros m.
    unfold answer, answered. rewrite Hl.
    assert (negb (q_Qtype q =? TypeA) && negb (q_Qtype q =? TypeAAAA) = false) as -> by (unfold TypeA, TypeAAAA in *; lia).
    cbn [negb]. subst o. destruct ip as [a|]; cbn [rcode_of snd default records].
    - rewrite bool_decide_eq_false_2 by done. destruct (q_Qtype q =? TypeA); [|rewrite app_nil_r; by destruct m].
      destruct (NewRR _); cbn; rewrite ?app_nil_r; by destruct m.
    - rewrite bool_decide_eq_true_2, app_nil_r by done. done. }
  intros Hv. inversion Hv as [? ? ? Ha Hb|? ? ? Hq Ho|? ? ? Hq Ho Hm|? ? ? a Hq Hr]; subst.
  - apply (Honly _ Hz0); [|by constructor]. intros o' Ho'. inversion Ho' as [|? ? ? [|]|? ? ? [|]|? ? ? ? [|]]; congruence.
  - apply (Honly _ Hz0); [|by constructor]. intros o' Ho'.
    inversion Ho' as [? ? ? Ha Hb| |? ? ? _ Ho1|? ? ? ? _ Hr1]; subst; [by destruct Hq|done|done|by destruct Ho; eapply resolves_owned].
  - destruct Hm as [Hno|Hn].
    + apply (Honly _ Hz0); [|by constructor; [|..|left]]. intros o' Ho'.
      inversion Ho' as [? ? ? Ha Hb|? ? ? _ Ho1| |? ? ? ? _ Hr1]; subst; [by destruct Hq|done|done|by destruct (Hno (Some a))].
    + apply (Hfound None); [done|done|done|]. intros. by constructor; [|..|right].
  - apply (Hfound (Some a)); [done|done|done|]. intros. by constructor.
Qed.

(** C35: The reply to any list of questions, whatever order the zones are read in each time: a
    question that is neither A nor AAAA is passed over; a name that no joined network owns is
    refused; an owned name that no covering zone has an address for does not exist; otherwise an
    A question gets the record of one of the addresses recorded for it, and an AAAA question
    none.  The reply carries these records in order and the code of the last question that failed.
    Nothing more can be said of it: any such reply is given, for some order. *)
Theorem handle_correct qs :
  (Forall (λ '(q, r, zs), zone_order r zs) qs →
    ∃ os, Forall2 verdict qs os ∧ handle NewRR qs = reply_of (zip qs os)) ∧
  (∀ os, Forall2 verdict qs os →
    ∃ qs', Forall (λ '(q, r, zs), zone_order r zs) qs' ∧ qs'.*1 = qs.*1 ∧ handle NewRR qs' = reply_of (zip qs' os)).
Proof using Type.
  unfold handle, reply_of. split.
  - intros Hz. destruct (foldl_answered (MkReply RcodeSuccess []) qs Hz) as (os & Hos & ->). exists os. split; [done|].
    by rewrite reply_of_fold.
  - intros os Hos. assert (∃ qs', Forall (λ '(q, r, zs), zone_order r zs) qs' ∧ qs'.*1 = qs.*1 ∧
      ∀ m, foldl (answer NewRR) m qs' = foldl answered m (zip qs' os)) as (qs' & Hz & Hq & Hf).
    { induction Hos as [|[[q r] zs] o qs os Ho _ (qs' & Hz & Hq & Hf)]; [by exists []|].
      destruct (verdict_possible q r zs o Ho) as (zs' & Hz' & _ & Ha). exists ((q, r, zs') :: qs').
      split; [by constructor|]. split; [cbn; by rewrite Hq|]. intros m. cbn [foldl zip zip_with]. by rewrite Ha, Hf. }
    exists qs'. split; [done|]. split; [done|]. by rewrite Hf, reply_of_fold.
Qed.
End answers.

(** ** Zones of different networks *)

Lemma zones_SetZone r suffix recs :
  r_zones (SetZone r suffix recs) =
  if String.eqb (normalize suffix) "" then r_zones r
  else <[normalize suffix := zone_of_list recs]> (r_zones r).
Proof. unfold SetZone. by destruct (String.eqb _ _). Qed.

(** Setting or removing a network's zone changes nothing for the names outside it;
    a name inside it that no other zone covers resolves exactly to the records set, and
    after the network is left it is refused. *)
Theorem zones_isolated r suffix recs name ip :
  let s := normalize suffix in
  s ≠ ""%string →
  (covered name s = false →
     (resolves (SetZone r suffix recs) name ip ↔ resolves r name ip) ∧
     (resolves (RemoveZone r suffix) name ip ↔ resolves r name ip) ∧
     (owned (SetZone r suffix recs) name ↔ owned r name) ∧
     (owned (RemoveZone r suffix) name ↔ owned r name)) ∧
  (covered name s = true → (∀ s', is_Some (r_zones r !! s') → covered name s' = true → s' = s) →
     owned (SetZone r suffix recs) name ∧
     (resolves (SetZone r suffix recs) name ip ↔ zone_of_list recs !! name = Some ip) ∧
     ¬ owned (RemoveZone r suffix) name).
Proof.
  intros s Hs. unfold resolves, owned. rewrite zones_SetZone. fold s.
  rewrite (proj2 (String.eqb_neq s "")) by done. cbn [RemoveZone r_zones]. fold s.
  split.
  - intros Hc.
    assert (∀ s', covered name s' = true → <[s:=zone_of_list recs]> (r_zones r) !! s' = r_zones r !! s') as Hi.
    { intros s' Hc'. apply lookup_insert_ne. congruence. }
    assert (∀ s', covered name s' = true → delete s (r_zones r) !! s' = r_zones r !! s') as Hd.
    { intros s' Hc'. apply lookup_delete_ne. congruence. }
    split_and!; split.
    all: try (intros (s' & recs' & Hz & Hc' & Hr); exists s', recs'; rewrite ?Hi, ?Hd in *; done).
    all: intros (s' & Hz & Hc'); exists s'; rewrite ?Hi, ?Hd in *; done.
  - intros Hc Hu. split_and!.
    + exists s. by rewrite lookup_insert_eq.
    + split.
      * intros (s' & recs' & Hz & Hc' & Hr). destruct (decide (s' = s)) as [->|Hne].
        { rewrite lookup_insert_eq in Hz. by injection Hz as ->. }
        rewrite lookup_insert_ne in Hz by done. destruct Hne. by apply Hu.
      * intros Hr. exists s, (zone_of_list recs). by rewrite lookup_insert_eq.
    + intros (s' & Hz & Hc'). destruct (decide (s' = s)) as [->|Hne].
      { rewrite lookup_delete_eq in Hz. by destruct Hz. }
      rewrite lookup_delete_ne in Hz by done. by apply Hne, Hu.
Qed.

Lemma Suffixes_correct r :
  Sorted String.le (Suffixes r) ∧ NoDup (Suffixes r) ∧ (∀ s, s ∈ Suffixes r ↔ is_Some (r_zones r !! s)).
Proof.
  unfold Suffixes, sort_strings. split_and!.
  - apply Sorted_merge_sort; apply _.
  - rewrite merge_sort_Permutation. apply NoDup_fst_map_to_list.
  - intros s. rewrite merge_sort_Permutation, list_elem_of_fmap. split.
    + intros ([s' z] & -> & Hz%elem_of_map_to_list). eauto.
    + intros [z Hz]. exists (s, z). by rewrite elem_of_map_to_list.
Qed.

(** ** Witnesses *)

Definition demo_resolver : Resolver :=
  SetZone New "Home." [("Echo.home", Some (Addr4 0x64400001))]%string.

Definition demo_zones : list (string * gmap string IP) := map_to_list (r_zones demo_resolver).

Definition demo_zone : gmap string IP := {["echo.home"%string := Some (Addr4 0x64400001)]}.

Lemma demo_normal :
  normalize "Home." = "home"%string ∧ normalize "Echo.home" = "echo.home"%string ∧ normalize "bob" = "bob"%string.
Proof. by vm_compute. Qed.

Lemma demo_resolver_zones : r_zones demo_resolver = {["home"%string := demo_zone]}.
Proof.
  destruct demo_normal as (H1 & H2 & _). unfold demo_resolver, demo_zone. rewrite zones_SetZone, H1.
  unfold zone_of_list. cbn [foldl fst snd]. by rewrite H2.
Qed.

Lemma demo_resolves name ip :
  resolves demo_resolver name ip ↔ name = "echo.home"%string ∧ ip = Some (Addr4 0x64400001).
Proof.
  unfold resolves. rewrite demo_resolver_zones. split.
  - intros (s & recs & [<- <-]%lookup_singleton_Some & _ & Hr).
    unfold demo_zone in Hr. by apply lookup_singleton_Some in Hr as [<- <-].
  - intros [-> ->]. exists "home"%string, demo_zone. unfold demo_zone. by rewrite !lookup_singleton_eq.
Qed.

Lemma handle_correct_witness :
  ∃ os, handle Some [(MkQuestion "echo.HOME." TypeA, demo_resolver, demo_zones)] =
    reply_of Some (zip [(MkQuestion "echo.HOME." TypeA, demo_resolver, demo_zones)] os).
Proof.
  destruct (handle_correct Some [(MkQuestion "echo.HOME." TypeA, demo_resolver, demo_zones)]) as [H _].
  destruct H as (os & _ & Hh).
  - constructor; [|constructor]. unfold zone_order, demo_zones. reflexivity.
  - exists os. exact Hh.
Defined.

Lemma zones_isolated_witness :
  resolves (SetZone demo_resolver "bob" []) "echo.home" (Some (Addr4 0x64400001)).
Proof.
  destruct demo_normal as (_ & _ & Hb).
  destruct (zones_isolated demo_resolver "bob" [] "echo.home" (Some (Addr4 0x64400001))) as [H _].
  - by rewrite Hb.
  - apply H; [by rewrite Hb|by apply demo_resolves].
Defined.
