(* ===== verification/Nrpt.v ===== *)
(** * Rules of the system's name resolution (client/nrpt/nrpt.go)

    The binder keeps the policy rules of the operating system equal to the suffixes the
    resolver answers for.  The table itself is machine state behind PowerShell: [System]
    is its interface, what listing and changing the rules do when they succeed; nothing
    is assumed of a change that fails. *)
From Stdlib Require Import Ascii String.
From S2P Require Import Prelude Unicode GoString GoStringFacts Netip NetipFacts Profile.

Local Open Scope Z_scope.

Record Rule : Type := MkRule { ru_ID : string; ru_Namespace : string; ru_Servers : list string }.

Record Binder : Type := MkBinder { b_server : string; b_synced : bool; b_last : string }.

Inductive nrpt_error : Type :=
| EResolverAddr (addr : string)
| ENotPort53 (port : Z).

Definition New (addr : string) : result nrpt_error Binder :=
  match ParseAddrPort addr with
  | None => Err (EResolverAddr addr)
  | Some ap =>
    if negb (ap_port ap =? 53) then Err (ENotPort53 (ap_port ap))
    else Ok (MkBinder (addr_String (ap_addr ap)) false "")
  end.

(** ** Namespaces *)

Definition plain_rune (r : Z) : bool := lower_alnum r || (r =? 45) || (r =? 46).

Definition plainName (s : string) : bool := forallb plain_rune (runes s) && negb (contains s "..").

Fixpoint namespaces_loop (seen : gset string) (l : list string) : list string :=
  match l with
  | [] => []
  | s :: l =>
    let s := to_lower (trim_byte "." (trim_space s)) in
    if String.eqb s "" || bool_decide (s ∈ seen) || negb (plainName s) then namespaces_loop seen l
    else ("." +:+ s) :: namespaces_loop ({[s]} ∪ seen) l
  end.

Definition namespaces (suffixes : list string) : list string :=
  sort_strings (namespaces_loop ∅ suffixes).

(** [strings.TrimSuffix(ns, ".")]. *)
Definition trim_suffix_byte (c : ascii) (s : string) : string :=
  match cut_last c s with Some (l, "") => l | _ => s end.

Definition sameNamespace (ns : string) : string :=
  let ns := to_lower (trim_space ns) in
  if 1 <? len ns then trim_suffix_byte "." ns else ns.

Definition servedBy (r : Rule) (server : string) : bool :=
  match ru_Servers r with
  | [s] => equal_fold (trim_space s) server
  | _ => false
  end.

(** ** The difference between the rules installed and the namespaces wanted *)

Fixpoint plan_loop (wanted : gset string) (server : string) (have : list Rule) (found : gset string)
  : gset string * list string :=
  match have with
  | [] => (found, [])
  | r :: have =>
    let ns := sameNamespace (ru_Namespace r) in
    if negb (bool_decide (ns ∈ wanted)) || bool_decide (ns ∈ found) || negb (servedBy r server)
    then let '(found, remove) := plan_loop wanted server have found in (found, ru_ID r :: remove)
    else plan_loop wanted server have ({[ns]} ∪ found)
  end.

Definition plan (want : list string) (have : list Rule) (server : string) : list string * list string :=
  let '(found, remove) := plan_loop (list_to_set want) server have ∅ in
  (filter (λ ns, ns ∉ found) want, remove).

(** ** The system's table *)

Class System (W E : Type) := {
  sys_list : W → result E (list Rule);
  (** add, remove, server *)
  sys_mutate : W → list string → list string → string → W * option E;
}.

(** The rules after a change: the ones not removed, then the ones added, which are listed in
    lower case. *)
Definition changed_rules (have : list Rule) (add remove : list string) (server : string) (have' : list Rule) : Prop :=
  ∃ new, have' ≡ₚ filter (λ r, ru_ID r ∉ remove) have ++ new ∧
    Forall2 (λ ns r, ru_Namespace r = to_lower ns ∧ ru_Servers r = [server]) add new.

Class SystemLaws (W E : Type) `{System W E} := {
  sys_ids : ∀ w have, sys_list w = Ok have → NoDup (ru_ID <$> have);
  sys_mutated : ∀ w add remove server w' have,
    sys_list w = Ok have → sys_mutate w add remove server = (w', None) →
    ∃ have', sys_list w' = Ok have' ∧ changed_rules have add remove server have';
}.

Section binder.
Context {W E : Type} `{System W E}.

Definition Apply (b : Binder) (w : W) (suffixes : list string) : Binder * W * option E :=
  let want := namespaces suffixes in
  let sig := str_join want "," in
  if b_synced b && String.eqb sig (b_last b) then (b, w, None)
  else
    match sys_list w with
    | Err e => (b, w, Some e)
    | Ok have =>
      let '(add, remove) := plan want have (b_server b) in
      match sys_mutate w add remove (b_server b) with
      | (w, Some e) => (b, w, Some e)
      | (w, None) => (MkBinder (b_server b) true sig, w, None)
      end
    end.

Definition Resync (b : Binder) : Binder := MkBinder (b_server b) false (b_last b).

Definition Clear (b : Binder) (w : W) : Binder * W * option E := Apply b w [].

Definition Purge (w : W) : W * option E :=
  let '(_, w, e) := Apply (MkBinder "" false "") w [] in (w, e).
End binder.

(** ** Namespaces are in the form they are compared in *)

(** A name the binder wants a rule for. *)
Definition wanted_name (s : string) : Prop :=
  s ≠ ""%string ∧ plain s = true ∧ last (list_ascii_of_string s) ≠ Some "."%char.

Lemma plainName_plain s : plainName s = true → plain s = true.
Proof.
  unfold plainName, runes. rewrite andb_true_iff. intros [Hr _]. apply plain_bytes.
  rewrite forallb_forall in Hr. setoid_rewrite <-list_elem_of_In in Hr.
  assert (Forall (λ p, plain_rune p.1 = true) (pieces (list_ascii_of_string s))) as Hp.
  { apply Forall_forall. intros p Hin. apply Hr, list_elem_of_fmap. eauto. }
  apply (ascii_runes_bytes (λ r, plain_rune r = true)) in Hp.
  - eapply Forall_impl; [done|]. intros a. cbn beta. unfold plain_rune, lower_alnum, plain_byte. lia.
  - intros r. unfold plain_rune, lower_alnum. lia.
Qed.

Lemma rune_lower_dot r : rune_lower r = 46 → r = 46.
Proof.
  assert (table_check (λ _ l, negb (l =? 46)) = true) as Htab by (by vm_compute).
  destruct (rune_lower_ind _ r Htab) as [->|Hn]; [done|]. lia.
Qed.

Lemma encode_last_dot r : last (encode_rune r) = Some "."%char → encode_rune r = ["."%char] ∧ r = 46.
Proof.
  unfold encode_rune. set (r' := if valid_rune r then r else rune_error).
  assert (∀ z, 0 ≤ z < 64 → byte_of (0x80 + z) ≠ "."%char) as Hc.
  { intros z Hz Heq. apply (f_equal byte_val) in Heq. rewrite byte_val_cont in Heq by done.
    change (byte_val ".") with 46 in Heq. lia. }
  pose proof (Z.mod_pos_bound r' 64 ltac:(lia)).
  destruct (Z.ltb_spec r' 0x80) as [Hlt|].
  - cbn [last]. intros [= Heq]. rewrite Heq. split; [done|].
    apply (f_equal byte_val) in Heq. change (byte_val ".") with 46 in Heq.
    unfold r', valid_rune, rune_error in *.
    destruct (((0 <=? r) && (r <? 55296)) || ((57344 <=? r) && (r <? 1114112))) eqn:Hv; [|lia].
    rewrite byte_val_of in Heq by lia. done.
  - destruct (r' <? 0x800), (r' <? 0x10000); cbn [last]; intros [= Heq]; by destruct (Hc (r' mod 64) ltac:(lia) Heq).
Qed.

Lemma lower_last_dot l : last (lower_bytes l) = Some "."%char → last l = Some "."%char.
Proof.
  intros Hl. pose proof (pieces_ok l) as Hok. rewrite <-(pieces_bytes l). unfold lower_bytes in Hl.
  destruct (pieces l) as [|p ps _] using rev_ind; [done|].
  apply Forall_app in Hok as [_ Hok]. inversion_clear Hok as [|?? [Hv Hb] _].
  rewrite fmap_app, join_app in Hl. cbn [fmap list_fmap mjoin list_join] in Hl. rewrite app_nil_r in Hl.
  assert (last (encode_rune (rune_lower p.1)) = Some "."%char) as He.
  { pose proof (encode_rune_length (rune_lower p.1)). rewrite last_app in Hl.
    destruct (last (encode_rune (rune_lower p.1))) as [a|] eqn:Ha; [done|].
    apply last_None in Ha. rewrite Ha in *. cbn [length] in *. lia. }
  apply encode_last_dot in He as [_ Hr%rune_lower_dot].
  rewrite fmap_app, join_app. cbn [fmap list_fmap mjoin list_join]. rewrite app_nil_r.
  destruct Hb as [Hb|Hb]; [|rewrite Hb in Hr; done]. rewrite Hb, Hr, last_app. done.
Qed.

Lemma normal_wanted s :
  let t := to_lower (trim_byte "." (trim_space s)) in
  t ≠ ""%string → plainName t = true → wanted_name t.
Proof.
  intros t Hne Hp. split_and!; [done|by apply plainName_plain|].
  unfold t, to_lower, trim_byte. rewrite !bytes_of_string_of. intros Hl%lower_last_dot.
  destruct (strip_bare (Ascii.eqb ".") (list_ascii_of_string (trim_space s))) as [_ Hb].
  by specialize (Hb _ Hl).
Qed.

Lemma namespaces_loop_spec seen l :
  NoDup (namespaces_loop seen l) ∧
  Forall (λ ns, ∃ s, ns = "." +:+ s ∧ wanted_name s ∧ s ∉ seen) (namespaces_loop seen l).
Proof.
  revert seen. induction l as [|s l IH]; intros seen; [by split; constructor|].
  cbn [namespaces_loop]. set (t := to_lower (trim_byte "." (trim_space s))).
  destruct (String.eqb_spec t "") as [|Hne]; cbn [orb]; [apply IH|].
  case_bool_decide as Hs; cbn [orb]; [apply IH|].
  destruct (plainName t) eqn:Hp; cbn [negb]; [|apply IH].
  destruct (IH ({[t]} ∪ seen)) as [Hnd Hall]. split.
  - constructor; [|done]. intros Hin. rewrite Forall_forall in Hall.
    destruct (Hall _ Hin) as (s' & Heq & _ & Hn). assert (t = s') as <- by (by injection Heq).
    by destruct Hn; apply elem_of_union_l, elem_of_singleton.
  - constructor; [by exists t; split_and!; [|apply normal_wanted|]|].
    eapply Forall_impl; [exact Hall|]. intros ns (s' & -> & Hw & Hn). exists s'. split_and!; [done|done|].
      intros Hs'. by apply Hn, elem_of_union_r.
Qed.

Lemma namespaces_spec l :
  NoDup (namespaces l) ∧ Forall (λ ns, ∃ s, ns = "." +:+ s ∧ wanted_name s) (namespaces l).
Proof.
  destruct (namespaces_loop_spec ∅ l) as [Hnd Hall]. unfold namespaces, sort_strings.
  rewrite merge_sort_Permutation. split; [done|].
  eapply Forall_impl; [exact Hall|]. intros ns (s & -> & Hw & _). by exists s.
Qed.

Lemma cut_last_last c s l : cut_last c s = Some (l, ""%string) → last (list_ascii_of_string s) = Some c.
Proof.
  intros [-> _]%cut_last_sound. rewrite list_ascii_app. by rewrite last_app.
Qed.

Lemma sameNamespace_wanted s : wanted_name s → sameNamespace ("." +:+ s) = "." +:+ s.
Proof.
  intros (Hne & Hp & Hl). unfold sameNamespace.
  assert (plain ("." +:+ s) = true) as Hps by (by rewrite plain_app, Hp).
  rewrite trim_space_plain, to_lower_plain by done.
  destruct (1 <? len ("." +:+ s)); [|done]. unfold trim_suffix_byte.
  destruct (cut_last "." ("." +:+ s)) as [[l r]|] eqn:Hc; [|done].
  destruct r; [|done]. apply cut_last_last in Hc. rewrite list_ascii_app, last_app in Hc.
  destruct (last (list_ascii_of_string s)) as [a|] eqn:Ha; [congruence|].
  apply last_None in Ha. by destruct s.
Qed.

(** ** Planning *)

Definition rule_name (r : Rule) : string := sameNamespace (ru_Namespace r).

Lemma plan_loop_spec wanted server have found :
  let '(found', remove) := plan_loop wanted server have found in
  ∃ kept dropped,
    have ≡ₚ kept ++ dropped ∧ remove = ru_ID <$> dropped ∧
    (∀ ns, ns ∈ found' ↔ ns ∈ found ∨ (ns ∈ rule_name <$> kept)) ∧
    NoDup (rule_name <$> kept) ∧
    Forall (λ r, rule_name r ∈ wanted ∧ (rule_name r ∉ found) ∧ servedBy r server = true) kept.
Proof.
  revert found. induction have as [|r have IH]; intros found; cbn [plan_loop].
  { exists [], []. split_and!; [done|done| |constructor|constructor].
    intros ns. split; [by left|]. intros [|Hn]; [done|inversion Hn]. }
  fold (rule_name r).
  destruct (negb _ || bool_decide _ || negb _) eqn:Hb.
  - specialize (IH found). destruct (plan_loop wanted server have found) as [found' remove].
    destruct IH as (kept & dropped & Hp & -> & Hrest). exists kept, (r :: dropped).
    split; [|done]. by rewrite Hp, Permutation_middle.
  - apply orb_false_iff in Hb as [[Hw Hf]%orb_false_iff Hs].
    apply negb_false_iff in Hw, Hs. apply bool_decide_eq_true in Hw. apply bool_decide_eq_false in Hf.
    specialize (IH ({[rule_name r]} ∪ found)).
    destruct (plan_loop wanted server have _) as [found' remove].
    destruct IH as (kept & dropped & Hp & -> & Hin & Hnd & Hall). exists (r :: kept), dropped.
    rewrite Forall_forall in Hall. split_and!.
    + by rewrite Hp.
    + done.
    + intros ns. rewrite Hin, elem_of_union, elem_of_singleton. cbn [fmap list_fmap].
      rewrite elem_of_cons. tauto.
    + cbn [fmap list_fmap]. constructor; [|done]. intros (r' & Heq & Hr')%list_elem_of_fmap.
      destruct (Hall _ Hr') as (_ & Hn & _). apply Hn, elem_of_union_l. rewrite <-Heq. by apply elem_of_singleton.
    + constructor; [done|]. apply Forall_forall. intros r' Hr'. destruct (Hall _ Hr') as (? & Hn & ?).
      split_and!; [done| |done]. intros Hf'. by apply Hn, elem_of_union_r.
Qed.

(** Removing the planned rules keeps exactly the good ones. *)
Lemma filter_kept have kept dropped :
  NoDup (ru_ID <$> have) → have ≡ₚ kept ++ dropped →
  filter (λ r, ru_ID r ∉ ru_ID <$> dropped) have ≡ₚ kept.
Proof.
  intros Hnd Hp. rewrite Hp in Hnd |- *. rewrite fmap_app in Hnd.
  apply NoDup_app in Hnd as (_ & Hd & _). rewrite filter_app.
  rewrite (filter_all _ kept), (filter_none _ dropped).
  - by rewrite app_nil_r.
  - apply Forall_forall. intros r Hr Hn. apply Hn, list_elem_of_fmap. eauto.
  - apply Forall_forall. intros r Hr. apply Hd, list_elem_of_fmap. eauto.
Qed.

(** The planned change leaves one rule for each namespace wanted. *)
Lemma plan_reconciles want server have have' :
  NoDup (ru_ID <$> have) → NoDup want → Forall (λ ns, sameNamespace ns = ns ∧ to_lower ns = ns) want →
  trim_space server = server →
  changed_rules have (plan want have server).1 (plan want have server).2 server have' →
  rule_name <$> have' ≡ₚ want ∧ Forall (λ r, servedBy r server = true) have'.
Proof.
  intros Hids Hwant Hsame Hserver. unfold plan.
  pose proof (plan_loop_spec (list_to_set want) server have ∅) as Hspec.
  destruct (plan_loop (list_to_set want) server have ∅) as [found remove]. cbn [fst snd].
  destruct Hspec as (kept & dropped & Hp & -> & Hin & Hnd & Hall). rewrite Forall_forall in Hall.
  intros (new & Hnew & Hadd). rewrite (filter_kept _ kept) in Hnew by done.
  assert (rule_name <$> new = filter (λ ns, ns ∉ found) want) as Hnames.
  { assert (Forall (λ ns, sameNamespace ns = ns ∧ to_lower ns = ns) (filter (λ ns, ns ∉ found) want)) as Hf.
    { apply Forall_forall. intros ns [_ Hns]%list_elem_of_filter. rewrite Forall_forall in Hsame. by apply Hsame. }
    clear -Hadd Hf. induction Hadd as [|ns r add new [Hn _] _ IH]; [done|].
    inversion_clear Hf as [|?? [Hsn Hlow] ?]. cbn [fmap list_fmap]. unfold rule_name at 1. rewrite Hn, Hlow.
    f_equal; [done|by apply IH]. }
  split.
  - rewrite Hnew, fmap_app, Hnames. apply NoDup_Permutation; [|done|].
    + apply NoDup_app. split_and!; [done| |by apply NoDup_filter].
      intros ns Hk [Hn _]%list_elem_of_filter. apply Hn, Hin. by right.
    + intros ns. rewrite elem_of_app, list_elem_of_filter. split.
      * intros [(r & -> & Hr)%list_elem_of_fmap|[_ ?]]; [|done].
        destruct (Hall _ Hr) as (Hw & _). by apply elem_of_list_to_set in Hw.
      * intros Hw. destruct (decide (ns ∈ found)) as [Hf|Hf]; [left|by right].
        apply Hin in Hf as [Hf|Hf]; [by apply not_elem_of_empty in Hf|done].
  - rewrite Hnew. apply Forall_app. split; [apply Forall_forall; intros r Hr; by apply Hall|].
    clear -Hadd Hserver. induction Hadd as [|ns r add new [_ Hs] _ IH]; constructor; [|done].
    unfold servedBy. rewrite Hs, Hserver. unfold equal_fold. by apply bool_decide_eq_true.
Qed.

Section apply.
Context {W E : Type} `{SystemLaws W E}.

(** The rules of this program that are installed. *)
Definition reconciled (w : W) (server : string) (suffixes : list string) : Prop :=
  ∃ have, sys_list w = Ok have ∧ rule_name <$> have ≡ₚ namespaces suffixes ∧
    Forall (λ r, servedBy r server = true) have.

Lemma Apply_cases b w suffixes :
  trim_space (b_server b) = b_server b →
  match Apply b w suffixes with
  | (b', w', Some e) => b' = b
  | (b', w', None) =>
    (b_synced b = true ∧ b_last b = str_join (namespaces suffixes) "," ∧ b' = b ∧ w' = w) ∨
    (b' = MkBinder (b_server b) true (str_join (namespaces suffixes) ",") ∧
     reconciled w' (b_server b) suffixes)
  end.
Proof.
  intros Hserver. unfold Apply.
  destruct (b_synced b && String.eqb (str_join (namespaces suffixes) ",") (b_last b)) eqn:Hs.
  { apply andb_true_iff in Hs as [? ?%String.eqb_eq]. by left. }
  destruct (sys_list w) as [have|e] eqn:Hl; [|done].
  destruct (plan (namespaces suffixes) have (b_server b)) as [add remove] eqn:Hplan.
  destruct (sys_mutate w add remove (b_server b)) as [w' [e|]] eqn:Hm; [done|].
  right. split; [done|].
  destruct (sys_mutated w add remove _ w' have Hl Hm) as (have' & Hl' & Hc).
  destruct (namespaces_spec suffixes) as [Hnd Hall]. exists have'. split; [done|].
  apply (plan_reconciles _ _ have); [by eapply sys_ids|done| |done|by rewrite Hplan].
  eapply Forall_impl; [exact Hall|]. intros ns (s & -> & Hw). split; [by apply sameNamespace_wanted|].
  apply to_lower_plain. destruct Hw as (_ & Hp & _). by rewrite plain_app, Hp.
Qed.

(** After the rules were forgotten, applying a set of suffixes either fails and remembers
    nothing new, or leaves exactly one of our rules for every namespace wanted, each
    pointing at the resolver, and nothing else of ours; doing it again at once changes
    nothing, neither the system nor the binder. *)
Theorem Apply_reconciles b w suffixes :
  trim_space (b_server b) = b_server b →
  let b0 := Resync b in
  match Apply b0 w suffixes with
  | (b', w', Some e) => b' = b0
  | (b', w', None) =>
    reconciled w' (b_server b) suffixes ∧ Apply b' w' suffixes = (b', w', None)
  end.
Proof.
  intros Hserver b0. pose proof (Apply_cases b0 w suffixes Hserver) as Hc.
  destruct (Apply b0 w suffixes) as [[b' w'] [e|]]; [done|].
  destruct Hc as [[? _]|[-> Hr]]; [done|]. split; [done|].
  unfold Apply. cbn [b_synced b_last]. by rewrite String.eqb_refl.
Qed.

(** Uninstalling leaves none of our rules behind, whichever run installed them. *)
Lemma Purge_clears w w' : Purge w = (w', None) → sys_list w' = Ok [].
Proof.
  unfold Purge. pose proof (Apply_cases (MkBinder "" false "") w []) as Hc.
  destruct (Apply (MkBinder "" false "") w []) as [[b1 w1] o]. intros [= -> ->].
  specialize (Hc eq_refl). destruct Hc as [[? _]|[_ (have & Hl & Hn & _)]]; [done|].
  change (namespaces []) with (@nil string) in Hn. apply Permutation_nil_r in Hn.
  apply fmap_nil_inv in Hn as ->. done.
Qed.
End apply.

(** A binder made for an IPv4 resolver address names its server without blanks. *)
Lemma string4_plain v : plain (string4 v) = true.
Proof.
  apply plain_bytes, Forall_forall. intros c Hc.
  destruct (is_digit c) eqn:Hd; [unfold is_digit in Hd; unfold plain_byte; lia|].
  destruct (Ascii.eqb_spec c ".") as [->|Hne]; [done|].
  pose proof (string4_bytes c v Hd Hne) as Hb. exfalso. revert Hb Hc. generalize (string4 v). intros s.
  induction s as [|a s IH]; [set_solver|]. cbn [has_byte list_ascii_of_string].
  rewrite orb_false_iff, elem_of_cons. intros [Ha Hs] [->|Hc]; [by rewrite Ascii.eqb_refl in Ha|by apply IH].
Qed.

Lemma New_server addr b v :
  New addr = Ok b → ap_addr <$> ParseAddrPort addr = Some (Addr4 v) → trim_space (b_server b) = b_server b.
Proof.
  unfold New. destruct (ParseAddrPort addr) as [ap|]; [|done]. destruct (negb _); [done|].
  intros [= <-] [= ->]. cbn [b_server addr_String]. apply trim_space_plain, string4_plain.
Qed.

(** ** Witness: a table held in memory *)

Definition mem_rule (x : string * (string * string)) : Rule := MkRule x.1 (to_lower x.2.1) [x.2.2].

Fixpoint mem_add (w : gmap string (string * string)) (add : list string) (server : string) :=
  match add with
  | [] => w
  | ns :: add => mem_add (<[fresh (dom w) := (ns, server)]> w) add server
  end.

Definition mem_remove (w : gmap string (string * string)) (remove : list string) :=
  filter (λ x, x.1 ∉ remove) w.

#[local] Instance mem_system : System (gmap string (string * string)) string := {|
  sys_list w := Ok (mem_rule <$> map_to_list w);
  sys_mutate w add remove server := (mem_add (mem_remove w remove) add server, None);
|}.

Lemma mem_add_spec add w server :
  ∃ new, mem_rule <$> map_to_list (mem_add w add server) ≡ₚ (mem_rule <$> map_to_list w) ++ new ∧
    Forall2 (λ ns r, ru_Namespace r = to_lower ns ∧ ru_Servers r = [server]) add new.
Proof.
  revert w. induction add as [|ns add IH]; intros w; cbn [mem_add]; [exists []; by rewrite app_nil_r|].
  set (i := fresh (dom w)). destruct (IH (<[i:=(ns, server)]> w)) as (new & Hp & Hf).
  exists (mem_rule (i, (ns, server)) :: new). split; [|by constructor].
  rewrite Hp, map_to_list_insert by (apply not_elem_of_dom, is_fresh).
  cbn [fmap list_fmap app]. by rewrite Permutation_middle.
Qed.

#[local] Instance mem_laws : SystemLaws (gmap string (string * string)) string.
Proof.
  split.
  - intros w have [= <-]. rewrite <-list_fmap_compose. apply NoDup_fst_map_to_list.
  - intros w add remove server w' have [= <-] [= <-]. eexists. split; [done|].
    destruct (mem_add_spec add (mem_remove w remove) server) as (new & Hp & Hf). exists new.
    split; [|done]. rewrite Hp. f_equiv. unfold mem_remove. rewrite map_to_list_filter_list.
    by rewrite filter_fmap_compose.
Qed.

Lemma mem_Apply b (w : gmap string (string * string)) l : (Apply b w l).2 = None.
Proof. unfold Apply. cbn [sys_list sys_mutate mem_system]. destruct (_ && _); [done|]. by destruct (plan _ _ _). Qed.

Lemma Apply_reconciles_witness :
  let w : gmap string (string * string) := {["7"%string := (".old"%string, "127.0.0.1"%string)]} in
  let b := MkBinder "127.0.0.1" false "" in
  reconciled (Apply b w ["Alice"; "bob."; "alice"]%string).1.2 "127.0.0.1" ["Alice"; "bob."; "alice"]%string.
Proof.
  intros w b. pose proof (mem_Apply b w ["Alice"; "bob."; "alice"]%string) as Hn.
  pose proof (Apply_reconciles b w ["Alice"; "bob."; "alice"]%string ltac:(by vm_compute)) as Ha.
  cbv zeta in Ha. change (Resync b) with b in Ha. change (b_server b) with "127.0.0.1"%string in Ha.
  revert Hn Ha. generalize (Apply b w ["Alice"; "bob."; "alice"]%string).
  intros [[b' w'] o]. cbn [fst snd]. intros -> [Ha _]. exact Ha.
Defined.
