(* ===== verification/PowerShell.v ===== *)
(** * The policy table through PowerShell (client/nrpt/system_windows.go)

    The binder's rules are read and changed by PowerShell scripts.  First come the program's
    scripts and what it makes of the answer; then [PowerShell], the class of systems that run
    scripts over a policy table, with what is documented of the three commands and of quoting;
    then what a pass of the binder does over any such system.  Texts outside the part that is
    described (a literal that is not printable ASCII, in particular) are run by nothing here:
    the class says nothing of them, and the theorem shows that none is ever written.  At the
    end one system of the class, which the witness uses. *)
From Stdlib Require Import Ascii String.
From S2P Require Import Prelude Unicode GoString GoStringFacts Netip NetipFacts Profile Resolver Nrpt.

Local Open Scope Z_scope.

(** ** The program's scripts and its reading of the answer *)

Definition Tag : string := "zwan-split-dns".
Definition apostrophe : ascii := "'".
Definition bar : ascii := "|".
Definition newline : ascii := "010".
Definition dquote : string := String "034" "".

(** [quote]: every apostrophe is doubled. *)
Fixpoint quote_bytes (l : list ascii) : list ascii :=
  match l with
  | [] => []
  | a :: l => if Ascii.eqb a apostrophe then a :: a :: quote_bytes l else a :: quote_bytes l
  end.

Definition quote (s : string) : string := string_of_list_ascii (quote_bytes (list_ascii_of_string s)).

(** [strings.SplitN(s, c, 3)]. *)
Definition split3 (c : ascii) (s : string) : list string :=
  match cut (String c "") s with
  | None => [s]
  | Some (x, s) => match cut (String c "") s with None => [x; s] | Some (y, z) => [x; y; z] end
  end.

Definition splitServers (s : string) : list string :=
  filter (λ p, p ≠ ""%string) (trim_space <$> split_byte "," s).

(** One round of [list]'s loop: a line that does not have three fields is passed over. *)
Definition parse_line (line : string) : option Rule :=
  match split3 bar (trim_space line) with
  | [id; ns; servers] => if String.eqb id "" then None else Some (MkRule id (to_lower ns) (splitServers servers))
  | _ => None
  end.

Definition parse_list (out : string) : list Rule := omap parse_line (split_byte newline out).

(** The script of [list]. *)
Definition list_script : string :=
  "Get-DnsClientNrptRule -ErrorAction Stop | Where-Object { $_.Comment -eq '" +:+ Tag +:+
  "' } | ForEach-Object { " +:+ dquote +:+ "$($_.Name)|$($_.Namespace -join ',')|$($_.NameServers -join ',')" +:+ dquote +:+ " }".

Section scripts.
Context (ProductName : string).

Definition displayName (namespace : string) : string :=
  ProductName +:+ " (" +:+ trim_prefix namespace "." +:+ ")".

Definition remove_stmt (id : string) : string :=
  "Remove-DnsClientNrptRule -Name '" +:+ quote id +:+ "' -Force -ErrorAction Stop".

Definition add_stmt (server ns : string) : string :=
  "Add-DnsClientNrptRule -Namespace '" +:+ quote ns +:+ "' -NameServers '" +:+ quote server +:+ "' -Comment '" +:+ Tag +:+
  "' -DisplayName '" +:+ quote (displayName ns) +:+ "' -ErrorAction Stop | Out-Null".

Definition script (add remove : list string) (server : string) : string :=
  str_join ((remove_stmt <$> remove) ++ (add_stmt server <$> add)) "; ".
End scripts.

(** ** The system's table, and PowerShell *)

Record PRule : Type := MkPRule {
  pr_name : string;
  pr_spaces : list string;
  pr_servers : list string;
  pr_comment : string;
  pr_display : string;
}.

(** [-eq] compares texts without regard to case. *)
Definition tagged (r : PRule) : bool := equal_fold (pr_comment r) Tag.

(** Names (GUIDs in braces), DNS namespaces and addresses: visible ASCII without quotes and
    without the separators of the listing. *)
Definition field_byte (a : ascii) : bool :=
  solid_byte a && negb (Ascii.eqb a bar) && negb (Ascii.eqb a ",") && negb (byte_val a =? 34) && negb (byte_val a =? 127).

Definition field (s : string) : bool := negb (String.eqb s "") && forallb field_byte (list_ascii_of_string s).

Definition printable (r : PRule) : bool :=
  field (pr_name r) && forallb field (pr_spaces r) && forallb field (pr_servers r).

(** What the script of [list] prints: [-join] puts a comma between the elements. *)
Definition print_rule (r : PRule) : string :=
  pr_name r +:+ "|" +:+ str_join (pr_spaces r) "," +:+ "|" +:+ str_join (pr_servers r) ",".

Definition crlf : string := String "013" (String newline "").

Definition print_rules (t : list PRule) : string :=
  foldr (λ r s, print_rule r +:+ crlf +:+ s) ""%string t.

(** Ours, and those of others. *)
Definition ours (t : list PRule) : list PRule := filter (λ r, tagged r = true) t.
Definition foreign (t : list PRule) : list PRule := filter (λ r, tagged r = false) t.

Inductive command : Type :=
| RemoveRule (id : string)
| AddRule (namespace server comment display : string).

(** The value of a single-quoted literal: a doubled apostrophe stands for one.  Only literals
    of printable ASCII without double quotes are described: PowerShell also takes typographic
    quotes for apostrophes. *)
Definition literal_byte (a : ascii) : bool :=
  (32 <=? byte_val a) && (byte_val a <? 127) && negb (byte_val a =? 34).

Fixpoint unquote_bytes (l : list ascii) : option (list ascii) :=
  match l with
  | [] => Some []
  | a :: l =>
    if Ascii.eqb a apostrophe
    then match l with b :: l => if Ascii.eqb b apostrophe then cons b <$> unquote_bytes l else None | [] => None end
    else if literal_byte a then cons a <$> unquote_bytes l else None
  end.

Definition unquote (s : string) : option string :=
  string_of_list_ascii <$> unquote_bytes (list_ascii_of_string s).

(** The statements that are described, with the command each one is. *)
Inductive statement : string → command → Prop :=
| st_remove q id :
    unquote q = Some id →
    statement ("Remove-DnsClientNrptRule -Name '" +:+ q +:+ "' -Force -ErrorAction Stop") (RemoveRule id)
| st_add qn ns qs server qc comment qd display :
    unquote qn = Some ns → unquote qs = Some server → unquote qc = Some comment → unquote qd = Some display →
    statement ("Add-DnsClientNrptRule -Namespace '" +:+ qn +:+ "' -NameServers '" +:+ qs +:+ "' -Comment '" +:+ qc +:+
               "' -DisplayName '" +:+ qd +:+ "' -ErrorAction Stop | Out-Null") (AddRule ns server comment display).

(** What a command that is carried out does to the table.  A new rule's namespace is stored
    in any case of letters. *)
Inductive effect (t : list PRule) : command → list PRule → Prop :=
| ef_remove id t' : t' ≡ₚ filter (λ r, pr_name r ≠ id) t → effect t (RemoveRule id) t'
| ef_add ns server comment display r t' :
    to_lower <$> pr_spaces r = [to_lower ns] → pr_servers r = [server] → pr_comment r = comment →
    t' ≡ₚ t ++ [r] → effect t (AddRule ns server comment display) t'.

(** Statements are run in turn, and [-ErrorAction Stop] ends the script at the first that
    fails; nothing says whether that one was carried out. *)
Inductive runs : list PRule → list command → list PRule → bool → Prop :=
| runs_end t t' : t' ≡ₚ t → runs t [] t' true
| runs_next t c t1 cs t' ok : effect t c t1 → runs t1 cs t' ok → runs t (c :: cs) t' ok
| runs_failed t c cs t' : t' ≡ₚ t ∨ effect t c t' → runs t (c :: cs) t' false.

(** [ps_run] is [exec.Command] with the script: the error, if any, and what it printed. *)
Class PowerShell (W : Type) := {
  ps_run : W → string → W * (option string * string);
  ps_rules : W → list PRule;
}.

Class PowerShellLaws (W : Type) `{PowerShell W} := {
  ps_names : ∀ w, NoDup (pr_name <$> ps_rules w);
  ps_plain : ∀ w r, r ∈ ps_rules w → tagged r = true → printable r = true;
  (** Listing changes nothing; it may fail, and prints the rules in any order. *)
  ps_listing : ∀ w, (ps_run w list_script).1 = w;
  ps_printed : ∀ w out, (ps_run w list_script).2 = (None, out) →
    ∃ l, l ≡ₚ ours (ps_rules w) ∧ out = print_rules l;
  ps_ran : ∀ w stmts cs, stmts ≠ [] → Forall2 statement stmts cs →
    runs (ps_rules w) cs (ps_rules (ps_run w (str_join stmts "; ")).1)
      (bool_decide ((ps_run w (str_join stmts "; ")).2.1 = None));
}.

(** ** The calls of the program *)

Inductive ps_error : Type := EReadPolicy (e : string) | EUpdatePolicy (e : string).

Section calls.
Context {W : Type} `{PowerShell W} (ProductName : string).

Definition powershell (w : W) (s : string) : W * result string string :=
  let '(w, (e, out)) := ps_run w s in
  (w, match e with Some e => Err (e +:+ ": " +:+ trim_space out) | None => Ok out end).

(** [list] and [mutate]. *)
Definition list_rules (w : W) : result ps_error (list Rule) :=
  match (powershell w list_script).2 with
  | Ok out => Ok (parse_list out)
  | Err e => Err (EReadPolicy e)
  end.

Definition mutate (w : W) (add remove : list string) (server : string) : W * option ps_error :=
  match add, remove with
  | [], [] => (w, None)
  | _, _ =>
    let '(w, r) := powershell w (script ProductName add remove server) in
    (w, match r with Ok _ => None | Err e => Some (EUpdatePolicy e) end)
  end.

#[local] Instance ps_system : System W ps_error := {| sys_list := list_rules; sys_mutate := mutate |}.
End calls.

(** The rule the binder is told of. *)
Definition listed (r : PRule) : Rule :=
  MkRule (pr_name r) (to_lower (str_join (pr_spaces r) ",")) (pr_servers r).

Definition listing (t : list PRule) : list Rule := listed <$> ours t.

(** ** What the program reads *)

Lemma solid_trim_cr l :
  Forall (λ a, solid_byte a = true) l → trim_bytes (l ++ ["013"%char]) = l.
Proof.
  intros Hl. unfold trim_bytes.
  assert (Forall (λ a, byte_val a < 0x80) (l ++ ["013"%char])) as Ha.
  { apply Forall_app. split; [|by repeat constructor]. eapply Forall_impl; [exact Hl|].
    intros a. cbn beta. unfold solid_byte. lia. }
  rewrite pieces_ascii, fmap_app by done.
  assert (strip (λ p, rune_is_space p.1) (((λ a, (byte_val a, [a])) <$> l) ++ ((λ a, (byte_val a, [a])) <$> ["013"%char])) =
          (λ a, (byte_val a, [a])) <$> l) as ->.
  { assert (Forall (λ p : Z * list ascii, rune_is_space p.1 = false) ((λ a, (byte_val a, [a])) <$> l)) as Hs.
    { apply Forall_fmap. eapply Forall_impl; [exact Hl|]. intros a. unfold solid_byte, rune_is_space. cbn [compose fst]. lia. }
    unfold strip, drop_while_end. destruct l as [|a l]; [by vm_compute|].
    rewrite (drop_while_id _ (_ ++ _)).
    - rewrite reverse_app. cbn [fmap list_fmap reverse]. change (reverse [(byte_val "013"%char, ["013"%char])])
        with [(byte_val "013"%char, ["013"%char])]. cbn [app drop_while fst].
      change (rune_is_space (byte_val "013"%char)) with true. cbn match.
      rewrite drop_while_id, reverse_involutive; [done|]. intros x Hx.
      rewrite head_lookup in Hx. apply list_elem_of_lookup_2 in Hx. rewrite elem_of_reverse in Hx. rewrite Forall_forall in Hs. by apply Hs.
    - intros x. cbn [fmap list_fmap app head]. intros [= <-]. by inversion_clear Hs. }
  rewrite <-list_fmap_compose. apply mjoin_singletons.
Qed.

Lemma field_bytes s : field s = true → s ≠ ""%string ∧
  Forall (λ a, solid_byte a = true) (list_ascii_of_string s) ∧ has_byte bar s = false ∧ has_byte "," s = false ∧
  has_byte newline s = false.
Proof.
  unfold field. rewrite andb_true_iff, negb_true_iff. intros [Hne Hb]. apply String.eqb_neq in Hne. split; [done|].
  clear Hne. induction s as [|a s IH]; [done|]. cbn [list_ascii_of_string forallb] in Hb.
  apply andb_true_iff in Hb as [Ha Hs]. destruct (IH Hs) as (H1 & H2 & H3 & H4).
  unfold field_byte in Ha. rewrite !andb_true_iff, !negb_true_iff in Ha. destruct Ha as [[[[Hsol Hbar] Hcomma] _] _].
  cbn [list_ascii_of_string has_byte]. rewrite H2, H3, H4, Hbar, Hcomma. split_and!; [by constructor|done|done|].
  rewrite orb_false_r. destruct (Ascii.eqb_spec a newline) as [->|]; [by vm_compute in Hsol|done].
Qed.

(** The elements of a joined list, and the list itself. *)
Lemma join_fields l : forallb field l = true →
  Forall (λ a, solid_byte a = true) (list_ascii_of_string (str_join l ",")) ∧
  has_byte bar (str_join l ",") = false ∧ has_byte newline (str_join l ",") = false ∧ splitServers (str_join l ",") = l.
Proof.
  intros Hl. rewrite forallb_forall in Hl. setoid_rewrite <-list_elem_of_In in Hl.
  assert (∀ c, Ascii.eqb "," c = false → (∀ s, s ∈ l → has_byte c s = false) → has_byte c (str_join l ",") = false) as Hc.
  { intros c Hc Hin. clear Hl. induction l as [|x l IH]; [done|]. destruct l as [|y l].
    - apply Hin, list_elem_of_here.
    - change (str_join (x :: y :: l) ",") with (x +:+ "," +:+ str_join (y :: l) ",").
      rewrite !has_byte_app. cbn [has_byte]. rewrite Hc, IH, Hin; [done|apply list_elem_of_here|].
      intros s Hs. by apply Hin, list_elem_of_further. }
  split_and!.
  - clear Hc. induction l as [|x l IH]; [constructor|]. destruct l as [|y l].
    + apply field_bytes, Hl, list_elem_of_here.
    + change (str_join (x :: y :: l) ",") with (x +:+ "," +:+ str_join (y :: l) ",").
      rewrite !list_ascii_app. apply Forall_app. split; [apply field_bytes, Hl, list_elem_of_here|].
      apply Forall_app. split; [by repeat constructor|]. apply IH. intros s Hs. by apply Hl, list_elem_of_further.
  - apply Hc; [done|]. intros s Hs. apply field_bytes. by apply Hl.
  - apply Hc; [done|]. intros s Hs. apply field_bytes. by apply Hl.
  - unfold splitServers. destruct (decide (l = [])) as [->|Hne]; [by vm_compute|].
    rewrite split_join; [|done|].
    + assert (trim_space <$> l = l) as ->.
      { rewrite <-(list_fmap_id l) at 2. apply list_fmap_ext. intros i s Hs. apply list_elem_of_lookup_2 in Hs.
        apply trim_space_solid, field_bytes. by apply Hl. }
      rewrite filter_all; [done|]. apply Forall_forall. intros s Hs. by apply field_bytes, Hl.
    + apply Forall_forall. intros s Hs. apply field_bytes. by apply Hl.
Qed.

Lemma parse_printed r : printable r = true →
  parse_line (print_rule r +:+ String "013" "") = Some (listed r) ∧ has_byte newline (print_rule r) = false.
Proof.
  unfold printable. rewrite !andb_true_iff. intros [[Hn Hs] Hv].
  destruct (field_bytes _ Hn) as (Hne & Hsol & Hbar & _ & Hnl).
  destruct (join_fields _ Hs) as (Hsol2 & Hbar2 & Hnl2 & _). destruct (join_fields _ Hv) as (Hsol3 & _ & Hnl3 & Hsplit).
  assert (Forall (λ a, solid_byte a = true) (list_ascii_of_string (print_rule r))) as Hline.
  { unfold print_rule. rewrite !list_ascii_app. assert (Forall (λ a, solid_byte a = true) (list_ascii_of_string "|")) as Hb by (by repeat constructor).
    by repeat (apply Forall_app; split). }
  split.
  - unfold parse_line, trim_space. rewrite list_ascii_app. change (list_ascii_of_string (String "013" "")) with ["013"%char].
    rewrite solid_trim_cr, string_of_list_ascii_of_string by done. unfold split3, print_rule.
    change ("|" +:+ ?s) with (String bar s). rewrite cut_byte by done.
    change ("|" +:+ ?s) with (String bar s). rewrite cut_byte by done.
    rewrite (proj2 (String.eqb_neq _ _) Hne), Hsplit. done.
  - unfold print_rule. by rewrite !has_byte_app, Hnl, Hnl2, Hnl3.
Qed.

(** What the program reads are exactly the rules that were printed. *)
Lemma list_printed l : Forall (λ r, printable r = true) l → parse_list (print_rules l) = listed <$> l.
Proof.
  unfold print_rules, parse_list. induction 1 as [|r l Hr _ IH]; [by vm_compute|].
  destruct (parse_printed r Hr) as [Hp Hnl]. cbn [foldr fmap list_fmap]. unfold crlf.
  change (print_rule r +:+ String "013" (String newline "") +:+ ?s) with (print_rule r +:+ String "013" "" +:+ String newline s).
  rewrite <-string_app_assoc, split_byte_app by (rewrite has_byte_app, Hnl; by vm_compute).
  cbn [omap list_omap]. rewrite Hp. f_equal. exact IH.
Qed.

(** ** What the program writes *)

Definition literal_text (s : string) : bool := forallb literal_byte (list_ascii_of_string s).

Lemma unquote_quote s : literal_text s = true → unquote (quote s) = Some s.
Proof.
  unfold literal_text, unquote, quote. rewrite bytes_of_string_of. intros Hs.
  assert (unquote_bytes (quote_bytes (list_ascii_of_string s)) = Some (list_ascii_of_string s)) as ->;
    [|cbn; by rewrite string_of_list_ascii_of_string].
  induction (list_ascii_of_string s) as [|a l IH]; [done|]. cbn [forallb] in Hs. apply andb_true_iff in Hs as [Ha Hl].
  cbn [quote_bytes]. destruct (Ascii.eqb a apostrophe) eqn:E; cbn [unquote_bytes]; rewrite ?E; by rewrite ?Ha, IH.
Qed.

Lemma literal_text_app s t : literal_text (s +:+ t) = literal_text s && literal_text t.
Proof. unfold literal_text. by rewrite list_ascii_app, forallb_app. Qed.

Lemma field_literal s : field s = true → literal_text s = true.
Proof.
  unfold field, literal_text. intros [_ Hs]%andb_true_iff. rewrite forallb_forall in *. intros a Ha.
  specialize (Hs a Ha). unfold field_byte, solid_byte, literal_byte in *. lia.
Qed.

Lemma bytes_literal s (P : ascii → Prop) :
  Forall P (list_ascii_of_string s) → (∀ a, P a → literal_byte a = true) → literal_text s = true.
Proof.
  intros Hs HP. unfold literal_text. apply forallb_forall. intros a Ha%list_elem_of_In.
  rewrite Forall_forall in Hs. by apply HP, Hs.
Qed.

Lemma plainName_literal s : plainName s = true → literal_text s = true.
Proof.
  unfold plainName, runes. rewrite andb_true_iff. intros [Hr _].
  rewrite forallb_forall in Hr. setoid_rewrite <-list_elem_of_In in Hr.
  assert (Forall (λ p, plain_rune p.1 = true) (pieces (list_ascii_of_string s))) as Hp.
  { apply Forall_forall. intros p Hin. apply Hr, list_elem_of_fmap. eauto. }
  apply (ascii_runes_bytes (λ r, plain_rune r = true)) in Hp.
  - eapply bytes_literal; [exact Hp|]. intros a. cbn beta. unfold plain_rune, lower_alnum, literal_byte. lia.
  - intros r. unfold plain_rune, lower_alnum. lia.
Qed.

Lemma namespaces_literal l ns : ns ∈ namespaces l → literal_text ns = true.
Proof.
  unfold namespaces, sort_strings. rewrite merge_sort_Permutation. generalize (∅ : gset string).
  induction l as [|s l IH]; intros seen; cbn [namespaces_loop]; [by intros ?%not_elem_of_nil|].
  set (t := to_lower _). destruct (plainName t) eqn:Ht; cbn [negb]; [|by rewrite orb_true_r; apply IH].
  destruct (_ || _ || _); [apply IH|]. intros [->|Hns]%elem_of_cons; [|by eapply IH].
  by rewrite literal_text_app, (plainName_literal t).
Qed.

Lemma string4_literal v : literal_text (string4 v) = true.
Proof.
  eapply (bytes_literal _ (λ a, is_digit a || Ascii.eqb a "." = true)).
  - apply Forall_forall. intros c Hc. destruct (is_digit c) eqn:Hd; [done|].
    destruct (Ascii.eqb_spec c ".") as [->|Hne]; [done|].
    pose proof (string4_bytes c v Hd Hne) as Hb. exfalso. revert Hb Hc. generalize (string4 v). intros s.
    induction s as [|a s IH]; [set_solver|]. cbn [has_byte list_ascii_of_string].
    rewrite orb_false_iff, elem_of_cons. intros [Ha Hs] [->|Hc]; [by rewrite Ascii.eqb_refl in Ha|by apply IH].
  - intros a. destruct (Ascii.eqb_spec a ".") as [->|]; [done|]. rewrite orb_false_r. unfold is_digit, literal_byte. lia.
Qed.

Section laws.
Context {W : Type} `{PowerShellLaws W} (ProductName : string).
Hypothesis product_literal : literal_text ProductName = true.

(** The commands of a plan, removals first. *)
Definition add_command (server ns : string) : command := AddRule ns server Tag (displayName ProductName ns).
Definition plan_commands (add remove : list string) (server : string) : list command :=
  (RemoveRule <$> remove) ++ (add_command server <$> add).

Lemma displayName_literal ns : literal_text ns = true → literal_text (displayName ProductName ns) = true.
Proof using product_literal.
  intros Hns. unfold displayName. rewrite !literal_text_app, product_literal.
  assert (literal_text (trim_prefix ns ".") = true) as ->; [|done].
  unfold trim_prefix. destruct (after_prefix "." ns) as [r|] eqn:Hr; [|done].
  apply after_prefix_sound in Hr as ->. rewrite literal_text_app in Hns. by apply andb_true_iff in Hns as [_ ?].
Qed.

(** Each statement the program writes is the command it means, whatever apostrophes and
    separators the names hold. *)
Lemma script_statements add remove server :
  forallb literal_text remove = true → forallb literal_text add = true → literal_text server = true →
  Forall2 statement ((remove_stmt <$> remove) ++ (add_stmt ProductName server <$> add)) (plan_commands add remove server).
Proof using product_literal.
  rewrite !forallb_forall. setoid_rewrite <-list_elem_of_In. intros Hr Ha Hs.
  apply Forall2_app; apply Forall2_fmap_2, Forall_Forall2_diag, Forall_forall; intros x Hx.
  - apply st_remove, unquote_quote. by apply Hr.
  - apply st_add; [apply unquote_quote; by apply Ha|by apply unquote_quote|done|].
    apply unquote_quote, displayName_literal. by apply Ha.
Qed.

(** ** What a script does *)

(** A command that touches only rules of ours. *)
Definition own_command (t : list PRule) (c : command) : Prop :=
  match c with
  | RemoveRule id => ∀ r, r ∈ t → pr_name r = id → tagged r = true
  | AddRule _ _ comment _ => comment = Tag
  end.

Lemma tagged_tag r : pr_comment r = Tag → tagged r = true.
Proof using Type. unfold tagged. intros ->. by vm_compute. Qed.

Lemma filter_tag_remove t id :
  (∀ r, r ∈ t → pr_name r = id → tagged r = true) → foreign (filter (λ r, pr_name r ≠ id) t) = foreign t.
Proof using Type.
  intros Ht. unfold foreign. rewrite list_filter_filter.
  induction t as [|r t IH]; [done|].
  assert (∀ x, x ∈ t → pr_name x = id → tagged x = true) as Ht' by (intros x Hx; by apply Ht, list_elem_of_further).
  rewrite !filter_cons, IH by done. pose proof (Ht r (list_elem_of_here _ _)) as Hr.
  destruct (decide (pr_name r = id)) as [Hn|Hn]; [specialize (Hr Hn)|];
    repeat case_decide; try done; intuition congruence.
Qed.

Lemma effect_foreign t c t' : own_command t c → effect t c t' → foreign t' ≡ₚ foreign t.
Proof using Type.
  intros Ho He. destruct He as [id t1 Hp|ns server comment display r t1 _ _ Hc Hp]; unfold foreign; rewrite Hp; fold (foreign t).
  - change (foreign (filter (λ r, pr_name r ≠ id) t) ≡ₚ foreign t). by rewrite (filter_tag_remove t id Ho).
  - rewrite filter_app, filter_cons_False, filter_nil, app_nil_r; [done|].
    rewrite tagged_tag; [done|]. by rewrite Hc.
Qed.

Lemma effect_own t c t' d : own_command t c → own_command t d → effect t c t' → own_command t' d.
Proof using Type.
  intros Hc Hd He. destruct d as [id'|]; [|done]. intros r.
  destruct He as [id t1 Hp|ns server comment display x t1 _ _ Hx Hp]; rewrite Hp.
  - intros [_ Hr]%list_elem_of_filter. by apply Hd.
  - intros [Hr| ->%list_elem_of_singleton]%elem_of_app; [by apply Hd|]. intros _. apply tagged_tag. by rewrite Hx.
Qed.

Lemma runs_foreign t cs t' ok : Forall (own_command t) cs → runs t cs t' ok → foreign t' ≡ₚ foreign t.
Proof using Type.
  intros Ho Hr. induction Hr as [t t' Hp|t c t1 cs t' ok He _ IH|t c cs t' [Hp|He]]; [unfold foreign; by rewrite Hp| | |].
  - inversion_clear Ho as [|?? Hc Hcs]. rewrite IH; [by eapply effect_foreign|].
    eapply Forall_impl; [exact Hcs|]. intros d Hd. by apply (effect_own t c).
  - unfold foreign. by rewrite Hp.
  - inversion_clear Ho. by eapply effect_foreign.
Qed.

(** A rule that a command asked for. *)
Definition asked_for (cs : list command) (r : PRule) : Prop :=
  ∃ ns server comment display, AddRule ns server comment display ∈ cs ∧
    to_lower <$> pr_spaces r = [to_lower ns] ∧ pr_servers r = [server].

Lemma effect_rules t c t' r : effect t c t' → r ∈ t' → r ∈ t ∨ asked_for [c] r.
Proof using Type.
  intros [id t1 ->|ns server comment display x t1 Hs Hv Hc ->].
  - intros [_ Hr]%list_elem_of_filter. by left.
  - intros [Hr| ->%list_elem_of_singleton]%elem_of_app; [by left|right].
    exists ns, server, comment, display. split; [apply list_elem_of_here|done].
Qed.

(** Nothing is in the table afterwards that was not there or asked for. *)
Lemma runs_rules t cs t' ok r : runs t cs t' ok → r ∈ t' → r ∈ t ∨ asked_for cs r.
Proof using Type.
  assert (∀ c cs x, asked_for [c] x → asked_for (c :: cs) x) as Hweak.
  { intros c ds x (ns & s & cm & d & Hin & Hx). exists ns, s, cm, d. split; [|done].
    apply list_elem_of_singleton in Hin as <-. apply list_elem_of_here. }
  induction 1 as [t t' Hp|t c t1 cs t' ok He _ IH|t c cs t' [Hp|He]].
  - rewrite Hp. by left.
  - intros [Hr|(ns & s & cm & d & Hin & Hx)]%IH.
    + destruct (effect_rules _ _ _ _ He Hr); [by left|right; by apply Hweak].
    + right. exists ns, s, cm, d. split; [by apply list_elem_of_further|done].
  - rewrite Hp. by left.
  - intros Hr. destruct (effect_rules _ _ _ _ He Hr); [by left|right; by apply Hweak].
Qed.

Lemma runs_removes t remove cs t' :
  runs t ((RemoveRule <$> remove) ++ cs) t' true → ∃ t1, t1 ≡ₚ filter (λ r, pr_name r ∉ remove) t ∧ runs t1 cs t' true.
Proof using Type.
  revert t. induction remove as [|id remove IH]; intros t; cbn [fmap list_fmap app].
  { intros Hr. exists t. split; [|done]. rewrite filter_all; [done|]. apply Forall_forall. intros r _. apply not_elem_of_nil. }
  intros Hr. inversion Hr as [|? ? t1 ? ? ? He Hr1|]; subst. inversion He as [? ? Hp|]; subst.
  destruct (IH t1 Hr1) as (t2 & Hp2 & Hr2). exists t2. split; [|done]. rewrite Hp2, Hp, list_filter_filter.
  erewrite list_filter_iff; [done|]. intros r. rewrite not_elem_of_cons. split; by intros [].
Qed.

Definition new_rule (server ns : string) (r : PRule) : Prop :=
  to_lower <$> pr_spaces r = [to_lower ns] ∧ pr_servers r = [server] ∧ pr_comment r = Tag.

Lemma runs_adds t server add t' :
  runs t (add_command server <$> add) t' true → ∃ new, t' ≡ₚ t ++ new ∧ Forall2 (new_rule server) add new.
Proof using Type.
  revert t. induction add as [|ns add IH]; intros t; cbn [fmap list_fmap].
  { intros Hr. inversion Hr; subst. exists []. by rewrite app_nil_r. }
  intros Hr. inversion Hr as [|? ? t1 ? ? ? He Hr1|]; subst.
  inversion He as [|? ? ? ? r ? Hs Hv Hc Hp]; subst.
  destruct (IH t1 Hr1) as (new & Hp2 & Hn). exists (r :: new). split; [|by constructor].
  rewrite Hp2, Hp. by rewrite <-app_assoc.
Qed.

Lemma listing_new server add new :
  Forall2 (new_rule server) add new →
  Forall2 (λ ns r, ru_Namespace r = to_lower ns ∧ ru_Servers r = [server]) add (listing new).
Proof using Type.
  induction 1 as [|ns r add new (Hs & Hv & Hc) _ IH]; [constructor|]. unfold listing, ours.
  rewrite filter_cons_True by (by apply tagged_tag). cbn [fmap list_fmap].
  constructor; [|exact IH]. cbn [listed ru_Namespace ru_Servers].
  destruct (pr_spaces r) as [|x [|y l]]; [done| |done]. injection Hs as Hx. done.
Qed.

Lemma listing_perm t u : t ≡ₚ u → listing t ≡ₚ listing u.
Proof using Type. unfold listing, ours. by intros ->. Qed.

Lemma listing_app t u : listing (t ++ u) = listing t ++ listing u.
Proof using Type. unfold listing, ours. by rewrite filter_app, fmap_app. Qed.

Lemma listing_kept t (remove : list string) :
  listing (filter (λ r, pr_name r ∉ remove) t) = filter (λ r, ru_ID r ∉ remove) (listing t).
Proof using Type.
  unfold listing, ours. rewrite filter_fmap_compose. f_equal. rewrite !list_filter_filter. apply list_filter_iff.
  intros r. cbn. split; by intros [].
Qed.

(** A script of a plan that succeeds changes the rules as planned. *)
Lemma runs_changed t add remove server t' :
  runs t (plan_commands add remove server) t' true → changed_rules (listing t) add remove server (listing t').
Proof using Type.
  intros (t1 & Hp1 & (new & Hp2 & Hn)%runs_adds)%runs_removes. exists (listing new). split; [|by apply listing_new].
  rewrite (listing_perm _ _ Hp2), listing_app. apply Permutation_app; [|done].
  by rewrite (listing_perm _ _ Hp1), listing_kept.
Qed.

(** ** The calls *)

Lemma list_rules_spec w have :
  list_rules w = Ok have → have ≡ₚ listing (ps_rules w) ∧ NoDup (ru_ID <$> have) ∧ Forall (λ r, field (ru_ID r) = true) have.
Proof using All.
  unfold list_rules, powershell. destruct (ps_run w list_script) as [w1 [[e|] out]] eqn:Hr; [done|]. cbn [snd].
  intros [= <-]. destruct (ps_printed w out) as (l & Hl & ->); [by rewrite Hr|].
  assert (Forall (λ r, printable r = true) l) as Hpr.
  { rewrite Hl. apply Forall_forall. intros r [Ht Hin]%list_elem_of_filter. by eapply ps_plain. }
  rewrite list_printed by done. split_and!.
  - unfold listing. by rewrite Hl.
  - rewrite <-list_fmap_compose. change (ru_ID ∘ listed) with pr_name. rewrite Hl.
    eapply sublist_NoDup; [apply (ps_names w)|]. apply fmap_sublist, sublist_filter.
  - apply Forall_fmap. eapply Forall_impl; [exact Hpr|]. intros r. cbn. unfold printable. intros Hr'.
    rewrite !andb_true_iff in Hr'. tauto.
Qed.

Lemma mutate_spec w add remove server w' e :
  forallb literal_text remove = true → forallb literal_text add = true → literal_text server = true →
  mutate ProductName w add remove server = (w', e) →
  remove ++ add = [] ∧ w' = w ∧ e = None ∨
  runs (ps_rules w) (plan_commands add remove server) (ps_rules w') (bool_decide (e = None)).
Proof using All.
  intros Hr Ha Hs Hm. destruct (decide (remove ++ add = [])) as [[-> ->]%app_nil|Hne].
  { injection Hm as <- <-. by left. }
  right. assert ((remove_stmt <$> remove) ++ (add_stmt ProductName server <$> add) ≠ []) as Hstmts by (by destruct remove, add).
  pose proof (ps_ran w _ _ Hstmts (script_statements add remove server Hr Ha Hs)) as Hrun.
  change (str_join ((remove_stmt <$> remove) ++ (add_stmt ProductName server <$> add)) "; ")
    with (script ProductName add remove server) in Hrun.
  assert (mutate ProductName w add remove server =
    let '(w, r) := powershell w (script ProductName add remove server) in
    (w, match r with Ok _ => None | Err e => Some (EUpdatePolicy e) end)) as Hmut by (destruct add, remove; done).
  rewrite Hmut in Hm. unfold powershell in Hm. revert Hrun Hm.
  destruct (ps_run w _) as [w1 [[x|] out]]; cbn [fst snd]; intros Hrun [= <- <-]; exact Hrun.
Qed.

(** ** A pass of the binder *)

Lemma listed_tagged t r id :
  NoDup (pr_name <$> t) → id ∈ ru_ID <$> listing t → r ∈ t → pr_name r = id → tagged r = true.
Proof using Type.
  unfold listing. rewrite <-list_fmap_compose. intros Hnd (x & -> & [Hx Hxt]%list_elem_of_filter)%list_elem_of_fmap Hr Hn.
  assert (r = x) as ->; [|done].
  apply list_elem_of_lookup in Hr as [i Hi]. apply list_elem_of_lookup in Hxt as [j Hj].
  assert (i = j) as ->; [|congruence]. apply (NoDup_lookup _ i j (pr_name r) Hnd); rewrite list_lookup_fmap.
  - by rewrite Hi.
  - rewrite Hj. cbn. by rewrite Hn.
Qed.

Lemma plan_parts want have server :
  (∀ id, id ∈ (plan want have server).2 → id ∈ ru_ID <$> have) ∧ (∀ ns, ns ∈ (plan want have server).1 → ns ∈ want).
Proof using Type.
  unfold plan. pose proof (plan_loop_spec (list_to_set want) server have ∅) as Hspec.
  destruct (plan_loop _ _ _ _) as [found remove]. destruct Hspec as (kept & dropped & Hp & -> & _). cbn [fst snd]. split.
  - intros id. rewrite Hp, fmap_app, elem_of_app. by right.
  - by intros ns [_ Hns]%list_elem_of_filter.
Qed.

Lemma changed_perm have1 have2 add remove server have' :
  have1 ≡ₚ have2 → changed_rules have2 add remove server have' → changed_rules have1 add remove server have'.
Proof using Type. intros Hp (new & Hn & Hf). exists new. by rewrite Hp. Qed.

(** What a pass did, once it looked: the plan's script, or nothing. *)
Lemma pass_ran b w suffixes v have :
  b_server b = string4 v → list_rules w = Ok have →
  let '(add, remove) := plan (namespaces suffixes) have (b_server b) in
  ∀ w' e, mutate ProductName w add remove (b_server b) = (w', e) →
  foreign (ps_rules w') ≡ₚ foreign (ps_rules w) ∧
  (∀ r, r ∈ ours (ps_rules w') → r ∈ ours (ps_rules w) ∨
     ∃ ns, ns ∈ namespaces suffixes ∧ to_lower <$> pr_spaces r = [to_lower ns] ∧ pr_servers r = [b_server b]) ∧
  (e = None → rule_name <$> listing (ps_rules w') ≡ₚ namespaces suffixes ∧
     Forall (λ r, servedBy r (b_server b) = true) (listing (ps_rules w'))).
Proof using All.
  intros Hv Hl. destruct (list_rules_spec w have Hl) as (Hp & Hnd & Hf).
  destruct (plan_parts (namespaces suffixes) have (b_server b)) as [Hrem Hadd].
  pose proof (plan_reconciles (namespaces suffixes) (b_server b) have) as Hrec.
  destruct (plan (namespaces suffixes) have (b_server b)) as [add remove] eqn:Hplan. cbn [fst snd] in *.
  intros w' e Hm. destruct (namespaces_spec suffixes) as [Hwant Hall].
  assert (∀ have', changed_rules have add remove (b_server b) have' →
    rule_name <$> have' ≡ₚ namespaces suffixes ∧ Forall (λ r, servedBy r (b_server b) = true) have') as Hok.
  { intros have'. apply Hrec; [done|done| |by rewrite Hv; apply trim_space_plain, string4_plain].
    eapply Forall_impl; [exact Hall|]. intros ns (s & -> & Hw). split; [by apply sameNamespace_wanted|].
    apply to_lower_plain. destruct Hw as (_ & Hpl & _). by rewrite plain_app, Hpl. }
  destruct (mutate_spec w add remove (b_server b) w' e) as [([-> ->]%app_nil & -> & ->)|Hrun].
  - apply forallb_forall. intros id (r & -> & Hr)%list_elem_of_In%Hrem%list_elem_of_fmap.
    rewrite Forall_forall in Hf. by apply field_literal, Hf.
  - apply forallb_forall. intros ns Hns%list_elem_of_In%Hadd. by eapply namespaces_literal.
  - rewrite Hv. apply string4_literal.
  - done.
  - split_and!; [done|by left|]. intros _. apply Hok. exists []. split; [|constructor].
    rewrite app_nil_r, <-Hp, filter_all; [done|]. apply Forall_forall. intros r _. apply not_elem_of_nil.
  - split_and!.
    + eapply runs_foreign; [|exact Hrun]. unfold plan_commands. apply Forall_app. split; apply Forall_fmap, Forall_forall.
      * intros id Hid r Hr Hn. eapply (listed_tagged (ps_rules w)); [apply ps_names| |exact Hr|exact Hn].
        rewrite <-Hp. by apply Hrem.
      * by intros ns _.
    + intros r [Ht Hr]%list_elem_of_filter. destruct (runs_rules _ _ _ _ r Hrun Hr) as [Hin|(ns & s & cm & d & Hin & Hx)].
      * left. by apply list_elem_of_filter.
      * right. unfold plan_commands in Hin. rewrite elem_of_app, !list_elem_of_fmap in Hin.
        destruct Hin as [(id & [=] & _)|(ns' & [= -> -> _ _] & Hns)]. exists ns'. split; [by apply Hadd|done].
    + intros ->. apply Hok. rewrite bool_decide_true in Hrun by done. by eapply changed_perm, runs_changed.
Qed.

End laws.

(** ** A system of the class

    It reads exactly the statements described: words of letters, digits and hyphens,
    single-quoted literals, and the separators of statements and of a pipeline. *)
Inductive token : Type := Word (s : list ascii) | Literal (s : list ascii) | Semi | Pipe.

#[export] Instance token_eq_dec : EqDecision token.
Proof. solve_decision. Defined.

Inductive mode : Type := Between | InWord (s : list ascii) | InQuote (s : list ascii) | AfterQuote (s : list ascii).

Definition word_byte (a : ascii) : bool :=
  let b := byte_val a in
  ((97 <=? b) && (b <=? 122)) || ((65 <=? b) && (b <=? 90)) || ((48 <=? b) && (b <=? 57)) || (b =? 45).

Definition blank : ascii := " ".
Definition semicolon : ascii := ";".

Fixpoint tokens (m : mode) (l : list ascii) : option (list token) :=
  match l with
  | [] =>
    match m with
    | Between => Some []
    | InWord s => Some [Word s]
    | InQuote _ => None
    | AfterQuote s => Some [Literal s]
    end
  | a :: l =>
    match m with
    | InQuote s => if Ascii.eqb a apostrophe then tokens (AfterQuote s) l
                   else if literal_byte a then tokens (InQuote (s ++ [a])) l else None
    | AfterQuote s =>
      if Ascii.eqb a apostrophe then tokens (InQuote (s ++ [apostrophe])) l
      else if Ascii.eqb a blank then cons (Literal s) <$> tokens Between l
      else if Ascii.eqb a semicolon then (λ ts, Literal s :: Semi :: ts) <$> tokens Between l
      else None
    | InWord s =>
      if Ascii.eqb a blank then cons (Word s) <$> tokens Between l
      else if Ascii.eqb a semicolon then (λ ts, Word s :: Semi :: ts) <$> tokens Between l
      else if word_byte a then tokens (InWord (s ++ [a])) l else None
    | Between =>
      if Ascii.eqb a blank then tokens Between l
      else if Ascii.eqb a apostrophe then tokens (InQuote []) l
      else if Ascii.eqb a semicolon then cons Semi <$> tokens Between l
      else if Ascii.eqb a bar then cons Pipe <$> tokens Between l
      else if word_byte a then tokens (InWord [a]) l else None
    end
  end.

(** The statements of a script. *)
Fixpoint statements (ts cur : list token) : list (list token) :=
  match ts with
  | [] => [cur]
  | t :: ts => if decide (t = Semi) then cur :: statements ts [] else statements ts (cur ++ [t])
  end.

Definition lit (s : list ascii) : string := string_of_list_ascii s.
Definition word (s : string) : token := Word (list_ascii_of_string s).

(** The two commands the scripts use, each with its parameters in one order. *)
Definition parse_statement (ts : list token) : option command :=
  match ts with
  | [a; b; Literal id; c; d; e] =>
    if decide ([a; b; c; d; e] = word <$> ["Remove-DnsClientNrptRule"; "-Name"; "-Force"; "-ErrorAction"; "Stop"]%string)
    then Some (RemoveRule (lit id)) else None
  | [a; b; Literal ns; c; Literal server; d; Literal comment; e; Literal display; f; g; Pipe; h] =>
    if decide ([a; b; c; d; e; f; g; h] = word <$>
         ["Add-DnsClientNrptRule"; "-Namespace"; "-NameServers"; "-Comment"; "-DisplayName"; "-ErrorAction"; "Stop"; "Out-Null"]%string)
    then Some (AddRule (lit ns) (lit server) (lit comment) (lit display)) else None
  | _ => None
  end.

Definition parse_script (s : string) : option (list command) :=
  ts ← tokens Between (list_ascii_of_string s);
  mapM parse_statement (statements ts []).

Inductive item : Type := IWord (s : string) | ILit (s : string) | IPipe.

Definition item_bytes (i : item) : list ascii :=
  match i with
  | IWord s => list_ascii_of_string s
  | ILit s => apostrophe :: quote_bytes (list_ascii_of_string s) ++ [apostrophe]
  | IPipe => [bar]
  end.

Definition item_token (i : item) : token :=
  match i with IWord s => word s | ILit s => Literal (list_ascii_of_string s) | IPipe => Pipe end.

Definition item_ok (i : item) : bool :=
  match i with
  | IWord s => negb (String.eqb s "") && forallb word_byte (list_ascii_of_string s)
  | ILit s => literal_text s
  | IPipe => true
  end.

Definition items_bytes (l : list item) : list ascii := mjoin ((λ i, item_bytes i ++ [blank]) <$> l).

(** What a word byte is not. *)
Lemma word_byte_facts a : word_byte a = true →
  Ascii.eqb a blank = false ∧ Ascii.eqb a apostrophe = false ∧
  Ascii.eqb a semicolon = false ∧ Ascii.eqb a bar = false.
Proof.
  assert (∀ a, implb (word_byte a) (negb (Ascii.eqb a blank) && negb (Ascii.eqb a apostrophe) &&
    negb (Ascii.eqb a semicolon) && negb (Ascii.eqb a bar)) = true) as H by (apply ascii_forall; by vm_compute).
  intros Ha. specialize (H a). rewrite Ha in H. cbn [implb] in H. rewrite !andb_true_iff, !negb_true_iff in H. tauto.
Qed.

Lemma tokens_in_word w s r :
  forallb word_byte w = true → tokens (InWord s) (w ++ r) = tokens (InWord (s ++ w)) r.
Proof.
  revert s. induction w as [|a w IH]; intros s; cbn [forallb]; [by rewrite app_nil_r|].
  intros [Ha Hw]%andb_true_iff. destruct (word_byte_facts a Ha) as (Hb & _ & Hc & _).
  change ((a :: w) ++ r) with (a :: (w ++ r)). cbn [tokens]. rewrite Hb, Hc, Ha, IH by done. by rewrite <-app_assoc.
Qed.

Lemma tokens_in_quote w s r :
  forallb literal_byte w = true → tokens (InQuote s) (quote_bytes w ++ apostrophe :: r) = tokens (AfterQuote (s ++ w)) r.
Proof.
  revert s. induction w as [|a w IH]; intros s; cbn [forallb quote_bytes]; [by rewrite app_nil_r|].
  intros [Ha Hw]%andb_true_iff. destruct (Ascii.eqb a apostrophe) eqn:E.
  - apply Ascii.eqb_eq in E as ->. cbn [app tokens]. rewrite !Ascii.eqb_refl, IH by done. by rewrite <-app_assoc.
  - cbn [app tokens]. rewrite E, Ha, IH by done. by rewrite <-app_assoc.
Qed.

(** An item and a blank are read as the item's token. *)
Lemma tokens_item i r : item_ok i = true →
  tokens Between (item_bytes i ++ blank :: r) = cons (item_token i) <$> tokens Between r.
Proof.
  destruct i as [s|s|]; cbn [item_ok item_bytes item_token].
  - unfold word. intros [Hs Hw]%andb_true_iff. destruct (list_ascii_of_string s) as [|a w] eqn:Hl; [by destruct s|].
    cbn [forallb] in Hw. apply andb_true_iff in Hw as [Ha Hw].
    destruct (word_byte_facts a Ha) as (Hb & Hq & Hsemi & Hbar).
    cbn [app tokens]. rewrite Hb, Hq, Hsemi, Hbar, Ha, tokens_in_word by done. cbn [tokens]. by rewrite Ascii.eqb_refl.
  - intros Hs. cbn [app tokens]. change (Ascii.eqb apostrophe blank) with false. rewrite Ascii.eqb_refl.
    rewrite <-app_assoc. cbn [app]. rewrite tokens_in_quote by done. reflexivity.
  - reflexivity.
Qed.

Lemma tokens_items l r : forallb item_ok l = true →
  tokens Between (items_bytes l ++ r) = app (item_token <$> l) <$> tokens Between r.
Proof.
  induction l as [|i l IH]; cbn [forallb].
  - intros _. cbn. by destruct (tokens Between r).
  - intros [Hi Hl]%andb_true_iff. change (items_bytes (i :: l)) with ((item_bytes i ++ [blank]) ++ items_bytes l).
    rewrite <-!app_assoc. cbn [app]. rewrite tokens_item, IH by done. by destruct (tokens Between r).
Qed.

(** *** The statements *)

Definition remove_items (id : string) : list item :=
  [IWord "Remove-DnsClientNrptRule"; IWord "-Name"; ILit id; IWord "-Force"; IWord "-ErrorAction"]%string.

Definition add_items (ns server comment display : string) : list item :=
  [IWord "Add-DnsClientNrptRule"; IWord "-Namespace"; ILit ns; IWord "-NameServers"; ILit server; IWord "-Comment";
   ILit comment; IWord "-DisplayName"; ILit display; IWord "-ErrorAction"; IWord "Stop"; IPipe]%string.

Definition command_tokens (c : command) : list token :=
  match c with
  | RemoveRule id => (item_token <$> remove_items id) ++ [word "Stop"]
  | AddRule ns server comment display => (item_token <$> add_items ns server comment display) ++ [word "Out-Null"]
  end.

Lemma unquote_bytes_inv l s :
  unquote_bytes l = Some s → l = quote_bytes s ∧ forallb literal_byte s = true.
Proof.
  revert s. induction l as [l IH] using (induction_ltof1 _ (@length ascii)). intros s.
  assert (literal_byte apostrophe = true) as Hap by (by vm_compute).
  destruct l as [|a l]; cbn [unquote_bytes]; [by intros [= <-]|]. destruct (Ascii.eqb_spec a apostrophe) as [->|Hne].
  - destruct l as [|b l]; [done|]. destruct (Ascii.eqb_spec b apostrophe) as [->|]; [|done].
    destruct (unquote_bytes l) as [t|] eqn:Ht; [|done]. intros [= <-].
    destruct (IH l ltac:(unfold ltof; cbn; lia) t Ht) as [-> Hl]. cbn [quote_bytes forallb]. by rewrite Ascii.eqb_refl, Hap.
  - destruct (literal_byte a) eqn:Ha; [|done]. destruct (unquote_bytes l) as [t|] eqn:Ht; [|done]. intros [= <-].
    destruct (IH l ltac:(unfold ltof; cbn; lia) t Ht) as [-> Hl]. cbn [quote_bytes forallb].
    by rewrite (proj2 (Ascii.eqb_neq _ _) Hne), Ha.
Qed.

Lemma unquote_inv q s : unquote q = Some s → list_ascii_of_string q = quote_bytes (list_ascii_of_string s) ∧ literal_text s = true.
Proof.
  unfold unquote. destruct (unquote_bytes _) as [l|] eqn:Hl; [|done]. intros [= <-].
  unfold literal_text. rewrite bytes_of_string_of. by apply unquote_bytes_inv.
Qed.

(** A text that is read as these tokens, alone and before another statement. *)
Definition reads (s : string) (ts : list token) : Prop :=
  tokens Between (list_ascii_of_string s) = Some ts ∧
  ∀ r, tokens Between (list_ascii_of_string s ++ semicolon :: blank :: r) = (λ x, ts ++ Semi :: x) <$> tokens Between r.

Lemma items_read s l w :
  list_ascii_of_string s = items_bytes l ++ list_ascii_of_string w →
  forallb item_ok l = true → w ≠ ""%string → forallb word_byte (list_ascii_of_string w) = true →
  reads s ((item_token <$> l) ++ [word w]).
Proof.
  intros Hs Hl Hne Hw. unfold reads. rewrite Hs.
  assert (∀ r, tokens Between (list_ascii_of_string w ++ r) = tokens (InWord (list_ascii_of_string w)) r) as Hword.
  { intros r. destruct (list_ascii_of_string w) as [|a t] eqn:E; [by destruct w|].
    cbn [forallb] in Hw. apply andb_true_iff in Hw as [Ha Ht].
    destruct (word_byte_facts a Ha) as (Hb & Hq & Hsemi & Hbar).
    cbn [app tokens]. by rewrite Hb, Hq, Hsemi, Hbar, Ha, tokens_in_word. }
  split.
  - rewrite tokens_items by done. pose proof (Hword []) as E. rewrite app_nil_r in E. by rewrite E.
  - intros r. rewrite <-app_assoc, tokens_items, Hword by done. cbn [tokens].
    change (Ascii.eqb semicolon blank) with false. rewrite Ascii.eqb_refl. cbn [tokens]. rewrite Ascii.eqb_refl.
    destruct (tokens Between r); [|done]. cbn. by rewrite <-app_assoc.
Qed.

Fixpoint sequence (l : list (list token)) : list token :=
  match l with [] => [] | [ts] => ts | ts :: l => ts ++ Semi :: sequence l end.

Lemma join_read (l : list string) (tss : list (list token)) :
  l ≠ [] → Forall2 reads l tss → tokens Between (list_ascii_of_string (str_join l "; ")) = Some (sequence tss).
Proof.
  intros Hne H. destruct H as [|s ts l tss Hs Hl]; [done|]. clear Hne. revert s ts Hs.
  induction Hl as [|s' ts' l tss Hs' _ IH]; intros s ts Hs; [apply Hs|].
  change (str_join (s :: s' :: l) "; ") with (s +:+ "; " +:+ str_join (s' :: l) "; ").
  rewrite !list_ascii_app. change (list_ascii_of_string "; ") with [semicolon; blank]. cbn [app].
  by rewrite (proj2 Hs), (IH s' ts' Hs').
Qed.

Lemma statements_read ts ts' cur :
  Semi ∉ ts → statements (ts ++ Semi :: ts') cur = (cur ++ ts) :: statements ts' [].
Proof.
  revert cur. induction ts as [|t ts IH]; intros cur; [intros _; cbn; by rewrite app_nil_r|].
  rewrite not_elem_of_cons. intros [Ht Hts]. cbn [app statements]. rewrite decide_False by done.
  rewrite IH by done. by rewrite <-app_assoc.
Qed.

Lemma statements_last ts cur : Semi ∉ ts → statements ts cur = [cur ++ ts].
Proof.
  revert cur. induction ts as [|t ts IH]; intros cur; [intros _; cbn; by rewrite app_nil_r|].
  rewrite not_elem_of_cons. intros [Ht Hts]. cbn [statements]. rewrite decide_False by done.
  rewrite IH by done. by rewrite <-app_assoc.
Qed.

Lemma statements_sequence l : l ≠ [] → Forall (λ ts, Semi ∉ ts) l → statements (sequence l) [] = l.
Proof.
  intros Hne Hl. destruct Hl as [|ts l Hts Hl]; [done|]. clear Hne. revert ts Hts.
  induction Hl as [|ts' l Hts' _ IH]; intros ts Hts; [by apply statements_last|].
  change (sequence (ts :: ts' :: l)) with (ts ++ Semi :: sequence (ts' :: l)).
  rewrite statements_read by done. by rewrite IH.
Qed.

Lemma statement_reads s c : statement s c → reads s (command_tokens c).
Proof.
  intros [q id Hq|qn ns qs server qc comment qd display Hn Hs Hc Hd]; apply items_read; try (by vm_compute); try done.
  - apply unquote_inv in Hq as [Hq _]. rewrite !list_ascii_app, Hq. cbn. by rewrite <-!app_assoc.
  - apply unquote_inv in Hq as [_ Hq]. unfold remove_items. cbn [forallb item_ok]. rewrite Hq. by vm_compute.
  - apply unquote_inv in Hn as [Hn _], Hs as [Hs _], Hc as [Hc _], Hd as [Hd _].
    rewrite !list_ascii_app, Hn, Hs, Hc, Hd. do 4 (cbn; rewrite <-?app_assoc). reflexivity.
  - apply unquote_inv in Hn as [_ Hn], Hs as [_ Hs], Hc as [_ Hc], Hd as [_ Hd].
    unfold add_items. cbn [forallb item_ok]. rewrite Hn, Hs, Hc, Hd. by vm_compute.
Qed.

Lemma parse_command c : parse_statement (command_tokens c) = Some c.
Proof.
  destruct c; cbn -[lit decide word]; rewrite decide_True by done; unfold lit; by rewrite !string_of_list_ascii_of_string.
Qed.

Lemma parse_stmts stmts cs :
  stmts ≠ [] → Forall2 statement stmts cs → parse_script (str_join stmts "; ") = Some cs.
Proof.
  intros Hne Hf. unfold parse_script. rewrite (join_read _ (command_tokens <$> cs)); [|done|].
  - cbn [mbind option_bind]. rewrite statements_sequence.
    + apply mapM_Some_2, Forall2_fmap_l, Forall_Forall2_diag, Forall_forall. intros c _. apply parse_command.
    + intros ->%fmap_nil_inv. by apply Forall2_nil_inv_r in Hf.
    + apply Forall_fmap, Forall_forall. intros c _. destruct c; cbn -[word]; unfold word; set_solver.
  - apply Forall2_fmap_r. eapply Forall2_impl; [exact Hf|]. apply statement_reads.
Qed.

(** *** Its table *)

Definition table_ok (t : list PRule) : bool :=
  bool_decide (NoDup (pr_name <$> t)) && forallb (λ r, implb (tagged r) (printable r)) t.

(** The name of a new rule. *)
Definition guid (t : list PRule) : string :=
  string_of_list_ascii (replicate (S (max_list (String.length ∘ pr_name <$> t))) "0"%char).

Definition exec (t : list PRule) (c : command) : option (list PRule) :=
  match c with
  | RemoveRule id => if bool_decide (id ∈ pr_name <$> t) then Some (filter (λ r, pr_name r ≠ id) t) else None
  | AddRule ns server comment display =>
    let r := MkPRule (guid t) [ns] [server] comment display in
    if printable r then Some (t ++ [r]) else None
  end.

Fixpoint run (t : list PRule) (cs : list command) : list PRule * bool :=
  match cs with
  | [] => (t, true)
  | c :: cs => match exec t c with Some t => run t cs | None => (t, false) end
  end.

Lemma guid_new t : guid t ∉ pr_name <$> t.
Proof.
  intros (r & He & Hr)%list_elem_of_fmap.
  assert (String.length (pr_name r) ≤ max_list (String.length ∘ pr_name <$> t))%nat as Hle.
  { apply max_list_elem_of_le, list_elem_of_fmap. by exists r. }
  assert (∀ l, String.length (string_of_list_ascii l) = length l) as Hlen by (induction l; cbn; congruence).
  rewrite <-He in Hle. unfold guid in Hle. rewrite Hlen, length_replicate in Hle. lia.
Qed.

Lemma exec_ok t c t' : table_ok t = true → exec t c = Some t' → table_ok t' = true.
Proof.
  unfold exec, table_ok. rewrite !andb_true_iff, !bool_decide_eq_true, !forallb_forall. setoid_rewrite <-list_elem_of_In.
  intros [Hnd Hp]. destruct c as [id|ns server comment display].
  - case_bool_decide; [|done]. intros [= <-]. split.
    + eapply sublist_NoDup; [exact Hnd|]. apply fmap_sublist, sublist_filter.
    + intros r [_ Hr]%list_elem_of_filter. by apply Hp.
  - destruct (printable _) eqn:Hr; [|done]. intros [= <-]. split.
    + rewrite fmap_app. apply NoDup_app. split_and!; [done| |apply NoDup_singleton].
      intros x Hx ->%list_elem_of_singleton. by apply (guid_new t).
    + intros r [Hin| ->%list_elem_of_singleton]%elem_of_app; [by apply Hp|]. rewrite Hr. apply implb_true_r.
Qed.

Lemma run_ok t cs : table_ok t = true → table_ok (run t cs).1 = true.
Proof.
  revert t. induction cs as [|c cs IH]; intros t Ht; cbn [run]; [done|].
  destruct (exec t c) eqn:He; [|done]. apply IH. by eapply exec_ok.
Qed.

Lemma exec_effect t c t' : exec t c = Some t' → effect t c t'.
Proof.
  destruct c as [id|ns server comment display]; cbn [exec].
  - case_bool_decide; [|done]. intros [= <-]. by constructor.
  - destruct (printable _); [|done]. intros [= <-]. by eapply (ef_add _ _ _ _ _ (MkPRule (guid t) [ns] [server] comment display)).
Qed.

Lemma run_runs t cs : runs t cs (run t cs).1 (run t cs).2.
Proof.
  revert t. induction cs as [|c cs IH]; intros t; cbn [run]; [by constructor|].
  destruct (exec t c) as [t1|] eqn:He; [|constructor; by left].
  econstructor; [by apply exec_effect|apply IH].
Qed.

Record table : Type := MkTable { rules : list PRule; rules_ok : table_ok rules = true }.

Definition exited (ok : bool) : option string := if ok then None else Some "exit status 1"%string.

#[local] Instance shell : PowerShell table := {|
  ps_rules := rules;
  ps_run w s :=
    if String.eqb s list_script then (w, (None, print_rules (ours (rules w)))) else
    match parse_script s with
    | None => (w, (exited false, ""%string))
    | Some cs => (MkTable (run (rules w) cs).1 (run_ok _ cs (rules_ok w)), (exited (run (rules w) cs).2, ""%string))
    end;
|}.

(** No script of statements is the one that lists. *)
Lemma stmts_not_list stmts cs :
  stmts ≠ [] → Forall2 statement stmts cs → String.eqb (str_join stmts "; ") list_script = false.
Proof.
  intros Hne Hf. apply String.eqb_neq. intros E. apply (f_equal (head ∘ list_ascii_of_string)) in E. revert E.
  destruct Hf as [|s c stmts cs Hs _]; [done|].
  assert (head (list_ascii_of_string (str_join (s :: stmts) "; ")) = head (list_ascii_of_string s)) as Hh.
  { assert (s ≠ ""%string) as Hn by (by destruct Hs). destruct stmts; [done|].
    change (str_join (s :: ?x :: ?l) "; ") with (s +:+ "; " +:+ str_join (x :: l) "; ").
    rewrite list_ascii_app. by destruct s. }
  cbn [compose]. rewrite Hh. by destruct Hs.
Qed.

#[local] Instance shell_laws : PowerShellLaws table.
Proof.
  split; cbn [ps_run ps_rules shell].
  - intros [t Ht]. cbn. unfold table_ok in Ht. by apply andb_true_iff in Ht as [?%bool_decide_eq_true _].
  - intros [t Ht] r Hr Htag. cbn in *. unfold table_ok in Ht. apply andb_true_iff in Ht as [_ Ht].
    rewrite forallb_forall in Ht. apply list_elem_of_In in Hr. specialize (Ht r Hr). by rewrite Htag in Ht.
  - intros w. by rewrite String.eqb_refl.
  - intros w out. rewrite String.eqb_refl. intros [= <-]. by exists (ours (rules w)).
  - intros w stmts cs Hne Hf. rewrite (stmts_not_list _ cs), (parse_stmts _ cs) by done. cbn [fst snd rules].
    pose proof (run_runs (rules w) cs) as Hr. by destruct (run (rules w) cs) as [t []].
Qed.

(** ** Witness: a table with another program's rule *)

Definition demo_rules : list PRule :=
  [MkPRule "{1}" [".corp"] ["10.0.0.1"] "domain policy" "";
   MkPRule "{2}" [".old"] ["127.0.0.1"] "zwan-split-dns" "MyWAN (old)"]%string.

Lemma demo_rules_ok : table_ok demo_rules = true.
Proof. by vm_compute. Qed.

Definition demo_pass : Binder * table * option ps_error :=
  Apply (H := ps_system "MyWAN") (MkBinder "127.0.0.1" false "") (MkTable demo_rules demo_rules_ok) ["home"%string].

