(* ===== verification/Firewall.v ===== *)
(** * Firewall rules (shared/firewall)

    A service gets its inbound traffic through a rule that names its program.  The rules are
    changed by netsh.  [FwLaws] says what is documented of the two commands the program gives
    it; either may fail at any time.  At the end one netsh of the class, for witnesses. *)
From Stdlib Require Import Ascii String.
From S2P Require Import Prelude GoString GoStringFacts.

(** ** The program's arguments and its reading of the answer *)

Record FwRule : Type := MkFwRule { fw_Name : string; fw_Exe : string; fw_Description : string }.

Definition addArgs (r : FwRule) : list string :=
  ["advfirewall"; "firewall"; "add"; "rule";
   "name=" +:+ fw_Name r; "dir=in"; "action=allow"; "program=" +:+ fw_Exe r;
   "description=" +:+ fw_Description r; "profile=any"; "enable=yes"]%string.

Definition deleteArgs (name : string) : list string :=
  ["advfirewall"; "firewall"; "delete"; "rule"; "name=" +:+ name]%string.

Definition notFound (out : string) : bool :=
  let s := to_lower out in
  contains s "no rules match" || contains s "not match" || contains s "일치하는" || contains s "찾을 수 없".

Inductive fw_error : Type :=
| ENameAndProgram
| EAddRule (name out : string)
| ERemoveRule (name out : string).

Section fw.
(** netsh: the table after, what it printed, and whether it succeeded. *)
Context {T : Type} (netsh : T → list string → T * (string * bool)).

Definition run (t : T) (args : list string) : T * (string * bool) :=
  let '(t, (out, ok)) := netsh t args in (t, (trim_space out, ok)).

Definition Remove (t : T) (name : string) : T * option fw_error :=
  let '(t, (out, ok)) := run t (deleteArgs name) in
  (t, if negb ok && negb (notFound out) then Some (ERemoveRule name out) else None).

Definition Allow (t : T) (r : FwRule) : T * option fw_error :=
  if String.eqb (fw_Name r) "" || String.eqb (fw_Exe r) "" then (t, Some ENameAndProgram) else
  let '(t, _) := Remove t (fw_Name r) in
  let '(t, (out, ok)) := run t (addArgs r) in
  (t, if ok then None else Some (EAddRule (fw_Name r) out)).
End fw.

(** ** netsh advfirewall firewall *)

Record Installed : Type := MkInstalled {
  in_name : string; in_dir : string; in_action : string; in_program : string;
  in_description : string; in_profile : string; in_enable : string;
}.

Class FwTable (T : Type) := { fw_rules : T → list Installed }.

(** Rules of a name, and rules whose names differ from it by more than case. *)
Definition named (name : string) (t : list Installed) : list Installed := filter (λ r, in_name r = name) t.
Definition others (name : string) (t : list Installed) : list Installed := filter (λ r, equal_fold (in_name r) name = false) t.

(** Adding adds one rule; deleting takes every rule of the name away, and none whose name
    differs by more than case; a command that fails changes nothing.  A deletion that says it
    found none had none to find.  The name [all] stands for every rule. *)
Class FwLaws {T : Type} `{FwTable T} (netsh : T → list string → T * (string * bool)) : Prop := {
  fl_add t n d a p ds pr en t' out ok : n ≠ ""%string → n ≠ "all"%string →
    netsh t ["advfirewall"; "firewall"; "add"; "rule"; "name=" +:+ n; "dir=" +:+ d; "action=" +:+ a; "program=" +:+ p;
             "description=" +:+ ds; "profile=" +:+ pr; "enable=" +:+ en]%string = (t', (out, ok)) →
    fw_rules t' ≡ₚ if ok then MkInstalled n d a p ds pr en :: fw_rules t else fw_rules t;
  fl_delete t n t' out ok : n ≠ ""%string → n ≠ "all"%string →
    netsh t ["advfirewall"; "firewall"; "delete"; "rule"; "name=" +:+ n]%string = (t', (out, ok)) →
    if ok then ∃ keep : Installed → bool,
      (∀ r, in_name r = n → keep r = false) ∧ (∀ r, equal_fold (in_name r) n = false → keep r = true) ∧
      fw_rules t' ≡ₚ filter (λ r, keep r = true) (fw_rules t)
    else fw_rules t' ≡ₚ fw_rules t ∧ (notFound (trim_space out) = true → named n (fw_rules t) = []);
}.

(** The rule a service is given. *)
Definition allowed (r : FwRule) : Installed :=
  MkInstalled (fw_Name r) "in" "allow" (fw_Exe r) (fw_Description r) "any" "yes".

Section laws.
Context {T : Type} {netsh : T → list string → T * (string * bool)} `{laws : FwLaws T netsh}.

Lemma named_perm n t u : t ≡ₚ u → named n t ≡ₚ named n u.
Proof using Type. unfold named. by intros ->. Qed.

Lemma others_perm n t u : t ≡ₚ u → others n t ≡ₚ others n u.
Proof using Type. unfold others. by intros ->. Qed.

Lemma equal_fold_refl n : equal_fold n n = true.
Proof using Type. unfold equal_fold. by apply bool_decide_eq_true. Qed.

(** Removing leaves other rules; without an error none of the name is left, and with one
    nothing has changed. *)
Lemma Remove_spec t n t' e : n ≠ ""%string → n ≠ "all"%string → Remove netsh t n = (t', e) →
  others n (fw_rules t') ≡ₚ others n (fw_rules t) ∧
  match e with None => named n (fw_rules t') = [] | Some _ => fw_rules t' ≡ₚ fw_rules t end.
Proof using laws.
  intros Hn Hall. unfold Remove, run. destruct (netsh t (deleteArgs n)) as [t1 [out ok]] eqn:Hd.
  pose proof (fl_delete t n t1 out ok Hn Hall Hd) as Hl. intros [= <- <-]. destruct ok; cbn [negb andb].
  - destruct Hl as (keep & Hk1 & Hk2 & Hp). split.
    + rewrite (others_perm _ _ _ Hp). unfold others. rewrite list_filter_filter. erewrite list_filter_iff; [done|].
      intros r. cbn. split; [by intros []|]. intros Hr. split; [done|by apply Hk2].
    + apply Permutation_nil. symmetry. rewrite (named_perm _ _ _ Hp). unfold named.
      rewrite (filter_none (λ r, in_name r = n)); [done|]. apply Forall_forall. intros r [Hr _]%list_elem_of_filter E.
      by rewrite Hk1 in Hr.
  - destruct Hl as [Hp Hm]. split; [by apply others_perm|]. destruct (notFound (trim_space out)); cbn [negb]; [|done].
    apply Permutation_nil. symmetry. by rewrite (named_perm _ _ _ Hp), Hm.
Qed.

(** Allowing leaves other rules; without an error the rule is there, and it is the only one
    of its name unless the old ones could not be removed, which is not reported; with an
    error, the old ones are there or not. *)
Lemma Allow_spec t r t' e :
  fw_Name r ≠ ""%string → fw_Name r ≠ "all"%string → fw_Exe r ≠ ""%string → Allow netsh t r = (t', e) →
  others (fw_Name r) (fw_rules t') ≡ₚ others (fw_Name r) (fw_rules t) ∧
  let old := named (fw_Name r) (fw_rules (Remove netsh t (fw_Name r)).1) in
  ((Remove netsh t (fw_Name r)).2 = None → old = []) ∧
  named (fw_Name r) (fw_rules t') ≡ₚ match e with None => allowed r :: old | Some _ => old end.
Proof using laws.
  intros Hn Hall He. unfold Allow. rewrite (proj2 (String.eqb_neq _ _) Hn), (proj2 (String.eqb_neq _ _) He). cbn [orb].
  destruct (Remove netsh t (fw_Name r)) as [t1 e1] eqn:Hr. cbn [fst snd].
  destruct (Remove_spec _ _ _ _ Hn Hall Hr) as [Ho1 He1].
  unfold run. destruct (netsh t1 (addArgs r)) as [t2 [out ok]] eqn:Ha. intros [= <- <-].
  pose proof (fl_add t1 (fw_Name r) "in" "allow" (fw_Exe r) (fw_Description r) "any" "yes" t2 out ok Hn Hall Ha) as Hp.
  fold (allowed r) in Hp. split_and!.
  - rewrite <-Ho1, (others_perm _ _ _ Hp). destruct ok; [|done]. unfold others.
    rewrite filter_cons_False; [done|]. cbn. by rewrite equal_fold_refl.
  - intros ->. exact He1.
  - rewrite (named_perm _ _ _ Hp). destruct ok; [|done]. unfold named. by rewrite filter_cons_True.
Qed.
End laws.

(** ** A netsh of the class *)

(** The value of a parameter. *)
Definition param (k : string) (args : list string) : string := default ""%string (head (omap (after_prefix (k +:+ "=")) args)).

Lemma param_head k v args : param k ((k +:+ "=" +:+ v) :: args) = v.
Proof. unfold param. cbn [omap list_omap]. rewrite <-string_app_assoc, after_prefix_app. done. Qed.

#[export] Instance list_table : FwTable (list Installed) := {| fw_rules t := t |}.

Definition fw_netsh (t : list Installed) (args : list string) : list Installed * (string * bool) :=
  if decide (take 4 args = ["advfirewall"; "firewall"; "add"; "rule"]%string) then
    let p k := param k (drop 4 args) in
    (MkInstalled (p "name") (p "dir") (p "action") (p "program") (p "description") (p "profile") (p "enable") :: t, ("Ok."%string, true))
  else if decide (take 4 args = ["advfirewall"; "firewall"; "delete"; "rule"]%string) then
    let name := param "name" (drop 4 args) in
    if decide (named name t = []) then (t, ("No rules match the specified criteria."%string, false))
    else (filter (λ r, in_name r ≠ name) t, ("Ok."%string, true))
  else (t, ("The requested operation requires elevation."%string, false)).

#[export] Instance fw_netsh_laws : FwLaws fw_netsh.
Proof.
  split.
  - intros t n d a p ds pr en t' out ok _ _ Hn. unfold fw_netsh in Hn. rewrite decide_True in Hn by done.
    injection Hn as <- <- <-. cbn [fw_rules list_table drop].
    apply Permutation_refl.
  - intros t n t' out ok _ _ Hn. unfold fw_netsh in Hn. rewrite decide_False, decide_True in Hn by done. cbn [drop] in Hn.
    change ("name=" +:+ n)%string with ("name" +:+ "=" +:+ n)%string in Hn. rewrite param_head in Hn.
    destruct (decide (named n t = [])) as [Hnil|Hne]; injection Hn as <- <- <-; [by split|].
    exists (λ r, bool_decide (in_name r ≠ n)). split_and!.
    + intros r Hr. apply bool_decide_eq_false. intros Hc. by apply Hc.
    + intros r Hr. apply bool_decide_eq_true. intros E. by rewrite E, equal_fold_refl in Hr.
    + cbn. erewrite list_filter_iff; [done|]. intros r. symmetry. apply bool_decide_eq_true.
Qed.
