(* ===== verification/Tun.v ===== *)
(** * The virtual adapter (client/tun)

    The adapter is created by the WireGuard library; its addresses and routes are set by
    netsh.  [IpLaws] says what is documented of the three commands the program gives it; any
    of them may fail at any time.  At the end one netsh of the class, which the witness uses. *)
From Stdlib Require Import Ascii String.
From S2P Require Import Prelude GoString GoStringFacts Netip NetipFacts Firewall.

Definition DefaultMTU : Z := 1420.

(** [net.CIDRMask] for IPv4, and how it is printed; outside the range its bytes do not
    exist. *)
Definition CIDRMask (ones : Z) : option (list Z) :=
  if (0 <=? ones)%Z && (ones <=? 32)%Z
  then Some ((λ i, 255 - Z.shiftr 255 (0 `max` (8 `min` (ones - 8 * i))))%Z <$> [0; 1; 2; 3]%Z)
  else None.

Definition dotted (mask : list Z) : string := str_join (itoa <$> mask) ".".

(** The messages of netsh are in the system's language. *)
Definition alreadyThere (out : string) : bool := contains out "already exists" || contains out "이미 있".

Inductive tun_error : Type :=
| ECreateAdapter (name : string)
| ESetAddress (attempt : nat) (out : string)
| EAddAddress (ip name out : string)
| EAddRoute (ip name out : string)
| EMask.

Section tun.
(** netsh: the system after, what it printed, and whether it succeeded; the system after half
    a second; the library's creation of an adapter. *)
Context {S : Type} (netsh : S → list string → S * (string * bool)) (sleep : S → S).
Context (CreateTUN : S → string → Z → option S).

Definition Create (w : S) (name : string) (mtu : Z) : S * result tun_error string :=
  let mtu := if (mtu <=? 0)%Z then DefaultMTU else mtu in
  match CreateTUN w name mtu with
  | None => (w, Err (ECreateAdapter name))
  | Some w => (w, Ok name)
  end.

Definition set_args (name ip mask : string) : list string :=
  ["interface"; "ipv4"; "set"; "address"; "name=" +:+ name; "static"; ip; mask]%string.

Fixpoint attempts (todo i : nat) (w : S) (name ip mask : string) : S * option tun_error :=
  match todo with
  | O => (w, None)
  | Datatypes.S todo =>
    let '(w, (out, ok)) := netsh w (set_args name ip mask) in
    if ok then (w, None) else
    let w := sleep w in
    match todo with
    | O => (w, Some (ESetAddress (Datatypes.S i) out))
    | _ => attempts todo (Datatypes.S i) w name ip mask
    end
  end.

Definition setIPv4 (w : S) (name ip : string) (prefix : Z) : S * option tun_error :=
  match CIDRMask prefix with
  | None => (w, Some EMask)
  | Some mask => attempts 12 0 w name ip (dotted mask)
  end.

Definition addIPv4 (w : S) (name ip : string) (prefix : Z) : S * option tun_error :=
  match CIDRMask prefix with
  | None => (w, Some EMask)
  | Some mask =>
    let '(w, (out, ok)) := netsh w ["interface"; "ipv4"; "add"; "address"; "name=" +:+ name; ip; dotted mask]%string in
    (w, if ok || alreadyThere out then None else Some (EAddAddress ip name out))
  end.

Definition addRoute (w : S) (name peerIP : string) : S * option tun_error :=
  let '(w, (out, ok)) := netsh w
    ["interface"; "ipv4"; "add"; "route"; "prefix=" +:+ peerIP +:+ "/32"; "interface=" +:+ name; "store=active"]%string in
  (w, if ok || alreadyThere out then None else Some (EAddRoute peerIP name out)).

(** An adapter is known by its name. *)
Definition SetNodeIP (w : S) (a ip : string) : S * option tun_error := setIPv4 w a ip 32.
Definition AddServiceIP (w : S) (a ip : string) : S * option tun_error := addIPv4 w a ip 32.
Definition AddPeerRoute (w : S) (a peerIP : string) : S * option tun_error := addRoute w a peerIP.

(** [Close] of an adapter whose device may be nil; [close] is the library's. *)
Definition Adapter_Close (close : S → string → S * option string) (w : S) (dev : option string) : S * option string :=
  match dev with None => (w, None) | Some a => close w a end.
End tun.

(** Elsewhere than on Windows, for the name of the system: nothing is done, with an error. *)
Definition setIPv4_other (goos : string) : option string := Some ("tun: IPv4 assignment not implemented on " +:+ goos)%string.
Definition addIPv4_other (goos : string) : option string := Some ("tun: IPv4 assignment not implemented on " +:+ goos)%string.
Definition addRoute_other (goos : string) : option string := Some ("tun: route management not implemented on " +:+ goos)%string.

(** ** netsh interface ipv4 *)

(** The addresses of an adapter with their prefix lengths, and the routes that were added
    over it; adapters go by the names they were created with. *)
Class IpTables (S : Type) := {
  if_addrs : S → string → list (Z * Z);
  if_routes : S → string → list (Z * Z);
}.

Definition same_on {S} `{IpTables S} (w w' : S) (b : string) : Prop :=
  if_addrs w' b = if_addrs w b ∧ if_routes w' b = if_routes w b.

(** A command touches its own adapter only, and nothing when it fails.  An address that is
    there already, on any adapter, or a route over this one, which an address of its own
    also makes, are refused with a message that says so. *)
Class IpLaws {S : Type} `{IpTables S} (netsh : S → list string → S * (string * bool)) (sleep : S → S) : Prop := {
  il_set w a v w' out ok : is_u32 v →
    netsh w ["interface"; "ipv4"; "set"; "address"; "name=" +:+ a; "static"; string4 v; "255.255.255.255"]%string = (w', (out, ok)) →
    (∀ b, b ≠ a → same_on w w' b) ∧
    if ok then if_addrs w' a = [(v, 32%Z)] else same_on w w' a;
  il_add w a v w' out ok : is_u32 v →
    netsh w ["interface"; "ipv4"; "add"; "address"; "name=" +:+ a; string4 v; "255.255.255.255"]%string = (w', (out, ok)) →
    (∀ b, b ≠ a → same_on w w' b) ∧
    if ok then (v ∉ (if_addrs w a).*1) ∧ if_addrs w' a ≡ₚ (v, 32%Z) :: if_addrs w a ∧ if_routes w' a = if_routes w a
    else same_on w w' a ∧ (alreadyThere out = true → ∃ b, v ∈ (if_addrs w b).*1);
  il_route w a v w' out ok : is_u32 v →
    netsh w ["interface"; "ipv4"; "add"; "route"; "prefix=" +:+ string4 v +:+ "/32"; "interface=" +:+ a; "store=active"]%string = (w', (out, ok)) →
    (∀ b, b ≠ a → same_on w w' b) ∧
    if ok then (((v, 32%Z) : Z * Z) ∉ if_routes w a) ∧ if_routes w' a ≡ₚ (v, 32%Z) :: if_routes w a ∧ if_addrs w' a = if_addrs w a
    else same_on w w' a ∧ (alreadyThere out = true → ((v, 32%Z) : Z * Z) ∈ if_routes w a ∨ v ∈ (if_addrs w a).*1);
  il_sleep w b : same_on w (sleep w) b;
}.

(** What the engine does to its adapter after its own address, in the order of its passes. *)
Inductive nic_op : Type := OService (v : Z) | ORoute (v : Z).

Definition op_addr (o : nic_op) : Z := match o with OService v | ORoute v => v end.

Section laws.
Context {S : Type} {netsh : S → list string → S * (string * bool)} {sleep : S → S}.
Context `{laws : IpLaws S netsh sleep}.

Definition do_op (a : string) (w : S) (o : nic_op) : S * option tun_error :=
  match o with
  | OService v => AddServiceIP netsh w a (string4 v)
  | ORoute v => AddPeerRoute netsh w a (string4 v)
  end.

(** A run of them, with what each reported. *)
Definition nic_run (a : string) (w : S) (ops : list nic_op) : S * list (nic_op * option tun_error) :=
  foldl (λ '(w, log) o, let '(w, e) := do_op a w o in (w, log ++ [(o, e)])) (w, []) ops.

(** [k] attempts of a command that failed, with a pause after each, and the last answer. *)
Inductive waited (args : list string) (w : S) : nat → string → S → Prop :=
| waited_none : waited args w 0 "" w
| waited_more k out w1 w2 out' :
    waited args w k out w1 → netsh w1 args = (w2, (out', false)) →
    waited args w (Datatypes.S k) out' (sleep w2).

Lemma attempts_spec a ip mask w0 todo i o w w' e :
  0 < todo → waited (set_args a ip mask) w0 i o w → attempts netsh sleep todo i w a ip mask = (w', e) →
  match e with
  | None => ∃ k o1 w1 out, k < i + todo ∧ waited (set_args a ip mask) w0 k o1 w1 ∧
      netsh w1 (set_args a ip mask) = (w', (out, true))
  | Some err => ∃ out, err = ESetAddress (i + todo) out ∧ waited (set_args a ip mask) w0 (i + todo) out w'
  end.
Proof using Type.
  revert i o w. induction todo as [|todo IH]; intros i o w Ht Hw; [lia|]. cbn [attempts].
  destruct (netsh w (set_args a ip mask)) as [w1 [out ok]] eqn:Hn. destruct ok.
  { intros [= <- <-]. exists i, o, w, out. split_and!; [lia|done|done]. }
  assert (waited (set_args a ip mask) w0 (Datatypes.S i) out (sleep w1)) as Hw1 by (by econstructor).
  destruct todo as [|todo].
  - intros [= <- <-]. exists out. rewrite Nat.add_1_r. by split.
  - intros He. specialize (IH (Datatypes.S i) out (sleep w1) ltac:(lia) Hw1 He). by rewrite <-Nat.add_succ_comm.
Qed.

Lemma mask32 : CIDRMask 32 = Some [255; 255; 255; 255]%Z ∧ dotted [255; 255; 255; 255]%Z = "255.255.255.255"%string.
Proof using Type. by vm_compute. Qed.

Lemma same_trans w1 w2 w3 b : same_on w1 w2 b → same_on w2 w3 b → same_on w1 w3 b.
Proof using Type. unfold same_on. intros [] []. split; congruence. Qed.

Lemma waited_same a v w k out w' : is_u32 v →
  waited (set_args a (string4 v) "255.255.255.255") w k out w' → ∀ b, same_on w w' b.
Proof using laws.
  intros Hv Hw b. induction Hw as [|k out w1 w2 out' _ IH Hn]; [done|].
  destruct (il_set w1 a v w2 out' false Hv Hn) as [Ho Ha].
  eapply same_trans; [exact IH|]. eapply same_trans; [|apply il_sleep].
  destruct (decide (b = a)) as [->|Hb]; [exact Ha|by apply Ho].
Qed.

Lemma AddServiceIP_spec w a v w' e : is_u32 v → AddServiceIP netsh w a (string4 v) = (w', e) →
  (∀ b, b ≠ a → same_on w w' b) ∧ if_routes w' a = if_routes w a ∧
  (if_addrs w' a = if_addrs w a ∨ (v ∉ (if_addrs w a).*1) ∧ if_addrs w' a ≡ₚ (v, 32%Z) :: if_addrs w a) ∧
  match e with
  | None => ∃ b, v ∈ (if_addrs w' b).*1
  | Some e => ∃ out, e = EAddAddress (string4 v) a out ∧ alreadyThere out = false ∧ same_on w w' a
  end.
Proof using laws.
  intros Hv. unfold AddServiceIP, addIPv4. destruct mask32 as [-> ->].
  destruct (netsh w _) as [w1 [out ok]] eqn:Hn. destruct (il_add w a v w1 out ok Hv Hn) as [Ho Ha].
  intros [= <- <-]. destruct ok; cbn [orb].
  - destruct Ha as (Hnew & Hp & Hr). split_and!; [done|done|by right|]. exists a. rewrite Hp. apply list_elem_of_here.
  - destruct Ha as ([Ha Hr] & Hm). split_and!; [done|done|by left|].
    destruct (alreadyThere out) eqn:Ht; [|exists out; split_and!; [done|done|by split]]. destruct (Hm eq_refl) as [b Hb]. exists b.
    destruct (decide (b = a)) as [->|Hne]; [by rewrite Ha|]. by rewrite (proj1 (Ho b Hne)).
Qed.

Lemma AddPeerRoute_spec w a v w' e : is_u32 v → AddPeerRoute netsh w a (string4 v) = (w', e) →
  (∀ b, b ≠ a → same_on w w' b) ∧ if_addrs w' a = if_addrs w a ∧
  (if_routes w' a = if_routes w a ∨ (((v, 32%Z) : Z * Z) ∉ if_routes w a) ∧ if_routes w' a ≡ₚ (v, 32%Z) :: if_routes w a) ∧
  match e with
  | None => ((v, 32%Z) : Z * Z) ∈ if_routes w' a ∨ v ∈ (if_addrs w' a).*1
  | Some e => ∃ out, e = EAddRoute (string4 v) a out ∧ alreadyThere out = false ∧ same_on w w' a
  end.
Proof using laws.
  intros Hv. unfold AddPeerRoute, addRoute.
  destruct (netsh w _) as [w1 [out ok]] eqn:Hn. destruct (il_route w a v w1 out ok Hv Hn) as [Ho Ha].
  intros [= <- <-]. destruct ok; cbn [orb].
  - destruct Ha as (Hnew & Hp & Hr). split_and!; [done|done|by right|]. left. rewrite Hp. apply list_elem_of_here.
  - destruct Ha as ([Ha Hr] & Hm). split_and!; [done|done|by left|].
    destruct (alreadyThere out) eqn:Ht; [|exists out; split_and!; [done|done|by split]]. rewrite Ha, Hr; by apply Hm.
Qed.

(** How the tables of an adapter stand after a run of additions to [w]. *)
Record added (a : string) (w w' : S) (log : list (nic_op * option tun_error)) : Prop := {
  ad_others : ∀ b, b ≠ a → same_on w w' b;
  ad_addrs : ∀ x, x ∈ if_addrs w' a → x ∈ if_addrs w a ∨ ∃ v, x = (v, 32%Z) ∧ OService v ∈ log.*1;
  ad_routes : ∀ x, x ∈ if_routes w' a → x ∈ if_routes w a ∨ ∃ v, x = (v, 32%Z) ∧ ORoute v ∈ log.*1;
  ad_kept : if_addrs w a ⊆ if_addrs w' a ∧ if_routes w a ⊆ if_routes w' a;
  ad_once : (NoDup (if_addrs w a).*1 → NoDup (if_addrs w' a).*1) ∧ (NoDup (if_routes w a) → NoDup (if_routes w' a));
  ad_service : ∀ v, (OService v, None) ∈ log → ∃ b, v ∈ (if_addrs w' b).*1;
  ad_route : ∀ v, (ORoute v, None) ∈ log → ((v, 32%Z) : Z * Z) ∈ if_routes w' a ∨ v ∈ (if_addrs w' a).*1;
  ad_error : ∀ o e, (o, Some e) ∈ log → ∃ out, alreadyThere out = false ∧
    e = match o with OService v => EAddAddress (string4 v) a out | ORoute v => EAddRoute (string4 v) a out end;
}.

(** A list to which something new was added, or nothing. *)
Lemma grown_subseteq {B} (l k : list B) y : k = l ∨ k ≡ₚ y :: l → l ⊆ k.
Proof using Type. intros [->|Hp]; [done|]. intros x Hx. rewrite Hp. by right. Qed.

Lemma fst_subseteq (l k : list (Z * Z)) : l ⊆ k → l.*1 ⊆ k.*1.
Proof using Type. intros Hs x (y & -> & Hy)%list_elem_of_fmap. apply list_elem_of_fmap. exists y. by split; [|apply Hs]. Qed.

Lemma added_service a w w1 log v w2 e : is_u32 v →
  added a w w1 log → AddServiceIP netsh w1 a (string4 v) = (w2, e) → added a w w2 (log ++ [(OService v, e)]).
Proof using laws.
  intros Hv [Ho Ha Hr [Hka Hkr] [Hna Hnr] Hs Hrt He] Hcall.
  destruct (AddServiceIP_spec w1 a v w2 e Hv Hcall) as (Ho2 & Hr2 & Ha2 & He2).
  assert (if_addrs w1 a ⊆ if_addrs w2 a) as Hgrow.
  { apply (grown_subseteq _ _ (v, 32%Z)). destruct Ha2 as [?|[_ ?]]; [by left|by right]. }
  split.
  - intros b Hb. eapply same_trans; [by apply Ho|by apply Ho2].
  - rewrite fmap_app. setoid_rewrite elem_of_app. intros x Hx.
    assert (x ∈ if_addrs w1 a ∨ x = (v, 32%Z)) as [Hx1| ->].
    { destruct Ha2 as [<-|[_ Hp]]; [by left|]. rewrite Hp in Hx. apply elem_of_cons in Hx as [->|]; [by right|by left]. }
    + destruct (Ha x Hx1) as [?|(u & -> & Hu)]; [by left|right; eauto].
    + right. exists v. split; [done|]. right. apply list_elem_of_here.
  - rewrite fmap_app. setoid_rewrite elem_of_app. intros x. rewrite Hr2. intros [?|(u & -> & Hu)]%Hr; [by left|right; eauto].
  - split; [by etrans|by rewrite Hr2].
  - rewrite Hr2. split; [|done]. intros Hnd. specialize (Hna Hnd). destruct Ha2 as [->|[Hnew Hp]]; [done|]. rewrite Hp. by constructor.
  - intros u [Hu|Hu]%elem_of_app.
    + destruct (Hs u Hu) as [b Hb]. exists b. destruct (decide (b = a)) as [->|Hne]; [by apply (fst_subseteq _ _ Hgrow)|].
      by rewrite (proj1 (Ho2 b Hne)).
    + apply list_elem_of_singleton in Hu as [= -> <-]. exact He2.
  - intros u [Hu|Hu]%elem_of_app; [|by apply list_elem_of_singleton in Hu]. rewrite Hr2.
    destruct (Hrt u Hu) as [?|?]; [by left|right; by apply (fst_subseteq _ _ Hgrow)].
  - intros o er [Hu|Hu]%elem_of_app; [by apply He|]. apply list_elem_of_singleton in Hu as [= -> <-].
    destruct He2 as (out & -> & Hout & _). by exists out.
Qed.

Lemma added_route a w w1 log v w2 e : is_u32 v →
  added a w w1 log → AddPeerRoute netsh w1 a (string4 v) = (w2, e) → added a w w2 (log ++ [(ORoute v, e)]).
Proof using laws.
  intros Hv [Ho Ha Hr [Hka Hkr] [Hna Hnr] Hs Hrt He] Hcall.
  destruct (AddPeerRoute_spec w1 a v w2 e Hv Hcall) as (Ho2 & Ha2 & Hr2 & He2).
  assert (if_routes w1 a ⊆ if_routes w2 a) as Hgrow.
  { apply (grown_subseteq _ _ (v, 32%Z)). destruct Hr2 as [?|[_ ?]]; [by left|by right]. }
  split.
  - intros b Hb. eapply same_trans; [by apply Ho|by apply Ho2].
  - rewrite fmap_app. setoid_rewrite elem_of_app. intros x. rewrite Ha2. intros [?|(u & -> & Hu)]%Ha; [by left|right; eauto].
  - rewrite fmap_app. setoid_rewrite elem_of_app. intros x Hx.
    assert (x ∈ if_routes w1 a ∨ x = (v, 32%Z)) as [Hx1| ->].
    { destruct Hr2 as [<-|[_ Hp]]; [by left|]. rewrite Hp in Hx. apply elem_of_cons in Hx as [->|]; [by right|by left]. }
    + destruct (Hr x Hx1) as [?|(u & -> & Hu)]; [by left|right; eauto].
    + right. exists v. split; [done|]. right. apply list_elem_of_here.
  - split; [by rewrite Ha2|by etrans].
  - rewrite Ha2. split; [done|]. intros Hnd. specialize (Hnr Hnd). destruct Hr2 as [->|[Hnew Hp]]; [done|]. rewrite Hp. by constructor.
  - intros u [Hu|Hu]%elem_of_app; [|by apply list_elem_of_singleton in Hu].
    destruct (Hs u Hu) as [b Hb]. exists b. destruct (decide (b = a)) as [->|Hne]; [by rewrite Ha2|].
    by rewrite (proj1 (Ho2 b Hne)).
  - intros u [Hu|Hu]%elem_of_app.
    + rewrite Ha2. destruct (Hrt u Hu) as [?|?]; [left; by apply Hgrow|by right].
    + apply list_elem_of_singleton in Hu as [= -> <-]. exact He2.
  - intros o er [Hu|Hu]%elem_of_app; [by apply He|]. apply list_elem_of_singleton in Hu as [= -> <-].
    destruct He2 as (out & -> & Hout & _). by exists out.
Qed.

Lemma nic_run_added a w ops : Forall (λ o, is_u32 (op_addr o)) ops →
  added a w (nic_run a w ops).1 (nic_run a w ops).2 ∧ (nic_run a w ops).2.*1 = ops.
Proof using laws.
  induction ops as [|o ops IH] using rev_ind; intros Hv.
  { split; [|done]. split; cbn [fst snd nic_run foldl].
    - intros b _. by split.
    - intros x Hx. by left.
    - intros x Hx. by left.
    - done.
    - done.
    - intros v []%not_elem_of_nil.
    - intros v []%not_elem_of_nil.
    - intros o e []%not_elem_of_nil. }
  apply Forall_app in Hv as [Hv Ho]. destruct (IH Hv) as [Ha Hl]. inversion_clear Ho as [|?? Hov _]. clear IH.
  unfold nic_run in *. rewrite foldl_app. destruct (foldl _ _ ops) as [w1 log]. cbn [fst snd foldl] in *.
  destruct (do_op a w1 o) as [w2 e] eqn:Hop. cbn [fst snd]. split; [|by rewrite fmap_app, Hl].
  destruct o as [v|v]; cbn [do_op op_addr] in *; [by eapply added_service|by eapply added_route].
Qed.

End laws.

(** ** A netsh of the class: adapters that take a while, and refuse what they have *)

Record Nic : Type := MkNic { nic_delay : nat; nic_addrs : list Z; nic_routes : list Z }.

Definition demo_there : string := "The object already exists.".

Definition with_nic (w : string → option Nic) (name : string) (f : Nic → option Nic) : (string → option Nic) * (string * bool) :=
  match w name with
  | None => (w, ("failed"%string, false))
  | Some n =>
    if (0 <? nic_delay n)%nat then (w, ("failed"%string, false)) else
    match f n with
    | Some n' => (λ b, if String.eqb b name then Some n' else w b, (""%string, true))
    | None => (w, (demo_there, false))
    end
  end.

Definition ip_of (s : string) : option Z := match ParseAddr s with Some (Addr4 v) => Some v | _ => None end.

Definition demo_netsh (w : string → option Nic) (args : list string) : (string → option Nic) * (string * bool) :=
  default (w, ("failed"%string, false))
    (let rest := drop 4 args in
     if decide (take 4 args = ["interface"; "ipv4"; "set"; "address"]%string) then
       v ← rest !! 2 ≫= ip_of; Some (with_nic w (param "name" rest) (λ n, Some (MkNic 0 [v] (nic_routes n))))
     else if decide (take 4 args = ["interface"; "ipv4"; "add"; "address"]%string) then
       v ← rest !! 1 ≫= ip_of;
       Some (with_nic w (param "name" rest) (λ n, if decide (v ∈ nic_addrs n) then None else Some (MkNic 0 (v :: nic_addrs n) (nic_routes n))))
     else if decide (take 4 args = ["interface"; "ipv4"; "add"; "route"]%string) then
       v ← cut "/" (param "prefix" rest) ≫= λ p, ip_of p.1;
       Some (with_nic w (param "interface" rest) (λ n, if decide (v ∈ nic_routes n) then None else Some (MkNic 0 (nic_addrs n) (v :: nic_routes n))))
     else None).

Definition settle (w : string → option Nic) : string → option Nic :=
  λ b, (λ n, MkNic (pred (nic_delay n)) (nic_addrs n) (nic_routes n)) <$> w b.

#[local] Instance demo_tables : IpTables (string → option Nic) := {|
  if_addrs w a := (λ v, (v, 32%Z)) <$> from_option nic_addrs [] (w a);
  if_routes w a := (λ v, (v, 32%Z)) <$> from_option nic_routes [] (w a);
|}.

Lemma with_nic_spec w a f w' out ok : with_nic w a f = (w', (out, ok)) →
  (∀ b, b ≠ a → same_on w w' b) ∧
  if ok then ∃ n n', w a = Some n ∧ f n = Some n' ∧ w' a = Some n'
  else w' = w ∧ (alreadyThere out = true → ∃ n, w a = Some n ∧ f n = None).
Proof.
  unfold with_nic. destruct (w a) as [n|] eqn:Hn; [|by intros [= <- <- <-]]. destruct (0 <? nic_delay n)%nat; [by intros [= <- <- <-]|].
  destruct (f n) as [n'|] eqn:Hf; intros [= <- <- <-].
  - split.
    + intros b Hb. unfold same_on. cbn. by rewrite (proj2 (String.eqb_neq _ _) Hb).
    + exists n, n'. by rewrite String.eqb_refl.
  - split; [done|]. split; [done|]. intros _. by exists n.
Qed.

Lemma ip_of_string4 v : is_u32 v → ip_of (string4 v) = Some v.
Proof. intros Hv. unfold ip_of. by rewrite ParseAddr_string4. Qed.

Lemma pair_fst (l : list Z) : ((λ v, (v, 32%Z)) <$> l).*1 = l.
Proof. rewrite <-list_fmap_compose. apply list_fmap_id. Qed.

#[local] Instance demo_laws : IpLaws demo_netsh settle.
Proof.
  split.
  - intros w a v w' out ok Hv Hn. unfold demo_netsh in Hn. rewrite decide_True in Hn by done.
    cbn [drop lookup list_lookup mbind option_bind] in Hn. rewrite ip_of_string4 in Hn by done. cbn [mbind option_bind from_option] in Hn.
    change ("name=" +:+ a)%string with ("name" +:+ "=" +:+ a)%string in Hn. rewrite param_head in Hn.
    destruct (with_nic_spec _ _ _ _ _ _ Hn) as [Ho H]. split; [done|]. destruct ok.
    + destruct H as (n & n' & _ & [= <-] & Hw'). cbn. by rewrite Hw'.
    + by destruct H as [-> _].
  - intros w a v w' out ok Hv Hn. unfold demo_netsh in Hn. rewrite decide_False, decide_True in Hn by done.
    cbn [drop lookup list_lookup mbind option_bind] in Hn. rewrite ip_of_string4 in Hn by done. cbn [mbind option_bind from_option] in Hn.
    change ("name=" +:+ a)%string with ("name" +:+ "=" +:+ a)%string in Hn. rewrite param_head in Hn.
    destruct (with_nic_spec _ _ _ _ _ _ Hn) as [Ho H]. split; [done|]. destruct ok.
    + destruct H as (n & n' & Hw & Hf & Hw'). destruct (decide (v ∈ nic_addrs n)); [done|]. injection Hf as <-. cbn.
      rewrite Hw, Hw'. cbn. by rewrite pair_fst.
    + destruct H as [-> Hm]. split; [done|]. intros Ht. destruct (Hm Ht) as (n & Hw & Hf).
      destruct (decide (v ∈ nic_addrs n)); [|done]. exists a. cbn. by rewrite Hw, pair_fst.
  - intros w a v w' out ok Hv Hn. unfold demo_netsh in Hn. rewrite !decide_False, decide_True in Hn by done. cbn [drop] in Hn.
    change ("prefix=" +:+ string4 v +:+ "/32")%string with ("prefix" +:+ "=" +:+ (string4 v +:+ "/32"))%string in Hn.
    rewrite param_head in Hn.
    assert (∀ x l, param "interface" (("prefix" +:+ "=" +:+ x)%string :: l) = param "interface" l) as Hpi by done. rewrite Hpi in Hn.
    change ("interface=" +:+ a)%string with ("interface" +:+ "=" +:+ a)%string in Hn. rewrite param_head in Hn.
    change (string4 v +:+ "/32")%string with (string4 v +:+ String "/" "32")%string in Hn.
    rewrite cut_byte in Hn by (by apply string4_bytes). cbn [mbind option_bind fst] in Hn. rewrite ip_of_string4 in Hn by done.
    cbn [mbind option_bind from_option] in Hn.
    destruct (with_nic_spec _ _ _ _ _ _ Hn) as [Ho H]. split; [done|]. destruct ok.
    + destruct H as (n & n' & Hw & Hf & Hw'). destruct (decide (v ∈ nic_routes n)) as [|Hnew]; [done|]. injection Hf as <-. cbn.
      rewrite Hw, Hw'. cbn. split_and!; [|done|done]. intros (u & [= ->] & Hu)%list_elem_of_fmap. done.
    + destruct H as [-> Hm]. split; [done|]. intros Ht. destruct (Hm Ht) as (n & Hw & Hf).
      destruct (decide (v ∈ nic_routes n)) as [Hin|]; [|done]. left. cbn. rewrite Hw. apply list_elem_of_fmap. by exists v.
  - intros w b. unfold same_on, settle. cbn. by destruct (w b).
Qed.

