(* ===== verification/Deploy.v ===== *)
(** * Installing and removing the services (cmd/zwan-service, cmd/zwan-server:
      service_windows.go)

    Both programs register themselves with the system's service manager, start, and open the
    firewall for their own executable; removing undoes all of it.  netsh is any of the class of
    Firewall.v, and how each request to the service manager ends is an argument.  A message
    that ends the program is an error; the others are its log. *)
From Stdlib Require Import Ascii String.
From S2P Require Import Prelude GoString GoStringFacts Nrpt Firewall.

(** ** The service manager *)

Record Service : Type := MkSvc {
  svc_exe : string;
  svc_display : string;
  svc_description : string;
  svc_automatic : bool;
  svc_running : bool;
}.

Definition set_running (s : Service) (b : bool) : Service :=
  MkSvc (svc_exe s) (svc_display s) (svc_description s) (svc_automatic s) b.

(** How a start ends: it succeeds, it fails because the service runs, or it fails. *)
Inductive start_outcome : Type := Started | AlreadyRunning | StartFailed.

#[export] Instance start_outcome_eq_dec : EqDecision start_outcome.
Proof. solve_decision. Defined.

Definition alreadyRunning (o : start_outcome) : bool := match o with AlreadyRunning => true | _ => false end.

Inductive deploy_error : Type :=
| EExecutable | EManager | EWouldNotStart (name : string) | ECreate (name : string)
| ENotInstalled (name : string) | EDelete (name : string) | EOpen (name : string) | EStartFailed | EStopFailed.

(** The constants of the two programs. *)
Record program : Type := MkProgram {
  serviceName : string; serviceDisplay : string; serviceDesc : string;
  firewallRuleName : string; fw_about : string → string;
}.

Definition engine_program : program :=
  MkProgram "zwanEngine" "zwan overlay engine"
    "Runs the zwan private overlay network (virtual adapter, encrypted tunnel, DNS)."
    "zwan overlay engine" (λ product, "Inbound for the " +:+ product +:+ " overlay engine.").

Definition server_program : program :=
  MkProgram "zwanServer" "zwan control server"
    "Hosts a zwan private overlay network (control plane, DNS/service registry and relay)."
    "zwan control server" (λ product, "Inbound for the " +:+ product +:+ " control server and relay.").

(** ** The commands *)

Inductive command : Type :=
| CmdAsService | CmdUsage | CmdInstall | CmdUninstall | CmdControl (action : string)
| CmdForeground | CmdDriver | CmdUnknown (name : string).

(** The commands both programs have. *)
Definition service_command (name : string) : command :=
  if String.eqb name "install" then CmdInstall
  else if String.eqb name "uninstall" then CmdUninstall
  else if String.eqb name "start" then CmdControl "start"
  else if String.eqb name "stop" then CmdControl "stop"
  else if String.eqb name "run" then CmdForeground
  else CmdUnknown name.

(** zwan-service: whether the service manager started the program ([None] when that cannot be
    told, which ends it), and its arguments. *)
Definition service_main (isSvc : option bool) (args : list string) : option command :=
  match isSvc, args with
  | None, _ => None
  | Some true, _ => Some CmdAsService
  | Some false, [] => Some CmdUsage
  | Some false, a :: _ => Some (if String.eqb a "driver-install" then CmdDriver else service_command a)
  end.

(** zwan-server: [None] when the arguments are not a service command. *)
Definition handleServiceCommand (args : list string) : option command :=
  match args with
  | s :: rest =>
    if negb (String.eqb s "service") then None
    else Some (match rest with [] => CmdUsage | a :: _ => service_command a end)
  | [] => None
  end.

Definition runAsService (isSvc : option bool) : bool := match isSvc with Some b => b | None => false end.

(** ** Under the service manager: [Execute] *)

Inductive svc_request : Type := Interrogate | SvcStop | SvcShutdown | SvcOther.
Inductive svc_status : Type := StartPending | SvcRunning | CurrentStatus | StopPending.

(** What is reported, and whether the networks are taken down before the program returns. *)
Fixpoint serve_requests (r : list svc_request) : list svc_status * bool :=
  match r with
  | [] => ([], false)
  | Interrogate :: r => let '(st, down) := serve_requests r in (CurrentStatus :: st, down)
  | SvcStop :: _ | SvcShutdown :: _ => ([StopPending], true)
  | SvcOther :: r => serve_requests r
  end.

Definition Execute (r : list svc_request) : list svc_status * bool :=
  let '(st, down) := serve_requests r in (StartPending :: SvcRunning :: st, down).

(** The networks go down exactly when the machine or the operator asks for it, and nothing is
    reported after that. *)
Lemma Execute_down r :
  ((Execute r).2 = true ↔ SvcStop ∈ r ∨ SvcShutdown ∈ r) ∧
  ((Execute r).2 = true ↔ last (Execute r).1 = Some StopPending).
Proof.
  unfold Execute. assert (((serve_requests r).2 = true ↔ SvcStop ∈ r ∨ SvcShutdown ∈ r) ∧
    ((serve_requests r).2 = true ↔ last (serve_requests r).1 = Some StopPending)) as [H1 H2].
  { induction r as [|[] r [IH1 IH2]]; cbn [serve_requests].
    - split; [|done]. rewrite !elem_of_nil. naive_solver.
    - destruct (serve_requests r) as [st down]. cbn [fst snd] in *. rewrite !elem_of_cons, last_cons. split; [naive_solver|].
      destruct (last st); naive_solver.
    - split; [|done]. rewrite !elem_of_cons. naive_solver.
    - split; [|done]. rewrite !elem_of_cons. naive_solver.
    - rewrite !elem_of_cons. split; [naive_solver|done]. }
  destruct (serve_requests r) as [st down]. cbn [fst snd] in *. split; [done|]. rewrite H2, !last_cons. destruct (last st); naive_solver.
Qed.

Section deploy.
Context {W E : Type} `{sys : SystemLaws W E}.
Context {T : Type} (netsh : T → list string → T * (string * bool)).
Context (ProductName : string).

(** A service that is marked for deletion counts as gone. *)
Record machine : Type := MkMachine {
  services : gmap string Service;
  firewall : T;
  dns : W;
}.

Definition set_service (w : machine) (name : string) (s : Service) : machine :=
  MkMachine (<[name := s]> (services w)) (firewall w) (dns w).

Definition start_service (o : start_outcome) (w : machine) (name : string) (s : Service) : machine :=
  match o with Started | AlreadyRunning => set_service w name (set_running s true) | StartFailed => w end.

(** What is logged. *)
Inductive notice : Type :=
| NAlready | NStartFailed | NInstalled | NRemoved
| NFirewall (e : fw_error) | NUnreachable | NAllowed
| NPurge (e : E).

(** ** The program *)

Definition firewallRule (p : program) (exe : string) : FwRule :=
  MkFwRule (firewallRuleName p) exe (fw_about p ProductName).

(** A failure is only logged. *)
Definition ensureFirewall (p : program) (w : machine) (exe : string) : machine * list notice :=
  let '(t, e) := Allow netsh (firewall w) (firewallRule p exe) in
  (MkMachine (services w) t (dns w), match e with Some e => [NFirewall e; NUnreachable] | None => [NAllowed] end).

(** [exe] is the path of the program; whether the service manager can be reached, [created]
    whether it registers the service, and how the start ends. *)
Definition install_with (p : program) (exe : option string) (connected created : bool) (o : start_outcome) (w : machine)
  : machine * list notice * result deploy_error () :=
  match exe with
  | None => (w, [], Err EExecutable)
  | Some exe =>
    if negb connected then (w, [], Err EManager) else
    match services w !! serviceName p with
    | Some s =>
      let w := start_service o w (serviceName p) s in
      if negb (bool_decide (o = Started)) && negb (alreadyRunning o) then (w, [], Err (EWouldNotStart (serviceName p))) else
      let '(w, log) := ensureFirewall p w exe in
      (w, NAlready :: log, Ok ())
    | None =>
      if negb created then (w, [], Err (ECreate (serviceName p))) else
      let s := MkSvc exe (serviceDisplay p) (serviceDesc p) true false in
      let w := set_service w (serviceName p) s in
      let w := start_service o w (serviceName p) s in
      let failed := if bool_decide (o = Started) then [] else [NStartFailed] in
      let '(w, log) := ensureFirewall p w exe in
      (w, failed ++ log ++ [NInstalled], Ok ())
    end
  end.

(** [stopped] is whether the service stops when it is told to, [deleted] whether the manager
    removes it. *)
Definition remove_service (p : program) (connected stopped deleted : bool) (w : machine)
  : machine * list notice * result deploy_error () :=
  if negb connected then (w, [], Err EManager) else
  match services w !! serviceName p with
  | None => (w, [], Err (ENotInstalled (serviceName p)))
  | Some s =>
    let w := if stopped then set_service w (serviceName p) (set_running s false) else w in
    if negb deleted then (w, [], Err (EDelete (serviceName p))) else
    let w := MkMachine (delete (serviceName p) (services w)) (firewall w) (dns w) in
    let '(t, e) := Remove netsh (firewall w) (firewallRuleName p) in
    (MkMachine (services w) t (dns w), match e with Some e => [NFirewall e] | None => [] end, Ok ())
  end.

(** zwan-service. *)
Definition install := install_with engine_program.

Definition uninstall (connected stopped deleted : bool) (w : machine) : machine * list notice * result deploy_error () :=
  match remove_service engine_program connected stopped deleted w with
  | (w, log, Err e) => (w, log, Err e)
  | (w, log, Ok _) =>
    let '(d, e) := Purge (dns w) in
    (MkMachine (services w) (firewall w) d, log ++ match e with Some e => [NPurge e] | None => [] end ++ [NRemoved], Ok ())
  end.

(** zwan-server. *)
Definition installService := install_with server_program.

Definition uninstallService (connected stopped deleted : bool) (w : machine) : machine * list notice * result deploy_error () :=
  match remove_service server_program connected stopped deleted w with
  | (w, log, Err e) => (w, log, Err e)
  | (w, log, Ok _) => (w, log ++ [NRemoved], Ok ())
  end.

(** [control]: start or stop by hand. *)
Definition control (p : program) (action : string) (connected stopped : bool) (o : start_outcome) (w : machine)
  : machine * result deploy_error () :=
  if negb connected then (w, Err EManager) else
  match services w !! serviceName p with
  | None => (w, Err (EOpen (serviceName p)))
  | Some s =>
    if String.eqb action "start" then
      (start_service o w (serviceName p) s, match o with Started => Ok () | _ => Err EStartFailed end)
    else if stopped then (set_service w (serviceName p) (set_running s false), Ok ())
    else (w, Err EStopFailed)
  end.

Definition controlService := control server_program.

(** ** What installing leaves *)

Context `{laws : FwLaws T netsh}.

(** A program with names the firewall can tell apart. *)
Definition program_ok (p : program) : Prop :=
  firewallRuleName p ≠ ""%string ∧ firewallRuleName p ≠ "all"%string.

Lemma engine_program_ok : program_ok engine_program.
Proof using Type. done. Qed.

Lemma server_program_ok : program_ok server_program.
Proof using Type. done. Qed.

Lemma start_service_spec o w name s :
  services w !! name = Some s →
  let w' := start_service o w name s in
  firewall w' = firewall w ∧ dns w' = dns w ∧ (∀ n, n ≠ name → services w' !! n = services w !! n) ∧
  services w' !! name = Some (if decide (o = StartFailed) then s else set_running s true).
Proof using Type.
  intros Hs. destruct o; cbn; split_and!; try done; try (intros n Hn; by apply lookup_insert_ne); apply lookup_insert_eq.
Qed.

(** The firewall after an attempt to let the program in. *)
Definition let_in (p : program) (exe : string) (w w' : machine) (log : list notice) : Prop :=
  others (firewallRuleName p) (fw_rules (firewall w')) ≡ₚ others (firewallRuleName p) (fw_rules (firewall w)) ∧
  ((∀ e, NFirewall e ∉ log) → ∃ old,
    named (firewallRuleName p) (fw_rules (firewall w')) ≡ₚ allowed (firewallRule p exe) :: old ∧
    ((Remove netsh (firewall w) (firewallRuleName p)).2 = None → old = [])).

Lemma ensureFirewall_spec p w exe w' log :
  program_ok p → exe ≠ ""%string → ensureFirewall p w exe = (w', log) →
  services w' = services w ∧ dns w' = dns w ∧ let_in p exe w w' log ∧ (NStartFailed ∉ log).
Proof using All.
  intros [Hn Hall] Hexe. unfold ensureFirewall.
  destruct (Allow netsh (firewall w) (firewallRule p exe)) as [t e] eqn:Ha. intros [= <- <-].
  destruct (Allow_spec (firewall w) (firewallRule p exe) t e Hn Hall Hexe Ha) as (Ho & Hold & Hnamed).
  cbn [services firewall dns]. split_and!; [done|done| |destruct e; set_solver]. split; [exact Ho|].
  intros Hlog. destruct e as [e|]; [exfalso; apply (Hlog e); set_solver|]. eexists. split; [exact Hnamed|exact Hold].
Qed.

(** A machine with the same firewall to begin with. *)
Lemma let_in_from p exe w0 w w' log log' :
  firewall w = firewall w0 → (∀ e, NFirewall e ∈ log → NFirewall e ∈ log') → let_in p exe w w' log → let_in p exe w0 w' log'.
Proof using Type.
  unfold let_in. intros -> Hlog [Ho Hn]. split; [done|]. intros H'. apply Hn. intros e He. by apply (H' e), Hlog.
Qed.

(** Installing, when it reports no error. *)
Lemma install_spec p exe created o w w1 log :
  program_ok p → exe ≠ ""%string → install_with p (Some exe) true created o w = (w1, log, Ok ()) →
  let_in p exe w w1 log ∧ dns w1 = dns w ∧ (∀ n, n ≠ serviceName p → services w1 !! n = services w !! n) ∧
  ∃ s, services w1 !! serviceName p = Some s ∧ ((NStartFailed ∉ log) → svc_running s = true) ∧
    match services w !! serviceName p with
    | None => svc_exe s = exe ∧ svc_automatic s = true
    | Some s0 => s = set_running s0 true
    end.
Proof using All.
  intros Hp Hexe. unfold install_with. cbn [negb]. destruct (services w !! serviceName p) as [s0|] eqn:Hs.
  - pose proof (start_service_spec o w (serviceName p) s0 Hs) as (Hf & Hd & Ho & Hs1). cbv zeta in *.
    destruct (decide (o = StartFailed)) as [->|Hne]; [done|].
    destruct (ensureFirewall p (start_service o w (serviceName p) s0) exe) as [w2 log2] eqn:He.
    destruct (ensureFirewall_spec p _ exe w2 log2 Hp Hexe He) as (Hsv & Hdn & Hlet & _).
    assert (w2 = w1 → NAlready :: log2 = log → let_in p exe w w1 log ∧ dns w1 = dns w ∧
      (∀ n, n ≠ serviceName p → services w1 !! n = services w !! n) ∧
      ∃ s, services w1 !! serviceName p = Some s ∧ (NStartFailed ∉ log → svc_running s = true) ∧ s = set_running s0 true) as Hall.
    { intros <- <-. split_and!.
      - eapply let_in_from; [exact Hf| |exact Hlet]. intros e. by right.
      - congruence.
      - intros n Hn. rewrite Hsv. by apply Ho.
      - exists (set_running s0 true). by rewrite Hsv. }
    destruct o; [| |done]; intros [= H1 H2]; by apply Hall.
  - destruct created; [|done]. cbn [negb]. set (s0 := MkSvc exe _ _ true false). set (w0 := set_service w _ s0).
    assert (services w0 !! serviceName p = Some s0) as Hs0 by apply lookup_insert_eq.
    pose proof (start_service_spec o w0 (serviceName p) s0 Hs0) as (Hf & Hd & Ho & Hs1). cbv zeta in *.
    destruct (ensureFirewall p (start_service o w0 (serviceName p) s0) exe) as [w2 log2] eqn:He.
    destruct (ensureFirewall_spec p _ exe w2 log2 Hp Hexe He) as (Hsv & Hdn & Hlet & _). intros [= <- <-]. split_and!.
    + eapply let_in_from; [exact Hf| |exact Hlet]. intros e. rewrite !elem_of_app. tauto.
    + by rewrite Hdn, Hd.
    + intros n Hn. rewrite Hsv, Ho by done. by apply lookup_insert_ne.
    + rewrite Hsv, Hs1. eexists. split; [done|]. split; [|by destruct (decide _)].
      destruct o; cbn; [done..|]. intros []. apply list_elem_of_here.
Qed.

(** Removing, when it reports no error. *)
Lemma remove_spec p stopped w s : program_ok p → services w !! serviceName p = Some s →
  ∃ w2 log, remove_service p true stopped true w = (w2, log, Ok ()) ∧
    services w2 = delete (serviceName p) (services w) ∧ dns w2 = dns w ∧
    others (firewallRuleName p) (fw_rules (firewall w2)) ≡ₚ others (firewallRuleName p) (fw_rules (firewall w)) ∧
    ((∀ e, NFirewall e ∉ log) → named (firewallRuleName p) (fw_rules (firewall w2)) = []).
Proof using All.
  intros [Hn Hall] Hs. unfold remove_service. rewrite Hs. cbn [negb].
  set (w0 := if stopped then _ else w).
  assert (firewall w0 = firewall w ∧ dns w0 = dns w ∧ delete (serviceName p) (services w0) = delete (serviceName p) (services w))
    as (Hf & Hd & Hdel).
  { unfold w0. destruct stopped; [|done]. split_and!; [done|done|]. apply delete_insert_eq. }
  cbn [firewall services dns]. rewrite Hf, Hdel, Hd.
  destruct (Remove netsh (firewall w) (firewallRuleName p)) as [t e] eqn:Hr.
  destruct (Remove_spec _ _ _ _ Hn Hall Hr) as [Ho He]. eexists _, _. split; [done|]. cbn [services dns firewall].
  split_and!; [done|done|done|]. intros Hlog. destruct e as [e|]; [|done]. exfalso. apply (Hlog e), list_elem_of_here.
Qed.


(** A service installed from another place goes on running the program it was registered
    with: only its firewall rule names the new one. *)
Lemma moved_upgrade_runs_old p exe w s created :
  program_ok p → exe ≠ ""%string → services w !! serviceName p = Some s →
  ∃ w1 log, install_with p (Some exe) true created AlreadyRunning w = (w1, log, Ok ()) ∧
    services w1 !! serviceName p = Some (set_running s true) ∧
    ((∀ e, NFirewall e ∉ log) → allowed (firewallRule p exe) ∈ fw_rules (firewall w1)).
Proof using All.
  intros Hp Hexe Hs. destruct (install_with p (Some exe) true created AlreadyRunning w) as [[w1 log] r] eqn:Hi.
  assert (r = Ok ()) as ->.
  { revert Hi. unfold install_with. rewrite Hs. cbn [negb start_service]. destruct (ensureFirewall _ _ _). by intros [= _ _ <-]. }
  destruct (install_spec p exe created AlreadyRunning w w1 log Hp Hexe Hi) as ([_ Hna] & _ & _ & s1 & Hs1 & _ & Hwas).
  rewrite Hs in Hwas. subst s1. exists w1, log. split_and!; [done|done|]. intros Hlog. destruct (Hna Hlog) as (old & Hp1 & _).
  assert (allowed (firewallRule p exe) ∈ named (firewallRuleName p) (fw_rules (firewall w1))) as Hin
    by (rewrite Hp1; apply list_elem_of_here).
  by apply list_elem_of_filter in Hin as [_ ?].
Qed.
End deploy.

(** ** A concrete machine *)

#[local] Existing Instance mem_system.
#[local] Existing Instance mem_laws.

(** A company's rule, and a leftover of an earlier install. *)
Definition demo_machine : machine (W := gmap string (string * string)) (T := list Installed) :=
  MkMachine {["spooler"%string := MkSvc "spool.exe" "Print Spooler" "" true true]}
    [MkInstalled "backup" "in" "allow" "b.exe" "" "any" "yes"; MkInstalled "zwan overlay engine" "in" "allow" "old.exe" "" "any" "yes"]%string
    {["7"%string := (".old"%string, "127.0.0.1"%string)]}.

Definition demo_install (w : machine (W := gmap string (string * string)) (T := list Installed)) :=
  install_with (E := string) fw_netsh "MyWAN" engine_program (Some "zwan.exe"%string) true true Started w.

