(* ===== verification/Translate.v ===== *)
(** * Overlay and local addresses in lists (client/engine/translate.go)

    The engine restates the peer list, the services and the tunnel states of a network in
    the local addresses of this device.  The translator is the table of client/vip or,
    when it is absent, the identity; translating may add entries to the table, so it is
    passed along. *)
From Stdlib Require Import Ascii String.
From S2P Require Import Prelude Netip NetipFacts Proto VipTable VipDevice.

Local Open Scope Z_scope.

Definition translator : Type := option Table.

Inductive translator_error : Type :=
| ELocalRange (s : string)
| EOverlayRange (s : string)
| ETable (e : table_error).

(** The outer option is a panic of [NewTable]. *)
Definition newTranslator (localPrefix overlayCIDR : string) : option (result translator_error translator) :=
  if String.eqb localPrefix "" then Some (Ok None) else
  match ParsePrefix localPrefix with
  | None => Some (Err (ELocalRange localPrefix))
  | Some local =>
    match ParsePrefix overlayCIDR with
    | None => Some (Err (EOverlayRange overlayCIDR))
    | Some overlay =>
      r ← NewTable local overlay;
      Some (match r with Ok t => Ok (Some t) | Err e => Err (ETable e) end)
    end
  end.

Definition xlate_on (x : translator) : bool := match x with Some _ => true | None => false end.

Definition xlate_cidr (x : translator) : string :=
  match x with Some t => prefix_String (t_prefix t) | None => "" end.

(** [Local] never panics ([Local_total]). *)
Definition xlate_local (x : translator) (overlay : string) : translator * option string :=
  match x with
  | None => (x, if String.eqb overlay "" then None else Some overlay)
  | Some t =>
    match ParseAddr overlay with
    | None => (x, None)
    | Some addr =>
      let '(t, got) := default (t, None) (Local_ t addr) in
      (Some t, addr_String <$> got)
    end
  end.

Definition set_peer_ip (p : Peer) (ip : string) : Peer :=
  MkPeer (pr_Hostname p) (pr_PublicKey p) ip (pr_Endpoint p) (pr_Group p).

Definition set_service_ips (s : Service) (node vip : string) : Service :=
  MkService (sv_Name s) (sv_Proto s) (sv_Port s) (sv_BackendPort s) node vip (sv_AllowGroups s).

Fixpoint peers_loop (x : translator) (l : list Peer) : translator * list Peer :=
  match l with
  | [] => (x, [])
  | p :: l =>
    let '(x, local) := xlate_local x (pr_AssignedIP p) in
    let '(x, out) := peers_loop x l in
    (x, match local with Some ip => set_peer_ip p ip :: out | None => out end)
  end.

Definition xlate_peers (x : translator) (l : list Peer) : translator * list Peer :=
  if xlate_on x then peers_loop x l else (x, l).

(** The body of the loop of [services]: the translated service, when it is offered. *)
Definition xlate_service (x : translator) (s : Service) : translator * option Service :=
  let '(x, node) := xlate_local x (sv_NodeIP s) in
  match node with
  | None => (x, None)
  | Some node =>
    if String.eqb (sv_VIP s) "" then (x, Some (set_service_ips s node (sv_VIP s)))
    else
      let '(x, vip) := xlate_local x (sv_VIP s) in
      (x, set_service_ips s node <$> vip)
  end.

Fixpoint services_loop (x : translator) (l : list Service) : translator * list Service :=
  match l with
  | [] => (x, [])
  | s :: l =>
    let '(x, s') := xlate_service x s in
    let '(x, out) := services_loop x l in
    (x, match s' with Some s' => s' :: out | None => out end)
  end.

Definition xlate_services (x : translator) (l : list Service) : translator * list Service :=
  if xlate_on x then services_loop x l else (x, l).

(** The tunnel states, in the order the map is read. *)
Fixpoint handshakes_loop (x : translator) (l : list (string * bool)) (out : gmap string bool)
  : translator * gmap string bool :=
  match l with
  | [] => (x, out)
  | (overlay, up) :: l =>
    let '(x, local) := xlate_local x overlay in
    handshakes_loop x l (match local with Some local => <[local := up]> out | None => out end)
  end.

Definition xlate_handshakes (x : translator) (l : list (string * bool)) : translator * gmap string bool :=
  if xlate_on x then handshakes_loop x l ∅ else (x, list_to_map l).

(** ** What a translated text stands for *)

Definition xlate_ok (x : translator) : Prop := match x with Some t => table_ok t | None => True end.

(** Later states of a translator. *)
Definition xgrows (x y : translator) : Prop :=
  match x, y with Some t, Some t' => grows t t' | None, None => True | _, _ => False end.

#[export] Instance xgrows_preorder : PreOrder xgrows.
Proof.
  split; [intros [t|]; [by apply grows_preorder|done]|].
  intros [t1|] [t2|] [t3|]; simpl; try done. apply grows_preorder.
Qed.

(** [local] is the local text of the overlay text [s]. *)
Definition restates (x : translator) (s local : string) : Prop :=
  match x with
  | None => s = local ∧ s ≠ ""%string
  | Some t => ∃ a l, ParseAddr s = Some a ∧ t_toLocal t !! addr_Unmap a = Some l ∧ local = addr_String l
  end.

(** A text with no local address: not an address of the network, or there is no room. *)
Definition no_place (x : translator) (s : string) : Prop :=
  match x with
  | None => s = ""%string
  | Some t =>
    match ParseAddr s with
    | None => True
    | Some a => mappable t (addr_Unmap a) = false ∨
        (0 < p_bits (t_prefix t) → ∀ i, host_index t i → is_Some (t_toReal t !! Addr4 (t_base t + i)))
    end
  end.

Lemma restates_grows x y s local : xgrows x y → restates x s local → restates y s local.
Proof.
  destruct x as [t|], y as [t'|]; try done. intros Hg (a & l & Ha & Hl & ->). exists a, l.
  split_and!; [done| |done]. by eapply lookup_weaken; [|apply gr_toLocal].
Qed.

Lemma no_place_grows x y s : xgrows x y → no_place x s → no_place y s.
Proof.
  destruct x as [t|], y as [t'|]; try done. intros Hg. unfold no_place.
  destruct (ParseAddr s) as [a|]; [|done]. rewrite (grows_mappable _ _ _ Hg). intros [|Hf]; [by left|right].
  unfold host_index, room in *. rewrite (gr_prefix _ _ Hg), (gr_base _ _ Hg). intros Hb i Hi.
  destruct (Hf Hb i Hi) as [r Hr]. exists r. by eapply lookup_weaken; [|apply gr_toReal].
Qed.

Lemma xlate_local_spec x s :
  xlate_ok x →
  ∃ y o, xlate_local x s = (y, o) ∧ xlate_ok y ∧ xgrows x y ∧
    match o with Some local => restates y s local | None => no_place y s end.
Proof.
  destruct x as [t|]; cbn [xlate_ok xlate_local].
  - intros Ht. destruct (ParseAddr s) as [a|] eqn:Ha.
    + destruct (Local_spec t a Ht) as (t' & o & -> & Ht' & Hg & Ho). cbn [default from_option id].
      eexists _, _. split; [done|]. split; [done|]. split; [done|]. destruct o as [l|]; cbn [fmap option_fmap option_map].
      * exists a, l. split_and!; [done|apply Ho|done].
      * apply (no_place_grows (Some t)); [done|]. unfold no_place. rewrite Ha.
        destruct Ho as [|[_ Hf]]; [by left|right]. intros Hb i Hi. by apply (tb_used t Ht), Hf.
    + eexists _, _. split; [done|]. split_and!; [done|by apply (reflexivity (R := xgrows))|]. unfold no_place. by rewrite Ha.
  - intros _. destruct (String.eqb_spec s "") as [->|Hne]; eexists _, _; by split_and!.
Qed.

(** Different overlay addresses never share a local text. *)
Lemma restates_inj t s s' local a a' :
  table_ok t → restates (Some t) s local → restates (Some t) s' local →
  ParseAddr s = Some a → ParseAddr s' = Some a' → addr_Unmap a = addr_Unmap a'.
Proof.
  intros Ht (b & l & Hb & Hl & ->) (b' & l' & Hb' & Hl' & Heq) Ha Ha'.
  assert (b = a) as -> by congruence. assert (b' = a') as -> by congruence.
  destruct (entry_4 t _ _ Ht Hl) as (_ & w & _ & _ & -> & Hw & _).
  destruct (entry_4 t _ _ Ht Hl') as (_ & w' & _ & _ & -> & Hw' & _).
  cbn [addr_String] in Heq. apply (string4_inj w w' Hw Hw') in Heq as ->.
  apply (tb_inverse t Ht) in Hl, Hl'. congruence.
Qed.

Lemma restates_same x s local local' : restates x s local → restates x s local' → local = local'.
Proof.
  destruct x as [t|]; [|intros [-> _] [-> _]; done].
  intros (a & l & Ha & Hl & ->) (a' & l' & Ha' & Hl' & ->). congruence.
Qed.

(** ** Lists *)

(** A list restated: the elements with a place, in their order, each by its restatement. *)
Inductive restated {A} (x : translator) (ok : A → A → Prop) (dropped : A → Prop) : list A → list A → Prop :=
| restated_nil : restated x ok dropped [] []
| restated_keep a a' l l' : ok a a' → restated x ok dropped l l' → restated x ok dropped (a :: l) (a' :: l')
| restated_drop a l l' : dropped a → restated x ok dropped l l' → restated x ok dropped (a :: l) l'.

Definition peer_restates (x : translator) (p q : Peer) : Prop :=
  restates x (pr_AssignedIP p) (pr_AssignedIP q) ∧ q = set_peer_ip p (pr_AssignedIP q).

Definition service_restates (x : translator) (s q : Service) : Prop :=
  restates x (sv_NodeIP s) (sv_NodeIP q) ∧
  (if String.eqb (sv_VIP s) "" then sv_VIP q = ""%string else restates x (sv_VIP s) (sv_VIP q)) ∧
  q = set_service_ips s (sv_NodeIP q) (sv_VIP q).

Definition peers_restated (x : translator) : list Peer → list Peer → Prop :=
  restated x (peer_restates x) (λ p, no_place x (pr_AssignedIP p)).

Definition services_restated (x : translator) : list Service → list Service → Prop :=
  restated x (service_restates x)
    (λ s, no_place x (sv_NodeIP s) ∨ sv_VIP s ≠ ""%string ∧ no_place x (sv_VIP s)).

Lemma peers_loop_spec x l :
  xlate_ok x → let '(y, out) := peers_loop x l in xlate_ok y ∧ xgrows x y ∧ peers_restated y l out.
Proof.
  revert x. induction l as [|p l IH]; intros x Hx; cbn [peers_loop].
  { split_and!; [done|reflexivity|constructor]. }
  destruct (xlate_local_spec x (pr_AssignedIP p) Hx) as (y & o & -> & Hy & Hg & Ho).
  specialize (IH y Hy). destruct (peers_loop y l) as [z out]. destruct IH as (Hz & Hg' & Hl).
  split_and!; [done|by etrans|]. destruct o as [ip|].
  - apply restated_keep; [|done]. split; [by eapply restates_grows|done].
  - apply restated_drop; [|done]. by eapply no_place_grows.
Qed.

Lemma xlate_service_spec x s :
  xlate_ok x →
  let '(y, o) := xlate_service x s in
  xlate_ok y ∧ xgrows x y ∧
  match o with
  | Some q => service_restates y s q
  | None => no_place y (sv_NodeIP s) ∨ sv_VIP s ≠ ""%string ∧ no_place y (sv_VIP s)
  end.
Proof.
  intros Hx. unfold xlate_service.
  destruct (xlate_local_spec x (sv_NodeIP s) Hx) as (y & o & -> & Hy & Hg & Ho).
  destruct o as [node|]; [|split_and!; [done|done|by left]].
  destruct (String.eqb_spec (sv_VIP s) "") as [Hv|Hv].
  { split_and!; [done|done|]. split_and!; [done| |done]. by rewrite Hv. }
  destruct (xlate_local_spec y (sv_VIP s) Hy) as (z & o & -> & Hz & Hg' & Ho').
  split_and!; [done|by etrans|]. destruct o as [vip|]; cbn [fmap option_fmap option_map]; [|by right].
  split_and!; [by eapply restates_grows| |done]. by rewrite (proj2 (String.eqb_neq _ _) Hv).
Qed.

Lemma service_restates_grows x y s q : xgrows x y → service_restates x s q → service_restates y s q.
Proof.
  intros Hg (Hn & Hv & Hq). split_and!; [by eapply restates_grows| |done].
  destruct (String.eqb _ _); [done|by eapply restates_grows].
Qed.

Lemma services_loop_spec x l :
  xlate_ok x → let '(y, out) := services_loop x l in xlate_ok y ∧ xgrows x y ∧ services_restated y l out.
Proof.
  revert x. induction l as [|s l IH]; intros x Hx; cbn [services_loop].
  { split_and!; [done|reflexivity|constructor]. }
  pose proof (xlate_service_spec x s Hx) as Hs. destruct (xlate_service x s) as [y o].
  destruct Hs as (Hy & Hg & Ho). specialize (IH y Hy).
  destruct (services_loop y l) as [z out]. destruct IH as (Hz & Hg' & Hl).
  split_and!; [done|by etrans|]. destruct o as [q|].
  - apply restated_keep; [by eapply service_restates_grows|done].
  - apply restated_drop; [|done]. destruct Ho as [?|[? ?]]; [left|right; split; [done|]]; by eapply no_place_grows.
Qed.

(** What [restated] says about single elements. *)
Lemma restated_in {A} x (ok : A → A → Prop) d l l' q :
  restated x ok d l l' → q ∈ l' → ∃ p, p ∈ l ∧ ok p q.
Proof.
  induction 1 as [|p p' l l' Hok _ IH|p l l' _ _ IH]; [by intros ?%not_elem_of_nil| |].
  - intros [->|Hq]%elem_of_cons; [exists p; split; [apply list_elem_of_here|done]|].
    destruct (IH Hq) as (p0 & ? & ?). exists p0. split; [by apply list_elem_of_further|done].
  - intros Hq. destruct (IH Hq) as (p0 & ? & ?). exists p0. split; [by apply list_elem_of_further|done].
Qed.

Lemma restated_complete {A} x (ok : A → A → Prop) d l l' p :
  restated x ok d l l' → p ∈ l → d p ∨ ∃ q, q ∈ l' ∧ ok p q.
Proof.
  induction 1 as [|p0 p' l l' Hok _ IH|p0 l l' Hd _ IH]; [by intros ?%not_elem_of_nil| |].
  - intros [->|Hp]%elem_of_cons; [right; exists p'; split; [apply list_elem_of_here|done]|].
    destruct (IH Hp) as [|(q & ? & ?)]; [by left|right]. exists q. split; [by apply list_elem_of_further|done].
  - intros [->|Hp]%elem_of_cons; [by left|auto].
Qed.

(** The lists one refresh shows are restated in one table: each shown peer is a peer of
    the network under its local address, each shown service a service of it, whose host
    is the shown peer of the same overlay address, and different overlay addresses stay
    different; only peers without a place are left out. *)
Theorem refresh_restated t ps ss :
  table_ok t →
  let '(x1, ps') := xlate_peers (Some t) ps in
  let '(x2, ss') := xlate_services x1 ss in
  ∃ t', x2 = Some t' ∧ table_ok t' ∧ grows t t' ∧
    (∀ q, q ∈ ps' → ∃ p, p ∈ ps ∧ peer_restates x2 p q) ∧
    (∀ p, p ∈ ps → no_place x2 (pr_AssignedIP p) ∨ ∃ q, q ∈ ps' ∧ peer_restates x2 p q) ∧
    (∀ r, r ∈ ss' → ∃ s, s ∈ ss ∧ service_restates x2 s r ∧
       (∀ p q, p ∈ ps → peer_restates x2 p q → pr_AssignedIP p = sv_NodeIP s → pr_AssignedIP q = sv_NodeIP r)) ∧
    (∀ p q p' q' a a', peer_restates x2 p q → peer_restates x2 p' q' →
       ParseAddr (pr_AssignedIP p) = Some a → ParseAddr (pr_AssignedIP p') = Some a' →
       addr_Unmap a ≠ addr_Unmap a' → pr_AssignedIP q ≠ pr_AssignedIP q').
Proof.
  intros Ht. unfold xlate_peers, xlate_services. cbn [xlate_on].
  pose proof (peers_loop_spec (Some t) ps Ht) as Hp. destruct (peers_loop (Some t) ps) as [[t1|] ps'];
    destruct Hp as (Ht1 & Hg1 & Hps); [|done]. cbn [xlate_on].
  pose proof (services_loop_spec (Some t1) ss Ht1) as Hs. destruct (services_loop (Some t1) ss) as [[t2|] ss'];
    destruct Hs as (Ht2 & Hg2 & Hss); [|done].
  assert (∀ p q, peer_restates (Some t1) p q → peer_restates (Some t2) p q) as Hgp
    by (intros p q [? ?]; split; [by apply (restates_grows (Some t1))|done]).
  exists t2. split_and!; [done|done|by transitivity t1| | | |].
  - intros q Hq. destruct (restated_in _ _ _ _ _ _ Hps Hq) as (p & ? & ?). eauto.
  - intros p Hp. destruct (restated_complete _ _ _ _ _ _ Hps Hp) as [Hn|(q & ? & ?)]; [left|right; eauto].
    by apply (no_place_grows (Some t1)).
  - intros r Hr. destruct (restated_in _ _ _ _ _ _ Hss Hr) as (s & ? & Hsr). exists s. split_and!; [done|done|].
    intros p q _ [Hq _] Heq. destruct Hsr as (Hn & _). rewrite <-Heq in Hn. by eapply restates_same.
  - intros p q p' q' a a' [Hq _] [Hq' _] Ha Ha' Hne Heq. rewrite Heq in Hq.
    by apply Hne, (restates_inj t2 _ _ _ _ _ Ht2 Hq Hq').
Qed.

(** With no local range nothing changes. *)
Lemma no_translation ps ss hs :
  newTranslator "" "" = Some (Ok None) ∧ (xlate_peers None ps).2 = ps ∧
  (xlate_services None ss).2 = ss ∧ (xlate_handshakes None hs).2 = list_to_map hs ∧ xlate_cidr None = ""%string.
Proof. done. Qed.

Lemma refresh_restated_witness :
  let p := MkPeer "nas" "k" "10.0.0.9" "" "" in
  let '(x, ps) := xlate_peers (Some demo_table) [p] in
  ps = [set_peer_ip p "100.112.0.1"] ∧ ∃ q, q ∈ ps ∧ peer_restates x p q.
Proof.
  pose proof (refresh_restated demo_table [MkPeer "nas" "k" "10.0.0.9" "" ""] [] demo_table_ok) as H.
  intros p. fold p in H.
  assert ((xlate_peers (Some demo_table) [p]).2 = [set_peer_ip p "100.112.0.1"]) as Heq by (by vm_compute).
  destruct (xlate_peers (Some demo_table) [p]) as [x ps] eqn:Hx. cbn [snd] in Heq. split; [done|].
  destruct x as [t|].
  - cbn in H. destruct H as (t' & [= <-] & _ & _ & _ & Hc & _).
    destruct (Hc p (list_elem_of_here _ _)) as [Hn|Hq]; [|done].
    exfalso. clear -Hx Hn. assert (t = default demo_table (xlate_peers (Some demo_table) [p]).1) as -> by (by rewrite Hx).
    revert Hn. unfold no_place.
    assert (ParseAddr (pr_AssignedIP p) = Some (Addr4 0x0a000009)) as -> by (by vm_compute).
    intros [Hf|Hf]; [by vm_compute in Hf|].
    specialize (Hf eq_refl 2). destruct Hf as [r Hr]; [by vm_compute|]. by vm_compute in Hr.
  - apply (f_equal (λ y, xlate_on y.1)) in Hx. by vm_compute in Hx.
Defined.
