(* ===== verification/L4.v ===== *)
(** * Service proxies of a hosting node (client/l4)

    [access.go]: which sources a service admits.  [l4.go]: the check a TCP proxy makes on
    an accepted connection.  [udp.go]: the flows of a UDP proxy, one backend socket per
    client, as a step relation over the moments at which the proxy's lock is held.  Sockets
    are numbered; the bytes of TCP connections are in L4Tcp.v. *)
From Stdlib Require Import Ascii String.
From S2P Require Import Prelude Netip Acl Proto.

Local Open Scope Z_scope.

(** ** The access policy *)

Record AccessPolicy : Type := MkAccess {
  a_groups : gmap string string;
  a_allow : gmap string (list string);
}.

Definition access_Set (peers : list Peer) (svcs : list Service) : AccessPolicy :=
  MkAccess (foldl (λ m p, <[pr_AssignedIP p := pr_Group p]> m) ∅ peers)
    (foldl (λ m s, <[sv_Name s := sv_AllowGroups s]> m) ∅ svcs).

Definition Permits (a : AccessPolicy) (service : string) (src : Addr) : bool :=
  match a_allow a !! service with
  | None => false
  | Some l =>
    if (length l =? 0)%nat then true
    else match a_groups a !! addr_String src with
         | None => false
         | Some group => AllowsGroup l group
         end
  end.

Definition Filter (a : AccessPolicy) (service : string) : Addr → bool := Permits a service.

(** ** TCP: what happens to an accepted connection *)

(** [None] is the nil filter. *)
Definition permit (allow : option (Addr → bool)) (remote : string) : bool :=
  match allow with
  | None => true
  | Some allow =>
    match ParseAddrPort remote with
    | None => false
    | Some ap => allow (addr_Unmap (ap_addr ap))
    end
  end.

Inductive accepted : Type := Closed | Forwarded (backend : string).

Definition serve_conn (allow : option (Addr → bool)) (backend remote : string) : accepted :=
  if negb (permit allow remote) then Closed else Forwarded backend.

(** ** UDP *)

Record UDPProxy : Type := MkUDP { u_flows : gmap AddrPort N; u_closed : bool }.

(** The first locked part of [flowFor]. *)
Inductive flow_lookup : Type := FlowClosed | FlowFound (c : N) | FlowDial.

Definition flow_enter (p : UDPProxy) (src : AddrPort) : flow_lookup :=
  if u_closed p then FlowClosed
  else match u_flows p !! src with Some c => FlowFound c | None => FlowDial end.

(** The second one, after the socket [c] to the backend was opened. *)
Inductive flow_result : Type :=
| FlowRefused                      (** the proxy was closed meanwhile: [c] is closed *)
| FlowExisting (existing : N)   (** another datagram was faster: [c] is closed *)
| FlowNew.                         (** [c] is the flow and gets its pump *)

Definition flow_leave (p : UDPProxy) (src : AddrPort) (c : N) : UDPProxy * flow_result :=
  if u_closed p then (p, FlowRefused)
  else match u_flows p !! src with
       | Some existing => (p, FlowExisting existing)
       | None => (MkUDP (<[src := c]> (u_flows p)) (u_closed p), FlowNew)
       end.

(** The deferred part of [pump]: the flow is forgotten if it is still this socket's. *)
Definition pump_end (p : UDPProxy) (src : AddrPort) (c : N) : UDPProxy :=
  if bool_decide (u_flows p !! src = Some c) then MkUDP (delete src (u_flows p)) (u_closed p) else p.

(** [Close]: the proxy after it and the sockets it closes. *)
Definition udp_Close (p : UDPProxy) : UDPProxy * list N :=
  (MkUDP ∅ true, (map_to_list (u_flows p)).*2).

(** The head of the loop of [serve]: whether a datagram goes on to [flowFor]. *)
Definition admitted (allow : option (Addr → bool)) (src : AddrPort) : bool :=
  match allow with None => true | Some allow => allow (addr_Unmap (ap_addr src)) end.

(** A running proxy: the sockets that are open, the ones dialled but not entered yet and
    the ones with a pump, each with its client; [u_next] names the next socket. *)
Record running : Type := MkRunning {
  r_proxy : UDPProxy;
  r_open : gset N;
  r_dialled : gmap N AddrPort;
  r_pumps : gmap N AddrPort;
  r_next : N;
}.

Definition udp_start : running := MkRunning (MkUDP ∅ false) ∅ ∅ ∅ 0.

(** What a step did: a datagram of a client was written to a socket, or the reply read
    from a socket was sent to a client. *)
Inductive udp_event : Type :=
| Quiet
| ToBackend (src : AddrPort) (c : N)
| ToClient (c : N) (src : AddrPort).

Section steps.
Context (allow : option (Addr → bool)).

Inductive udp_step : running → udp_event → running → Prop :=
| step_found r src c :
    admitted allow src = true → flow_enter (r_proxy r) src = FlowFound c →
    udp_step r (ToBackend src c) r
| step_dial r src :
    admitted allow src = true → flow_enter (r_proxy r) src = FlowDial →
    udp_step r Quiet
      (MkRunning (r_proxy r) ({[r_next r]} ∪ r_open r) (<[r_next r := src]> (r_dialled r)) (r_pumps r) (r_next r + 1))
| step_new r p src c :
    r_dialled r !! c = Some src → flow_leave (r_proxy r) src c = (p, FlowNew) →
    udp_step r (ToBackend src c)
      (MkRunning p (r_open r) (delete c (r_dialled r)) (<[c := src]> (r_pumps r)) (r_next r))
| step_existing r p src c c' :
    r_dialled r !! c = Some src → flow_leave (r_proxy r) src c = (p, FlowExisting c') →
    udp_step r (ToBackend src c')
      (MkRunning p (r_open r ∖ {[c]}) (delete c (r_dialled r)) (r_pumps r) (r_next r))
| step_refused r p src c :
    r_dialled r !! c = Some src → flow_leave (r_proxy r) src c = (p, FlowRefused) →
    udp_step r Quiet (MkRunning p (r_open r ∖ {[c]}) (delete c (r_dialled r)) (r_pumps r) (r_next r))
| step_reply r c src :
    r_pumps r !! c = Some src → c ∈ r_open r → udp_step r (ToClient c src) r
| step_pump_end r c src :
    r_pumps r !! c = Some src →
    udp_step r Quiet
      (MkRunning (pump_end (r_proxy r) src c) (r_open r ∖ {[c]}) (r_dialled r) (delete c (r_pumps r)) (r_next r))
| step_close r :
    udp_step r Quiet
      (MkRunning (udp_Close (r_proxy r)).1 (r_open r ∖ list_to_set (udp_Close (r_proxy r)).2)
         (r_dialled r) (r_pumps r) (r_next r)).

(** The states and events of a run. *)
Inductive udp_run : running → list udp_event → Prop :=
| run_start : udp_run udp_start []
| run_step r es e r' : udp_run r es → udp_step r e r' → udp_run r' (es ++ [e]).
End steps.

(** ** Access *)

(** With different addresses and names, a service admits a source exactly when it is
    listed and either open to all or the source is a member of an allowed group. *)
Theorem Permits_correct peers svcs service src :
  NoDup (pr_AssignedIP <$> peers) → NoDup (sv_Name <$> svcs) →
  Permits (access_Set peers svcs) service src = true ↔
    ∃ s, s ∈ svcs ∧ sv_Name s = service ∧
      (sv_AllowGroups s = [] ∨
       ∃ p, p ∈ peers ∧ pr_AssignedIP p = addr_String src ∧
         AllowsGroup (sv_AllowGroups s) (pr_Group p) = true).
Proof.
  intros Hp Hs. unfold Permits, access_Set. cbn [a_allow a_groups].
  pose proof (fold_insert_Some sv_Name sv_AllowGroups svcs service) as Hl.
  destruct (foldl _ ∅ svcs !! service) as [l|].
  - destruct (proj1 (Hl l Hs) eq_refl) as (s & Hin & Hn & <-).
    assert (∀ s', s' ∈ svcs → sv_Name s' = service → sv_AllowGroups s' = sv_AllowGroups s) as Hu.
    { intros s' Hin' Hn'. assert (Some (sv_AllowGroups s) = Some (sv_AllowGroups s')) as [= ->]; [|done].
      apply (Hl (sv_AllowGroups s')); eauto. }
    destruct (Nat.eqb_spec (length (sv_AllowGroups s)) 0) as [H0|H0].
    { apply nil_length_inv in H0. split; [|done]. intros _. eauto. }
    pose proof (fold_insert_Some pr_AssignedIP pr_Group peers (addr_String src)) as Hg.
    destruct (foldl _ ∅ peers !! addr_String src) as [g|].
    + destruct (proj1 (Hg g Hp) eq_refl) as (p & Hpin & Hip & <-). split.
      * intros Ha. exists s. split_and!; [done|done|right]. eauto.
      * intros (s' & Hin' & Hn' & [Hnil|(p' & Hpin' & Hip' & Ha)]); rewrite (Hu s' Hin' Hn') in *.
        { by rewrite Hnil in H0. }
        assert (Some (pr_Group p) = Some (pr_Group p')) as [= ->]; [|done].
        apply (Hg (pr_Group p')); eauto.
    + split; [done|]. intros (s' & Hin' & Hn' & [Hnil|(p' & Hpin' & Hip' & Ha)]); rewrite (Hu s' Hin' Hn') in *.
      { by rewrite Hnil in H0. }
      assert (None = Some (pr_Group p')) as [=]. apply (Hg (pr_Group p')); eauto.
  - split; [done|]. intros (s & Hin & Hn & _).
    assert (None = Some (sv_AllowGroups s)) as [=]. apply (Hl (sv_AllowGroups s)); eauto.
Qed.

(** ** Flows *)

(** The invariant of a running proxy. *)
Record udp_ok (r : running) : Prop := {
  ok_flow : ∀ src c, u_flows (r_proxy r) !! src = Some c → r_pumps r !! c = Some src ∧ c ∈ r_open r;
  ok_closed : u_closed (r_proxy r) = true → u_flows (r_proxy r) = ∅;
  ok_open : ∀ c, c ∈ r_open r → is_Some (r_dialled r !! c) ∨ is_Some (r_pumps r !! c);
  ok_apart : ∀ c, r_dialled r !! c = None ∨ r_pumps r !! c = None;
  ok_dialled : ∀ c src, r_dialled r !! c = Some src → (c < r_next r)%N ∧ c ∈ r_open r;
  ok_pumps : ∀ c, is_Some (r_pumps r !! c) → (c < r_next r)%N;
}.

Lemma udp_start_ok : udp_ok udp_start.
Proof.
  split; simpl.
  - intros src c. by rewrite lookup_empty.
  - done.
  - intros c Hc. by apply not_elem_of_empty in Hc.
  - intros c. left. apply lookup_empty.
  - intros c src. by rewrite lookup_empty.
  - intros c [src Hc]. by rewrite lookup_empty in Hc.
Qed.

Lemma flow_leave_New p src c p' :
  flow_leave p src c = (p', FlowNew) →
  u_closed p = false ∧ u_flows p !! src = None ∧ p' = MkUDP (<[src := c]> (u_flows p)) (u_closed p).
Proof.
  unfold flow_leave. destruct (u_closed p); [done|]. destruct (u_flows p !! src); [done|]. by intros [= <-].
Qed.

Lemma flow_leave_other p src c p' x : flow_leave p src c = (p', x) → x ≠ FlowNew → p' = p.
Proof.
  unfold flow_leave. destruct (u_closed p); [by intros [= <- _]|].
  destruct (u_flows p !! src); [by intros [= <- _]|]. by intros [= _ <-].
Qed.

(** A dialled socket that is given up: closed and forgotten. *)
Lemma give_up_ok r c src :
  udp_ok r → r_dialled r !! c = Some src →
  udp_ok (MkRunning (r_proxy r) (r_open r ∖ {[c]}) (delete c (r_dialled r)) (r_pumps r) (r_next r)).
Proof.
  intros [Hf Hc Ho Ha Hd Hp] Hs. split; cbn [r_proxy r_open r_dialled r_pumps r_next].
  - intros s c' Hs'. destruct (Hf s c' Hs') as [Hpc Hoc]. split; [done|].
    apply elem_of_difference. split; [done|]. rewrite elem_of_singleton. intros ->.
    destruct (Ha c); congruence.
  - done.
  - intros c' [Hin Hne]%elem_of_difference. rewrite elem_of_singleton in Hne.
    rewrite lookup_delete_ne by done. by apply Ho.
  - intros c'. destruct (decide (c = c')) as [<-|Hne]; [left; apply lookup_delete_eq|].
    rewrite lookup_delete_ne by done. apply Ha.
  - intros c' s [Hne Hs']%lookup_delete_Some. destruct (Hd c' s Hs') as [? ?]. split; [done|].
    apply elem_of_difference. split; [done|]. by rewrite elem_of_singleton.
  - done.
Qed.

Section runs.
Context (allow : option (Addr → bool)).

Lemma udp_step_ok r e r' : udp_ok r → udp_step allow r e r' → udp_ok r'.
Proof.
  intros Hr Hs. pose proof Hr as [Hf Hc Ho Ha Hd Hp].
  destruct Hs as [r src c _ _|r src _ _|r p src c Hdc Hl|r p src c c' Hdc Hl|r p src c Hdc Hl|r c src _ _|r c src Hpc|r].
  - done.
  - split; cbn [r_proxy r_open r_dialled r_pumps r_next].
    + intros s c Hs. destruct (Hf s c Hs) as [? ?]. split; [done|]. by apply elem_of_union_r.
    + done.
    + intros c [->%elem_of_singleton|Hin]%elem_of_union; [left; by rewrite lookup_insert_eq|].
      destruct (Ho c Hin) as [[s Hs]|?]; [left|by right]. destruct (Hd c s Hs) as [? _].
      rewrite lookup_insert_ne by lia. eauto.
    + intros c. destruct (decide (c = r_next r)) as [->|Hne]; [right|rewrite lookup_insert_ne by done; apply Ha].
      destruct (r_pumps r !! r_next r) as [s|] eqn:E; [|done]. assert (r_next r < r_next r)%N by eauto. lia.
    + intros c s [[<- <-]|[Hne Hs]]%lookup_insert_Some.
      * split; [lia|]. by apply elem_of_union_l, elem_of_singleton.
      * destruct (Hd c s Hs). split; [lia|by apply elem_of_union_r].
    + intros c Hs. specialize (Hp c Hs). lia.
  - apply flow_leave_New in Hl as (Hcl & Hn & ->). destruct (Hd c src Hdc) as [Hlt Hin].
    split; cbn [r_proxy r_open r_dialled r_pumps r_next u_flows u_closed].
    + intros s c' [[<- <-]|[Hne Hs]]%lookup_insert_Some; [by rewrite lookup_insert_eq|].
      destruct (Hf s c' Hs) as [Hpc ?]. split; [|done]. rewrite lookup_insert_ne; [done|].
      intros <-. destruct (Ha c); congruence.
    + congruence.
    + intros c' Hin'. destruct (decide (c = c')) as [<-|Hne]; [right; by rewrite lookup_insert_eq|].
      rewrite lookup_delete_ne, lookup_insert_ne by done. by apply Ho.
    + intros c'. destruct (decide (c = c')) as [<-|Hne]; [left; apply lookup_delete_eq|].
      rewrite lookup_delete_ne, lookup_insert_ne by done. apply Ha.
    + intros c' s [Hne Hs]%lookup_delete_Some. by apply (Hd c' s).
    + intros c' [s [[<- <-]|[Hne Hs]]%lookup_insert_Some]; [done|by apply Hp; eexists].
  - apply flow_leave_other in Hl as ->; [|done]. by eapply give_up_ok.
  - apply flow_leave_other in Hl as ->; [|done]. by eapply give_up_ok.
  - done.
  - assert (∀ s c', u_flows (pump_end (r_proxy r) src c) !! s = Some c' → u_flows (r_proxy r) !! s = Some c' ∧ c' ≠ c) as Hpe.
    { intros s c'. unfold pump_end. case_bool_decide as Hsc; cbn [u_flows].
      - intros [Hne Hs]%lookup_delete_Some. split; [done|]. intros ->. destruct (Hf s c Hs). congruence.
      - intros Hs. split; [done|]. intros ->. destruct (Hf s c Hs) as [Hps _]. apply Hsc. congruence. }
    split; cbn [r_proxy r_open r_dialled r_pumps r_next].
    + intros s c' [Hs Hne]%Hpe. destruct (Hf s c' Hs). rewrite lookup_delete_ne by done. split; [done|].
      apply elem_of_difference. split; [done|]. by rewrite elem_of_singleton.
    + unfold pump_end. case_bool_decide; cbn [u_closed u_flows]; [|done]. intros Hcl. by rewrite Hc, delete_empty.
    + intros c' [Hin Hne]%elem_of_difference. rewrite elem_of_singleton in Hne.
      rewrite lookup_delete_ne by done. by apply Ho.
    + intros c'. destruct (decide (c = c')) as [<-|Hne]; [right; apply lookup_delete_eq|].
      rewrite lookup_delete_ne by done. apply Ha.
    + intros c' s Hs. destruct (Hd c' s Hs). split; [done|]. apply elem_of_difference. split; [done|].
      rewrite elem_of_singleton. intros ->. destruct (Ha c); congruence.
    + intros c' [s [_ Hs]%lookup_delete_Some]. by apply Hp; eexists.
  - split; cbn [r_proxy r_open r_dialled r_pumps r_next udp_Close fst snd u_flows u_closed].
    + intros s c. by rewrite lookup_empty.
    + done.
    + intros c [Hin _]%elem_of_difference. by apply Ho.
    + apply Ha.
    + intros c s Hs. destruct (Hd c s Hs). split; [done|]. apply elem_of_difference. split; [done|].
      intros ((s' & c') & Heq & Hin)%elem_of_list_to_set%list_elem_of_fmap. cbn in Heq. subst c'.
      apply elem_of_map_to_list in Hin. destruct (Hf s' c Hin) as [? _]. destruct (Ha c); congruence.
    + done.
Qed.

(** Whose socket each one ever opened is. *)
Record history (r : running) (es : list udp_event) (h : gmap N AddrPort) : Prop := {
  h_next : ∀ c, is_Some (h !! c) → (c < r_next r)%N;
  h_dialled : r_dialled r ⊆ h;
  h_pumps : r_pumps r ⊆ h;
  h_admitted : ∀ c src, h !! c = Some src → admitted allow src = true;
  h_events : ∀ c src, ToBackend src c ∈ es ∨ ToClient c src ∈ es → h !! c = Some src;
}.

Lemma history_quiet r es h r' :
  history r es h → r_next r' = r_next r → r_dialled r' ⊆ r_dialled r → r_pumps r' ⊆ r_pumps r →
  history r' (es ++ [Quiet]) h.
Proof.
  intros [Hn Hd Hp Ha He] Hn' Hd' Hp'. split; [by rewrite Hn'|by etrans|by etrans|done|].
  intros c src. rewrite !elem_of_app, !list_elem_of_singleton. intros [[?|?]|[?|?]]; try done; apply He; auto.
Qed.

(** An event at a socket of the history. *)
Lemma history_event r es h r' e c src :
  history r es h → r_next r' = r_next r → r_dialled r' ⊆ r_dialled r → r_pumps r' ⊆ h →
  h !! c = Some src → e = ToBackend src c ∨ e = ToClient c src → history r' (es ++ [e]) h.
Proof.
  intros [Hn Hd Hp Ha He] Hn' Hd' Hp' Hh Hev. split; [by rewrite Hn'|by etrans|done|done|].
  intros c' src'. rewrite !elem_of_app, !list_elem_of_singleton.
  intros [[?|Heq]|[?|Heq]]; [apply He; auto| |apply He; auto|]; destruct Hev; congruence.
Qed.

Lemma udp_step_history r es h e r' :
  udp_ok r → history r es h → udp_step allow r e r' → ∃ h', history r' (es ++ [e]) h'.
Proof.
  intros Hr Hh Hs. pose proof Hr as [Hf Hc Ho Hap Hdl Hpu]. pose proof Hh as [Hn Hd Hp Ha He].
  destruct Hs as [r src c Hadm Hfe|r src Hadm Hfe|r p src c Hdc Hl|r p src c c' Hdc Hl|r p src c Hdc Hl|r c src Hpc _|r c src Hpc|r].
  - exists h. unfold flow_enter in Hfe. destruct (u_closed _); [done|].
    destruct (u_flows _ !! src) as [c'|] eqn:Hsc; [|done]. injection Hfe as ->.
    destruct (Hf src c Hsc) as [Hpc _]. eapply history_event; [done..| |by left]. by eapply lookup_weaken.
  - assert (h !! r_next r = None) as Hnone.
    { destruct (h !! r_next r) eqn:E; [|done]. assert (r_next r < r_next r)%N by eauto. lia. }
    exists (<[r_next r := src]> h). split; cbn [r_next r_dialled r_pumps].
    + intros c [s [[<- <-]|[_ Hs]]%lookup_insert_Some]; [lia|]. assert (c < r_next r)%N by eauto. lia.
    + by apply insert_mono.
    + etrans; [done|]. by apply insert_subseteq.
    + intros c s [[<- <-]|[_ Hs]]%lookup_insert_Some; [done|by eapply Ha].
    + intros c s Hev. rewrite lookup_insert_ne.
      * apply He. rewrite !elem_of_app, !list_elem_of_singleton in Hev. destruct Hev as [[?|?]|[?|?]]; auto; done.
      * intros <-. rewrite !elem_of_app, !list_elem_of_singleton in Hev.
        assert (h !! r_next r = Some s) by (apply He; destruct Hev as [[?|?]|[?|?]]; auto; done). congruence.
  - exists h. eapply history_event; [done|done|by apply delete_subseteq| |by eapply lookup_weaken|by left].
    cbn [r_pumps]. apply insert_subseteq_l; [by eapply lookup_weaken|done].
  - exists h. unfold flow_leave in Hl. destruct (u_closed _); [done|].
    destruct (u_flows _ !! src) as [c0|] eqn:Hsc; [|done]. injection Hl as <- <-.
    destruct (Hf src c0 Hsc) as [Hpc _].
    eapply history_event; [done|done|by apply delete_subseteq|done|by eapply lookup_weaken|by left].
  - exists h. by eapply history_quiet; [done|done|apply delete_subseteq|].
  - exists h. eapply history_event; [done..| |by right]. by eapply lookup_weaken.
  - exists h. by eapply history_quiet; [done|done|done|apply delete_subseteq].
  - exists h. by eapply history_quiet.
Qed.

Lemma udp_run_ok r es : udp_run allow r es → udp_ok r ∧ ∃ h, history r es h.
Proof.
  induction 1 as [|r es e r' _ [Hok [h Hh]] Hs].
  - split; [apply udp_start_ok|]. exists ∅. split.
    + intros c [s Hc]. by rewrite lookup_empty in Hc.
    + done.
    + done.
    + intros c src. by rewrite lookup_empty.
    + intros c src [Hin|Hin]; by apply not_elem_of_nil in Hin.
  - split; [by eapply udp_step_ok|by eapply udp_step_history].
Qed.

(** C9: In every run, whatever datagrams, replies, expiries and a close come in between: only
    datagrams of admitted clients reach the backend, every socket serves one client, so a
    reply goes to the client whose datagrams were sent on that socket; a closed proxy has
    no flows; and no socket outlives its flow. *)
Theorem udp_flows_apart r es :
  udp_run allow r es →
  (∀ src c, ToBackend src c ∈ es → admitted allow src = true) ∧
  (∀ src src' c, ToBackend src c ∈ es → ToBackend src' c ∈ es → src = src') ∧
  (∀ src src' c, ToBackend src c ∈ es → ToClient c src' ∈ es → src = src') ∧
  (u_closed (r_proxy r) = true → u_flows (r_proxy r) = ∅) ∧
  (∀ src c, u_flows (r_proxy r) !! src = Some c → c ∈ r_open r) ∧
  (r_dialled r = ∅ → r_pumps r = ∅ → r_open r = ∅).
Proof.
  intros Hrun. destruct (udp_run_ok r es Hrun) as [Hok [h Hh]]. pose proof (h_events _ _ _ Hh) as He.
  split_and!.
  - intros src c Hin. apply (h_admitted _ _ _ Hh c). apply He. by left.
  - intros src src' c H1 H2. assert (Some src = Some src') as [= ->]; [|done].
    rewrite <-(He c src), <-(He c src'); auto.
  - intros src src' c H1 H2. assert (Some src = Some src') as [= ->]; [|done].
    rewrite <-(He c src), <-(He c src'); auto.
  - apply ok_closed, Hok.
  - intros src c Hc. by apply (ok_flow r Hok src c).
  - intros Hd Hp. apply elem_of_equiv_empty_L. intros c Hc.
    destruct (ok_open r Hok c Hc) as [[s Hs]|[s Hs]]; [rewrite Hd in Hs|rewrite Hp in Hs]; by rewrite lookup_empty in Hs.
Qed.
End runs.

(** ** Witnesses *)

Lemma Permits_correct_witness :
  let p := MkPeer "laptop" "k" "100.64.0.2" "" "dev" in
  let s := MkService "web" "tcp" 80 8080 "100.64.0.1" "" ["dev"%string] in
  Permits (access_Set [p] [s]) "web" (Addr4 0x64400002) = true.
Proof.
  intros p s. apply (Permits_correct [p] [s] "web" (Addr4 0x64400002)).
  - apply NoDup_singleton.
  - apply NoDup_singleton.
  - exists s. split_and!; [apply list_elem_of_here|done|right]. exists p.
    split_and!; [apply list_elem_of_here|by vm_compute|by vm_compute].
Defined.

Definition demo_client : AddrPort := MkAddrPort (Addr4 0x64400002) 4000.

Lemma demo_run : ∃ r, udp_run None r [Quiet; ToBackend demo_client 0; ToClient 0 demo_client].
Proof.
  eexists. eapply (run_step None _ [Quiet; ToBackend demo_client 0] _ _).
  - eapply (run_step None _ [Quiet] _ _).
    + eapply (run_step None _ [] _ _); [apply run_start|]. by apply step_dial.
    + by eapply step_new; vm_compute.
  - by eapply step_reply; vm_compute.
Qed.

Lemma udp_flows_apart_witness :
  ∃ r, udp_run None r [Quiet; ToBackend demo_client 0; ToClient 0 demo_client] ∧
    ∀ src c, u_flows (r_proxy r) !! src = Some c → c ∈ r_open r.
Proof.
  destruct demo_run as [r Hr]. exists r. split; [done|].
  apply (udp_flows_apart None r [Quiet; ToBackend demo_client 0; ToClient 0 demo_client]). done.
Defined.
