(* ===== verification/L4Tcp.v ===== *)
(** * A service's TCP connections (client/l4/l4.go)

    The proxy accepts, refuses or forwards; a forwarded connection is two copies, one in each
    direction, that run beside each other and pass the end of a stream on.  The two ends
    write, close or break off whenever they like. *)
From Stdlib Require Import Ascii String.
From S2P Require Import Prelude GoString Netip L4.

(** ** One direction: [io.Copy], then [CloseWrite] *)

(** The largest piece [io.Copy] moves at once. *)
Definition copyBuf : nat := Z.to_nat 32768.

Inductive copy_state : Type := Copying | CopiedAll | BrokenOff.

Record half : Type := MkHalf {
  h_sent : list Z;          (** everything the source wrote *)
  h_fin : bool;             (** the source wrote its last *)
  h_wire : list Z;          (** on the way to the proxy *)
  h_buf : list Z;           (** read, to be written *)
  h_got : list Z;           (** written to the destination *)
  h_state : copy_state;     (** out of [Copying], the destination is told no more comes *)
}.

Definition half_start : half := MkHalf [] false [] [] [] Copying.

#[export] Instance copy_state_eq_dec : EqDecision copy_state.
Proof. solve_decision. Defined.

(** What an end does. *)
Inductive end_step : half → half → Prop :=
| e_write h bs : h_fin h = false →
    end_step h (MkHalf (h_sent h ++ bs) false (h_wire h ++ bs) (h_buf h) (h_got h) (h_state h))
| e_fin h : end_step h (MkHalf (h_sent h) true (h_wire h) (h_buf h) (h_got h) (h_state h)).

(** What the copy does. *)
Inductive copy_step : half → half → Prop :=
| c_read h c rest : h_state h = Copying → h_buf h = [] → h_wire h = c ++ rest → 0 < length c ≤ copyBuf →
    copy_step h (MkHalf (h_sent h) (h_fin h) rest c (h_got h) Copying)
| c_write h : h_state h = Copying → h_buf h ≠ [] →
    copy_step h (MkHalf (h_sent h) (h_fin h) (h_wire h) [] (h_got h ++ h_buf h) Copying)
| c_eof h : h_state h = Copying → h_buf h = [] → h_wire h = [] → h_fin h = true →
    copy_step h (MkHalf (h_sent h) true [] [] (h_got h) CopiedAll)
| c_read_error h : h_state h = Copying → h_buf h = [] →
    copy_step h (MkHalf (h_sent h) (h_fin h) (h_wire h) [] (h_got h) BrokenOff)
| c_write_error h k : h_state h = Copying → h_buf h ≠ [] →
    copy_step h (MkHalf (h_sent h) (h_fin h) (h_wire h) (drop k (h_buf h)) (h_got h ++ take k (h_buf h)) BrokenOff).

(** ** A connection: [handle] *)

Inductive conn_state : Type :=
| Refused                              (** closed by [serve] *)
| Dialing (backend : string)
| DialFailed
| Relaying (out back : half)           (** to the backend, to the client *)
| Finished (out back : half).          (** both connections are closed *)

Inductive conn_step : conn_state → conn_state → Prop :=
| n_dialled b : conn_step (Dialing b) (Relaying half_start half_start)
| n_dial_failed b : conn_step (Dialing b) DialFailed
| n_end_out o o' k : end_step o o' → conn_step (Relaying o k) (Relaying o' k)
| n_end_back o k k' : end_step k k' → conn_step (Relaying o k) (Relaying o k')
| n_copy_out o o' k : copy_step o o' → conn_step (Relaying o k) (Relaying o' k)
| n_copy_back o k k' : copy_step k k' → conn_step (Relaying o k) (Relaying o k')
| n_done o k : h_state o ≠ Copying → h_state k ≠ Copying → conn_step (Relaying o k) (Finished o k).

(** ** The proxy: [serve] *)

Record conn : Type := MkConn { cn_remote : string; cn_state : conn_state }.

Record tcp_proxy : Type := MkTCP { tp_listening : bool; tp_conns : list conn }.

Definition ListenTCP : tcp_proxy := MkTCP true [].

Section proxy.
Context (allow : option (Addr → bool)) (backend : string).

Definition accept (remote : string) : conn :=
  MkConn remote (match serve_conn allow backend remote with Closed => Refused | Forwarded b => Dialing b end).

Inductive proxy_step : tcp_proxy → tcp_proxy → Prop :=
| p_accept p remote : tp_listening p = true →
    proxy_step p (MkTCP true (tp_conns p ++ [accept remote]))
| p_conn p i c s : tp_conns p !! i = Some c → conn_step (cn_state c) s →
    proxy_step p (MkTCP (tp_listening p) (<[i := MkConn (cn_remote c) s]> (tp_conns p)))
| p_close p : proxy_step p (MkTCP false (tp_conns p)).

(** ** What every direction keeps *)

Record half_ok (h : half) : Prop := {
  hk_kept : h_got h ++ h_buf h ++ h_wire h = h_sent h;
  hk_done : h_state h = CopiedAll → h_fin h = true ∧ h_buf h = [] ∧ h_wire h = [];
}.

Definition conn_ok (c : conn) : Prop :=
  match cn_state c with
  | Refused => permit allow (cn_remote c) = false
  | Dialing b => permit allow (cn_remote c) = true ∧ b = backend
  | DialFailed => permit allow (cn_remote c) = true
  | Relaying o k => permit allow (cn_remote c) = true ∧ half_ok o ∧ half_ok k
  | Finished o k => permit allow (cn_remote c) = true ∧ half_ok o ∧ half_ok k ∧ h_state o ≠ Copying ∧ h_state k ≠ Copying
  end.

Lemma half_start_ok : half_ok half_start.
Proof using Type. by split. Qed.

Lemma end_step_ok h h' : half_ok h → end_step h h' → half_ok h'.
Proof using Type.
  intros [Hk Hd]. destruct 1 as [h bs Hf|h]; split; cbn; [by rewrite <-Hk, !app_assoc| |done|].
  - intros Hs. destruct (Hd Hs). congruence.
  - intros Hs. by destruct (Hd Hs) as (_ & -> & ->).
Qed.

Lemma copy_step_ok h h' : half_ok h → copy_step h h' → half_ok h'.
Proof using Type.
  intros [Hk Hd]. destruct 1 as [h c rest Hs Hb Hw _|h Hs Hb|h Hs Hb Hw Hf|h Hs Hb|h k Hs Hb]; (split; cbn; [rewrite <-Hk|done]).
  - by rewrite Hb, Hw.
  - by rewrite <-app_assoc.
  - by rewrite Hb, Hw.
  - by rewrite Hb.
  - rewrite <-(take_drop k (h_buf h)) at 3. by rewrite <-!app_assoc.
Qed.

Lemma conn_step_ok remote s s' : conn_ok (MkConn remote s) → conn_step s s' → conn_ok (MkConn remote s').
Proof using Type.
  unfold conn_ok. cbn [cn_state cn_remote]. intros Hc. pose proof half_start_ok.
  destruct 1; naive_solver eauto using end_step_ok, copy_step_ok.
Qed.

Definition proxy_ok (p : tcp_proxy) : Prop := Forall conn_ok (tp_conns p).

Lemma accept_ok remote : conn_ok (accept remote).
Proof using Type. unfold conn_ok, accept, serve_conn. cbn. by destruct (permit allow remote) eqn:Hp. Qed.

Lemma proxy_step_ok p p' : proxy_ok p → proxy_step p p' → proxy_ok p'.
Proof using Type.
  unfold proxy_ok. intros Hp. destruct 1 as [p remote Hl|p i c s Hi Hs|p]; cbn [tp_conns]; [| |done].
  - apply Forall_app. split; [done|]. apply Forall_singleton, accept_ok.
  - apply Forall_insert; [done|]. apply (conn_step_ok _ (cn_state c)); [|done]. destruct c. by eapply Forall_lookup_1 in Hi.
Qed.

Lemma proxy_run_ok p : rtc proxy_step ListenTCP p → proxy_ok p.
Proof using Type.
  intros Hr. assert (proxy_ok ListenTCP) as H0 by constructor. induction Hr as [|x y z Hxy _ IH]; [done|].
  apply IH. by eapply proxy_step_ok.
Qed.

(** ** Copies come to an end *)

(** What a copy has left to do without hearing more from its source. *)
Definition work (h : half) : nat :=
  match h_state h with
  | Copying => 1 + 2 * length (h_wire h) + length (h_buf h)
  | _ => 0
  end.

Lemma copy_step_work h h' : copy_step h h' → work h' < work h.
Proof using Type.
  unfold work. destruct 1 as [h c rest Hs Hb Hw [Hc _]|h Hs Hb|h Hs Hb Hw Hf|h Hs Hb|h k Hs Hb]; cbn; rewrite Hs; [| |lia..].
  - rewrite Hb, Hw, length_app. cbn. lia.
  - destruct (h_buf h); [done|]. cbn. lia.
Qed.

(** A copy that is not over can go on, except while its source is silent. *)
Lemma copy_progress h : h_state h = Copying → h_buf h ≠ [] ∨ h_wire h ≠ [] ∨ h_fin h = true →
  ∃ h', copy_step h h' ∧ h_state h' ≠ BrokenOff.
Proof using Type.
  intros Hs Hw. destruct (h_buf h) as [|b buf] eqn:Hb.
  - destruct (h_wire h) as [|x wire] eqn:Hx.
    + destruct Hw as [|[|Hf]]; [done|done|]. eexists. split; [by apply c_eof|done].
    + eexists. split; [apply (c_read h [x] wire); [done|done|done|]|done]. cbn. split; [lia|]. unfold copyBuf. lia.
  - eexists. split; [apply c_write; [done|by rewrite Hb]|done].
Qed.

(** The proxy's own step in a connection. *)
Definition relay_step (s s' : conn_state) : Prop :=
  match s, s' with
  | Relaying o k, Relaying o' k' => copy_step o o' ∧ k' = k ∨ copy_step k k' ∧ o' = o
  | Relaying o k, Finished o' k' => o' = o ∧ k' = k ∧ h_state o ≠ Copying ∧ h_state k ≠ Copying
  | _, _ => False
  end.

Definition conn_work (s : conn_state) : nat :=
  match s with Relaying o k => S (work o + work k) | _ => 0 end.

Lemma relay_step_work s s' : relay_step s s' → conn_work s' < conn_work s.
Proof using Type.
  destruct s as [| | |o k|o k], s' as [| | |o' k'|o' k']; try done; cbn; [|lia].
  intros [[H ->]|[H ->]]; apply copy_step_work in H; lia.
Qed.

Lemma relay_terminates s : Acc (flip relay_step) s.
Proof using Type.
  revert s. apply (wf_projected lt conn_work); [|apply lt_wf]. intros s' s. apply relay_step_work.
Qed.

Lemma half_ok_prefix h : half_ok h →
  h_got h `prefix_of` h_sent h ∧ (h_state h = CopiedAll → h_got h = h_sent h ∧ h_fin h = true).
Proof using Type.
  intros [Hk Hd]. split; [rewrite <-Hk; by eexists|]. intros Hs. destruct (Hd Hs) as (Hf & Hb & Hw).
  by rewrite <-Hk, Hb, Hw, app_nil_r.
Qed.

Lemma relay_progress o k : h_fin o = true → h_fin k = true → ∃ s, relay_step (Relaying o k) s.
Proof using Type.
  intros Ho Hk. destruct (decide (h_state o = Copying)) as [Hso|Hso].
  { destruct (copy_progress o Hso ltac:(auto)) as (o' & Hc & _). exists (Relaying o' k). by left. }
  destruct (decide (h_state k = Copying)) as [Hsk|Hsk].
  { destruct (copy_progress k Hsk ltac:(auto)) as (k' & Hc & _). exists (Relaying o k'). by right. }
  by exists (Finished o k).
Qed.

(** C11: The backend of a service is dialled only for a source the access list permits, and
    what it receives is, byte for byte, the beginning of what that client sent, as what the
    client receives is of what the backend sent; when a copy ended without an error it is all
    of it and the sender had closed, and the connections are closed only once both copies
    have ended.  Once neither end sends any more, the proxy has a next step until that, and
    can make only finitely many. *)
Theorem tcp_relayed p c :
  rtc proxy_step ListenTCP p → c ∈ tp_conns p →
  match cn_state c with
  | Refused => permit allow (cn_remote c) = false
  | Dialing b => permit allow (cn_remote c) = true ∧ b = backend
  | DialFailed => permit allow (cn_remote c) = true
  | Relaying o k | Finished o k =>
      permit allow (cn_remote c) = true ∧
      (∀ h, h ∈ [o; k] → h_got h `prefix_of` h_sent h ∧ (h_state h = CopiedAll → h_got h = h_sent h ∧ h_fin h = true))
  end ∧
  (∀ o k, cn_state c = Finished o k → h_state o ≠ Copying ∧ h_state k ≠ Copying) ∧
  Acc (flip relay_step) (cn_state c) ∧
  (∀ o k, cn_state c = Relaying o k → h_fin o = true → h_fin k = true → ∃ s, relay_step (cn_state c) s).
Proof using Type.
  intros Hr Hc. pose proof (proxy_run_ok p Hr) as Hok. unfold proxy_ok in Hok. rewrite Forall_forall in Hok.
  specialize (Hok c Hc). unfold conn_ok in Hok. pose proof half_ok_prefix as Hpre.
  split_and!; [| |apply relay_terminates|].
  - destruct (cn_state c) as [|b| |o k|o k]; [done..| |];
      (split; [apply Hok|]; intros h [->|[->|[]%elem_of_nil]%elem_of_cons]%elem_of_cons; apply Hpre; apply Hok).
  - intros o k Hs. rewrite Hs in Hok. apply Hok.
  - intros o k Hs. rewrite Hs. apply relay_progress.
Qed.
End proxy.

(** ** A connection from start to end *)

Definition demo_remote : string := "100.64.0.7:50123".

Definition demo_allow : Addr → bool := λ a, bool_decide (a = Addr4 0x64400007).

(** A request, its answer, and both ends closed. *)
Definition demo_half (bs : list Z) : half := MkHalf bs true [] [] bs CopiedAll.

Lemma demo_half_steps bs : 0 < length bs ≤ copyBuf →
  rtc (λ h h', end_step h h' ∨ copy_step h h') half_start (demo_half bs).
Proof.
  intros Hb. eapply rtc_l; [left; by apply (e_write half_start bs)|].
  eapply rtc_l; [right; apply (c_read _ bs []); cbn; [done|done|by rewrite app_nil_r|done]|].
  eapply rtc_l; [right; apply c_write; cbn; [done|by intros ->; cbn in Hb; lia]|].
  eapply rtc_l; [left; apply e_fin|]. apply rtc_once. right. by apply c_eof.
Qed.

Lemma relay_halves o o' k k' :
  rtc (λ h h', end_step h h' ∨ copy_step h h') o o' → rtc (λ h h', end_step h h' ∨ copy_step h h') k k' →
  rtc conn_step (Relaying o k) (Relaying o' k').
Proof.
  intros Ho Hk. etransitivity.
  - eapply (rtc_congruence (λ x, Relaying x k) conn_step); [|exact Ho]. intros x y [H|H]; by constructor.
  - eapply (rtc_congruence (λ x, Relaying o' x) conn_step); [|exact Hk]. intros x y [H|H]; by constructor.
Qed.

Definition demo_conn : conn := MkConn demo_remote (Finished (demo_half [71; 69; 84]%Z) (demo_half [50; 48; 48]%Z)).

Lemma demo_proxy_run : rtc (proxy_step (Some demo_allow) "127.0.0.1:8080") ListenTCP (MkTCP true [demo_conn]).
Proof.
  eapply rtc_l; [by apply (p_accept _ _ _ demo_remote)|]. cbn [tp_conns ListenTCP app].
  assert (accept (Some demo_allow) "127.0.0.1:8080" demo_remote = MkConn demo_remote (Dialing "127.0.0.1:8080")) as -> by (by vm_compute).
  assert (rtc conn_step (Dialing "127.0.0.1:8080") (cn_state demo_conn)) as Hc.
  { eapply rtc_l; [apply n_dialled|]. eapply rtc_r; [|by apply n_done].
    apply relay_halves; apply demo_half_steps; cbn; unfold copyBuf; lia. }
  eapply (rtc_congruence (λ s, MkTCP true [MkConn demo_remote s]) (proxy_step (Some demo_allow) "127.0.0.1:8080")); [|exact Hc].
  intros x y Hs. by apply (p_conn _ _ (MkTCP true [MkConn demo_remote x]) 0 (MkConn demo_remote x)).
Qed.

Lemma tcp_relayed_witness :
  permit (Some demo_allow) demo_remote = true ∧
  (∀ h, h ∈ [demo_half [71; 69; 84]%Z; demo_half [50; 48; 48]%Z] → h_got h = h_sent h).
Proof.
  destruct (tcp_relayed (Some demo_allow) "127.0.0.1:8080" _ demo_conn demo_proxy_run ltac:(apply list_elem_of_here)) as [[Hp Hh] _].
  split; [exact Hp|]. intros h Hin. destruct (Hh h Hin) as [_ H]. apply H.
  apply elem_of_cons in Hin as [->|[->|[]%elem_of_nil]%elem_of_cons]; done.
Defined.
