(* ===== verification/Strconv.v ===== *)
(** * Numbers in texts: package [strconv]

    [Atoi] and [ParseInt] in base ten, with the value they return next to an error. *)
From Stdlib Require Import Ascii String.
From S2P Require Import Prelude GoString GoStringFacts Netip NetipFacts.

Local Open Scope Z_scope.

Definition max_uint64 : Z := 2 ^ 64 - 1.

(** [strconv.ParseUint] in base ten: it stops at the first digit that overflows, with
    the largest value; [None] is a syntax error. *)
Fixpoint scan_uint (s : string) (acc : Z) : option Z :=
  match s with
  | EmptyString => Some acc
  | String c s' =>
    if is_digit c then
      let v := acc * 10 + digit_val c in
      if max_uint64 <? v then Some max_uint64 else scan_uint s' v
    else None
  end.

(** The value [strconv.Atoi] returns, its error ignored: 0 for a syntax error and the
    nearest [int] for a number out of range. *)
Definition Atoi (s : string) : Z :=
  let '(neg, body) := match s with
                      | String "-"%char s' => (true, s')
                      | String "+"%char s' => (false, s')
                      | _ => (false, s)
                      end in
  if String.eqb body "" then 0 else
  match scan_uint body 0 with
  | None => 0
  | Some v => if neg : bool then (if 2 ^ 63 <? v then - 2 ^ 63 else - v) else Z.min v (2 ^ 63 - 1)
  end.

(** ** Numbers *)

Lemma scan_uint_digits s acc v :
  0 ≤ acc → parse_digits s acc = Some v → acc ≤ v ∧ (v ≤ max_uint64 → scan_uint s acc = Some v).
Proof.
  revert acc. induction s as [|c s IH]; intros acc Hacc; cbn [parse_digits scan_uint].
  { intros [= <-]. split; [lia|done]. }
  destruct (is_digit c) eqn:Hc; [|done]. pose proof (digit_range c Hc). intros Hv.
  destruct (IH (acc * 10 + digit_val c) ltac:(lia) Hv) as [Hle Hs]. split; [lia|].
  intros Hm. destruct (Z.ltb_spec max_uint64 (acc * 10 + digit_val c)); [lia|by apply Hs].
Qed.

Lemma itoa_plain z : 0 ≤ z → plain (itoa z) = true.
Proof.
  intros Hz. apply plain_bytes, Forall_forall. intros c Hc.
  destruct (is_digit c) eqn:Hd; [unfold is_digit in Hd; unfold plain_byte; lia|].
  pose proof (itoa_bytes c z Hz Hd) as Hb. exfalso. revert Hb Hc. generalize (itoa z). intros s.
  induction s as [|a s IH]; [set_solver|]. cbn [has_byte list_ascii_of_string].
  rewrite orb_false_iff, elem_of_cons. intros [Ha Hs] [->|Hc]; [by rewrite Ascii.eqb_refl in Ha|by apply IH].
Qed.

Lemma itoa_head z a s : 0 ≤ z → itoa z = String a s → is_digit a = true.
Proof.
  intros Hz Hi. destruct (is_digit a) eqn:Hd; [done|]. pose proof (itoa_bytes a z Hz Hd) as Hb.
  rewrite Hi in Hb. cbn [has_byte] in Hb. by rewrite Ascii.eqb_refl in Hb.
Qed.

Lemma Atoi_itoa z : 0 ≤ z < 2 ^ 63 → Atoi (itoa z) = z.
Proof.
  intros Hz. pose proof (parse_uint_itoa z (proj1 Hz)) as Hp. unfold parse_uint in Hp. unfold Atoi.
  destruct (itoa z) as [|a s] eqn:Hi; [done|]. pose proof (itoa_head z a s (proj1 Hz) Hi) as Ha.
  assert ((match String a s with String "-"%char s' => (true, s') | String "+"%char s' => (false, s')
           | _ => (false, String a s) end) = (false, String a s)) as ->.
  { destruct a as [[] [] [] [] [] [] [] []]; done. }
  destruct (String.eqb (String a s) "") eqn:He; [done|].
  destruct (scan_uint_digits (String a s) 0 z ltac:(lia) Hp) as [_ Hs].
  rewrite Hs by (unfold max_uint64; lia). lia.
Qed.
