(* ===== verification/Update.v ===== *)
(** * Choosing an update (client/update/update.go, server.go)

    Which release is newer, which of its assets is installed, and when the server
    replaces itself.  The release comes from GitHub and is an argument, as are the
    outcomes of the download and of replacing the binary. *)
From Stdlib Require Import Ascii String.
From S2P Require Import Prelude GoString GoStringFacts Netip NetipFacts Strconv.

Local Open Scope Z_scope.

Record Asset : Type := MkAsset { as_Name : string; as_URL : string }.
Record ghRelease : Type := MkGh { gh_TagName : string; gh_Body : string; gh_Assets : list Asset }.
Record Release : Type := MkRelease { re_Tag : string; re_Version : string; re_InstallerURL : string; re_Notes : string }.

Definition installer (a : Asset) : bool :=
  let n := to_lower (as_Name a) in
  has_suffix n ".exe" && (contains n "setup" || contains n "installer").

Definition Latest (gr : ghRelease) : Release :=
  MkRelease (gh_TagName gr) (trim_prefix (gh_TagName gr) "v")
    (match List.find installer (gh_Assets gr) with Some a => as_URL a | None => "" end) (gh_Body gr).

(** ** Versions *)

(** [strings.SplitN(s, sep, 2)[0]]. *)
Definition before (sep s : string) : string :=
  match cut sep s with Some (l, _) => l | None => s end.

(** The three numbers of a version; missing ones are 0. *)
Definition parse (v : string) : list Z :=
  let nums := (λ p, Atoi (trim_space p)) <$> take 3 (split_byte "." (before "+" (before "-" v))) in
  nums ++ replicate (3 - length nums) 0.

(** The loop: the first number that differs decides. *)
Fixpoint later (c l : list Z) : bool :=
  match c, l with
  | x :: c, y :: l => if negb (y =? x) then x <? y else later c l
  | _, _ => false
  end.

Definition IsNewer (current latest : string) : bool :=
  let current := trim_prefix current "v" in
  let latest := trim_prefix latest "v" in
  if String.eqb latest "" then false
  else if String.eqb current "" || contains current "dev" then true
  else later (parse current) (parse latest).

(** ** The server binary *)

Definition ServerAssetName (goos goarch : string) : string :=
  let n := "zwan-server-" +:+ goos +:+ "-" +:+ goarch in
  if String.eqb goos "windows" then n +:+ ".exe" else n.

Definition latestServerAsset (name : string) (gr : ghRelease) : string * option string :=
  (trim_prefix (gh_TagName gr) "v",
   as_URL <$> List.find (λ a, String.eqb (as_Name a) name) (gh_Assets gr)).

Inductive update_error : Type :=
| EFetch (msg : string)
| ENoAsset (name : string)
| EDownload (msg : string)
| EApply (msg : string).

(** The version, whether the binary was replaced, and the error.  [fetch] is the latest
    release, [download] what the asset's address answers, [apply] the replacement. *)
Definition SelfUpdateServer (goos goarch current : string) (fetch : result string ghRelease)
    (download : string → result string (list Z)) (apply : list Z → result string ())
  : string * bool * option update_error :=
  match fetch with
  | Err e => ("", false, Some (EFetch e))
  | Ok gr =>
    let name := ServerAssetName goos goarch in
    match latestServerAsset name gr with
    | (ver, None) => ("", false, Some (ENoAsset name))
    | (ver, Some url) =>
      if negb (IsNewer current ver) then (ver, false, None)
      else match download url with
           | Err e => (ver, false, Some (EDownload e))
           | Ok body => match apply body with
                        | Err e => (ver, false, Some (EApply e))
                        | Ok _ => (ver, true, None)
                        end
           end
    end
  end.

(** ** The order of versions *)

Definition lex_lt (c l : list Z) : Prop :=
  ∃ k x y, take k c = take k l ∧ c !! k = Some x ∧ l !! k = Some y ∧ x < y.

Lemma later_lex c l : length c = length l → later c l = true ↔ lex_lt c l.
Proof.
  revert l. induction c as [|x c IH]; intros [|y l]; try done; cbn [later length].
  { intros _. split; [done|]. intros (k & ? & ? & _ & H & _). by destruct k. }
  intros [= Hlen]. destruct (Z.eqb_spec y x) as [->|Hne]; cbn [negb].
  - rewrite IH by done. split.
    + intros (k & u & v & Ht & Hu & Hv & Hlt). exists (S k), u, v. cbn. by rewrite Ht.
    + intros ([|k] & u & v & Ht & Hu & Hv & Hlt); cbn in *; [simplify_eq; lia|].
      injection Ht as Ht. by exists k, u, v.
  - rewrite Z.ltb_lt. split.
    + intros Hlt. by exists 0%nat, x, y.
    + intros ([|k] & u & v & Ht & Hu & Hv & Hlt); cbn in *; simplify_eq. done.
Qed.

Lemma parse_length v : length (parse v) = 3%nat.
Proof.
  unfold parse. rewrite length_app, length_replicate, length_fmap, length_take.
  set (n := length (split_byte _ _)). lia.
Qed.

(** The text of a version, with or without the leading [v] of a tag. *)
Definition version (a b c : Z) : string := str_join (itoa <$> [a; b; c]) ".".

Lemma has_byte_version x a b c :
  0 ≤ a → 0 ≤ b → 0 ≤ c → is_digit x = false → x ≠ "."%char → has_byte x (version a b c) = false.
Proof.
  intros Ha Hb Hc Hd Hx. unfold version. cbn.
  repeat (rewrite has_byte_app; cbn [has_byte]). rewrite !itoa_bytes by done.
  assert (Ascii.eqb "." x = false) as -> by (by apply Ascii.eqb_neq). done.
Qed.

Lemma contains_has_byte x sub s : contains s (String x sub) = true → has_byte x s = true.
Proof.
  induction s as [|y s IH]; [done|]. cbn [contains has_byte]. rewrite !orb_true_iff. intros [H|H]; [left|right; auto].
  unfold has_prefix in H. cbn [after_prefix] in H. destruct (Ascii.eqb_spec x y) as [->|]; [apply Ascii.eqb_refl|done].
Qed.

Lemma before_none x s : has_byte x s = false → before (String x "") s = s.
Proof.
  intros Hs. unfold before. destruct (cut (String x "") s) as [[l r]|] eqn:Hc; [|done].
  apply cut_sound in Hc. subst s. rewrite !has_byte_app in Hs. cbn [has_byte] in Hs.
  by rewrite Ascii.eqb_refl, orb_true_r in Hs.
Qed.

Lemma parse_version a b c :
  0 ≤ a < 2 ^ 63 → 0 ≤ b < 2 ^ 63 → 0 ≤ c < 2 ^ 63 → parse (version a b c) = [a; b; c].
Proof.
  intros Ha Hb Hc. unfold parse.
  rewrite (before_none "-"), (before_none "+") by (apply has_byte_version; done || lia).
  unfold version. rewrite split_join.
  - cbn [take fmap list_fmap]. rewrite !trim_space_plain by (apply itoa_plain; lia).
    by rewrite !Atoi_itoa by done.
  - done.
  - repeat constructor; apply itoa_bytes; done || lia.
Qed.

Lemma version_start a b c : 0 ≤ a → ∃ x s, version a b c = String x s ∧ is_digit x = true.
Proof.
  intros Ha. unfold version. pose proof (parse_uint_itoa a Ha) as Hp.
  cbn [fmap list_fmap]. destruct (itoa a) as [|x s] eqn:Hi; [done|].
  exists x. eexists. split; [reflexivity|]. by eapply itoa_head.
Qed.

Lemma trim_v_version a b c tag :
  0 ≤ a → tag = version a b c ∨ tag = "v" +:+ version a b c → trim_prefix tag "v" = version a b c.
Proof.
  intros Ha. unfold trim_prefix. intros [->| ->]; [|by rewrite after_prefix_app].
  destruct (version_start a b c Ha) as (x & s & -> & Hx). cbn [after_prefix].
  destruct (Ascii.eqb_spec "v" x) as [<-|]; [done|done].
Qed.

Lemma version_release a b c :
  0 ≤ a → 0 ≤ b → 0 ≤ c → version a b c ≠ ""%string ∧ contains (version a b c) "dev" = false.
Proof.
  intros Ha Hb Hc. split.
  - destruct (version_start a b c Ha) as (x & s & -> & _). done.
  - destruct (contains _ _) eqn:Hd; [|done]. apply contains_has_byte in Hd.
    rewrite has_byte_version in Hd; done.
Qed.

(** A release is newer exactly when its numbers are greater in the order of their
    positions, with or without the leading [v]; a development build or an unknown version
    is older than every release, and nothing is newer than itself. *)
Theorem IsNewer_correct a b c a' b' c' cur lat :
  Forall (λ n, 0 ≤ n < 2 ^ 63) [a; b; c; a'; b'; c'] →
  cur = version a b c ∨ cur = "v" +:+ version a b c →
  lat = version a' b' c' ∨ lat = "v" +:+ version a' b' c' →
  (IsNewer cur lat = true ↔ lex_lt [a; b; c] [a'; b'; c']) ∧
  IsNewer lat lat = false ∧ IsNewer "" lat = true ∧ IsNewer "v0.0.0-dev" lat = true ∧ IsNewer cur "" = false.
Proof.
  rewrite !Forall_cons. intros (? & ? & ? & ? & ? & ? & _) Hcur Hlat.
  pose proof (trim_v_version a b c cur ltac:(lia) Hcur) as Hc.
  pose proof (trim_v_version a' b' c' lat ltac:(lia) Hlat) as Hl.
  destruct (version_release a b c) as [Hc0 Hcd]; [lia..|].
  destruct (version_release a' b' c') as [Hl0 Hld]; [lia..|].
  apply String.eqb_neq in Hc0, Hl0. unfold IsNewer. rewrite Hc, Hl, Hl0, Hc0, Hcd, Hld. cbn [orb].
  rewrite !parse_version by done. rewrite later_lex by done. split_and!; [done| |done..].
  destruct (later _ _) eqn:E; [|done]. apply later_lex in E as (k & x & y & _ & Hx & Hy & Hlt); [|done].
  rewrite Hx in Hy. injection Hy as ->. lia.
Qed.

(** The order: no two versions are each newer than the other, and it is transitive. *)
Lemma lex_lt_trans l1 l2 l3 : lex_lt l1 l2 → lex_lt l2 l3 → lex_lt l1 l3.
Proof.
  intros (k & x & y & Ht & Hx & Hy & Hlt) (k' & x' & y' & Ht' & Hx' & Hy' & Hlt').
  assert (∀ n m (u v : list Z), (n ≤ m)%nat → take m u = take m v → take n u = take n v) as Htake.
  { intros n m u v Hnm E. apply (f_equal (take n)) in E. rewrite !take_take in E. by rewrite !Nat.min_l in E. }
  assert (∀ i m (u v : list Z), (i < m)%nat → take m u = take m v → u !! i = v !! i) as Hget.
  { intros i m u v Him E. rewrite <-(lookup_take_lt u m i), <-(lookup_take_lt v m i) by done. by rewrite E. }
  destruct (Nat.lt_trichotomy k k') as [Hk|[->|Hk]].
  - exists k, x, y. split_and!; [rewrite Ht; by apply (Htake k k'); [lia|]|done| |done].
    by rewrite <-(Hget k k' l2 l3).
  - exists k', x, y'. rewrite Hy in Hx'. injection Hx' as <-. split_and!; [by etrans|done|done|lia].
  - exists k', x', y'. split_and!; [|by rewrite (Hget k' k l1 l2)|done|done].
    rewrite <-Ht'. apply (Htake k' k); [lia|done].
Qed.

(** The server is replaced only by a newer release that has an asset for its platform,
    and only after the download and the replacement succeeded. *)
Lemma SelfUpdateServer_newer goos goarch current fetch download apply v b e :
  SelfUpdateServer goos goarch current fetch download apply = (v, b, e) →
  b = true →
  e = None ∧ IsNewer current v = true ∧
  ∃ gr a body, fetch = Ok gr ∧ v = trim_prefix (gh_TagName gr) "v" ∧ a ∈ gh_Assets gr ∧
    as_Name a = ServerAssetName goos goarch ∧ download (as_URL a) = Ok body ∧ apply body = Ok ().
Proof.
  unfold SelfUpdateServer. destruct fetch as [gr|]; [|intros; simplify_eq].
  unfold latestServerAsset. destruct (List.find _ _) as [a|] eqn:Hf; cbn [fmap option_fmap option_map]; [|intros; simplify_eq].
  destruct (IsNewer _ _) eqn:Hn; cbn [negb]; [|intros; simplify_eq].
  destruct (download (as_URL a)) as [body|] eqn:Hd; [|intros; simplify_eq].
  destruct (apply body) as [[]|] eqn:Ha; intros; simplify_eq.
  apply List.find_some in Hf as [Hin Hname%String.eqb_eq]. apply list_elem_of_In in Hin.
  split_and!; [done|done|]. by exists gr, a, body.
Qed.

Lemma IsNewer_correct_witness : IsNewer "0.9.12" "v0.10.0" = true ∧ lex_lt [0; 9; 12] [0; 10; 0].
Proof.
  assert (lex_lt [0; 9; 12] [0; 10; 0]) as Hl by (by exists 1%nat, 9, 10).
  split; [|done].
  destruct (IsNewer_correct 0 9 12 0 10 0 "0.9.12" "v0.10.0") as [H _].
  - repeat constructor; done.
  - by left.
  - by right.
  - by apply H.
Defined.
