(* ===== verification/ServerRun.v ===== *)
(** * What the server program does (cmd/zwan-server/main.go)

    Its modes, the update by hand, the loop that updates it while it runs, and the line that
    tells the operator who reaches whom. *)
From Stdlib Require Import Ascii String.
From S2P Require Import Prelude GoString GoStringFacts Netip Acl Update Deploy.

(** ** Modes: [main] *)

Inductive server_mode : Type := ModeUpdate | ModeCommand (c : command) | ModeService | ModeHeadless.

Definition server_main (args : list string) (isSvc : option bool) : server_mode :=
  if match args with a :: _ => String.eqb a "update" | [] => false end then ModeUpdate
  else match handleServiceCommand args with
       | Some c => ModeCommand c
       | None => if runAsService isSvc then ModeService else ModeHeadless
       end.

(** ** Updates *)

(** What [SelfUpdateServer] returns. *)
Definition update_outcome : Type := string * bool * option update_error.

(** [runUpdate]: what is printed; an error ends the program. *)
Definition runUpdate (o : update_outcome) : result update_error string :=
  match o with
  | (_, _, Some e) => Err e
  | (ver, false, None) => Ok ("already up to date (latest " +:+ ver +:+ ")")%string
  | (ver, true, None) => Ok ("updated to " +:+ ver +:+ " — restart the server to run the new version")%string
  end.

(** [restartSelf]: the new process runs, or the old one goes on. *)
Inductive restart : Type := Restarted | NoExecutable | NotStarted.

Inductive update_log : Type := LFailed (e : update_error) | LUpdated (ver : string) | LNotRestarted.

(** [autoUpdateLoop]: the ticks so far, and whether the process has made way for a new one. *)
Fixpoint autoUpdateLoop (ticks : list (update_outcome * restart)) : list update_log * bool :=
  match ticks with
  | [] => ([], false)
  | ((_, _, Some e), _) :: ticks => let '(l, b) := autoUpdateLoop ticks in (LFailed e :: l, b)
  | ((_, false, None), _) :: ticks => autoUpdateLoop ticks
  | ((ver, true, None), Restarted) :: _ => ([LUpdated ver], true)
  | ((ver, true, None), _) :: ticks => let '(l, b) := autoUpdateLoop ticks in (LUpdated ver :: LNotRestarted :: l, b)
  end.

(** ** The policy: [logPolicy] *)

Definition logPolicy (groupTokens : gmap string string) (rules : list Rule) : string :=
  let groups := str_join (sort_strings (DefaultGroup :: (map_to_list groupTokens).*1)) ", " in
  match rules with
  | [] => "access: no rules - every member reaches every other (groups: " +:+ groups +:+ ")"
  | _ => "access: default-deny with " +:+ itoa (Z.of_nat (length rules)) +:+ " rule(s): " +:+
         str_join (rule_String <$> rules) "; " +:+ " (groups: " +:+ groups +:+ ")"
  end.

(** ** The server makes way only for a newer one *)

Lemma autoUpdateLoop_exit ticks :
  (autoUpdateLoop ticks).2 = true ↔ ∃ ver, ((ver, true, None), Restarted) ∈ ticks.
Proof.
  induction ticks as [|[[[ver [|]] [e|]] r] ticks IH]; cbn [autoUpdateLoop].
  - split; [done|]. intros [? []%not_elem_of_nil].
  - destruct (autoUpdateLoop ticks). cbn [snd] in *. setoid_rewrite elem_of_cons. naive_solver.
  - destruct r; [|destruct (autoUpdateLoop ticks); cbn [snd] in *; setoid_rewrite elem_of_cons; naive_solver..].
    split; [|done]. intros _. exists ver. apply list_elem_of_here.
  - destruct (autoUpdateLoop ticks). cbn [snd] in *. setoid_rewrite elem_of_cons. naive_solver.
  - setoid_rewrite elem_of_cons. naive_solver.
Qed.

(** Over ticks that each looked for a release: the process ends only after a release newer
    than its own was put in its place, and as long as none is, it goes on. *)
Lemma auto_update_newer goos goarch current ticks :
  Forall (λ t, ∃ fetch download apply, t.1 = SelfUpdateServer goos goarch current fetch download apply) ticks →
  (autoUpdateLoop ticks).2 = true →
  ∃ ver gr, IsNewer current ver = true ∧ ver = trim_prefix (gh_TagName gr) "v" ∧ ((ver, true, None), Restarted) ∈ ticks.
Proof.
  intros Hall [ver Hin]%autoUpdateLoop_exit. rewrite Forall_forall in Hall.
  destruct (Hall _ Hin) as (fetch & download & apply & Ho). cbn [fst] in Ho. symmetry in Ho.
  destruct (SelfUpdateServer_newer _ _ _ _ _ _ _ _ _ Ho eq_refl) as (_ & Hn & gr & _ & _ & _ & Hv & _).
  exists ver, gr. by split_and!.
Qed.

(** A release that could not be restarted into is fetched and put in place again at every
    tick. *)
Lemma installed_again ver r ticks :
  r ≠ Restarted → (autoUpdateLoop (((ver, true, None), r) :: ticks)).1 = LUpdated ver :: LNotRestarted :: (autoUpdateLoop ticks).1.
Proof. intros Hr. cbn [autoUpdateLoop]. destruct r; [done|..]; by destruct (autoUpdateLoop ticks). Qed.
