(* ===== verification/Base64.v ===== *)
(** * Encodings: packages [encoding/base64] and [encoding/hex]

    The two base64 decoders the program uses (standard with padding, URL-safe without)
    and hexadecimal text.  The decoders skip line breaks and ignore the unused bits of the
    last character, as Go's do. *)
From Stdlib Require Import Ascii String.
From S2P Require Import Prelude GoString GoStringFacts Netip NetipFacts.

Local Open Scope Z_scope.

Inductive alphabet : Type := StdAlphabet | URLAlphabet.

Definition enc6 (al : alphabet) (v : Z) : ascii :=
  byte_of
    (if v <? 26 then 65 + v else if v <? 52 then 71 + v else if v <? 62 then v - 4
     else match al with StdAlphabet => if v =? 62 then 43 else 47
                      | URLAlphabet => if v =? 62 then 45 else 95 end).

Definition dec6 (al : alphabet) (c : ascii) : option Z :=
  let b := byte_val c in
  if (65 <=? b) && (b <=? 90) then Some (b - 65)
  else if (97 <=? b) && (b <=? 122) then Some (b - 71)
  else if (48 <=? b) && (b <=? 57) then Some (b + 4)
  else match al with
       | StdAlphabet => if b =? 43 then Some 62 else if b =? 47 then Some 63 else None
       | URLAlphabet => if b =? 45 then Some 62 else if b =? 95 then Some 63 else None
       end.

Definition pad : ascii := "="%char.

(** The characters of up to three bytes; [padded] fills the last group. *)
Fixpoint encode (al : alphabet) (padded : bool) (b : list Z) : list ascii :=
  match b with
  | [] => []
  | [x] => [enc6 al (x / 4); enc6 al (x mod 4 * 16)] ++ (if padded then [pad; pad] else [])
  | [x; y] => [enc6 al (x / 4); enc6 al (x mod 4 * 16 + y / 16); enc6 al (y mod 16 * 4)]
              ++ (if padded then [pad] else [])
  | x :: y :: z :: b =>
    enc6 al (x / 4) :: enc6 al (x mod 4 * 16 + y / 16) :: enc6 al (y mod 16 * 4 + z / 64)
    :: enc6 al (z mod 64) :: encode al padded b
  end.

(** One, two or three bytes of two, three or four characters. *)
Definition join2 (v0 v1 : Z) : list Z := [v0 * 4 + v1 / 16].
Definition join3 (v0 v1 v2 : Z) : list Z := join2 v0 v1 ++ [v1 mod 16 * 16 + v2 / 4].
Definition join4 (v0 v1 v2 v3 : Z) : list Z := join3 v0 v1 v2 ++ [v2 mod 4 * 64 + v3].

Fixpoint decode (al : alphabet) (padded : bool) (l : list ascii) : option (list Z) :=
  match l with
  | [] => Some []
  | [a; b] => if padded then None else v0 ← dec6 al a; v1 ← dec6 al b; Some (join2 v0 v1)
  | [a; b; c] =>
    if padded then None else v0 ← dec6 al a; v1 ← dec6 al b; v2 ← dec6 al c; Some (join3 v0 v1 v2)
  | a :: b :: c :: d :: l' =>
    v0 ← dec6 al a; v1 ← dec6 al b;
    if padded && Ascii.eqb c pad then
      if Ascii.eqb d pad && bool_decide (l' = []) then Some (join2 v0 v1) else None
    else
      v2 ← dec6 al c;
      if padded && Ascii.eqb d pad then
        if bool_decide (l' = []) then Some (join3 v0 v1 v2) else None
      else
        v3 ← dec6 al d; rest ← decode al padded l'; Some (join4 v0 v1 v2 v3 ++ rest)
  | _ => None
  end.

Definition line_break (c : ascii) : bool := Ascii.eqb c "010" || Ascii.eqb c "013".

Definition decode_text (al : alphabet) (padded : bool) (s : string) : option (list Z) :=
  decode al padded (filter (λ c, line_break c = false) (list_ascii_of_string s)).

Definition EncodeToString (b : list Z) : string := string_of_list_ascii (encode StdAlphabet true b).
Definition DecodeString (s : string) : option (list Z) := decode_text StdAlphabet true s.
Definition RawURLDecode (s : string) : option (list Z) := decode_text URLAlphabet false s.

(** [hex.DecodeString]. *)
Fixpoint hex_decode (s : string) : option (list Z) :=
  match s with
  | EmptyString => Some []
  | String a (String b s') =>
    x ← hex_val a; y ← hex_val b; rest ← hex_decode s'; Some (x * 16 + y :: rest)
  | _ => None
  end.

(** ** Round trips *)

Lemma six_forall (P : Z → bool) : forallb P (seqZ 0 64) = true → ∀ v, 0 ≤ v < 64 → P v = true.
Proof.
  rewrite forallb_forall. intros H v Hv. apply H, list_elem_of_In, elem_of_seqZ. lia.
Qed.

Lemma dec6_enc6 al v : 0 ≤ v < 64 → dec6 al (enc6 al v) = Some v.
Proof.
  intros Hv. assert (bool_decide (dec6 al (enc6 al v) = Some v) = true) as H%bool_decide_eq_true; [|done].
  revert v Hv. apply six_forall. by destruct al; vm_compute.
Qed.

(** A character of either alphabet: no blank, no line break, no padding and no colon. *)
Definition b64_char (c : ascii) : bool :=
  solid_byte c && negb (Ascii.eqb c ":") && negb (Ascii.eqb c "=") && negb (line_break c).

Lemma enc6_char al v : 0 ≤ v < 64 → b64_char (enc6 al v) = true.
Proof. revert v. apply six_forall. by destruct al; vm_compute. Qed.

Lemma enc6_not_pad al v : 0 ≤ v < 64 → Ascii.eqb (enc6 al v) pad = false.
Proof.
  intros Hv. pose proof (enc6_char al v Hv) as H. unfold b64_char in H. unfold pad.
  by destruct (Ascii.eqb (enc6 al v) "="); [rewrite andb_false_r in H|].
Qed.

Lemma byte_sixes x : is_byte x →
  0 ≤ x / 4 < 64 ∧ 0 ≤ x mod 4 < 4 ∧ 0 ≤ x / 16 < 16 ∧ 0 ≤ x mod 16 < 16 ∧ 0 ≤ x / 64 < 4 ∧ 0 ≤ x mod 64 < 64.
Proof.
  unfold is_byte. intros Hx.
  repeat split; try (apply Z.mod_pos_bound; lia); try (apply Z.div_pos; lia); apply Z.div_lt_upper_bound; lia.
Qed.

Lemma digits_back x y k : 0 < k → 0 ≤ y < k → (x * k + y) / k = x ∧ (x * k + y) mod k = y.
Proof.
  intros Hk Hy. split.
  - rewrite Z.div_add_l, Z.div_small by lia. lia.
  - by rewrite Z.add_comm, Z_mod_plus_full, Z.mod_small.
Qed.

Lemma join2_byte x y : is_byte x → 0 ≤ y < 16 → join2 (x / 4) (x mod 4 * 16 + y) = [x].
Proof.
  intros Hx Hy. unfold join2. destruct (digits_back (x mod 4) y 16) as [-> _]; [lia|done|].
  by rewrite Z.mul_comm, <-Z_div_mod_eq_full.
Qed.

Lemma join3_bytes x y z : is_byte x → is_byte y → 0 ≤ z < 4 →
  join3 (x / 4) (x mod 4 * 16 + y / 16) (y mod 16 * 4 + z) = [x; y].
Proof.
  intros Hx Hy Hz. pose proof (byte_sixes y Hy). unfold join3. rewrite join2_byte by (done || lia).
  destruct (digits_back (x mod 4) (y / 16) 16) as [_ ->]; [lia|lia|].
  destruct (digits_back (y mod 16) z 4) as [-> _]; [lia|done|].
  by rewrite (Z.mul_comm (y / 16)), <-Z_div_mod_eq_full.
Qed.

Lemma join4_bytes x y z : is_byte x → is_byte y → is_byte z →
  join4 (x / 4) (x mod 4 * 16 + y / 16) (y mod 16 * 4 + z / 64) (z mod 64) = [x; y; z].
Proof.
  intros Hx Hy Hz. pose proof (byte_sixes z Hz). unfold join4. rewrite join3_bytes by (done || lia).
  destruct (digits_back (y mod 16) (z / 64) 4) as [_ ->]; [lia|lia|].
  by rewrite (Z.mul_comm (z / 64)), <-Z_div_mod_eq_full.
Qed.

(** Induction by three bytes. *)
Lemma triple_ind (P : list Z → Prop) :
  P [] → (∀ x, P [x]) → (∀ x y, P [x; y]) → (∀ x y z b, P b → P (x :: y :: z :: b)) → ∀ b, P b.
Proof.
  intros H0 H1 H2 H3. fix IH 1. intros [|x [|y [|z b]]]; [done|apply H1|apply H2|apply H3, IH].
Qed.

Lemma encode_chars al padded b :
  Forall is_byte b → Forall (λ c, b64_char c = true ∨ c = pad) (encode al padded b).
Proof.
  induction b as [|x|x y|x y z b IH] using triple_ind; intros Hb; cbn [encode]; [constructor| | |].
  - inversion_clear Hb as [|?? Hx _]. pose proof (byte_sixes x Hx).
    destruct padded; cbn [app]; repeat apply Forall_cons_2; try apply Forall_nil_2; try (by right);
      left; apply enc6_char; lia.
  - inversion_clear Hb as [|?? Hx Hb']. inversion_clear Hb' as [|?? Hy _].
    pose proof (byte_sixes x Hx). pose proof (byte_sixes y Hy).
    destruct padded; cbn [app]; repeat apply Forall_cons_2; try apply Forall_nil_2; try (by right);
      left; apply enc6_char; lia.
  - inversion_clear Hb as [|?? Hx Hb']. inversion_clear Hb' as [|?? Hy Hb]. inversion_clear Hb as [|?? Hz Hb'].
    pose proof (byte_sixes x Hx). pose proof (byte_sixes y Hy). pose proof (byte_sixes z Hz).
    do 4 (apply Forall_cons_2; [left; apply enc6_char; lia|]). by apply IH.
Qed.

Lemma decode_encode al padded b : Forall is_byte b → decode al padded (encode al padded b) = Some b.
Proof.
  induction b as [|x|x y|x y z b IH] using triple_ind; intros Hb; cbn [encode]; [done| | |].
  - inversion_clear Hb as [|?? Hx _]. pose proof (byte_sixes x Hx).
    assert (join2 (x / 4) (x mod 4 * 16) = [x]) as Hj.
    { rewrite <-(Z.add_0_r (x mod 4 * 16)). by apply join2_byte. }
    destruct padded; cbn [app decode]; rewrite !dec6_enc6 by lia; cbn [mbind option_bind andb]; by rewrite Hj.
  - inversion_clear Hb as [|?? Hx Hb']. inversion_clear Hb' as [|?? Hy _].
    pose proof (byte_sixes x Hx). pose proof (byte_sixes y Hy).
    assert (join3 (x / 4) (x mod 4 * 16 + y / 16) (y mod 16 * 4) = [x; y]) as Hj.
    { rewrite <-(Z.add_0_r (y mod 16 * 4)). by apply join3_bytes. }
    destruct padded; cbn [app decode]; rewrite !dec6_enc6 by lia; cbn [mbind option_bind andb];
      rewrite ?enc6_not_pad by lia; by rewrite Hj.
  - inversion_clear Hb as [|?? Hx Hb']. inversion_clear Hb' as [|?? Hy Hb]. inversion_clear Hb as [|?? Hz Hb'].
    pose proof (byte_sixes x Hx). pose proof (byte_sixes y Hy). pose proof (byte_sixes z Hz).
    cbn [decode]. rewrite !dec6_enc6, !enc6_not_pad, !andb_false_r by lia. cbn [mbind option_bind].
    rewrite IH by done. cbn [mbind option_bind]. by rewrite join4_bytes.
Qed.

Lemma decode_text_encode al padded b :
  Forall is_byte b → decode_text al padded (string_of_list_ascii (encode al padded b)) = Some b.
Proof.
  intros Hb. unfold decode_text. rewrite bytes_of_string_of, filter_all; [by apply decode_encode|].
  eapply Forall_impl; [by apply encode_chars|]. intros c [Hc| ->]; [|done].
  unfold b64_char in Hc. by destruct (line_break c); [rewrite andb_false_r in Hc|].
Qed.

Lemma len_ascii s : String.length s = length (list_ascii_of_string s).
Proof. induction s as [|a s IH]; [done|]. cbn [String.length list_ascii_of_string length]. by rewrite IH. Qed.

Lemma encode_length b : length (encode StdAlphabet true b) = (4 * ((length b + 2) / 3))%nat.
Proof.
  induction b as [|x|x y|x y z b IH] using triple_ind; [done..|].
  cbn [encode length]. rewrite IH.
  replace (S (S (S (length b))) + 2)%nat with (length b + 2 + 1 * 3)%nat by lia.
  rewrite Nat.div_add by lia. lia.
Qed.

Definition nibble_ok (v : Z) : bool :=
  bool_decide (hex_val (hex_nibble v) = Some v) && solid_byte (hex_nibble v) && negb (Ascii.eqb (hex_nibble v) ":").

Lemma hex_nibble_ok v : 0 ≤ v < 16 →
  hex_val (hex_nibble v) = Some v ∧ solid_byte (hex_nibble v) = true ∧ hex_nibble v ≠ ":"%char.
Proof.
  intros Hv. assert (nibble_ok v = true) as H.
  { assert (forallb nibble_ok (seqZ 0 16) = true) as Hall by (by vm_compute).
    rewrite forallb_forall in Hall. apply Hall, list_elem_of_In, elem_of_seqZ. lia. }
  unfold nibble_ok in H. rewrite !andb_true_iff, bool_decide_eq_true, negb_true_iff, Ascii.eqb_neq in H. tauto.
Qed.

Lemma hex_decode_encode b : Forall is_byte b → hex_decode (hex_encode b) = Some b.
Proof.
  induction b as [|x b IH]; intros Hb; [done|]. inversion_clear Hb as [|?? Hx Hb'].
  pose proof (byte_sixes x Hx). cbn [hex_encode hex_decode].
  destruct (hex_nibble_ok (x / 16)) as (-> & _); [lia|].
  destruct (hex_nibble_ok (x mod 16)) as (-> & _); [lia|]. cbn [mbind option_bind]. rewrite IH by done.
  cbn [mbind option_bind]. f_equal. f_equal. by rewrite Z.mul_comm, <-Z_div_mod_eq_full.
Qed.

Lemma hex_encode_chars b :
  Forall is_byte b → Forall (λ c, solid_byte c = true ∧ c ≠ ":"%char) (list_ascii_of_string (hex_encode b)).
Proof.
  induction b as [|x b IH]; intros Hb; [constructor|]. inversion_clear Hb as [|?? Hx Hb'].
  pose proof (byte_sixes x Hx). cbn [hex_encode list_ascii_of_string].
  constructor; [apply hex_nibble_ok; lia|constructor; [apply hex_nibble_ok; lia|by apply IH]].
Qed.

(** Only hexadecimal digits. *)
Lemma hex_encode_digits c b : Forall is_byte b → hex_val c = None → has_byte c (hex_encode b) = false.
Proof.
  intros Hb Hc. induction Hb as [|x b Hx _ IH]; [done|]. pose proof (byte_sixes x Hx).
  assert (∀ v, 0 ≤ v < 16 → Ascii.eqb (hex_nibble v) c = false) as Hn.
  { intros v Hv. apply Ascii.eqb_neq. intros <-. destruct (hex_nibble_ok v Hv) as [E _]. congruence. }
  cbn [hex_encode has_byte]. rewrite !Hn, IH by lia. done.
Qed.

Lemma hex_encode_length b : String.length (hex_encode b) = (2 * length b)%nat.
Proof. induction b as [|x b IH]; [done|]. cbn [hex_encode String.length length]. rewrite IH. lia. Qed.
