(* ===== verification/Certpin.v ===== *)
(** * Certificate pins and node keys (shared/certpin/certpin.go, shared/keys/keys.go)

    A pin is the fingerprint of a server's public key, written in several ways and
    normalised to one; the verifier accepts exactly the keys of the pins it was given.
    The hash and the parsing of certificates are parameters. *)
From Stdlib Require Import Ascii String.
From S2P Require Import Prelude GoString GoStringFacts Netip NetipFacts Base64.

Local Open Scope Z_scope.

Definition Prefix : string := "sha256:".

Inductive pin_error : Type :=
| EEmptyPin
| EAlgorithm (algo : string)
| EPinHex
| EPinBase64
| EPinLength (n : nat).

(** The last part of [Normalize], once the bytes are known. *)
Definition pin_of_raw (raw : list Z) : result pin_error string :=
  if negb (length raw =? 32)%nat then Err (EPinLength (length raw))
  else Ok (Prefix +:+ EncodeToString raw).

Definition pin_of_digest (s : string) : result pin_error string :=
  if (String.length s =? 64)%nat then
    match hex_decode s with None => Err EPinHex | Some raw => pin_of_raw raw end
  else
    match DecodeString s with
    | Some raw => pin_of_raw raw
    | None =>
      match RawURLDecode (trim_right_byte "=" s) with
      | None => Err EPinBase64
      | Some raw => pin_of_raw raw
      end
    end.

Definition Normalize (pin : string) : result pin_error string :=
  let s := trim_space pin in
  if String.eqb s "" then Err EEmptyPin else
  match cut ":" s with
  | Some (algo, rest) =>
    if negb (String.eqb (to_lower algo) "sha256") then Err (EAlgorithm algo) else pin_of_digest rest
  | None => pin_of_digest s
  end.

Section verifier.
Context (sha256 : list Z → list Z) (spki_of : list Z → option (list Z)).

Definition OfSPKI (spki : list Z) : string := Prefix +:+ EncodeToString (sha256 spki).

Fixpoint normalize_all (pins : list string) : result pin_error (list string) :=
  match pins with
  | [] => Ok []
  | p :: pins =>
    match Normalize p with
    | Err e => Err e
    | Ok c => match normalize_all pins with Err e => Err e | Ok l => Ok (c :: l) end
    end
  end.

Inductive verify_error : Type :=
| EBadPin (e : pin_error)
| ENoPins
| ENoCertificate
| EParseCertificate
| EMismatch (got : string).

Definition verify (want : list string) (rawCerts : list (list Z)) : option verify_error :=
  match rawCerts with
  | [] => Some ENoCertificate
  | leaf :: _ =>
    match spki_of leaf with
    | None => Some EParseCertificate
    | Some spki =>
      if existsb (String.eqb (OfSPKI spki)) want then None else Some (EMismatch (OfSPKI spki))
    end
  end.

Definition Verifier (pins : list string) : result verify_error (list (list Z) → option verify_error) :=
  match normalize_all pins with
  | Err e => Err (EBadPin e)
  | Ok [] => Err ENoPins
  | Ok want => Ok (verify want)
  end.

(** How an HTTP client trusts its server. *)
Inductive trust : Type :=
| SystemTrust
| Pinned (check : list (list Z) → option verify_error).

Definition HTTPClient (pin : string) : result verify_error trust :=
  if String.eqb (trim_space pin) "" then Ok SystemTrust
  else match Verifier [pin] with Err e => Err e | Ok v => Ok (Pinned v) end.
End verifier.

(** ** Node keys *)

(** [ParsePublic] and [Hex]: a key is 32 bytes. *)
Definition PublicHexFromBase64 (b64 : string) : option string :=
  raw ← DecodeString b64;
  if (length raw =? 32)%nat then Some (hex_encode raw) else None.

(** ** Canonical pins *)

Definition digest (raw : list Z) : Prop := Forall is_byte raw ∧ length raw = 32%nat.

Definition canonical (raw : list Z) : string := Prefix +:+ EncodeToString raw.

Lemma dec6_range al c v : dec6 al c = Some v → 0 ≤ v < 64.
Proof.
  unfold dec6. pose proof (byte_val_range c). intros H0.
  repeat match type of H0 with
  | (if ?b then _ else _) = _ => destruct b eqn:?; [injection H0 as <-; lia|]
  | match al with _ => _ end = _ => destruct al
  end; done.
Qed.

Lemma join2_byte_range v0 v1 : 0 ≤ v0 < 64 → 0 ≤ v1 < 64 → Forall is_byte (join2 v0 v1).
Proof.
  intros H0 H1. unfold join2, is_byte. pose proof (Z.div_lt_upper_bound v1 16 4). pose proof (Z.div_pos v1 16).
  repeat constructor; lia.
Qed.

Lemma join3_byte_range v0 v1 v2 :
  0 ≤ v0 < 64 → 0 ≤ v1 < 64 → 0 ≤ v2 < 64 → Forall is_byte (join3 v0 v1 v2).
Proof.
  intros H0 H1 H2. unfold join3. apply Forall_app. split; [by apply join2_byte_range|].
  pose proof (Z.div_lt_upper_bound v2 4 16). pose proof (Z.div_pos v2 4).
  pose proof (Z.mod_pos_bound v1 16). unfold is_byte. repeat constructor; lia.
Qed.

Lemma join4_byte_range v0 v1 v2 v3 :
  0 ≤ v0 < 64 → 0 ≤ v1 < 64 → 0 ≤ v2 < 64 → 0 ≤ v3 < 64 → Forall is_byte (join4 v0 v1 v2 v3).
Proof.
  intros H0 H1 H2 H3. unfold join4. apply Forall_app. split; [by apply join3_byte_range|].
  pose proof (Z.mod_pos_bound v2 4). unfold is_byte. repeat constructor; lia.
Qed.

(** Induction by the groups a decoder reads. *)
Lemma quad_ind (P : list ascii → Prop) :
  P [] → (∀ a, P [a]) → (∀ a b, P [a; b]) → (∀ a b c, P [a; b; c]) →
  (∀ a b c d l, P l → P (a :: b :: c :: d :: l)) → ∀ l, P l.
Proof.
  intros H0 H1 H2 H3 H4. fix IH 1.
  intros [|a [|b [|c [|d l]]]]; [done|apply H1|apply H2|apply H3|apply H4, IH].
Qed.

Lemma pair_ind (P : string → Prop) :
  P ""%string → (∀ a, P (String a "")) → (∀ a b s, P s → P (String a (String b s))) → ∀ s, P s.
Proof. intros H0 H1 H2. fix IH 1. intros [|a [|b s]]; [done|apply H1|apply H2, IH]. Qed.

(** Decoders return bytes. *)
Lemma decode_bytes al padded l b : decode al padded l = Some b → Forall is_byte b.
Proof.
  revert b. induction l as [|a|a c|a c d|a c d e l IH] using quad_ind; intros b; cbn [decode]; [|done|..].
  - intros [= <-]. constructor.
  - destruct padded; [done|]. destruct (dec6 al a) eqn:Ha, (dec6 al c) eqn:Hc; intros; simplify_eq/=.
    apply join2_byte_range; by eapply dec6_range.
  - destruct padded; [done|]. destruct (dec6 al a) eqn:Ha, (dec6 al c) eqn:Hc, (dec6 al d) eqn:Hd; intros; simplify_eq/=.
    apply join3_byte_range; by eapply dec6_range.
  - destruct (dec6 al a) as [v0|] eqn:Ha; [|done]. destruct (dec6 al c) as [v1|] eqn:Hc; [|done].
    cbn [mbind option_bind]. apply dec6_range in Ha, Hc.
    destruct (padded && Ascii.eqb d pad).
    { destruct (_ && _); [|done]. intros [= <-]. by apply join2_byte_range. }
    destruct (dec6 al d) as [v2|] eqn:Hd; [|done]. cbn [mbind option_bind]. apply dec6_range in Hd.
    destruct (padded && Ascii.eqb e pad).
    { case_bool_decide; [|done]. intros [= <-]. by apply join3_byte_range. }
    destruct (dec6 al e) as [v3|] eqn:He; [|done]. cbn [mbind option_bind]. apply dec6_range in He.
    destruct (decode al padded l) as [rest|] eqn:Hl; [|done]. cbn [mbind option_bind]. intros [= <-].
    apply (Forall_app_2 _ (join4 v0 v1 v2 v3) rest); [by apply join4_byte_range|]. by apply IH.
Qed.

Lemma hex_val_range c v : hex_val c = Some v → 0 ≤ v < 16.
Proof.
  unfold hex_val, is_digit. pose proof (byte_val_range c). intros H0.
  repeat match type of H0 with
  | (if ?b then _ else _) = _ => destruct b eqn:?; [injection H0 as <-; lia|]
  end; done.
Qed.

Lemma hex_decode_bytes s b : hex_decode s = Some b → Forall is_byte b.
Proof.
  revert b. induction s as [|a|a c s IH] using pair_ind; intros b; cbn [hex_decode]; [|done|].
  - intros [= <-]. constructor.
  - destruct (hex_val a) as [x|] eqn:Ha; [|done]. destruct (hex_val c) as [y|] eqn:Hc; [|done].
    cbn [mbind option_bind]. destruct (hex_decode s) as [rest|] eqn:Hs; [|done]. cbn [mbind option_bind].
    intros [= <-]. apply hex_val_range in Ha, Hc. constructor; [unfold is_byte; lia|by apply IH].
Qed.

Lemma pin_of_raw_ok raw c : Forall is_byte raw → pin_of_raw raw = Ok c → digest raw ∧ c = canonical raw.
Proof.
  intros Hb. unfold pin_of_raw. destruct (Nat.eqb_spec (length raw) 32); [|done]. cbn [negb].
  by intros [= <-].
Qed.

Lemma pin_of_raw_digest raw : digest raw → pin_of_raw raw = Ok (canonical raw).
Proof. intros [_ Hl]. unfold pin_of_raw. by rewrite Hl. Qed.

Lemma Normalize_sound p c : Normalize p = Ok c → ∃ raw, digest raw ∧ c = canonical raw.
Proof.
  assert (∀ s, pin_of_digest s = Ok c → ∃ raw, digest raw ∧ c = canonical raw) as Hd.
  { intros s. unfold pin_of_digest. destruct (String.length s =? 64)%nat.
    - destruct (hex_decode s) as [raw|] eqn:Hs; [|done]. intros Hr. exists raw.
      apply pin_of_raw_ok; [by eapply hex_decode_bytes|done].
    - destruct (DecodeString s) as [raw|] eqn:Hs.
      { intros Hr. exists raw. apply pin_of_raw_ok; [by eapply decode_bytes|done]. }
      destruct (RawURLDecode _) as [raw|] eqn:Hu; [|done]. intros Hr. exists raw.
      apply pin_of_raw_ok; [by eapply decode_bytes|done]. }
  unfold Normalize. destruct (String.eqb _ _); [done|]. destruct (cut ":" (trim_space p)) as [[algo rest]|]; [|apply Hd].
  destruct (negb _); [done|apply Hd].
Qed.

(** The texts a digest is written in. *)
Lemma cut_none c s : (∀ a, a ∈ list_ascii_of_string s → a ≠ c) → cut (String c "") s = None.
Proof.
  intros Hs. destruct (cut (String c "") s) as [[l r]|] eqn:Hc; [|done]. apply cut_sound in Hc.
  destruct (Hs c); [|done]. rewrite Hc, !list_ascii_app. cbn. set_solver.
Qed.

Lemma EncodeToString_text raw :
  digest raw →
  String.length (EncodeToString raw) = 44%nat ∧
  Forall (λ c, solid_byte c = true ∧ c ≠ ":"%char) (list_ascii_of_string (EncodeToString raw)).
Proof.
  intros [Hb Hl]. unfold EncodeToString. split.
  - pose proof (len_ascii (string_of_list_ascii (encode StdAlphabet true raw))) as He.
    rewrite bytes_of_string_of, encode_length, Hl in He. exact He.
  - rewrite bytes_of_string_of. eapply Forall_impl; [by apply encode_chars|].
    intros c [Hc| ->]; [|done]. unfold b64_char in Hc. rewrite !andb_true_iff, !negb_true_iff in Hc.
    destruct Hc as [[[? Hc] _] _]. by apply Ascii.eqb_neq in Hc.
Qed.

Definition digest_text (raw : list Z) (s : string) : Prop :=
  s = EncodeToString raw ∨ s = hex_encode raw.

Lemma digest_text_solid raw s :
  digest raw → digest_text raw s → Forall (λ c, solid_byte c = true ∧ c ≠ ":"%char) (list_ascii_of_string s).
Proof.
  intros Hd [->| ->]; [by apply EncodeToString_text|]. by apply hex_encode_chars, Hd.
Qed.

Lemma pin_of_digest_text raw s : digest raw → digest_text raw s → pin_of_digest s = Ok (canonical raw).
Proof.
  intros Hd [->| ->]; unfold pin_of_digest.
  - destruct (EncodeToString_text raw Hd) as [-> _]. cbn [Nat.eqb].
    unfold DecodeString, EncodeToString. rewrite decode_text_encode by apply Hd. by apply pin_of_raw_digest.
  - rewrite hex_encode_length, (proj2 Hd). cbn [Nat.mul Nat.add Nat.eqb].
    rewrite hex_decode_encode by apply Hd. by apply pin_of_raw_digest.
Qed.

Lemma digest_text_nonempty raw s : digest raw → digest_text raw s → s ≠ ""%string.
Proof.
  intros Hd [->| ->] E.
  - destruct (EncodeToString_text raw Hd) as [Hl _]. by rewrite E in Hl.
  - pose proof (hex_encode_length raw) as Hl. rewrite E, (proj2 Hd) in Hl. done.
Qed.

Lemma Normalize_text raw s :
  digest raw → digest_text raw s →
  Normalize s = Ok (canonical raw) ∧ Normalize (Prefix +:+ s) = Ok (canonical raw).
Proof.
  intros Hd Hs. pose proof (digest_text_solid raw s Hd Hs) as Hsolid.
  pose proof (digest_text_nonempty raw s Hd Hs) as Hne.
  assert (∀ t, Forall (λ c, solid_byte c = true ∧ c ≠ ":"%char) (list_ascii_of_string t) →
            Forall (λ c, solid_byte c = true) (list_ascii_of_string t)) as Himp.
  { intros t Ht. eapply Forall_impl; [exact Ht|]. by intros c [? _]. }
  unfold Normalize. split.
  - rewrite trim_space_solid by (by apply Himp). rewrite (proj2 (String.eqb_neq _ _) Hne).
    rewrite cut_none; [by apply pin_of_digest_text|].
    intros a Ha. rewrite Forall_forall in Hsolid. by apply Hsolid.
  - rewrite trim_space_solid.
    2:{ rewrite list_ascii_app. apply Forall_app. split; [by repeat constructor|by apply Himp]. }
    change (Prefix +:+ s) with ("sha256" +:+ String ":" s).
    rewrite cut_byte by done. cbn [String.eqb String.append].
    change (to_lower "sha256") with "sha256"%string. cbn [String.eqb negb].
    by apply pin_of_digest_text.
Qed.

(** Normalising a pin yields the one canonical text of a 32-byte digest, every way of
    writing a digest yields the same text, different digests different ones, and the
    canonical text is its own normal form. *)
Theorem Normalize_canonical raw raw' p c :
  digest raw → digest raw' →
  (∀ s, digest_text raw s → Normalize s = Ok (canonical raw) ∧ Normalize (Prefix +:+ s) = Ok (canonical raw)) ∧
  (canonical raw = canonical raw' → raw = raw') ∧
  (Normalize p = Ok c → (∃ r, digest r ∧ c = canonical r) ∧ Normalize c = Ok c).
Proof.
  intros Hd Hd'. split_and!.
  - intros s Hs. by apply Normalize_text.
  - unfold canonical. intros [= He]. change (EncodeToString raw = EncodeToString raw') in He.
    pose proof (decode_text_encode StdAlphabet true raw (proj1 Hd)) as H1.
    pose proof (decode_text_encode StdAlphabet true raw' (proj1 Hd')) as H2.
    unfold EncodeToString in He. rewrite He in H1. congruence.
  - intros Hp. destruct (Normalize_sound p c Hp) as (r & Hr & ->). split; [by exists r|].
    apply (Normalize_text r (EncodeToString r)); [done|by left].
Qed.

Lemma normalize_all_in pins want c :
  normalize_all pins = Ok want → c ∈ want ↔ ∃ p, p ∈ pins ∧ Normalize p = Ok c.
Proof.
  revert want. induction pins as [|p pins IH]; intros want; cbn [normalize_all].
  { intros [= <-]. split; [by intros ?%not_elem_of_nil|by intros (? & ?%not_elem_of_nil & _)]. }
  destruct (Normalize p) as [c'|] eqn:Hp; [|done]. destruct (normalize_all pins) as [l|]; [|done].
  intros [= <-]. rewrite elem_of_cons, (IH l eq_refl). setoid_rewrite elem_of_cons. split.
  - intros [->|(q & ? & ?)]; [exists p; auto|exists q; auto].
  - intros (q & [->|?] & Hq); [left; congruence|right; eauto].
Qed.

(** C20: A pinned client accepts a server exactly when it presents a certificate whose first
    key has the digest of one of the pins; a pin that is not one is refused before any
    connection, and only a client without a pin uses the system's trust. *)
Theorem Verifier_correct sha256 spki_of pins :
  (∀ b, digest (sha256 b)) →
  match Verifier sha256 spki_of pins with
  | Err _ => pins = [] ∨ ∃ p e, p ∈ pins ∧ Normalize p = Err e
  | Ok check =>
    ∀ certs, check certs = None ↔
      ∃ leaf rest spki p raw, certs = leaf :: rest ∧ spki_of leaf = Some spki ∧ p ∈ pins ∧
        Normalize p = Ok (canonical raw) ∧ digest raw ∧ sha256 spki = raw
  end.
Proof.
  intros Hsha. unfold Verifier. destruct (normalize_all pins) as [want|e] eqn:Hn.
  2:{ right. revert e Hn. induction pins as [|p pins IH]; intros e; cbn [normalize_all]; [done|].
      destruct (Normalize p) as [c|e'] eqn:Hp.
      - destruct (normalize_all pins) as [l|e'']; [done|]. intros _.
        destruct (IH e'' eq_refl) as (q & eq & ? & ?). exists q, eq. split; [by apply list_elem_of_further|done].
      - intros _. exists p, e'. split; [apply list_elem_of_here|done]. }
  assert (∀ certs, verify sha256 spki_of want certs = None ↔
      ∃ leaf rest spki p raw, certs = leaf :: rest ∧ spki_of leaf = Some spki ∧ p ∈ pins ∧
        Normalize p = Ok (canonical raw) ∧ digest raw ∧ sha256 spki = raw) as Hv.
  { intros certs. unfold verify. destruct certs as [|leaf rest]; [by split; [|intros (?&?&?&?&?&?&?)]|].
    destruct (spki_of leaf) as [spki|] eqn:Hs; [|split; [done|intros (?&?&?&?&?&?&?&?); simplify_eq]].
    destruct (existsb (String.eqb (OfSPKI sha256 spki)) want) eqn:He.
    - split; [intros _|done]. apply existsb_exists in He as (c & Hc%list_elem_of_In & Heq%String.eqb_eq).
      apply (normalize_all_in pins want c Hn) in Hc as (p & Hp & Hpc).
      exists leaf, rest, spki, p, (sha256 spki). split_and!; try done. by rewrite Hpc, <-Heq.
    - split; [done|]. intros (leaf' & rest' & spki' & p & raw & [= <- <-] & Hs' & Hp & Hpc & _ & <-).
      assert (spki' = spki) as -> by congruence. assert (canonical (sha256 spki) ∈ want) as Hin.
      { apply (normalize_all_in pins want _ Hn). by exists p. }
      assert (existsb (String.eqb (OfSPKI sha256 spki)) want = true) as Ht; [|congruence].
      apply existsb_exists. exists (canonical (sha256 spki)).
      split; [by apply list_elem_of_In|apply String.eqb_refl]. }
  destruct want as [|w want]; [|exact Hv]. left. destruct pins as [|p pins]; [done|].
  cbn [normalize_all] in Hn. destruct (Normalize p); [|done]. by destruct (normalize_all pins).
Qed.

(** A node key has one hexadecimal form. *)
Lemma PublicHexFromBase64_key raw :
  digest raw → PublicHexFromBase64 (EncodeToString raw) = Some (hex_encode raw).
Proof.
  intros Hd. unfold PublicHexFromBase64, DecodeString, EncodeToString.
  rewrite decode_text_encode by apply Hd. cbn [mbind option_bind]. by rewrite (proj2 Hd).
Qed.

(** ** Witnesses *)

Definition demo_digest (x : Z) : list Z := replicate 32 x.

Lemma demo_digest_ok x : is_byte x → digest (demo_digest x).
Proof. intros Hx. split; [by apply Forall_replicate|done]. Qed.

Lemma Normalize_canonical_witness :
  Normalize (hex_encode (demo_digest 7)) = Ok (canonical (demo_digest 7)).
Proof.
  destruct (Normalize_canonical (demo_digest 7) (demo_digest 7) "" "") as [H _];
    [by apply demo_digest_ok|by apply demo_digest_ok|].
  exact (proj1 (H (hex_encode (demo_digest 7)) (or_intror eq_refl))).
Defined.

(** A hash that is the same for every key. *)
Definition flat_hash (_ : list Z) : list Z := demo_digest 7.

Lemma Verifier_correct_witness :
  match Verifier flat_hash Some [canonical (demo_digest 7)] with
  | Err _ => False
  | Ok check => check [[1]] = None
  end.
Proof.
  assert (∀ b, digest (flat_hash b)) as Hf by (intros b; by apply demo_digest_ok).
  pose proof (Verifier_correct flat_hash Some [canonical (demo_digest 7)] Hf) as H.
  assert (Normalize (canonical (demo_digest 7)) = Ok (canonical (demo_digest 7))) as Hn by (by vm_compute).
  destruct (Verifier flat_hash Some _) as [check|e].
  - apply H. exists [1], [], [1], (canonical (demo_digest 7)), (demo_digest 7).
    refine (conj eq_refl (conj eq_refl (conj (list_elem_of_here _ _) (conj Hn (conj _ eq_refl))))).
    by apply demo_digest_ok.
  - destruct H as [Hnil|(p & e' & Hin & Hp)]; [discriminate Hnil|].
    apply list_elem_of_singleton in Hin. rewrite Hin, Hn in Hp. discriminate Hp.
Defined.
