(* ===== verification/Keys.v ===== *)
(** * Node keys (shared/keys)

    X25519 keys as 32 bytes, with the texts they travel in: base64 to the control server,
    hexadecimal to the tunnel.  The curve is the standard library's crypto/ecdh, which
    accepts any 32 bytes; the public key of a private one is a parameter. *)
From Stdlib Require Import Ascii String.
From S2P Require Import Prelude GoString GoStringFacts Netip NetipFacts Base64 Certpin.

Local Open Scope Z_scope.

Inductive key_error : Type := EBase64 | EKeySize | ERand.

Record Private : Type := MkPrivate { k_bytes : list Z }.
Record Public : Type := MkPublic { p_bytes : list Z }.

(** [NewPrivateKey] and [NewPublicKey] of crypto/ecdh. *)
Definition key_size (b : list Z) : bool := (length b =? 32)%nat.

Section keys.
(** The public key of a private one: the scalar multiple of the base point. *)
Context (base : list Z → list Z).

(** [rand]: the bytes that were read. *)
Definition Generate (rand : option (list Z)) : result key_error Private :=
  match rand with Some b => Ok (MkPrivate b) | None => Err ERand end.

Definition Private_Public (k : Private) : Public := MkPublic (base (k_bytes k)).

Definition Private_String (k : Private) : string := EncodeToString (k_bytes k).
Definition Public_String (p : Public) : string := EncodeToString (p_bytes p).
Definition Private_Hex (k : Private) : string := hex_encode (k_bytes k).
Definition Public_Hex (p : Public) : string := hex_encode (p_bytes p).

Definition ParsePrivate (s : string) : result key_error Private :=
  match DecodeString s with
  | None => Err EBase64
  | Some b => if key_size b then Ok (MkPrivate b) else Err EKeySize
  end.

Definition ParsePublic (s : string) : result key_error Public :=
  match DecodeString s with
  | None => Err EBase64
  | Some b => if key_size b then Ok (MkPublic b) else Err EKeySize
  end.

(** ** Texts and keys *)

Lemma ParsePublic_String p : digest (p_bytes p) → ParsePublic (Public_String p) = Ok p.
Proof using Type.
  intros [Hb Hl]. unfold ParsePublic, Public_String, DecodeString, EncodeToString. rewrite decode_text_encode by done.
  unfold key_size. rewrite Hl. by destruct p.
Qed.

Lemma ParsePrivate_String k : digest (k_bytes k) → ParsePrivate (Private_String k) = Ok k.
Proof using Type.
  intros [Hb Hl]. unfold ParsePrivate, Private_String, DecodeString, EncodeToString. rewrite decode_text_encode by done.
  unfold key_size. rewrite Hl. by destruct k.
Qed.

(** Whatever text a key was read from, it is 32 bytes, and its own text reads as the same
    key. *)
Lemma ParsePublic_digest s p : ParsePublic s = Ok p → digest (p_bytes p).
Proof using Type.
  unfold ParsePublic. destruct (DecodeString s) as [b|] eqn:Hd; [|done]. destruct (key_size b) eqn:Hk; [|done].
  intros [= <-]. split; [by eapply decode_bytes|]. by apply Nat.eqb_eq.
Qed.

Lemma PublicHexFromBase64_parse s :
  PublicHexFromBase64 s = match ParsePublic s with Ok p => Some (Public_Hex p) | Err _ => None end.
Proof using Type.
  unfold PublicHexFromBase64, ParsePublic, key_size. destruct (DecodeString s) as [b|]; [|done]. cbn [mbind option_bind].
  by destruct (length b =? 32)%nat.
Qed.

(** A device's key survives its texts: the public key it registers is read back by every
    other device, and the hexadecimal form put into their tunnels is that of the very key
    whose private half the device's own tunnel is given; two texts, however written, are one
    peer exactly when they are one key. *)
Lemma keys_agree seed k s1 s2 p1 p2 :
  (∀ b, digest b → digest (base b)) → digest seed → Generate (Some seed) = Ok k → ParsePublic s1 = Ok p1 → ParsePublic s2 = Ok p2 →
  ParsePrivate (Private_String k) = Ok k ∧
  ParsePublic (Public_String (Private_Public k)) = Ok (Private_Public k) ∧
  PublicHexFromBase64 (Public_String (Private_Public k)) = Some (Public_Hex (Private_Public k)) ∧
  hex_decode (Private_Hex k) = Some (k_bytes k) ∧
  (PublicHexFromBase64 s1 = PublicHexFromBase64 s2 ↔ p1 = p2) ∧
  ParsePublic (Public_String p1) = Ok p1.
Proof using Type.
  intros Hbase Hk [= <-] H1 H2. pose proof Hk as [Hb Hl]. set (k := MkPrivate seed).
  assert (ParsePublic (Public_String (Private_Public k)) = Ok (Private_Public k)) as Hp by (by apply ParsePublic_String, Hbase).
  split_and!; [by apply ParsePrivate_String|done|by rewrite PublicHexFromBase64_parse, Hp|by apply hex_decode_encode| |].
  - rewrite !PublicHexFromBase64_parse, H1, H2. split; [|congruence]. intros [= He].
    pose proof (ParsePublic_digest s1 p1 H1) as [Hb1 _]. pose proof (ParsePublic_digest s2 p2 H2) as [Hb2 _].
    pose proof (hex_decode_encode _ Hb1) as D1. pose proof (hex_decode_encode _ Hb2) as D2. unfold Public_Hex in He.
    rewrite He, D2 in D1. injection D1 as D1. destruct p1, p2. cbn in *. by subst.
  - by apply ParsePublic_String, (ParsePublic_digest s1).
Qed.
End keys.
