(* ===== verification/SelfSigned.v ===== *)
(** * The server's self-signed identity (server/tlsconf/selfsigned.go)

    The key and the certificate live in files of one directory.  The key is made once and
    used by every later run; the certificate is made anew when it no longer serves.  Keys,
    certificates and their encodings are a class of operations; what a run meets (the clock,
    randomness, files that cannot be read or written) is a record. *)
From Stdlib Require Import Ascii String.
From S2P Require Import Prelude GoString GoStringFacts Netip NetipFacts Base64 Certpin TlsConf.

Local Open Scope Z_scope.

Definition keyFile : string := "server.key".
Definition certFile : string := "server.crt".
Definition certLife : Z := 10 * 365 * 24 * 3600.

(** ** Keys and certificates *)

(** A parsed certificate; [c_key] is its key if that is an ECDSA key, times are in seconds. *)
Record Cert {P IP : Type} : Type := MkCert {
  c_key : option P;
  c_spki : list Z;
  c_notAfter : Z;
  c_names : list string;
  c_ips : list IP;
}.
Arguments Cert : clear implicits.
Arguments MkCert {P IP}.

(** What [issue] asks for. *)
Record Template {IP : Type} : Type := MkTemplate {
  tm_serial : Z;
  tm_cn : string;
  tm_notBefore : Z;
  tm_notAfter : Z;
  tm_names : list string;
  tm_ips : list IP;
}.
Arguments Template : clear implicits.
Arguments MkTemplate {IP}.

(** crypto/ecdsa, crypto/x509 and encoding/pem. *)
Class Crypto (K P IP : Type) : Type := {
  Public : K → P;
  MarshalPKIX : P → option (list Z);
  ParsePKCS8 : list Z → option K;
  MarshalPKCS8 : K → option (list Z);
  ParseCertificate : list Z → option (Cert P IP);
  CreateCertificate : Template IP → K → option (list Z);
  pem_encode : string → list Z → list Z;
  pem_decode : list Z → option (string * list Z);
  Sum256 : list Z → list Z;
}.

Class CryptoLaws (K P IP : Type) `{Crypto K P IP} : Prop := {
  pem_decode_encode ty b : pem_decode (pem_encode ty b) = Some (ty, b);
  ParsePKCS8_Marshal k b : MarshalPKCS8 k = Some b → ParsePKCS8 b = Some k;
  CreateCertificate_fields tm k der c :
    CreateCertificate tm k = Some der → ParseCertificate der = Some c →
    c_key c = Some (Public k) ∧ c_notAfter c = tm_notAfter tm ∧ c_names c = tm_names tm ∧ c_ips c = tm_ips tm;
  ParseCertificate_spki der c p spki :
    ParseCertificate der = Some c → c_key c = Some p → MarshalPKIX p = Some spki → c_spki c = spki;
  Sum256_digest b : digest (Sum256 b);
}.

(** ** A run *)

(** The files of the directory by name. *)
Abbreviation disk := (gmap string (list Z)).

(** A write that fails may leave the file changed. *)
Inductive written : Type := Done | Failed (rest : option (list Z)).

Record conditions (K : Type) : Type := MkConditions {
  e_mkdir : bool;
  e_readable : string → bool;
  e_write : string → written;
  e_key : option K;
  e_serial : option Z;
  e_checked : Z;
  e_issued : Z;
}.
Arguments MkConditions {K}. Arguments e_mkdir {K}. Arguments e_readable {K}. Arguments e_write {K}.
Arguments e_key {K}. Arguments e_serial {K}. Arguments e_checked {K}. Arguments e_issued {K}.

Inductive self_error : Type :=
| EStateDir | EUnusableKey | EGenerate | EMarshal | EWriteKey | ESpki | EIssue | EWriteCert | EParseIssued.

Section run.
Context {K P IP : Type} `{CryptoLaws K P IP, EqDecision P, EqDecision IP}.
Context (ParseIP : string → option IP).

(** The certificate that is served, its parsed form, the private key and the pin. *)
Record identity : Type := MkIdentity { i_der : list Z; i_leaf : Cert P IP; i_key : K; i_pin : string }.

Definition ReadFile (e : conditions K) (d : disk) (f : string) : option (list Z) :=
  if e_readable e f then d !! f else None.

Definition writePEM (e : conditions K) (d : disk) (f ty : string) (der : list Z) : disk * bool :=
  match e_write e f with
  | Done => (<[f := pem_encode ty der]> d, true)
  | Failed None => (d, false)
  | Failed (Some rest) => (<[f := rest]> d, false)
  end.

Definition key_of (b : list Z) : option K :=
  match pem_decode b with Some (_, der) => ParsePKCS8 der | None => None end.

Definition loadOrCreateKey (e : conditions K) (d : disk) : disk * result self_error K :=
  match ReadFile e d keyFile with
  | Some b => (d, match key_of b with Some k => Ok k | None => Err EUnusableKey end)
  | None =>
    match e_key e with
    | None => (d, Err EGenerate)
    | Some k =>
      match MarshalPKCS8 k with
      | None => (d, Err EMarshal)
      | Some der =>
        let '(d, ok) := writePEM e d keyFile "PRIVATE KEY" der in
        (d, if ok then Ok k else Err EWriteKey)
      end
    end
  end.

Definition readCertDER (e : conditions K) (d : disk) : option (list Z) :=
  match ReadFile e d certFile with
  | None => None
  | Some b => match pem_decode b with
              | Some (ty, der) => if String.eqb ty "CERTIFICATE" then Some der else None
              | None => None
              end
  end.

(** [certUsable] on a parsed certificate. *)
Definition usable (e : conditions K) (k : K) (c : Cert P IP) (names : list string) (ips : list IP) : bool :=
  certUsable (bool_decide (c_key c = Some (Public k))) (c_notAfter c) (e_checked e) (c_names c) (c_ips c) names ips.

Definition template (e : conditions K) (serial : Z) (names : list string) (ips : list IP) : Template IP :=
  MkTemplate serial (match names with n :: _ => n | [] => "zwan control plane" end)
    (e_issued e - 3600) (e_issued e + certLife) names ips.

Definition issue (e : conditions K) (k : K) (names : list string) (ips : list IP) : option (list Z) :=
  match e_serial e with
  | None => None
  | Some serial => CreateCertificate (template e serial names ips) k
  end.

(** The certificate on disk, if it serves. *)
Definition kept (e : conditions K) (d : disk) (k : K) (names : list string) (ips : list IP)
  : option (list Z * Cert P IP) :=
  match readCertDER e d with
  | None => None
  | Some der => match ParseCertificate der with
                | Some c => if usable e k c names ips then Some (der, c) else None
                | None => None
                end
  end.

Definition selfSigned (e : conditions K) (d : disk) (sans : list string) : disk * result self_error identity :=
  if negb (e_mkdir e) then (d, Err EStateDir) else
  match loadOrCreateKey e d with
  | (d, Err er) => (d, Err er)
  | (d, Ok k) =>
    match MarshalPKIX (Public k) with
    | None => (d, Err ESpki)
    | Some spki =>
      let pin := OfSPKI Sum256 spki in
      let '(names, ips) := splitSANs ParseIP sans in
      match kept e d k names ips with
      | Some (der, c) => (d, Ok (MkIdentity der c k pin))
      | None =>
        match issue e k names ips with
        | None => (d, Err EIssue)
        | Some der =>
          let '(d, ok) := writePEM e d certFile "CERTIFICATE" der in
          if negb ok then (d, Err EWriteCert) else
          match ParseCertificate der with
          | None => (d, Err EParseIssued)
          | Some c => (d, Ok (MkIdentity der c k pin))
          end
        end
      end
    end
  end.

(** ** What a run leaves *)

(** The key a disk holds. *)
Definition disk_key (d : disk) : option K := b ← d !! keyFile; key_of b.

(** A run that succeeded serves a certificate for its own key and all the names asked for,
    with at least a month to go, and both are on the disk. *)
Record serves (e : conditions K) (d : disk) (sans : list string) (i : identity) : Prop := {
  sv_key : disk_key d = Some (i_key i);
  sv_cert : ∃ b, d !! certFile = Some b ∧ pem_decode b = Some ("CERTIFICATE"%string, i_der i);
  sv_leaf : ParseCertificate (i_der i) = Some (i_leaf i);
  sv_pub : c_key (i_leaf i) = Some (Public (i_key i));
  sv_fresh : e_checked e + renewBefore ≤ c_notAfter (i_leaf i);
  sv_names : (splitSANs ParseIP sans).1 ⊆ c_names (i_leaf i);
  sv_ips : (splitSANs ParseIP sans).2 ⊆ c_ips (i_leaf i);
  sv_pin : ∃ spki, MarshalPKIX (Public (i_key i)) = Some spki ∧ c_spki (i_leaf i) = spki ∧ i_pin i = OfSPKI Sum256 spki;
}.

Lemma certUsable_true same notAfter now names ips names' ips' :
  certUsable (IP:=IP) same notAfter now names ips names' ips' = true ↔
  same = true ∧ now + renewBefore ≤ notAfter ∧ names' ⊆ names ∧ ips' ⊆ ips.
Proof using Type.
  unfold certUsable. destruct same; [|naive_solver]. cbn [negb].
  destruct (Z.ltb_spec notAfter (now + renewBefore)); [naive_solver lia|].
  rewrite andb_true_iff, !forallb_forall. setoid_rewrite <-list_elem_of_In.
  setoid_rewrite existsb_eqb. setoid_rewrite existsb_In. naive_solver.
Qed.

Lemma loadOrCreateKey_ok e d d' k :
  loadOrCreateKey e d = (d', Ok k) →
  disk_key d' = Some k ∧ (∀ f, f ≠ keyFile → d' !! f = d !! f) ∧
  (e_readable e keyFile = true → is_Some (d !! keyFile) → d' = d).
Proof using H0.
  unfold loadOrCreateKey, ReadFile, disk_key, writePEM. intros Hl.
  destruct (if e_readable e keyFile then d !! keyFile else None) as [b|] eqn:Hb.
  - injection Hl as <- Hk. destruct (e_readable e keyFile); [|done]. rewrite Hb. cbn [mbind option_bind].
    destruct (key_of b); [|done]. split_and!; [congruence|done|done].
  - destruct (e_key e) as [k0|]; [|done]. destruct (MarshalPKCS8 k0) as [der|] eqn:Hm; [|done].
    destruct (e_write e keyFile) as [|[]]; [|done|done]. injection Hl as <- <-. split_and!.
    + rewrite lookup_insert_eq. cbn [mbind option_bind]. unfold key_of. rewrite pem_decode_encode.
      by apply ParsePKCS8_Marshal.
    + intros f Hf. by rewrite lookup_insert_ne.
    + intros Hr [b' Hb']. rewrite Hr in Hb. congruence.
Qed.

Lemma kept_ok e d k names ips der c :
  kept e d k names ips = Some (der, c) →
  (∃ b, d !! certFile = Some b ∧ pem_decode b = Some ("CERTIFICATE"%string, der)) ∧
  ParseCertificate der = Some c ∧ usable e k c names ips = true.
Proof using Type.
  unfold kept, readCertDER, ReadFile. destruct (e_readable e certFile); [|done].
  destruct (d !! certFile) as [b|] eqn:Hb; [|done]. destruct (pem_decode b) as [[ty der0]|] eqn:Hp; [|done].
  destruct (String.eqb_spec ty "CERTIFICATE") as [->|]; [|done].
  destruct (ParseCertificate der0) as [c0|] eqn:Hc; [|done].
  destruct (usable e k c0 names ips) eqn:Hu; [|done]. intros [= <- <-]. eauto.
Qed.

(** A run never touches a key file it can read, whether it succeeds or not. *)
Lemma selfSigned_key_kept e d sans :
  e_readable e keyFile = true → is_Some (d !! keyFile) → (selfSigned e d sans).1 !! keyFile = d !! keyFile.
Proof using Type.
  intros Hr [b Hb]. unfold selfSigned. destruct (e_mkdir e); [|done]. cbn [negb].
  unfold loadOrCreateKey, ReadFile. rewrite Hr, Hb. destruct (key_of b) as [k|]; [|done].
  destruct (MarshalPKIX (Public k)) as [spki|]; [|done]. destruct (splitSANs ParseIP sans) as [names ips].
  destruct (kept e d k names ips) as [[der c]|]; [done|]. destruct (issue e k names ips) as [der|]; [|done].
  unfold writePEM. destruct (e_write e certFile) as [|[rest|]]; cbn [negb];
    [destruct (ParseCertificate der)|..]; cbn [fst]; by rewrite ?lookup_insert_ne.
Qed.

Lemma selfSigned_serves e d sans d' i :
  e_checked e ≤ e_issued e → selfSigned e d sans = (d', Ok i) → serves e d' sans i.
Proof using H0.
  intros Ht. unfold selfSigned. destruct (e_mkdir e); [|done]. cbn [negb].
  destruct (loadOrCreateKey e d) as [d1 [k|]] eqn:Hl; [|done].
  destruct (loadOrCreateKey_ok e d d1 k Hl) as (Hk & _ & _).
  destruct (MarshalPKIX (Public k)) as [spki|] eqn:Hs; [|done].
  destruct (splitSANs ParseIP sans) as [names ips] eqn:Hsan.
  destruct (kept e d1 k names ips) as [[der c]|] eqn:Hkept.
  - intros [= <- <-]. destruct (kept_ok _ _ _ _ _ _ _ Hkept) as (Hcert & Hp & Hu).
    apply certUsable_true in Hu as (Hkey%bool_decide_eq_true & Hf & Hn & Hi).
    split; cbn [i_key i_der i_leaf i_pin]; rewrite ?Hsan; try done.
    exists spki. split_and!; [done|by eapply ParseCertificate_spki|done].
  - destruct (issue e k names ips) as [der|] eqn:Hi; [|done]. unfold writePEM.
    destruct (e_write e certFile) as [|[]]; [|done|done]. cbn [negb].
    destruct (ParseCertificate der) as [c|] eqn:Hp; [|done]. intros [= <- <-].
    unfold issue in Hi. destruct (e_serial e) as [serial|]; [|done].
    destruct (CreateCertificate_fields _ _ _ _ Hi Hp) as (Hkey & Ha & Hn & Hips).
    split; cbn [i_key i_der i_leaf i_pin]; rewrite ?Hsan, ?Ha, ?Hn, ?Hips; cbn [template tm_notAfter tm_names tm_ips fst snd]; try done.
    + unfold disk_key. by rewrite lookup_insert_ne.
    + eexists. rewrite lookup_insert_eq. split; [done|apply pem_decode_encode].
    + change renewBefore with 2592000. change certLife with 315360000. lia.
    + exists spki. split_and!; [done|by eapply ParseCertificate_spki|done].
Qed.

(** ** Restarts *)

(** What happens between two runs that count: runs that can read the key, and anything that
    is done to other files. *)
Inductive restart : disk → disk → Prop :=
| restart_run e d sans : e_readable e keyFile = true → restart d (selfSigned e d sans).1
| restart_other d d' : d' !! keyFile = d !! keyFile → restart d d'.

Lemma restarts_key d d' : is_Some (d !! keyFile) → rtc restart d d' → d' !! keyFile = d !! keyFile.
Proof using Type.
  intros Hd Hr. revert Hd. induction Hr as [|x y z Hs _ IH]; intros Hd; [done|].
  assert (y !! keyFile = x !! keyFile) as Hy by (destruct Hs; [by apply selfSigned_key_kept|done]).
  rewrite IH; congruence.
Qed.

(** What a client that was given this pin says to that certificate. *)
Definition client_accepts (pin : string) (der : list Z) : Prop :=
  ∃ check, Verifier Sum256 (λ b, c_spki <$> ParseCertificate b) [pin] = Ok check ∧ check [der] = None.

Lemma own_pin_accepted der c spki :
  ParseCertificate der = Some c → c_spki c = spki → client_accepts (OfSPKI Sum256 spki) der.
Proof using H0.
  intros Hp Hs. unfold client_accepts, Verifier. cbn [normalize_all].
  destruct (Normalize_text (Sum256 spki) (EncodeToString (Sum256 spki)) (Sum256_digest _) (or_introl eq_refl)) as [_ Hn].
  unfold OfSPKI. rewrite Hn. eexists. split; [done|].
  unfold verify. rewrite Hp. cbn [fmap option_fmap option_map existsb]. rewrite Hs.
  unfold OfSPKI, canonical. by rewrite String.eqb_refl.
Qed.

(** C21: The pin a server handed out at its first start is good for its life: whatever restarts
    follow, with other names, after the certificate ran out or was lost, a run that succeeds
    serves a certificate for the names it was asked for, with a month to go, whose private
    key it holds, under the same pin, and a client that knows the first pin accepts it. *)
Theorem pin_survives_restarts e1 d sans1 d1 i1 d2 e2 sans2 d3 i2 :
  selfSigned e1 d sans1 = (d1, Ok i1) → e_checked e1 ≤ e_issued e1 →
  rtc restart d1 d2 →
  e_readable e2 keyFile = true → e_checked e2 ≤ e_issued e2 → selfSigned e2 d2 sans2 = (d3, Ok i2) →
  serves e2 d3 sans2 i2 ∧ i_key i2 = i_key i1 ∧ i_pin i2 = i_pin i1 ∧ client_accepts (i_pin i1) (i_der i2).
Proof using H0.
  intros H1 Ht1 Hr Hread Ht2 H2.
  pose proof (selfSigned_serves e1 d sans1 d1 i1 Ht1 H1) as [Hk1 _ _ _ _ _ _ (s1 & Hs1 & _ & Hp1)].
  pose proof (selfSigned_serves e2 d2 sans2 d3 i2 Ht2 H2) as Hserves.
  pose proof Hserves as [Hk2 _ Hleaf _ _ _ _ (s2 & Hs2 & Hspki & Hp2)].
  assert (is_Some (d1 !! keyFile)) as Hd1 by (unfold disk_key in Hk1; by destruct (d1 !! keyFile)).
  pose proof (restarts_key d1 d2 Hd1 Hr) as Hd2.
  assert (d3 !! keyFile = d1 !! keyFile) as Hd3.
  { rewrite <-Hd2. pose proof (selfSigned_key_kept e2 d2 sans2 Hread) as Hk. rewrite H2 in Hk. apply Hk. by rewrite Hd2. }
  assert (i_key i2 = i_key i1) as Hkey by (unfold disk_key in Hk1, Hk2; rewrite Hd3 in Hk2; congruence).
  assert (i_pin i2 = i_pin i1) as Hpin by (rewrite Hkey in Hs2; congruence).
  split_and!; [done|done|done|]. rewrite <-Hpin, Hp2. by eapply own_pin_accepted.
Qed.

(** A restart with the same names, or fewer, a month before the end at the latest, serves
    the very certificate it served before and writes nothing. *)
Theorem restart_keeps_certificate e1 d sans1 d1 i1 e2 sans2 :
  selfSigned e1 d sans1 = (d1, Ok i1) → e_checked e1 ≤ e_issued e1 →
  e_mkdir e2 = true → (∀ f, e_readable e2 f = true) →
  sans2 ⊆ sans1 → e_checked e2 + renewBefore ≤ c_notAfter (i_leaf i1) →
  selfSigned e2 d1 sans2 = (d1, Ok i1).
Proof using H0.
  intros H1 Ht1 Hdir Hread Hsub Hfresh.
  pose proof (selfSigned_serves e1 d sans1 d1 i1 Ht1 H1) as [Hk (b & Hb & Hpem) Hleaf Hpub _ Hn Hi (s & Hs & _ & Hp)].
  unfold selfSigned, loadOrCreateKey, ReadFile. rewrite Hdir, Hread. cbn [negb].
  unfold disk_key in Hk. destruct (d1 !! keyFile) as [kb|]; [|done]. cbn [mbind option_bind] in Hk. rewrite Hk, Hs.
  destruct (splitSANs ParseIP sans2) as [names ips] eqn:Hsan.
  assert (usable e2 (i_key i1) (i_leaf i1) names ips = true) as Hu.
  { apply certUsable_true. rewrite bool_decide_eq_true.
    destruct (splitSANs_loop_spec ParseIP sans1 [] []) as [Hx1 Hp1].
    destruct (splitSANs_loop_spec ParseIP sans2 [] []) as [Hx2 Hp2].
    unfold splitSANs in Hn, Hi, Hsan. rewrite Hsan in Hx2, Hp2. cbn [fst snd] in Hx2, Hp2.
    split_and!; [done|done|..].
    - intros x Hx%Hx2. apply Hn, Hx1. destruct Hx as [|(? & ? & ?)]; [by left|right; auto].
    - intros x Hx%Hp2. apply Hi, Hp1. destruct Hx as [|(y & ? & ? & ?)]; [by left|right; exists y; auto]. }
  unfold kept, readCertDER, ReadFile. rewrite Hread, Hb, Hpem, String.eqb_refl, Hleaf, Hu, <-Hp. by destruct i1.
Qed.

(** A key file that cannot be read for once is taken for a missing one: the run makes a new
    key over it, and every pin that was handed out is void. *)
Lemma unreadable_key_replaced e d k der :
  e_readable e keyFile = false → e_key e = Some k → MarshalPKCS8 k = Some der →
  e_write e keyFile = Done → disk_key (loadOrCreateKey e d).1 = Some k.
Proof using H0.
  intros Hr Hk Hm Hw. destruct (loadOrCreateKey e d) as [d' r] eqn:Hl. pose proof Hl as Hl'.
  unfold loadOrCreateKey, ReadFile, writePEM in Hl'. rewrite Hr, Hk, Hm, Hw in Hl'. injection Hl' as _ <-.
  by apply (loadOrCreateKey_ok e d d' k).
Qed.
End run.

(** ** Witnesses: a toy system of keys *)

(** Keys are numbers and their own public parts; a certificate is the number that codes it. *)
#[local] Instance toy_crypto : Crypto Z Z Z := {
  Public k := k;
  MarshalPKIX p := Some [p];
  ParsePKCS8 b := head b;
  MarshalPKCS8 k := Some [k];
  ParseCertificate b :=
    match b with
    | [k; Zpos code] => '(na, names) ← (countable.decode code : option (Z * list string)); Some (MkCert (Some k) [k] na names [])
    | _ => None
    end;
  CreateCertificate tm k :=
    match tm_ips tm with [] => Some [k; Zpos (countable.encode (tm_notAfter tm, tm_names tm))] | _ => None end;
  pem_encode ty b := (if String.eqb ty "CERTIFICATE" then 0 else Zpos (countable.encode ty)) :: b;
  pem_decode b :=
    match b with
    | 0 :: b => Some ("CERTIFICATE"%string, b)
    | Zpos code :: b => ty ← countable.decode code; Some (ty, b)
    | _ => None
    end;
  Sum256 := flat_hash;
}.

#[local] Instance toy_laws : CryptoLaws Z Z Z.
Proof.
  split.
  - intros ty b. cbn. destruct (String.eqb_spec ty "CERTIFICATE") as [->|]; [done|]. by rewrite countable.decode_encode.
  - by intros k b [= <-].
  - intros tm k der c. cbn. destruct (tm_ips tm) eqn:Hi; [|done]. intros [= <-]. rewrite countable.decode_encode.
    cbn [mbind option_bind]. by intros [= <-].
  - intros der c p spki. cbn. destruct der as [|k [|[| |] []]]; try done.
    destruct (countable.decode _) as [[na names]|]; [|done]. cbn [mbind option_bind].
    intros [= <-]. cbn [c_key c_spki]. intros [= <-]. congruence.
  - intros b. by apply demo_digest_ok.
Qed.

Definition no_ip (_ : string) : option Z := None.

Definition fine_day (k serial now : Z) : conditions Z :=
  MkConditions true (λ _, true) (λ _, Done) (Some k) (Some serial) now now.

(** Years later, with another name: the certificate is new, the pin is not. *)
Lemma pin_survives_restarts_witness :
  match selfSigned no_ip (fine_day 5 1 1000) ∅ ["localhost"] with
  | (d, Ok i) =>
    match selfSigned no_ip (fine_day 6 2 400000000) (delete certFile d) ["localhost"; "vpn"] with
    | (_, Ok i') => i_pin i' = i_pin i ∧ client_accepts (IP:=Z) (K:=Z) (P:=Z) (i_pin i) (i_der i')
    | _ => False
    end
  | _ => False
  end.
Proof.
  set (r1 := selfSigned no_ip (fine_day 5 1 1000) ∅ ["localhost"%string]).
  set (r2 := λ d, selfSigned no_ip (fine_day 6 2 400000000) (delete certFile d) ["localhost"; "vpn"]%string).
  assert (is_ok r1.2 && is_ok (r2 r1.1).2 = true) as Hok by (by vm_compute).
  pose proof (pin_survives_restarts no_ip (fine_day 5 1 1000) ∅ ["localhost"%string]) as H. fold r1 in H.
  change (match r1 with (d, Ok i) => match r2 d with (_, Ok i') => i_pin i' = i_pin i ∧ client_accepts (IP:=Z) (K:=Z) (P:=Z) (i_pin i) (i_der i')
          | _ => False end | _ => False end).
  destruct r1 as [d [i|e]]; [|discriminate Hok]. cbn [fst snd is_ok andb] in Hok.
  specialize (H d i (delete certFile d) (fine_day 6 2 400000000) ["localhost"; "vpn"]%string).
  change (selfSigned no_ip (fine_day 6 2 400000000) (delete certFile d) ["localhost"; "vpn"]%string) with (r2 d) in H.
  destruct (r2 d) as [d' [i'|e]]; [|discriminate Hok].
  destruct (H d' i') as (_ & _ & Hp & Ha); [reflexivity|discriminate| |reflexivity|discriminate|reflexivity|by split].
  apply rtc_once, restart_other. by rewrite lookup_delete_ne.
Defined.

Lemma restart_keeps_certificate_witness :
  match selfSigned no_ip (fine_day 5 1 1000) ∅ ["localhost"; "vpn"] with
  | (d, Ok i) => selfSigned no_ip (fine_day 6 2 2000) d ["vpn"] = (d, Ok i)
  | _ => False
  end.
Proof.
  pose proof (restart_keeps_certificate no_ip (fine_day 5 1 1000) ∅ ["localhost"; "vpn"]%string) as H.
  set (r1 := selfSigned no_ip (fine_day 5 1 1000) ∅ ["localhost"; "vpn"]%string) in *.
  assert (match r1.2 with Ok i => 2000 + renewBefore <=? c_notAfter (i_leaf i) | _ => false end = true) as Hok by (by vm_compute).
  destruct r1 as [d [i|e]]; [|discriminate Hok]. apply Z.leb_le in Hok.
  apply (H d i (fine_day 6 2 2000)); [reflexivity|discriminate|reflexivity|reflexivity|set_solver|exact Hok].
Defined.
