(* ===== verification/Paths.v ===== *)
(** * Where state is kept (shared/paths.go, and the paths in server/config, client/profile and
      server/tlsconf)

    Joining paths is path/filepath's: a class with the one law the files rely on, that a joined
    path says which file it names.  The Unix half of the package is an instance. *)
From Stdlib Require Import Ascii String.
From S2P Require Import Prelude GoString GoStringFacts SelfSigned.

(** ** path/filepath *)

(** A name of a single file. *)
Definition plain_name (n : string) : Prop :=
  n ≠ ""%string ∧ n ≠ "."%string ∧ n ≠ ".."%string ∧ has_byte "/" n = false ∧ has_byte "\" n = false.

Class Filepath := { Join : list string → string }.

Class FilepathLaws `{Filepath} : Prop :=
  Join_base : ∀ d d' n m, plain_name n → plain_name m → Join [d; n] = Join [d'; m] → n = m.

(** *** On Unix *)

(** One element of a path, on the elements before it, the last one first. *)
Definition clean_elem (rooted : bool) (acc : list string) (e : string) : list string :=
  if String.eqb e "" || String.eqb e "." then acc else
  if String.eqb e ".." then
    match acc with
    | [] => if rooted then [] else [".."%string]
    | x :: acc' => if String.eqb x ".." then ".."%string :: acc else acc'
    end
  else e :: acc.

Definition Clean (path : string) : string :=
  let rooted := match path with String "/"%char _ => true | _ => false end in
  let elems := reverse (foldl (clean_elem rooted) [] (split_byte "/" path)) in
  match elems with
  | [] => if rooted : bool then "/" else "."
  | _ => (if rooted : bool then "/" else "") +:+ str_join elems "/"
  end.

(** Leading empty elements are left out. *)
Fixpoint unix_Join (elem : list string) : string :=
  match elem with
  | [] => ""
  | e :: rest => if String.eqb e "" then unix_Join rest else Clean (str_join elem "/")
  end.

Lemma split_byte_app_gen c l r : split_byte c (l +:+ String c r) = split_byte c l ++ split_byte c r.
Proof.
  induction l as [|a l IH]; [rewrite string_app_nil_l; cbn [split_byte]; by rewrite Ascii.eqb_refl|].
  rewrite string_app_cons. cbn [split_byte]. destruct (Ascii.eqb a c); [by rewrite IH|].
  rewrite IH. destruct (split_byte c l) eqn:Hs; [by apply split_byte_ne in Hs|done].
Qed.

Lemma clean_elems_no_slash rooted es acc :
  Forall (λ s, has_byte "/" s = false) acc → Forall (λ s, has_byte "/" s = false) es →
  Forall (λ s, has_byte "/" s = false) (foldl (clean_elem rooted) acc es).
Proof.
  intros Hacc Hes. revert acc Hacc. induction Hes as [|e es He _ IH]; intros acc Hacc; [done|]. cbn [foldl]. apply IH.
  unfold clean_elem. destruct (_ || _); [done|]. destruct (String.eqb e ".."); [|by constructor].
  destruct Hacc as [|x acc Hx Hacc]; [destruct rooted; by repeat constructor|].
  destruct (String.eqb x ".."); [by repeat constructor|done].
Qed.

(** A path that ends in a plain name is clean up to it. *)
Lemma Clean_last path d n :
  split_byte "/" path = d ++ [n] → plain_name n → last (split_byte "/" (Clean path)) = Some n.
Proof.
  intros Hp (Hn1 & Hn2 & Hn3 & Hn4 & _). unfold Clean. set (rooted := match path with String _ _ => _ | _ => _ end).
  rewrite Hp, foldl_app. cbn [foldl].
  assert (∀ acc, clean_elem rooted acc n = n :: acc) as ->.
  { intros acc. unfold clean_elem. apply String.eqb_neq in Hn1, Hn2, Hn3. by rewrite Hn1, Hn2, Hn3. }
  rewrite reverse_cons. set (l := reverse (foldl _ _ d)).
  assert (Forall (λ s, has_byte "/" s = false) (l ++ [n])) as Hl.
  { apply Forall_app. split; [|by constructor]. apply Forall_reverse, clean_elems_no_slash; [constructor|].
    pose proof (split_byte_no_byte "/" path) as Hs. rewrite Hp in Hs. by apply Forall_app in Hs as [? _]. }
  assert (split_byte "/" (str_join (l ++ [n]) "/") = l ++ [n]) as Hs by (apply split_join; [by destruct l|done]).
  clearbody l rooted. assert (∀ x y : string, match l ++ [n] with [] => x | _ => y end = y) as -> by (by destruct l).
  destruct rooted.
  - change ("/" +:+ str_join (l ++ [n]) "/")%string with (String "/" (str_join (l ++ [n]) "/")). cbn [split_byte].
    change (Ascii.eqb "/" "/") with true. cbv iota. by rewrite Hs, app_comm_cons, last_snoc.
  - by rewrite string_app_nil_l, Hs, last_snoc.
Qed.

Lemma unix_Join_last d n : plain_name n → last (split_byte "/" (unix_Join [d; n])) = Some n.
Proof.
  intros Hn. pose proof Hn as (Hn1 & _ & _ & Hn4 & _). cbn [unix_Join]. apply String.eqb_neq in Hn1. rewrite Hn1.
  destruct (String.eqb d ""); (eapply Clean_last; [|done]).
  - change (str_join [n] "/") with n. rewrite split_byte_none by done. by instantiate (1 := []).
  - change (str_join [d; n] "/") with (d +:+ String "/" n). by rewrite split_byte_app_gen, (split_byte_none _ n).
Qed.

#[export] Instance unix_filepath : Filepath := { Join := unix_Join }.

#[export] Instance unix_filepath_laws : FilepathLaws.
Proof.
  intros d d' n m Hn Hm Hj. cbn [Join unix_filepath] in Hj.
  pose proof (unix_Join_last d n Hn) as H1. rewrite Hj, (unix_Join_last d' m Hm) in H1. by injection H1.
Qed.

(** ** The program's directories *)

Definition StateDirEnv : string := "ZWAN_STATE_DIR".
Definition ProductName : string := "MyWAN".
Definition Version : string := "0.0.0-dev".

(** What a process finds: its system, its environment ([os.Getenv] gives the empty text for a
    variable that is not set), and what it may create. *)
Record process : Type := MkProcess {
  ps_windows : bool;
  ps_env : string → string;
  ps_UserConfigDir : option string;
  ps_MkdirAll : string → bool;
}.

Section dirs.
Context `{laws : FilepathLaws}.

Definition stateDirCandidates (p : process) : list string :=
  let cfg := default "" (ps_UserConfigDir p) in
  if ps_windows p then
    let pd := ps_env p "ProgramData" in
    [if String.eqb pd "" then "C:\ProgramData"%string else pd; cfg]
  else ["/var/lib"%string; cfg].

(** The loop over the candidates. *)
Fixpoint first_dir (p : process) (elem bases : list string) : option string :=
  match bases with
  | [] => None
  | base :: bases =>
    if String.eqb base "" then first_dir p elem bases else
    let dir := Join (base :: "zwan"%string :: elem) in
    if ps_MkdirAll p dir then Some dir else first_dir p elem bases
  end.

(** The error names the directory that could not be created. *)
Definition StateDir (p : process) (elem : list string) : result string string :=
  let base := ps_env p StateDirEnv in
  if negb (String.eqb base "") then
    let dir := Join (base :: elem) in
    if ps_MkdirAll p dir then Ok dir else Err dir
  else
    match first_dir p elem (stateDirCandidates p) with
    | Some dir => Ok dir
    | None =>
      let dir := Join (".zwan"%string :: elem) in
      if ps_MkdirAll p dir then Ok dir else Err dir
    end.

(** *** The files in it *)

Definition config_FileName : string := "server.json".
Definition NetworksFile : string := "networks.json".

Definition in_state_dir (p : process) (name : string) : result string string :=
  match StateDir p [] with Ok dir => Ok (Join [dir; name]) | Err e => Err e end.

(** [Path] of the server's configuration and of the joined networks. *)
Definition config_Path (p : process) : result string string := in_state_dir p config_FileName.
Definition NetworksPath (p : process) : result string string := in_state_dir p NetworksFile.

(** [config.Save]: the path and the text written to it, readable by its owner. *)
Definition config_Save {C : Type} (marshal : C → option string) (write : string → string → bool) (p : process) (c : C)
  : option string :=
  match config_Path p with
  | Err e => Some e
  | Ok path =>
    match marshal c with
    | None => Some "marshal"%string
    | Some b => if write path (b +:+ String "010" "") then None else Some path
    end
  end.

(** The directories [DeviceUUID] and [MachineDeviceUUID] keep the identifier in; the first
    fails where the user has no configuration directory. *)
Definition DeviceUUID_dir (p : process) : option string :=
  (λ dir, Join [dir; "zwan"%string]) <$> ps_UserConfigDir p.

Definition MachineDeviceUUID_dir (p : process) : string :=
  let base := ps_env p "ProgramData" in
  Join [if String.eqb base "" then "C:\ProgramData"%string else base; "zwan"%string].

Definition device_id_path (dir : string) : string := Join [dir; "device_id"%string].

(** The key and the certificate in the directory [selfSigned] is given. *)
Definition key_path (dir : string) : string := Join [dir; keyFile].
Definition cert_path (dir : string) : string := Join [dir; certFile].

(** ** Which directory *)

Lemma first_dir_spec p elem bases :
  match first_dir p elem bases with
  | Some dir => ∃ pre base post, bases = pre ++ base :: post ∧ base ≠ ""%string ∧
      dir = Join (base :: "zwan"%string :: elem) ∧ ps_MkdirAll p dir = true ∧
      Forall (λ b, b = ""%string ∨ ps_MkdirAll p (Join (b :: "zwan"%string :: elem)) = false) pre
  | None => Forall (λ b, b = ""%string ∨ ps_MkdirAll p (Join (b :: "zwan"%string :: elem)) = false) bases
  end.
Proof using Type.
  induction bases as [|b bases IH]; [constructor|]. cbn [first_dir].
  assert (b = ""%string ∨ ps_MkdirAll p (Join (b :: "zwan"%string :: elem)) = false →
    match first_dir p elem bases with
    | Some dir => ∃ pre base post, b :: bases = pre ++ base :: post ∧ base ≠ ""%string ∧
        dir = Join (base :: "zwan"%string :: elem) ∧ ps_MkdirAll p dir = true ∧
        Forall (λ b, b = ""%string ∨ ps_MkdirAll p (Join (b :: "zwan"%string :: elem)) = false) pre
    | None => Forall (λ b, b = ""%string ∨ ps_MkdirAll p (Join (b :: "zwan"%string :: elem)) = false) (b :: bases)
    end) as Hnext.
  { intros Hb. destruct (first_dir p elem bases) as [dir|]; [|by constructor].
    destruct IH as (pre & base & post & -> & ? & ? & ? & Hpre). exists (b :: pre), base, post.
    split_and!; [done|done|done|done|by constructor]. }
  destruct (String.eqb_spec b "") as [Hb|Hb]; [apply Hnext; by left|].
  destruct (ps_MkdirAll p _) eqn:Hm; [|apply Hnext; by right].
  exists [], b, bases. by split_and!.
Qed.

(** The state directory is one that was created: the override alone when there is one, else
    the first of the candidates that can be, else the one beside the program; and it is an
    error only when none of those can be. *)
Theorem StateDir_first p elem :
  match StateDir p elem with
  | Ok dir => ps_MkdirAll p dir = true ∧
      ((ps_env p StateDirEnv ≠ ""%string ∧ dir = Join (ps_env p StateDirEnv :: elem)) ∨
       (ps_env p StateDirEnv = ""%string ∧ ∃ pre base post,
          stateDirCandidates p ++ [".zwan"%string] = pre ++ base :: post ∧ base ≠ ""%string ∧
          dir = Join (if decide (post = []) then base :: elem else base :: "zwan"%string :: elem) ∧
          Forall (λ b, b = ""%string ∨ ps_MkdirAll p (Join (b :: "zwan"%string :: elem)) = false) pre))
  | Err dir => ps_MkdirAll p dir = false ∧
      (ps_env p StateDirEnv = ""%string →
       Forall (λ b, b = ""%string ∨ ps_MkdirAll p (Join (b :: "zwan"%string :: elem)) = false) (stateDirCandidates p))
  end.
Proof using Type.
  unfold StateDir. destruct (String.eqb_spec (ps_env p StateDirEnv) "") as [He|He]; cbn [negb].
  - pose proof (first_dir_spec p elem (stateDirCandidates p)) as Hf.
    destruct (first_dir p elem _) as [dir|].
    + destruct Hf as (pre & base & post & Hc & Hne & -> & Hm & Hpre). split; [done|]. right. split; [done|].
      exists pre, base, (post ++ [".zwan"%string]). split_and!; [by rewrite Hc, <- app_assoc|done| |done].
      rewrite decide_False by (by destruct post). done.
    + destruct (ps_MkdirAll p (Join (".zwan"%string :: elem))) eqn:Hm; [|by split].
      split; [done|]. right. split; [done|]. exists (stateDirCandidates p), ".zwan"%string, []. by split_and!.
  - destruct (ps_MkdirAll p _) eqn:Hm; [|by split]. split; [done|]. left. by split.
Qed.

(** The machine's directory on Windows. *)
Definition machine_dir (p : process) (elem : list string) : string :=
  let base := ps_env p StateDirEnv in
  if String.eqb base "" then Join (hd ""%string (stateDirCandidates p) :: "zwan"%string :: elem) else Join (base :: elem).

(** Two processes on one Windows machine, of whatever users, keep their state in the same
    place as long as both may create it. *)
Theorem machine_wide p q elem :
  ps_windows p = true → ps_windows q = true →
  ps_env p StateDirEnv = ps_env q StateDirEnv → ps_env p "ProgramData" = ps_env q "ProgramData" →
  ps_MkdirAll p (machine_dir p elem) = true → ps_MkdirAll q (machine_dir p elem) = true →
  StateDir p elem = Ok (machine_dir p elem) ∧ StateDir q elem = Ok (machine_dir p elem).
Proof using Type.
  intros Hp Hq Ho Hpd. unfold machine_dir, StateDir, stateDirCandidates. rewrite Hp, Hq, <- Ho, <- Hpd.
  destruct (String.eqb (ps_env p StateDirEnv) ""); cbn [negb hd first_dir]; [|by intros -> ->].
  set (pd := if String.eqb (ps_env p "ProgramData") "" then _ else _).
  assert (String.eqb pd "" = false) as ->; [|by intros -> ->].
  unfold pd. destruct (String.eqb (ps_env p "ProgramData") "") eqn:He; done.
Qed.

(** ** Which file *)

Lemma names_plain : Forall plain_name [config_FileName; NetworksFile; keyFile; certFile; "device_id"%string].
Proof using Type. repeat (constructor; [by repeat split|]). constructor. Qed.

(** The server's settings, the saved networks, the key, the certificate and the identifier are
    five different files, whatever the directories are and whether or not they are the same. *)
Theorem state_files_apart p tls machine :
  NoDup (omap (λ r : result string string, match r with Ok path => Some path | Err _ => None end)
    [config_Path p; NetworksPath p; Ok (key_path tls); Ok (cert_path tls); Ok (device_id_path machine)]).
Proof using laws.
  assert (∀ d d' n m, plain_name n → plain_name m → n ≠ m → Join [d; n] ≠ Join [d'; m]) as Hne.
  { intros d d' n m Hn Hm Hnm Hj. by apply Join_base in Hj. }
  pose proof names_plain as Hpl. rewrite !Forall_cons in Hpl. destruct Hpl as (H1 & H2 & H3 & H4 & H5 & _).
  unfold config_Path, NetworksPath, in_state_dir, key_path, cert_path, device_id_path.
  destruct (StateDir p []) as [dir|e]; cbn [omap list_omap]; rewrite !NoDup_cons, !elem_of_cons, !elem_of_nil;
    repeat split; try apply NoDup_nil_2; intros Hin; repeat destruct Hin as [Hin|Hin]; try done;
    revert Hin; by apply Hne.
Qed.
End dirs.

(** ** A machine *)

Definition demo_process : process :=
  MkProcess true (λ v, if String.eqb v "ProgramData" then "/pd"%string else if String.eqb v StateDirEnv then "/side"%string else ""%string)
    (Some "/home/u"%string) (λ _, true).

(** The override that keeps an installation beside another off the machine's directory does
    not reach the identifier: both register as the same device. *)
Lemma override_shares_device_id :
  StateDir demo_process [] = Ok "/side"%string ∧ NetworksPath demo_process = Ok "/side/networks.json"%string ∧
  MachineDeviceUUID_dir demo_process = "/pd/zwan"%string.
Proof. by vm_compute. Qed.

(** Without the override the service, which has no user, and a window agree. *)
Example machine_wide_demo :
  let env v := if String.eqb v "ProgramData" then "/pd"%string else ""%string in
  StateDir (MkProcess true env None (λ _, true)) ["tls"%string] = Ok "/pd/zwan/tls"%string ∧
  StateDir (MkProcess true env (Some "/home/u"%string) (λ _, true)) ["tls"%string] = Ok "/pd/zwan/tls"%string.
Proof. split; by vm_compute. Qed.
