(* ===== verification/Url.v ===== *)
(** * Package net/url: parsing an address

    [url.Parse] as far as the program uses it, the scheme and the host of the result, and
    [url.PathUnescape]; an error is [None]. *)
From Stdlib Require Import Ascii String.
From S2P Require Import Prelude GoString GoStringFacts HostPort Netip Base64.

Local Open Scope Z_scope.

(** ** Percent encoding *)

(** The part of an address a text stands in: it decides what may be escaped. *)
Inductive mode : Type := PathSegment | UrlPath | UserPassword | UrlHost | UrlZone | Fragment.

Definition alnum (c : ascii) : bool :=
  let b := byte_val c in
  ((97 <=? b) && (b <=? 122)) || ((65 <=? b) && (b <=? 90)) || ((48 <=? b) && (b <=? 57)).

(** [!shouldEscape(c, encodeHost)]. *)
Definition host_char (c : ascii) : bool :=
  alnum c || existsb (Ascii.eqb c)
    ["!"; "$"; "&"; "'"; "("; ")"; "*"; "+"; ","; ";"; "="; ":"; "["; "]"; "<"; ">"; "034"; "-"; "_"; "."; "~"]%char.

(** Whether the byte [v] may be written as an escape. *)
Definition may_escape (m : mode) (v : Z) : bool :=
  match m with
  | UrlHost => (0x80 <=? v) || (v =? 0x25)
  | UrlZone => (v =? 0x25) || (v =? 0x20) || host_char (byte_of v)
  | _ => true
  end.

(** Whether a byte may stand as it is. *)
Definition may_stand (m : mode) (c : ascii) : bool :=
  match m with UrlHost | UrlZone => (0x80 <=? byte_val c) || host_char c | _ => true end.

Fixpoint unescape (m : mode) (s : string) : option string :=
  match s with
  | EmptyString => Some ""
  | String c s' =>
    if Ascii.eqb c "%" then
      match s' with
      | String a (String b s'') =>
        x ← hex_val a; y ← hex_val b;
        if may_escape m (x * 16 + y) then String (byte_of (x * 16 + y)) <$> unescape m s'' else None
      | _ => None
      end
    else if may_stand m c then String c <$> unescape m s' else None
  end.

Definition PathUnescape (s : string) : option string := unescape PathSegment s.

(** ** The parts of an address *)

Definition has_ctl (s : string) : bool :=
  existsb (λ c, (byte_val c <? 0x20) || (byte_val c =? 0x7f)) (list_ascii_of_string s).

Definition letter (c : ascii) : bool :=
  let b := byte_val c in ((97 <=? b) && (b <=? 122)) || ((65 <=? b) && (b <=? 90)).

(** A digit or sign of a scheme, which cannot begin one. *)
Definition scheme_sign (c : ascii) : bool :=
  ((48 <=? byte_val c) && (byte_val c <=? 57)) || existsb (Ascii.eqb c) ["+"; "-"; "."]%char.

(** The loop of [getScheme] after the first byte: what is before the colon and after it, if
    only bytes of a scheme come before. *)
Fixpoint scheme_rest (s : string) : option (string * string) :=
  match s with
  | EmptyString => None
  | String c s =>
    if letter c || scheme_sign c then '(l, r) ← scheme_rest s; Some (String c l, r)
    else if Ascii.eqb c ":" then Some ("", s) else None
  end.

(** The scheme, empty when there is none, and what follows; [None] is an error. *)
Definition getScheme (s : string) : option (string * string) :=
  match s with
  | EmptyString => Some ("", "")
  | String c s' =>
    if letter c then
      Some (match scheme_rest s' with Some (l, r) => (String c l, r) | None => ("", s) end)
    else if Ascii.eqb c ":" then None else Some ("", s)
  end.

Definition before (c : ascii) (s : string) : string :=
  match cut (String c "") s with Some (l, _) => l | None => s end.

Definition validOptionalPort (port : string) : bool :=
  match port with
  | EmptyString => true
  | String c ds => Ascii.eqb c ":" && forallb is_digit (list_ascii_of_string ds)
  end.

Definition user_rune (r : Z) : bool :=
  ((65 <=? r) && (r <=? 90)) || ((97 <=? r) && (r <=? 122)) || ((48 <=? r) && (r <=? 57)) ||
  existsb (Z.eqb r) [45; 46; 95; 58; 126; 33; 36; 38; 39; 40; 41; 42; 43; 44; 59; 61; 37; 64].

Definition validUserinfo (s : string) : bool := forallb user_rune (runes s).

(** A host in brackets may name a zone, after an escaped percent sign. *)
Definition parseHost (host : string) : option string :=
  if has_prefix host "[" then
    match cut_last "]" host with
    | None => None
    | Some (l, port) =>
      if negb (validOptionalPort port) then None else
      match cut "%25" l with
      | Some (h, zone) =>
        h1 ← unescape UrlHost h; h2 ← unescape UrlZone ("%25" +:+ zone);
        h3 ← unescape UrlHost (String "]" port); Some (h1 +:+ h2 +:+ h3)
      | None => unescape UrlHost host
      end
    end
  else
    match cut_last ":" host with
    | Some (_, port) => if validOptionalPort (String ":" port) then unescape UrlHost host else None
    | None => unescape UrlHost host
    end.

(** The host; a user's name and password are only checked. *)
Definition parseAuthority (a : string) : option string :=
  match cut_last "@" a with
  | None => parseHost a
  | Some (user, host) =>
    h ← parseHost host;
    if negb (validUserinfo user) then None else
    match cut ":" user with
    | None => _ ← unescape UserPassword user; Some h
    | Some (n, p) => _ ← unescape UserPassword n; _ ← unescape UserPassword p; Some h
    end
  end.

(** [parse]: the scheme and the host. *)
Definition parse_url (s : string) : option (string * string) :=
  if has_ctl s then None else
  if String.eqb s "*" then Some ("", "") else
  '(scheme, rest) ← getScheme s;
  let scheme := to_lower scheme in
  let rest := before "?" rest in
  if negb (has_prefix rest "/") && negb (String.eqb scheme "") then Some (scheme, "") else
  if negb (has_prefix rest "/") && has_byte ":" (before "/" rest) then None else
  match after_prefix "//" rest with
  | Some authority =>
    if negb (String.eqb scheme "") || negb (has_prefix rest "///") then
      host ← parseAuthority (before "/" authority);
      _ ← unescape UrlPath (match cut "/" authority with Some (_, p) => String "/" p | None => "" end);
      Some (scheme, host)
    else _ ← unescape UrlPath rest; Some (scheme, "")
  | None => _ ← unescape UrlPath rest; Some (scheme, "")
  end.

(** [url.Parse]. *)
Definition Parse (s : string) : option (string * string) :=
  match cut "#" s with
  | None => parse_url s
  | Some (u, frag) => r ← parse_url u; _ ← unescape Fragment frag; Some r
  end.

Example parse_plain : Parse "https://example.test:8787/v1/x?q=1" = Some ("https", "example.test:8787").
Proof. by vm_compute. Qed.
Example parse_zone : Parse "http://[fe80::1%25eth0]:80" = Some ("http", "[fe80::1%eth0]:80").
Proof. by vm_compute. Qed.
Example parse_user : Parse "HTTPS://u:p@h" = Some ("https", "h").
Proof. by vm_compute. Qed.
Example parse_port : Parse "https://h:port" = None.
Proof. by vm_compute. Qed.
Example parse_opaque : Parse "mailto:x" = Some ("mailto", "").
Proof. by vm_compute. Qed.

(** ** What parsing gives back *)

Lemma hex_val_upper d : 0 ≤ d < 16 → hex_val (upper_hex d) = Some d ∧ upper_hex d ≠ "%"%char.
Proof.
  intros Hd. assert (Forall (λ d, hex_val (upper_hex d) = Some d ∧ upper_hex d ≠ "%"%char) (seqZ 0 16)) as H
    by (repeat constructor; done).
  rewrite Forall_forall in H. apply H, elem_of_seqZ. lia.
Qed.

Lemma nibbles c : 0 ≤ byte_val c / 16 < 16 ∧ 0 ≤ byte_val c mod 16 < 16.
Proof.
  pose proof (byte_val_range c). split; [|by apply Z.mod_pos_bound].
  split; [apply Z.div_pos; lia|apply Z.div_lt_upper_bound; lia].
Qed.

Lemma path_safe_mark c : path_safe c = true → Ascii.eqb c "%" = false ∧ Ascii.eqb c "#" = false ∧ solid_byte c = true.
Proof.
  assert (∀ c, implb (path_safe c) (negb (Ascii.eqb c "%") && negb (Ascii.eqb c "#") && solid_byte c) = true) as H.
  { intros [[] [] [] [] [] [] [] []]; by vm_compute. }
  intros Hc. specialize (H c). rewrite Hc in H. cbn [implb] in H.
  apply andb_true_iff in H as [[?%negb_true_iff ?%negb_true_iff]%andb_true_iff ?]. done.
Qed.

Lemma PathUnescape_PathEscape s : PathUnescape (PathEscape s) = Some s.
Proof.
  unfold PathUnescape. induction s as [|c s IH]; [done|]. cbn [PathEscape].
  destruct (path_safe c) eqn:Hc; cbn [unescape].
  - destruct (path_safe_mark c Hc) as (-> & _). cbn [may_stand]. by rewrite IH.
  - rewrite Ascii.eqb_refl. destruct (nibbles c) as [Hhi Hlo].
    destruct (hex_val_upper _ Hhi) as [-> _]. destruct (hex_val_upper _ Hlo) as [-> _].
    cbn [mbind option_bind may_escape]. rewrite IH. cbn [fmap option_fmap option_map]. do 2 f_equal.
    rewrite (Z.mul_comm (byte_val c / 16)), <-Z.div_mod by done. apply byte_of_val.
Qed.

Lemma PathEscape_bytes s :
  Forall (λ c, solid_byte c = true ∧ Ascii.eqb c "#" = false) (list_ascii_of_string (PathEscape s)).
Proof.
  assert (∀ d, 0 ≤ d < 16 → solid_byte (upper_hex d) = true ∧ Ascii.eqb (upper_hex d) "#" = false) as Hhex.
  { assert (Forall (λ d, solid_byte (upper_hex d) = true ∧ Ascii.eqb (upper_hex d) "#" = false) (seqZ 0 16)) as H
      by (repeat constructor; done).
    rewrite Forall_forall in H. intros d Hd. apply H, elem_of_seqZ. lia. }
  induction s as [|c s IH]; [constructor|]. cbn [PathEscape]. destruct (path_safe c) eqn:Hc; cbn [list_ascii_of_string].
  - destruct (path_safe_mark c Hc) as (_ & ? & ?). by constructor.
  - destruct (nibbles c). constructor; [done|]. constructor; [by apply Hhex|]. constructor; [by apply Hhex|done].
Qed.

Lemma host_char_mark c :
  host_char c = true →
  solid_byte c = true ∧ Ascii.eqb c "%" = false ∧ Ascii.eqb c "#" = false ∧ Ascii.eqb c "/" = false ∧
  Ascii.eqb c "?" = false ∧ Ascii.eqb c "@" = false ∧ (byte_val c =? 0x7f) = false.
Proof.
  assert (∀ c, implb (host_char c) (solid_byte c && negb (Ascii.eqb c "%") && negb (Ascii.eqb c "#") &&
    negb (Ascii.eqb c "/") && negb (Ascii.eqb c "?") && negb (Ascii.eqb c "@") && negb (byte_val c =? 0x7f)) = true) as H.
  { intros [[] [] [] [] [] [] [] []]; by vm_compute. }
  intros Hc. specialize (H c). rewrite Hc in H. cbn [implb] in H. rewrite !andb_true_iff, !negb_true_iff in H. tauto.
Qed.

(** A host, with or without a port, that is written with the characters of hosts only. *)
Definition clean_host (s : string) : bool :=
  negb (String.eqb s "") && forallb host_char (list_ascii_of_string s) && bool_decide (parseHost s = Some s).

Lemma has_byte_forall c s (P : ascii → bool) :
  (∀ a, P a = true → Ascii.eqb a c = false) → forallb P (list_ascii_of_string s) = true → has_byte c s = false.
Proof.
  intros HP. induction s as [|a s IH]; [done|]. cbn [list_ascii_of_string forallb has_byte].
  intros [Ha Hs]%andb_true_iff. by rewrite HP, IH.
Qed.

Lemma unescape_host s : forallb host_char (list_ascii_of_string s) = true → unescape UrlHost s = Some s.
Proof.
  induction s as [|c s IH]; [done|]. cbn [list_ascii_of_string forallb unescape].
  intros [Hc Hs]%andb_true_iff. destruct (host_char_mark c Hc) as (_ & -> & _).
  cbn [may_stand]. rewrite Hc, orb_true_r, IH by done. done.
Qed.

(** A host name or IPv4 address with a port is clean. *)
Lemma clean_host_port h p :
  h ≠ ""%string → forallb host_char (list_ascii_of_string h) = true → has_byte "[" h = false →
  forallb is_digit (list_ascii_of_string p) = true → clean_host (h +:+ String ":" p) = true.
Proof.
  intros Hne Hh Hb Hp. unfold clean_host.
  assert (∀ c, is_digit c = true → host_char c = true) as Hd.
  { assert (∀ c, implb (is_digit c) (host_char c) = true) as H by (intros [[] [] [] [] [] [] [] []]; by vm_compute).
    intros c Hc. specialize (H c). by rewrite Hc in H. }
  assert (forallb host_char (list_ascii_of_string (h +:+ String ":" p)) = true) as Hall.
  { rewrite list_ascii_app, forallb_app, Hh. cbn [list_ascii_of_string forallb]. apply forallb_forall.
    intros c Hc. apply Hd. by apply (proj1 (forallb_forall _ _) Hp). }
  rewrite Hall. destruct (String.eqb_spec (h +:+ String ":" p) "") as [E|_]; [by destruct h|].
  cbn [negb andb]. apply bool_decide_eq_true. unfold parseHost.
  assert (has_prefix (h +:+ String ":" p) "[" = false) as ->.
  { destruct h as [|a h]; [done|]. rewrite string_app_cons. cbn [has_byte] in Hb. apply orb_false_iff in Hb as [Ha _].
    unfold has_prefix. cbn [after_prefix]. by rewrite Ascii.eqb_sym, Ha. }
  assert (has_byte ":" p = false) as Hcp.
  { apply (has_byte_forall ":" p is_digit); [|done]. intros a Ha. destruct (Ascii.eqb_spec a ":") as [->|]; [done|done]. }
  rewrite cut_last_app by done. cbn [validOptionalPort]. rewrite Hp. cbn [Ascii.eqb andb]. by apply unescape_host.
Qed.

Lemma cut_has_byte c s : has_byte c s = false → cut (String c "") s = None.
Proof.
  induction s as [|a s IH]; [done|]. cbn [has_byte cut after_prefix].
  intros [Ha Hs]%orb_false_iff. by rewrite Ascii.eqb_sym, Ha, IH.
Qed.

Lemma before_absent c s : has_byte c s = false → before c s = s.
Proof. intros H. unfold before. by rewrite cut_has_byte. Qed.

(** An address of a scheme and a clean host is taken apart into the two. *)
Lemma Parse_clean scheme host :
  scheme = "http"%string ∨ scheme = "https"%string → clean_host host = true →
  Parse (scheme +:+ "://" +:+ host) = Some (scheme, host).
Proof.
  intros Hs Hc. unfold clean_host in Hc. rewrite !andb_true_iff, bool_decide_eq_true in Hc.
  destruct Hc as [[_ Hh] Hp].
  assert (∀ c, c ∈ ["#"; "/"; "?"; "@"]%char → has_byte c host = false) as Hno.
  { intros c Hc. apply (has_byte_forall c host host_char); [|done]. intros a Ha.
    destruct (host_char_mark a Ha) as (_ & _ & ? & ? & ? & ? & _). set_solver. }
  assert (∀ c, c ∈ ["#"; "?"]%char → has_byte c (scheme +:+ "://" +:+ host) = false) as Hno'.
  { intros c Hc. rewrite !has_byte_app, Hno by set_solver. destruct Hs as [->| ->]; set_solver. }
  assert (has_ctl (scheme +:+ "://" +:+ host) = false) as Hctl.
  { unfold has_ctl. rewrite !list_ascii_app, !existsb_app.
    assert (existsb (λ c, (byte_val c <? 0x20) || (byte_val c =? 0x7f)) (list_ascii_of_string host) = false) as ->.
    { apply not_true_iff_false. intros (c & Hin & Hb)%existsb_exists.
      destruct (host_char_mark c) as (Hsol & _ & _ & _ & _ & _ & H7); [by apply (proj1 (forallb_forall _ _) Hh)|].
      rewrite H7, orb_false_r in Hb. unfold solid_byte in Hsol. lia. }
    by destruct Hs as [->| ->]. }
  unfold Parse. rewrite cut_has_byte by (apply Hno'; set_solver). unfold parse_url. rewrite Hctl.
  destruct (String.eqb_spec (scheme +:+ "://" +:+ host) "*") as [E|_]; [by destruct Hs as [->| ->]|].
  assert (getScheme (scheme +:+ "://" +:+ host) = Some (scheme, "//" +:+ host)) as -> by (by destruct Hs as [->| ->]).
  cbn [mbind option_bind]. rewrite before_absent by (rewrite has_byte_app, Hno by set_solver; done).
  assert (to_lower scheme = scheme ∧ String.eqb scheme "" = false) as [-> ->] by (by destruct Hs as [->| ->]).
  rewrite after_prefix_app. change (has_prefix ("//" +:+ host) "/") with (has_prefix (String "/" (String "/" host)) "/").
  assert (has_prefix (String "/" (String "/" host)) "/" = true) as -> by done. cbn [negb andb orb].
  rewrite before_absent by (apply Hno; set_solver). rewrite cut_has_byte by (apply Hno; set_solver).
  unfold parseAuthority. rewrite cut_last_none by (apply Hno; set_solver). rewrite Hp. done.
Qed.
