(* ===== verification/Join.v ===== *)
(** * The control client (client/join/join.go)

    A client talks to one control server: it joins with the network's token, presents the
    node token it is given from then on, and registers again when the server no longer knows
    that token.  The server and the network between are a state [W] with a function that
    answers a request; the JSON of requests and answers is encoding/json's. *)
From Stdlib Require Import Ascii String.
From S2P Require Import Prelude GoString GoStringFacts HostPort Netip Url Proto Certpin.

Local Open Scope Z_scope.

(** ** Addresses *)

(** [SplitPin]: the server and the pin of a join string. *)
Definition SplitPin (s : string) : string * string :=
  let s := trim_space s in
  match cut_last "#" s with
  | None => (s, "")
  | Some (l, pin) => (trim_space l, trim_space (default pin (PathUnescape pin)))
  end.

Inductive join_error : Type :=
| EEmptyAddress
| EParseURL
| EScheme (scheme : string)
| ENoHost
| EPin (e : pin_error)
| EVerifier (e : verify_error)
| EKey (msg : string)
| ERequestURL
| EHTTP (msg : string)
| EUnauthenticated (msg : string)
| EStatus (code : Z) (msg : string)
| EJSON (msg : string)
| ENoNodeToken
| ENotJoined
| EReassigned (old new : string)
| EReRegister (e : join_error)
| ERegister (e : join_error)
| EPeers (e : join_error).

Definition NormalizeURL (s : string) : result join_error string :=
  let s := trim_space s in
  if String.eqb s "" then Err EEmptyAddress else
  let s := if contains s "://" then s else "https://" +:+ s in
  match Url.Parse s with
  | None => Err EParseURL
  | Some (scheme, host) =>
    if negb (String.eqb scheme "http") && negb (String.eqb scheme "https") then Err (EScheme scheme)
    else if String.eqb host "" then Err ENoHost
    else Ok (scheme +:+ "://" +:+ host)
  end.

(** ** The client *)

Record identity : Type := MkIdentity {
  id_token : string;
  id_deviceUUID : string;
  id_hostname : string;
  id_endpoint : string;
  id_priv : list Z;
  id_pub : string;
  id_assignedIP : string;
}.

(** [Private] and [PublicKey] of a [Result] are those of the identity. *)
Record Client : Type := MkClient {
  cl_base : string;
  cl_pin : string;
  cl_http : trust;
  cl_nodeToken : string;
  cl_id : option identity;
}.

Definition set_token (c : Client) (t : string) : Client :=
  MkClient (cl_base c) (cl_pin c) (cl_http c) t (cl_id c).
Definition set_id (c : Client) (id : identity) : Client :=
  MkClient (cl_base c) (cl_pin c) (cl_http c) (cl_nodeToken c) (Some id).

Definition NewClient (sha256 : list Z → list Z) (spki_of : list Z → option (list Z)) (serverURL pin : string)
  : result join_error Client :=
  let '(base, embedded) := SplitPin serverURL in
  let pin := if String.eqb pin "" then embedded else pin in
  match NormalizeURL base with
  | Err e => Err e
  | Ok base =>
    match (if String.eqb pin "" then Ok "" else Normalize pin) with
    | Err e => Err (EPin e)
    | Ok pin =>
      match HTTPClient sha256 spki_of pin with
      | Err e => Err (EVerifier e)
      | Ok t => Ok (MkClient base pin t "" None)
      end
    end
  end.

Definition Authenticated (c : Client) : bool := negb (String.eqb (cl_nodeToken c) "").

(** ** Requests *)

Record HttpRequest : Type := MkHttpRequest {
  hq_Method : string;
  hq_URL : string;
  hq_JSON : bool;                    (** a body of JSON follows *)
  hq_Authorization : string;         (** empty when the header is absent *)
  hq_Body : string;
}.

Record HttpResponse : Type := MkHttpResponse { hr_StatusCode : Z; hr_Status : string; hr_Body : string }.

Section client.
Context {W : Type} (http : W → HttpRequest → W * result string HttpResponse).
Context (marshalRegister : RegisterRequest → string) (marshalService : Service → string).
Context (unmarshalRegister : string → result string RegisterResponse).
Context (unmarshalPeers : string → result string (list Peer)).
Context (unmarshalServices : string → result string (list Service)).
Context (unmarshalService : string → result string Service).
(** The error text of an answer that is not a success, empty when it has none. *)
Context (unmarshalError : string → string).

Definition decode {A} (unmarshal : string → result string A) (r : HttpResponse) : result join_error A :=
  if negb (hr_StatusCode r =? 200) then
    let e := unmarshalError (hr_Body r) in
    let msg := if String.eqb e "" then hr_Status r else e in
    if hr_StatusCode r =? 401 then Err (EUnauthenticated msg) else Err (EStatus (hr_StatusCode r) msg)
  else match unmarshal (hr_Body r) with Ok a => Ok a | Err e => Err (EJSON e) end.

Definition request (c : Client) (method path : string) (body : option string) : HttpRequest :=
  MkHttpRequest method (cl_base c +:+ path) (match body with Some _ => true | None => false end)
    (if String.eqb (cl_nodeToken c) "" then "" else "Bearer " +:+ cl_nodeToken c) (default ""%string body).

(** [http.NewRequest] parses the address. *)
Definition roundTrip {A} (unmarshal : string → result string A) (w : W) (c : Client) (method path : string)
    (body : option string) : W * result join_error A :=
  match Url.Parse (cl_base c +:+ path) with
  | None => (w, Err ERequestURL)
  | Some _ =>
    match http w (request c method path body) with
    | (w, Err e) => (w, Err (EHTTP e))
    | (w, Ok r) => (w, decode unmarshal r)
    end
  end.

(** [register]; it calls [do] without the retry, which is one round trip. *)
Definition register (w : W) (c : Client) (id : identity) : W * Client * result join_error RegisterResponse :=
  let body := marshalRegister (MkRegisterRequest (id_token id) (id_deviceUUID id) (id_hostname id)
                                 (id_pub id) (id_endpoint id)) in
  match roundTrip unmarshalRegister w c "POST" "/v1/register" (Some body) with
  | (w, Err e) => (w, c, Err e)
  | (w, Ok reg) =>
    if String.eqb (rs_NodeToken reg) "" then (w, c, Err ENoNodeToken)
    else (w, set_token c (rs_NodeToken reg), Ok reg)
  end.

Definition reauthenticate (w : W) (c : Client) : W * Client * option join_error :=
  match cl_id c with
  | None => (w, c, Some ENotJoined)
  | Some id =>
    match register w c id with
    | (w, c, Err e) => (w, c, Some (EReRegister e))
    | (w, c, Ok reg) =>
      if negb (String.eqb (rs_AssignedIP reg) (id_assignedIP id))
      then (w, c, Some (EReassigned (id_assignedIP id) (rs_AssignedIP reg)))
      else (w, c, None)
    end
  end.

(** [errors.Is(err, errUnauthenticated)] for what a round trip returns. *)
Definition unauthenticated (e : join_error) : bool :=
  match e with EUnauthenticated _ => true | _ => false end.

(** [do] with the retry. *)
Definition do_ {A} (unmarshal : string → result string A) (w : W) (c : Client) (method path : string)
    (body : option string) : W * Client * result join_error A :=
  match roundTrip unmarshal w c method path body with
  | (w, Ok a) => (w, c, Ok a)
  | (w, Err e) =>
    if unauthenticated e then
      match reauthenticate w c with
      | (w, c, Some e) => (w, c, Err e)
      | (w, c, None) => let '(w, r) := roundTrip unmarshal w c method path body in (w, c, r)
      end
    else (w, c, Err e)
  end.

Definition Peers (w : W) (c : Client) : W * Client * result join_error (list Peer) :=
  do_ unmarshalPeers w c "GET" "/v1/peers" None.
Definition Services (w : W) (c : Client) : W * Client * result join_error (list Service) :=
  do_ unmarshalServices w c "GET" "/v1/services" None.
Definition PublishService (w : W) (c : Client) (svc : Service) : W * Client * result join_error Service :=
  do_ unmarshalService w c "POST" "/v1/services" (Some (marshalService svc)).

(** [Join], with the node key that was generated. *)
Definition Join (w : W) (c : Client) (key : result string (list Z * string))
    (token deviceUUID hostname endpoint : string)
  : W * Client * result join_error (RegisterResponse * list Peer) :=
  match key with
  | Err e => (w, c, Err (EKey e))
  | Ok (priv, pub) =>
    let id := MkIdentity token deviceUUID hostname endpoint priv pub "" in
    match register w c id with
    | (w, c, Err e) => (w, c, Err (ERegister e))
    | (w, c, Ok reg) =>
      let c := set_id c (MkIdentity token deviceUUID hostname endpoint priv pub (rs_AssignedIP reg)) in
      match Peers w c with
      | (w, c, Err e) => (w, c, Err (EPeers e))
      | (w, c, Ok peers) => (w, c, Ok (reg, peers))
      end
    end
  end.
End client.

(** An address with a zone is accepted, but what is kept of it is not an address: the percent
    sign of the zone is written as it is, and no request can be made. *)
Lemma zone_address_unusable :
  NormalizeURL "http://[fe80::1%25eth0]:8787" = Ok "http://[fe80::1%eth0]:8787"%string ∧
  Url.Parse ("http://[fe80::1%eth0]:8787" +:+ "/v1/peers") = None.
Proof. split; by vm_compute. Qed.
