(* ===== verification/JoinServer.v ===== *)
(** * Client and server together (client/join with server/api and server/host)

    The join string a host hands out makes a client for that host, and a client whose
    server has forgotten it is served again. *)
From Stdlib Require Import Ascii String.
From S2P Require Import Prelude GoString GoStringFacts HostPort Netip NetipFacts Base64 Url Pool Ipam Acl Proto Store Api TlsConf Host Certpin Join.

Local Open Scope Z_scope.

(** ** Join strings *)

Lemma solid_canonical raw :
  digest raw → Forall (λ c, solid_byte c = true) (list_ascii_of_string (canonical raw)).
Proof.
  intros Hd. unfold canonical. rewrite list_ascii_app. apply Forall_app. split; [by repeat constructor|].
  eapply Forall_impl; [by apply (digest_text_solid raw); [|left]|]. by intros c [? _].
Qed.

Lemma Normalize_canonical_text raw : digest raw → Certpin.Normalize (canonical raw) = Ok (canonical raw).
Proof. intros Hd. apply (Normalize_text raw (EncodeToString raw)); [done|by left]. Qed.

Lemma solid_trim l : Forall (λ c, solid_byte c = true) (list_ascii_of_string l) → trim_space l = l.
Proof. apply trim_space_solid. Qed.

(** A pin as servers report it: none, or the canonical text of a digest. *)
Definition server_pin (pin : string) : Prop := pin = ""%string ∨ ∃ raw, digest raw ∧ pin = canonical raw.

Definition join_string (scheme host pin : string) : string :=
  if String.eqb pin "" then scheme +:+ "://" +:+ host
  else (scheme +:+ "://" +:+ host) +:+ "#" +:+ PathEscape pin.

Section join_string.
Context (sha256 : list Z → list Z) (spki_of : list Z → option (list Z)).
Context (scheme host : string) (Hscheme : scheme = "http"%string ∨ scheme = "https"%string).
Context (Hhost : clean_host host = true).

Let base : string := scheme +:+ "://" +:+ host.

Lemma base_bytes : Forall (λ c, solid_byte c = true ∧ Ascii.eqb c "#" = false) (list_ascii_of_string base).
Proof using Hscheme Hhost.
  unfold base. rewrite !list_ascii_app, !Forall_app. unfold clean_host in Hhost.
  rewrite !andb_true_iff in Hhost. destruct Hhost as [[_ Hh] _]. split; [by destruct Hscheme as [->| ->]; repeat constructor|].
  split; [by repeat constructor|]. apply Forall_forall. intros c Hc%list_elem_of_In.
  destruct (host_char_mark c) as (? & _ & ? & _); [by apply (proj1 (forallb_forall _ _) Hh)|]. done.
Qed.

Lemma base_solid : trim_space base = base.
Proof using Hscheme Hhost. apply solid_trim. eapply Forall_impl; [apply base_bytes|]. by intros c []. Qed.

Lemma no_hash s : Forall (λ c, solid_byte c = true ∧ Ascii.eqb c "#" = false) (list_ascii_of_string s) → has_byte "#" s = false.
Proof using Type.
  intros Hs. apply (has_byte_forall "#" s (λ c, negb (Ascii.eqb c "#"))).
  - intros a. by apply negb_true_iff.
  - apply forallb_forall. intros c Hc%list_elem_of_In. rewrite Forall_forall in Hs. apply Hs in Hc as [_ ->]. done.
Qed.

Lemma SplitPin_join pin : server_pin pin → SplitPin (join_string scheme host pin) = (base, pin).
Proof using Hscheme Hhost.
  intros Hpin. unfold SplitPin, join_string. fold base. destruct (String.eqb_spec pin "") as [->|Hne].
  { rewrite base_solid, cut_last_none by apply no_hash, base_bytes. done. }
  destruct Hpin as [|(raw & Hd & Hp)]; [done|].
  rewrite solid_trim.
  2:{ rewrite !list_ascii_app, !Forall_app. split; [eapply Forall_impl; [apply base_bytes|]; by intros c []|].
      split; [by repeat constructor|]. eapply Forall_impl; [apply PathEscape_bytes|]. by intros c []. }
  change (base +:+ "#" +:+ PathEscape pin) with (base +:+ String "#" (PathEscape pin)).
  rewrite cut_last_app by apply no_hash, PathEscape_bytes.
  rewrite base_solid, PathUnescape_PathEscape. cbn [default from_option id]. f_equal.
  rewrite Hp. by apply solid_trim, solid_canonical.
Qed.

Lemma NormalizeURL_base : NormalizeURL base = Ok base.
Proof using Hscheme Hhost.
  unfold NormalizeURL. rewrite base_solid.
  assert (String.eqb base "" = false) as -> by (unfold base; by destruct Hscheme as [->| ->]).
  assert (contains base "://" = true) as ->.
  { unfold base. destruct Hscheme as [->| ->]; cbn; by destruct host. }
  unfold base at 1. rewrite Parse_clean by done. fold base.
  assert (String.eqb host "" = false) as ->.
  { unfold clean_host in Hhost. rewrite !andb_true_iff, negb_true_iff in Hhost. tauto. }
  by destruct Hscheme as [->| ->].
Qed.

(** The client that a join string makes. *)
Lemma NewClient_join pin :
  server_pin pin →
  NewClient sha256 spki_of (join_string scheme host pin) "" =
    Ok (MkClient base pin (if String.eqb pin "" then SystemTrust else Pinned (verify sha256 spki_of [pin])) "" None).
Proof using Hscheme Hhost.
  intros Hpin. unfold NewClient. rewrite SplitPin_join by done. cbn [String.eqb]. rewrite NormalizeURL_base.
  destruct (String.eqb_spec pin "") as [->|Hne]; [done|].
  destruct Hpin as [|(raw & Hd & ->)]; [done|]. rewrite Normalize_canonical_text by done.
  unfold HTTPClient. rewrite solid_trim by by apply solid_canonical.
  rewrite (proj2 (String.eqb_neq _ _) Hne). unfold Verifier, normalize_all.
  by rewrite Normalize_canonical_text.
Qed.
End join_string.

(** The address part of a host's join string. *)
Definition join_host (h : Host) (r : TlsConf.Result) (publicHost : string) : string :=
  if String.eqb publicHost "" then
    match res_Domains r with d :: _ => withPort d (h_ctrlAddr h) | [] => localAddr (h_ctrlAddr h) end
  else ensurePort publicHost (h_ctrlAddr h).

(** C27: Handing out a join string and joining with it fit together: the client that is made
    from it calls the host's own address over the host's scheme, and trusts exactly the
    host's key; without a pin it trusts what the system trusts. *)
Theorem JoinURL_NewClient sha256 spki_of h r publicHost :
  h_tlsRes h = Some r → server_pin (res_Pin r) → clean_host (join_host h r publicHost) = true →
  NewClient sha256 spki_of (JoinURL h publicHost) "" =
    Ok (MkClient (host_Scheme h +:+ "://" +:+ join_host h r publicHost) (res_Pin r)
          (if String.eqb (res_Pin r) "" then SystemTrust else Pinned (verify sha256 spki_of [res_Pin r])) "" None).
Proof.
  intros Hr Hpin Hclean.
  assert (JoinURL h publicHost = join_string (host_Scheme h) (join_host h r publicHost) (res_Pin r)) as ->
    by (unfold JoinURL, join_string; by rewrite Hr).
  apply NewClient_join; [|done|done]. unfold host_Scheme. rewrite Hr. unfold Scheme.
  destruct (String.eqb _ _); [left|right]; done.
Qed.

(** ** Sessions *)

Lemma substring_all s : substring 0 (String.length s) s = s.
Proof. induction s as [|a s IH]; [done|]. cbn. by rewrite IH. Qed.

Lemma bearer_header m p b t :
  t ≠ ""%string → Forall (λ c, solid_byte c = true) (list_ascii_of_string t) →
  bearer (MkRequest m p ("Bearer " +:+ t) b) = t.
Proof.
  intros Hne Ht. unfold bearer. cbn [r_Authorization].
  change ("Bearer " +:+ t) with (String "B" (String "e" (String "a" (String "r" (String "e" (String "r" (String " " t))))))).
  assert (∀ n, substring 7 n (String "B" (String "e" (String "a" (String "r" (String "e" (String "r" (String " " t))))))) =
    substring 0 n t) as Hsub by done.
  rewrite Hsub. cbn [String.length].
  replace (S (S (S (S (S (S (S (String.length t))))))) - 7)%nat with (String.length t) by lia.
  assert (substring 0 7 (String "B" (String "e" (String "a" (String "r" (String "e" (String "r" (String " " t))))))) =
    "Bearer "%string) as -> by (by destruct t).
  change (equal_fold "Bearer " "Bearer ") with true. rewrite substring_all.
  destruct (Nat.leb_spec (S (S (S (S (S (S (S (String.length t)))))))) 7) as [Hl|_]; [destruct t; [done|cbn in Hl; lia]|].
  cbn [negb orb]. by apply solid_trim.
Qed.

Lemma hex_solid b : Forall is_byte b → Forall (λ c, solid_byte c = true) (list_ascii_of_string (hex_encode b)).
Proof. intros Hb. eapply Forall_impl; [apply (hex_encode_chars b Hb)|]. by intros c [? _]. Qed.

Section session.
Context {A E : Type} `{P : Pool A E}.
Context (decodeRegister : string → option RegisterRequest).
Context (decodeService : string → option Service).
Context (ProductName Version : string).
Context (base : string).
(** The URLs of the API at this address parse. *)
Context (Hbase : ∀ path, path ∈ ["/v1/register"; "/v1/peers"; "/v1/services"]%string → is_Some (Url.Parse (base +:+ path))).

(** encoding/json on the two sides, as far as the sessions below use it: what one side
    writes the other reads back. *)
Context (marshalRegister : RegisterRequest → string).
Context (marshalBody : Body → string).
Context (unmarshalRegister : string → result string RegisterResponse).
Context (unmarshalPeers : string → result string (list Peer)).
Context (unmarshalError : string → string).
Context (Hreq : ∀ q, decodeRegister (marshalRegister q) = Some q).
Context (Hreg : ∀ r, unmarshalRegister (marshalBody (BRegister r)) = Ok r).
Context (Hpeers : ∀ l, unmarshalPeers (marshalBody (BPeers l)) = Ok l).

(** The server, and what [rand.Read] yields during each of the requests to come. *)
Definition world : Type := @Api.Server A * list (option (list Z)).

(** net/http between client and server: an answer the handlers leave out is 404. *)
Definition serve (status_text : Z → string) (now : Z) (w : world) (q : HttpRequest) : world * result string HttpResponse :=
  match after_prefix base (hq_URL q) with
  | None => (w, Err "no route to host")
  | Some path =>
    let '(s', resp) := Routes decodeRegister decodeService ProductName Version w.1
      (MkRequest (hq_Method q) path (hq_Authorization q) (hq_Body q)) (hd None w.2) now in
    let resp := default (writeErr 404 "404 page not found") resp in
    ((s', tail w.2), Ok (MkHttpResponse (status resp) (status_text (status resp)) (marshalBody (body resp))))
  end.

Context (status_text : Z → string) (now : Z).

Abbreviation client_Peers := (Join.Peers (serve status_text now) marshalRegister unmarshalRegister unmarshalPeers unmarshalError).
Abbreviation client_register := (Join.register (serve status_text now) marshalRegister unmarshalRegister unmarshalError).

(** What a member sees. *)
Definition sees (s : @Api.Server A) (m : Member) : list Peer :=
  peer_of <$> filter (λ x, visiblePeer s m x = true) (merge_sort by_ip (Members (net s))).

Definition credential (c : Client) : string :=
  bearer (MkRequest "GET" "/v1/peers" (hq_Authorization (request c "GET" "/v1/peers" None)) "").

(** One round trip for the peers. *)
Lemma peers_trip s rs c :
  cl_base c = base →
  roundTrip (serve status_text now) unmarshalError unmarshalPeers (s, rs) c "GET" "/v1/peers" None =
  ((s, tail rs), match MemberByToken (net s) (credential c) with
                 | Some m => Ok (sees s m)
                 | None => Err (EUnauthenticated (
                     let e := unmarshalError (marshalBody (BError "a node token is required; register first")) in
                     if String.eqb e "" then status_text 401 else e))
                 end).
Proof using All.
  intros Hb. unfold roundTrip. rewrite Hb. destruct (Hbase "/v1/peers") as [u ->]; [set_solver|].
  unfold serve, request. cbn [hq_URL hq_Method hq_Authorization hq_Body fst snd default]. rewrite Hb, after_prefix_app.
  unfold Routes. cbn [r_Path]. change (String.eqb "/v1/peers" "/healthz") with false.
  change (String.eqb "/v1/peers" "/v1/register") with false. change (String.eqb "/v1/peers" "/v1/peers") with true.
  unfold peers, peers_in, caller, credential, request. cbn [hq_Authorization].
  change (bearer (MkRequest "GET" "/v1/peers" ?x (default "" None))) with (bearer (MkRequest "GET" "/v1/peers" x "")).
  destruct (MemberByToken _ _) as [m|]; cbn [default from_option Datatypes.id status body writeErr]; unfold decode;
    cbn [hr_StatusCode hr_Body hr_Status]; [|done].
  change (negb (200 =? 200)) with false. cbn match. by rewrite Hpeers.
Qed.

(** The server after it has registered a device, and the device's entry. *)
Lemma register_trip s b rs c id g a ip :
  server_ok s → rand_ok s (Some b) → cl_base c = base →
  tokens_Group (tokens s) (id_token id) = Some g → id_deviceUUID id ≠ ""%string → id_pub id ≠ ""%string →
  pool_alloc (nodeIPs s) (id_deviceUUID id) = (a, Ok ip) →
  ∃ s' m, server_ok s' ∧ members (net s') !! id_deviceUUID id = Some m ∧ m_Group m = g ∧ m_PublicKey m = id_pub id ∧
    m_AssignedIP m = addr_String ip ∧ MemberByToken (net s') (hex_encode b) = Some m ∧
    ∃ reg, rs_AssignedIP reg = addr_String ip ∧ rs_NodeToken reg = hex_encode b ∧
      client_register (s, Some b :: rs) c id = ((s', rs), set_token c (hex_encode b), Ok reg).
Proof using All.
  intros Hs Hr Hb Hg Hu Hk Ha.
  set (body := marshalRegister (MkRegisterRequest (id_token id) (id_deviceUUID id) (id_hostname id) (id_pub id) (id_endpoint id))).
  set (auth := hq_Authorization (request c "POST" "/v1/register" (Some body))).
  set (r := MkRequest "POST" "/v1/register" auth body).
  pose proof (register_ok decodeRegister s r (Some b) now Hs Hr) as [Hs' _].
  set (m := MkMember (id_deviceUUID id) (id_hostname id) (id_pub id) (addr_String ip) (id_endpoint id) now (hex_encode b) g).
  set (s1 := set_nodeIPs s a). set (s' := set_net s1 (Upsert (net s1) m)).
  set (reg := MkRegisterResponse (n_ID (net s')) (n_DNSSuffix (net s')) (n_OverlayCIDR (net s')) (addr_String ip)
    (Api.relayAddr s') (hex_encode b)).
  assert (Api.register decodeRegister s r (Some b) now = (s', MkResponse 200 (BRegister reg))) as Hreg'.
  { unfold Api.register, register_enter. unfold r at 1 2. cbn [r_Method r_Body]. change (negb (String.eqb "POST" "POST")) with false.
    cbn match. unfold body. rewrite Hreq. cbn [rq_Token rq_DeviceUUID rq_PublicKey]. rewrite Hg.
    rewrite (proj2 (String.eqb_neq _ _) Hu), (proj2 (String.eqb_neq _ _) Hk). cbn [orb]. rewrite Ha. done. }
  rewrite Hreg' in Hs'. cbn [fst] in Hs'. destruct (Hr b eq_refl) as [Hlen _].
  pose proof (hex_encode_nonempty b Hlen) as Hne.
  exists s', m. split_and!; [done|apply lookup_insert_eq|done|done|done| |].
  { unfold MemberByToken. rewrite (proj2 (String.eqb_neq _ _) Hne). unfold s', set_net, m. cbn [net Upsert byToken m_Token].
    rewrite (proj2 (String.eqb_neq _ _) Hne). apply lookup_insert_eq. }
  exists reg. split_and!; [done|done|]. unfold Join.register. fold body. unfold roundTrip. rewrite Hb.
  destruct (Hbase "/v1/register") as [u ->]; [set_solver|]. unfold serve. cbn [request hq_URL hq_Method hq_Body fst snd hd default from_option Datatypes.id].
  rewrite Hb, after_prefix_app. unfold Routes. cbn [r_Path].
  change (String.eqb "/v1/register" "/healthz") with false. change (String.eqb "/v1/register" "/v1/register") with true. cbn match.
  fold auth. fold r. rewrite Hreg'. cbn [default from_option Datatypes.id status Api.body]. unfold decode. cbn [hr_StatusCode hr_Body].
  change (negb (200 =? 200)) with false. cbn match. rewrite Hreg. cbn [rs_NodeToken reg].
  by rewrite (proj2 (String.eqb_neq _ _) Hne).
Qed.

Lemma credential_token c t :
  t ≠ ""%string → Forall (λ x, solid_byte x = true) (list_ascii_of_string t) → credential (set_token c t) = t.
Proof using Type.
  intros Hne Ht. unfold credential, request. cbn [set_token cl_nodeToken hq_Authorization].
  rewrite (proj2 (String.eqb_neq _ _) Hne). by apply bearer_header.
Qed.

(** C22: A client whose node token the server no longer knows, as after the server was started
    again, is registered again by its next call: it gets the device's address and a new
    token, and the call is answered as for any member if the address is the one the device
    had.  If it is another the call fails and says so, but only once: the new token is kept,
    so later calls are answered as if nothing had happened. *)
Theorem session_recovers s r0 b rs c id g a ip :
  server_ok s → rand_ok s (Some b) → Forall is_byte b → cl_base c = base → cl_id c = Some id →
  MemberByToken (net s) (credential c) = None →
  tokens_Group (tokens s) (id_token id) = Some g → id_deviceUUID id ≠ ""%string → id_pub id ≠ ""%string →
  pool_alloc (nodeIPs s) (id_deviceUUID id) = (a, Ok ip) →
  ∃ s' m, server_ok s' ∧ members (net s') !! id_deviceUUID id = Some m ∧ m_Group m = g ∧ m_PublicKey m = id_pub id ∧
    m_AssignedIP m = addr_String ip ∧
    let c' := set_token c (hex_encode b) in
    client_Peers (s, r0 :: Some b :: rs) c =
      (if String.eqb (addr_String ip) (id_assignedIP id) then ((s', tail rs), c', Ok (sees s' m))
       else ((s', rs), c', Err (EReassigned (id_assignedIP id) (addr_String ip)))) ∧
    ∀ rs', client_Peers (s', rs') c' = ((s', tail rs'), c', Ok (sees s' m)).
Proof using All.
  intros Hs Hr Hbytes Hb Hid Hunknown Hg Hu Hk Ha.
  destruct (register_trip s b rs c id g a ip Hs Hr Hb Hg Hu Hk Ha)
    as (s' & m & Hs' & Hm & Hmg & Hmk & Hmi & Htok & reg & Hri & Hrt & Hreg').
  destruct (Hr b eq_refl) as [Hlen _]. pose proof (hex_encode_nonempty b Hlen) as Hne.
  pose proof (credential_token c (hex_encode b) Hne (hex_solid b Hbytes)) as Hcred.
  assert (∀ rs', client_Peers (s', rs') (set_token c (hex_encode b)) =
    ((s', tail rs'), set_token c (hex_encode b), Ok (sees s' m))) as Hafter.
  { intros rs'. unfold Join.Peers, do_. rewrite peers_trip by done. by rewrite Hcred, Htok. }
  exists s', m. split_and!; try done.
  unfold Join.Peers, do_. rewrite peers_trip by done. rewrite Hunknown. cbn [unauthenticated tail].
  unfold reauthenticate. rewrite Hid, Hreg', Hri.
  destruct (String.eqb _ _); cbn [negb]; [|done].
  rewrite peers_trip by done. by rewrite Hcred, Htok.
Qed.

(** Joining a network the device has a token for: it is registered under its key, holds the
    node token of that registration, and is told its address and what it sees. *)
Theorem Join_joins s b r1 rs c priv pub token deviceUUID hostname endpoint g a ip :
  server_ok s → rand_ok s (Some b) → Forall is_byte b → cl_base c = base →
  tokens_Group (tokens s) token = Some g → deviceUUID ≠ ""%string → pub ≠ ""%string →
  pool_alloc (nodeIPs s) deviceUUID = (a, Ok ip) →
  ∃ s' m reg, server_ok s' ∧ members (net s') !! deviceUUID = Some m ∧ m_Group m = g ∧ m_PublicKey m = pub ∧
    m_AssignedIP m = addr_String ip ∧ rs_AssignedIP reg = addr_String ip ∧
    Join.Join (serve status_text now) marshalRegister unmarshalRegister unmarshalPeers unmarshalError
      (s, Some b :: r1 :: rs) c (Ok (priv, pub)) token deviceUUID hostname endpoint =
    ((s', rs),
     set_id (set_token c (hex_encode b)) (MkIdentity token deviceUUID hostname endpoint priv pub (addr_String ip)),
     Ok (reg, sees s' m)).
Proof using All.
  intros Hs Hr Hbytes Hb Hg Hu Hk Ha. set (id := MkIdentity token deviceUUID hostname endpoint priv pub "").
  destruct (register_trip s b (r1 :: rs) c id g a ip Hs Hr Hb Hg Hu Hk Ha)
    as (s' & m & Hs' & Hm & Hmg & Hmk & Hmi & Htok & reg & Hri & Hrt & Hreg').
  destruct (Hr b eq_refl) as [Hlen _]. pose proof (hex_encode_nonempty b Hlen) as Hne.
  pose proof (credential_token c (hex_encode b) Hne (hex_solid b Hbytes)) as Hcred.
  exists s', m, reg. split_and!; try done. unfold Join.Join. fold id. rewrite Hreg', Hri.
  unfold Join.Peers, do_. rewrite peers_trip by done.
  change (credential (set_id ?x ?y)) with (credential x). by rewrite Hcred, Htok.
Qed.
End session.
