(* ===== verification/DemoJoin.v ===== *)
(** * A device and its server

    The network of [Demo] behind an address, with toy encodings of the bodies: the theorems
    about joining and about sessions apply to it. *)
From Stdlib Require Import Ascii String.
From S2P Require Import Prelude GoString GoStringFacts HostPort Netip NetipFacts Base64 Url Pool Ipam Acl Proto Store Api TlsConf Host Demo Certpin Join JoinServer.

Local Open Scope Z_scope.

(** ** Texts of lists of strings *)

Fixpoint write_text (s rest : string) : string :=
  match s with EmptyString => String "e" rest | String c s => String "c" (String c (write_text s rest)) end.

Definition write_texts (l : list string) : string := foldr write_text "" l.

Fixpoint read_texts (s : string) : list string :=
  match s with
  | String k s1 =>
    if Ascii.eqb k "e" then "" :: read_texts s1 else
    match s1 with
    | String c s2 => match read_texts s2 with x :: l => String c x :: l | [] => [] end
    | EmptyString => []
    end
  | EmptyString => []
  end.

Lemma read_write_texts l : read_texts (write_texts l) = l.
Proof.
  assert (∀ s rest, read_texts (write_text s rest) = s :: read_texts rest) as Hone.
  { induction s as [|c s IH]; intros rest; [done|]. cbn [write_text read_texts]. cbn [Ascii.eqb Bool.eqb].
    by rewrite IH. }
  induction l as [|s l IH]; [done|]. cbn [write_texts foldr]. rewrite Hone. by f_equal.
Qed.

Definition text_register (q : RegisterRequest) : string :=
  write_texts [rq_Token q; rq_DeviceUUID q; rq_Hostname q; rq_PublicKey q; rq_Endpoint q].
Definition untext_register (s : string) : option RegisterRequest :=
  match read_texts s with [t; u; h; k; e] => Some (MkRegisterRequest t u h k e) | _ => None end.

Fixpoint peer_texts (l : list Peer) : list string :=
  match l with
  | [] => []
  | p :: l => pr_Hostname p :: pr_PublicKey p :: pr_AssignedIP p :: pr_Endpoint p :: pr_Group p :: peer_texts l
  end.
Fixpoint texts_peers (l : list string) : list Peer :=
  match l with h :: k :: i :: e :: g :: l => MkPeer h k i e g :: texts_peers l | _ => [] end.

Lemma texts_peer_texts l : texts_peers (peer_texts l) = l.
Proof. induction l as [|p l IH]; [done|]. cbn [peer_texts texts_peers]. rewrite IH. by destruct p. Qed.

Definition text_body (b : Body) : string :=
  match b with
  | BRegister r => write_texts [rs_NetworkID r; rs_DNSSuffix r; rs_OverlayCIDR r; rs_AssignedIP r; rs_RelayAddr r; rs_NodeToken r]
  | BPeers l => write_texts (peer_texts l)
  | BError e => e
  | _ => ""
  end.
Definition untext_response (s : string) : result string RegisterResponse :=
  match read_texts s with [n; d; o; a; r; t] => Ok (MkRegisterResponse n d o a r t) | _ => Err "register"%string end.
Definition untext_peers (s : string) : result string (list Peer) := Ok (texts_peers (read_texts s)).

Lemma text_register_back q : untext_register (text_register q) = Some q.
Proof. unfold untext_register, text_register. rewrite read_write_texts. by destruct q. Qed.
Lemma text_response_back r : untext_response (text_body (BRegister r)) = Ok r.
Proof. unfold untext_response, text_body. rewrite read_write_texts. by destruct r. Qed.
Lemma text_peers_back l : untext_peers (text_body (BPeers l)) = Ok l.
Proof. unfold untext_peers, text_body. by rewrite read_write_texts, texts_peer_texts. Qed.

(** ** The device *)

Definition demo_base : string := "https://vpn.example.org:8787".

Lemma demo_base_parses path :
  path ∈ ["/v1/register"; "/v1/peers"; "/v1/services"]%string → is_Some (Url.Parse (demo_base +:+ path)).
Proof. rewrite !elem_of_cons. intros [->|[->|[->|[]%not_elem_of_nil]]]; vm_compute; by eexists. Qed.

(** A device that joined before the server was started again. *)
Definition demo_device : Client :=
  MkClient demo_base "" SystemTrust (demo_token 9) (Some (MkIdentity "s3cret" "nas" "nas" "" [] "key" "10.0.0.2")).

Abbreviation demo_serve :=
  (serve untext_register demo_decodeService "MyWAN" "1" demo_base text_body (λ _, "status"%string) 0).
Abbreviation demo_Peers :=
  (Join.Peers demo_serve text_register untext_response untext_peers (λ e, e)).

Lemma demo_bytes : Forall is_byte (replicate 32 1).
Proof. by apply Forall_replicate. Qed.

Lemma session_recovers_witness :
  ∃ s' m, (demo_Peers (demo_start, [None; demo_rand 1]) demo_device).2 = Err (EReassigned "10.0.0.2" "10.0.0.1") ∧
    (demo_Peers (s', []) (set_token demo_device (demo_token 1))).2 = Ok (sees s' m) ∧
    m_AssignedIP m = "10.0.0.1"%string.
Proof.
  destruct (pool_alloc (nodeIPs demo_start) "nas") as [a r] eqn:Ha. assert (r = Ok (Addr4 0x0a000001)) as ->.
  { change r with (a, r).2. rewrite <-Ha. by vm_compute. }
  destruct (session_recovers untext_register demo_decodeService "MyWAN" "1" demo_base demo_base_parses
    text_register text_body untext_response untext_peers (λ e, e) text_register_back text_response_back text_peers_back
    (λ _, "status"%string) 0 demo_start None (replicate 32 1) [] demo_device
    (MkIdentity "s3cret" "nas" "nas" "" [] "key" "10.0.0.2") "default" a (Addr4 0x0a000001))
    as (s' & m & _ & _ & _ & _ & Hip & H1 & H2).
  - exact demo_start_ok.
  - apply demo_rand_ok. intros m. by vm_compute.
  - exact demo_bytes.
  - done.
  - done.
  - by vm_compute.
  - by vm_compute.
  - done.
  - done.
  - exact Ha.
  - exists s', m. split_and!; [|exact (f_equal snd (H2 []))|exact Hip].
    change (demo_rand 1) with (Some (replicate 32 1)). rewrite H1.
    cbn [id_assignedIP]. destruct (String.eqb_spec (addr_String (Addr4 0x0a000001)) "10.0.0.2") as [E|_].
    + by vm_compute in E.
    + done.
Defined.

Lemma Join_joins_witness :
  ∃ w c reg l, Join.Join demo_serve text_register untext_response untext_peers (λ e, e)
    (demo_start, [demo_rand 1; None]) (MkClient demo_base "" SystemTrust "" None) (Ok ([], "key"%string))
    "s3cret" "pc" "pc" "" = (w, c, Ok (reg, l)) ∧ rs_AssignedIP reg = "10.0.0.1"%string ∧ cl_nodeToken c = demo_token 1.
Proof.
  destruct (pool_alloc (nodeIPs demo_start) "pc") as [a r] eqn:Ha. assert (r = Ok (Addr4 0x0a000001)) as ->.
  { change r with (a, r).2. rewrite <-Ha. by vm_compute. }
  destruct (Join_joins untext_register demo_decodeService "MyWAN" "1" demo_base demo_base_parses
    text_register text_body untext_response untext_peers (λ e, e) text_register_back text_response_back text_peers_back
    (λ _, "status"%string) 0 demo_start (replicate 32 1) None [] (MkClient demo_base "" SystemTrust "" None)
    [] "key" "s3cret" "pc" "pc" "" "default" a (Addr4 0x0a000001))
    as (s' & m & reg & _ & _ & _ & _ & _ & Hip & H).
  - exact demo_start_ok.
  - apply demo_rand_ok. intros m. by vm_compute.
  - exact demo_bytes.
  - done.
  - by vm_compute.
  - done.
  - done.
  - exact Ha.
  - eexists _, _, reg, _. split; [exact H|]. split; [exact Hip|done].
Defined.

(** ** Handing out a join string *)

Definition demo_digest : list Z := replicate 32 7.

Definition demo_tls : TlsConf.Result := TlsConf.MkResult ModeSelf true (canonical demo_digest) [] false.
Definition demo_host : Host := MkHost zero_config "0.0.0.0:8787" "" None None false (Some demo_tls).

Lemma JoinURL_NewClient_witness :
  ∃ c, NewClient (λ b, b) Some (JoinURL demo_host "vpn.example.org") "" = Ok c ∧
    cl_base c = demo_base ∧ cl_pin c = canonical demo_digest.
Proof.
  eexists. split.
  - apply (JoinURL_NewClient (λ b, b) Some demo_host demo_tls "vpn.example.org").
    + done.
    + right. exists demo_digest. split; [|done]. split; [by apply Forall_replicate|done].
    + by vm_compute.
  - split; by vm_compute.
Defined.
