(* ===== verification/Wg.v ===== *)
(** * The text a tunnel is configured with (client/wg/wg.go)

    wireguard-go is configured through a text of [key=value] lines.  [buildPeerConfig]
    writes it and [PeerHandshakes] reads the state back; the device between them is not
    part of the program. *)
From Stdlib Require Import Ascii String.
From S2P Require Import Prelude GoString GoStringFacts Netip Strconv.

Local Open Scope Z_scope.

Record wg_Peer : Type := MkWgPeer {
  w_PublicKeyHex : string;
  w_Endpoint : string;
  w_AllowedIPs : list string;
}.

#[export] Instance wg_peer_eq_dec : EqDecision wg_Peer.
Proof. solve_decision. Defined.

Definition newline : ascii := "010"%char.
Definition line (s : string) : string := s +:+ String newline "".

(** The lines written for one peer. *)
Definition peer_config (p : wg_Peer) : list string :=
  ["public_key=" +:+ w_PublicKeyHex p]
  ++ (if String.eqb (w_Endpoint p) "" then [] else ["endpoint=" +:+ w_Endpoint p])
  ++ ((λ ip, "allowed_ip=" +:+ ip) <$> w_AllowedIPs p)
  ++ ["persistent_keepalive_interval=25"%string].

Definition write_lines (l : list string) : string := foldr (λ s rest, line s +:+ rest) ""%string l.

Definition buildPeerConfig (peers : list wg_Peer) : string :=
  write_lines ("replace_peers=true"%string :: mjoin (peer_config <$> peers)).

(** The loop over the lines of the device's answer: the key being read and the times. *)
Fixpoint handshakes_of (lines : list string) (cur : string) (out : gmap string Z) : gmap string Z :=
  match lines with
  | [] => out
  | l :: lines =>
    match cut "=" l with
    | None => handshakes_of lines cur out
    | Some (k, v) =>
      if String.eqb k "public_key" then handshakes_of lines v out
      else if String.eqb k "last_handshake_time_sec" then
        handshakes_of lines cur (if String.eqb cur "" then out else <[cur := Atoi v]> out)
      else handshakes_of lines cur out
    end
  end.

(** [ipcGet] is what the device answers. *)
Definition PeerHandshakes {E : Type} (ipcGet : result E string) : result E (gmap string Z) :=
  match ipcGet with
  | Err e => Err e
  | Ok s => Ok (handshakes_of (split_byte newline s) "" ∅)
  end.

(** ** The lines of the text *)

Definition one_line (s : string) : Prop := has_byte newline s = false.

Definition peer_one_line (p : wg_Peer) : Prop :=
  one_line (w_PublicKeyHex p) ∧ one_line (w_Endpoint p) ∧ Forall one_line (w_AllowedIPs p).

Lemma split_write_lines l :
  Forall one_line l → split_byte newline (write_lines l) = l ++ [""%string].
Proof.
  induction 1 as [|s l Hs _ IH]; [done|]. cbn [write_lines foldr]. unfold line.
  rewrite string_app_assoc, string_app_cons, string_app_nil_l, split_byte_app by done.
  cbn [app]. f_equal. exact IH.
Qed.

Lemma one_line_app s t : one_line s → one_line t → one_line (s +:+ t).
Proof. unfold one_line. intros Hs Ht. by rewrite has_byte_app, Hs, Ht. Qed.

Lemma peer_config_one_line p : peer_one_line p → Forall one_line (peer_config p).
Proof.
  intros (Hk & He & Ha). unfold peer_config. rewrite !Forall_app. split_and!.
  - constructor; [by apply one_line_app|constructor].
  - destruct (String.eqb _ _); constructor; [by apply one_line_app|constructor].
  - apply Forall_fmap. eapply Forall_impl; [done|]. intros ip Hip. by apply one_line_app.
  - by repeat constructor.
Qed.

(** When no text has a line break in it, the configuration consists of exactly the lines
    of the peers given, in their order, each peer's addresses below its own key. *)
Theorem buildPeerConfig_lines peers :
  Forall peer_one_line peers →
  split_byte newline (buildPeerConfig peers) =
    ["replace_peers=true"%string] ++ mjoin (peer_config <$> peers) ++ [""%string].
Proof.
  intros Hp. unfold buildPeerConfig. rewrite split_write_lines; [done|].
  constructor; [done|]. induction Hp as [|p l Hp _ IH]; [constructor|].
  cbn [fmap list_fmap mjoin list_join]. apply Forall_app. split; [by apply peer_config_one_line|exact IH].
Qed.

(** An endpoint is not checked for line breaks: a text with one adds an address to the
    tunnel that the peer was not given. *)
Lemma endpoint_adds_addresses :
  ∃ p, w_AllowedIPs p = ["100.64.0.9/32"%string] ∧
    "allowed_ip=0.0.0.0/0"%string ∈ split_byte newline (buildPeerConfig [p]).
Proof.
  exists (MkWgPeer "00" ("1.2.3.4:5" +:+ String newline "allowed_ip=0.0.0.0/0") ["100.64.0.9/32"%string]).
  split; [done|].
  assert (existsb (String.eqb "allowed_ip=0.0.0.0/0") (split_byte newline (buildPeerConfig
    [MkWgPeer "00" ("1.2.3.4:5" +:+ String newline "allowed_ip=0.0.0.0/0") ["100.64.0.9/32"%string]])) = true) as H
    by (by vm_compute).
  apply existsb_exists in H as (x & Hx%list_elem_of_In & <-%String.eqb_eq). done.
Qed.

Lemma buildPeerConfig_lines_witness :
  split_byte newline (buildPeerConfig [MkWgPeer "ab" "" ["100.64.0.9/32"%string]]) =
    ["replace_peers=true"; "public_key=ab"; "allowed_ip=100.64.0.9/32"; "persistent_keepalive_interval=25"; ""]%string.
Proof.
  rewrite buildPeerConfig_lines; [done|]. constructor; [|constructor].
  split_and!; [done|done|by repeat constructor].
Defined.
