(* ===== verification/WgDevice.v ===== *)
(** * The WireGuard device (client/wg/wg.go)

    The device is wireguard-go's: a class of operations, with the laws of its documented
    configuration protocol.  [Up], [SetPeers] and [Close] are proved against the class; a
    table of devices is an instance of it. *)
From Stdlib Require Import Ascii String.
From S2P Require Import Prelude GoString GoStringFacts Netip NetipFacts Base64 Strconv Wg.

Local Open Scope Z_scope.

(** ** The configuration protocol

    A peer as the device keeps it, and the device: whom an address prefix is routed to is a
    property of the prefix, not of the peer, so a later peer takes a prefix from an earlier
    one. *)
Record uapi_peer : Type := MkUPeer { up_endpoint : string; up_keepalive : string }.

#[export] Instance uapi_peer_eq_dec : EqDecision uapi_peer.
Proof. solve_decision. Defined.

Section protocol.
(** The prefix the device reads from a text. *)
Context {P : Type} `{Countable P} (prefix_of : string → P).

Record uapi : Type := MkUapi {
  u_private : string;
  u_port : string;
  u_peers : gmap string uapi_peer;
  u_owner : gmap P string;
}.

Definition uapi_zero : uapi := MkUapi "" "" ∅ ∅.

(** One [key=value] line, for the device or, once a peer was named, for that peer.  The table
    has the keys the program writes; [None] is a line the device refuses. *)
Definition uapi_line (k v : string) (cur : option string) (u : uapi) : option (option string * uapi) :=
  if String.eqb k "public_key" then
    Some (Some v, MkUapi (u_private u) (u_port u)
      (<[v := default (MkUPeer "" "") (u_peers u !! v)]> (u_peers u)) (u_owner u))
  else match cur with
  | None =>
    if String.eqb k "private_key" then Some (None, MkUapi v (u_port u) (u_peers u) (u_owner u))
    else if String.eqb k "listen_port" then Some (None, MkUapi (u_private u) v (u_peers u) (u_owner u))
    else if String.eqb k "replace_peers" then Some (None, MkUapi (u_private u) (u_port u) ∅ ∅)
    else None
  | Some key =>
    let p := default (MkUPeer "" "") (u_peers u !! key) in
    if String.eqb k "endpoint" then
      Some (cur, MkUapi (u_private u) (u_port u) (<[key := MkUPeer v (up_keepalive p)]> (u_peers u)) (u_owner u))
    else if String.eqb k "persistent_keepalive_interval" then
      Some (cur, MkUapi (u_private u) (u_port u) (<[key := MkUPeer (up_endpoint p) v]> (u_peers u)) (u_owner u))
    else if String.eqb k "allowed_ip" then
      Some (cur, MkUapi (u_private u) (u_port u) (u_peers u) (<[prefix_of v := key]> (u_owner u)))
    else None
  end.

(** The lines in turn, to the end or to an empty line. *)
Fixpoint uapi_lines (lines : list string) (cur : option string) (u : uapi) : option uapi :=
  match lines with
  | [] => Some u
  | l :: lines =>
    if String.eqb l "" then Some u else
    '(k, v) ← cut "=" l;
    '(cur, u) ← uapi_line k v cur u;
    uapi_lines lines cur u
  end.

Definition uapi_set (text : string) (u : uapi) : option uapi := uapi_lines (split_byte newline text) None u.

(** What the lines of one peer do. *)
Definition own (key : string) (owner : gmap P string) (ips : list string) : gmap P string :=
  foldl (λ o ip, <[prefix_of ip := key]> o) owner ips.

Definition add_peer (u : uapi) (p : wg_Peer) : uapi :=
  let old := default (MkUPeer "" "") (u_peers u !! w_PublicKeyHex p) in
  MkUapi (u_private u) (u_port u)
    (<[w_PublicKeyHex p := MkUPeer (if String.eqb (w_Endpoint p) "" then up_endpoint old else w_Endpoint p) "25"]> (u_peers u))
    (own (w_PublicKeyHex p) (u_owner u) (w_AllowedIPs p)).

Lemma uapi_lines_line k v rest cur u :
  has_byte "=" k = false → k ≠ ""%string →
  uapi_lines ((k +:+ String "=" v) :: rest) cur u = ('(cur, u) ← uapi_line k v cur u; uapi_lines rest cur u).
Proof using Type.
  intros Hk Hne. cbn [uapi_lines]. destruct k as [|c k]; [done|]. rewrite string_app_cons.
  cbn [String.eqb]. by rewrite <- string_app_cons, cut_byte.
Qed.

Lemma uapi_lines_allowed key ips rest u :
  uapi_lines (((λ ip, "allowed_ip=" +:+ ip) <$> ips) ++ rest) (Some key) u =
  uapi_lines rest (Some key) (MkUapi (u_private u) (u_port u) (u_peers u) (own key (u_owner u) ips)).
Proof using Type.
  revert u. induction ips as [|ip ips IH]; intros u; [by destruct u|].
  cbn [fmap list_fmap app]. rewrite (uapi_lines_line "allowed_ip" ip) by done. apply IH.
Qed.

Lemma uapi_lines_endpoint key e rest u :
  uapi_lines ((if String.eqb e "" then [] else ["endpoint=" +:+ e]) ++ rest) (Some key) u =
  uapi_lines rest (Some key) (if String.eqb e "" then u else
    MkUapi (u_private u) (u_port u)
      (<[key := MkUPeer e (up_keepalive (default (MkUPeer "" "") (u_peers u !! key)))]> (u_peers u)) (u_owner u)).
Proof using Type.
  destruct (String.eqb e ""); [done|]. cbn [app]. by rewrite (uapi_lines_line "endpoint" e).
Qed.

Lemma uapi_lines_peer p rest cur u :
  uapi_lines (peer_config p ++ rest) cur u = uapi_lines rest (Some (w_PublicKeyHex p)) (add_peer u p).
Proof using Type.
  unfold peer_config. rewrite <- !app_assoc. cbn [app].
  rewrite (uapi_lines_line "public_key" (w_PublicKeyHex p)) by done.
  unfold uapi_line at 1. cbn [String.eqb Ascii.eqb Bool.eqb mbind option_bind].
  rewrite uapi_lines_endpoint, uapi_lines_allowed. cbn [app].
  rewrite (uapi_lines_line "persistent_keepalive_interval" "25") by done.
  unfold uapi_line at 1. cbn [String.eqb Ascii.eqb Bool.eqb mbind option_bind]. f_equal. unfold add_peer.
  destruct (String.eqb (w_Endpoint p) ""); cbn [u_private u_port u_peers u_owner];
    by rewrite !lookup_insert_eq, !insert_insert_eq.
Qed.

Lemma uapi_lines_peers peers rest cur u :
  uapi_lines (mjoin (peer_config <$> peers) ++ [""%string] ++ rest) cur u = Some (foldl add_peer u peers).
Proof using Type.
  revert cur u. induction peers as [|p peers IH]; intros cur u; [done|].
  cbn [fmap list_fmap mjoin list_join foldl]. rewrite <- app_assoc, uapi_lines_peer. apply IH.
Qed.

(** The configuration of [SetPeers]: the peers given and no others. *)
Lemma uapi_set_peers peers u :
  Forall peer_one_line peers →
  uapi_set (buildPeerConfig peers) u = Some (foldl add_peer (MkUapi (u_private u) (u_port u) ∅ ∅) peers).
Proof using Type.
  intros Hp. unfold uapi_set, buildPeerConfig. rewrite split_write_lines.
  - cbn [app]. rewrite (uapi_lines_line "replace_peers" "true") by done.
    unfold uapi_line at 1. cbn [String.eqb Ascii.eqb Bool.eqb mbind option_bind].
    apply (uapi_lines_peers peers []).
  - constructor; [done|]. induction Hp as [|p l Hp _ IH]; [constructor|].
    cbn [fmap list_fmap mjoin list_join]. apply Forall_app. split; [by apply peer_config_one_line|exact IH].
Qed.

Lemma add_peers_peers peers u :
  NoDup (w_PublicKeyHex <$> peers) → (∀ p, p ∈ peers → u_peers u !! w_PublicKeyHex p = None) →
  u_peers (foldl add_peer u peers) =
    list_to_map ((λ p, (w_PublicKeyHex p, MkUPeer (w_Endpoint p) "25")) <$> peers) ∪ u_peers u.
Proof using Type.
  revert u. induction peers as [|p peers IH]; intros u Hnd Hu; cbn [foldl fmap list_fmap].
  { by rewrite list_to_map_nil, (left_id_L ∅ (∪)). }
  cbn [fmap list_fmap] in Hnd. apply NoDup_cons in Hnd as [Hp Hnd]. rewrite IH; [|done|].
  - rewrite list_to_map_cons. unfold add_peer. cbn [u_peers]. rewrite (Hu p) by (by left). cbn [default option_rect up_endpoint].
    replace (if String.eqb (w_Endpoint p) "" then ""%string else w_Endpoint p) with (w_Endpoint p)
      by (by destruct (String.eqb_spec (w_Endpoint p) "")).
    rewrite <- insert_union_r, insert_union_l; [done|].
    apply not_elem_of_list_to_map_1. rewrite <- list_fmap_compose. exact Hp.
  - intros q Hq. unfold add_peer. cbn [u_peers]. rewrite lookup_insert_ne; [apply Hu; by right|].
    intros He. apply Hp. rewrite He. by apply list_elem_of_fmap_2.
Qed.

Lemma own_lookup key owner ips x k :
  own key owner ips !! x = Some k →
  (k = key ∧ ∃ ip, ip ∈ ips ∧ prefix_of ip = x) ∨ owner !! x = Some k.
Proof using Type.
  revert owner. induction ips as [|ip ips IH]; intros owner; [by right|]. cbn [own foldl].
  intros [(-> & ip' & Hin & Hx)|Hl]%IH; [left; split; [done|]; exists ip'; by split; [right|]|].
  apply lookup_insert_Some in Hl as [[Hx <-]|[_ Hl]]; [|by right].
  left. split; [done|]. exists ip. split; [by left|done].
Qed.

Lemma own_is_Some key owner ips x :
  is_Some (owner !! x) ∨ (∃ ip, ip ∈ ips ∧ prefix_of ip = x) → is_Some (own key owner ips !! x).
Proof using Type.
  revert owner. induction ips as [|ip ips IH]; intros owner; cbn [own foldl].
  { intros [Hs|(ip & Hin & _)]; [done|by apply elem_of_nil in Hin]. }
  intros Hx. apply IH. destruct (decide (prefix_of ip = x)) as [<-|Hne]; [left; by rewrite lookup_insert_eq|].
  rewrite lookup_insert_ne by done. destruct Hx as [|(ip' & [->|]%elem_of_cons & Hx)]; [by left|done|].
  right. by exists ip'.
Qed.

(** A prefix is routed to a peer that lists it, and to some peer as soon as one lists it. *)
Lemma add_peers_owner peers u x k :
  u_owner (foldl add_peer u peers) !! x = Some k →
  (∃ p ip, p ∈ peers ∧ w_PublicKeyHex p = k ∧ ip ∈ w_AllowedIPs p ∧ prefix_of ip = x) ∨ u_owner u !! x = Some k.
Proof using Type.
  revert u. induction peers as [|p peers IH]; intros u; cbn [foldl]; [by right|].
  intros [(q & ip & Hq & ?)|Ho]%IH; [left; exists q, ip; by split; [right|]|].
  apply own_lookup in Ho as [(-> & ip & Hip & Hx)|Ho]; [|by right].
  left. exists p, ip. split_and!; [by left|done|done|done].
Qed.

Lemma add_peers_is_Some peers u x :
  is_Some (u_owner u !! x) ∨ (∃ p ip, p ∈ peers ∧ ip ∈ w_AllowedIPs p ∧ prefix_of ip = x) →
  is_Some (u_owner (foldl add_peer u peers) !! x).
Proof using Type.
  revert u. induction peers as [|p peers IH]; intros u; cbn [foldl].
  { intros [Hs|(p & ip & Hp & _)]; [done|by apply elem_of_nil in Hp]. }
  intros Hx. apply IH. destruct Hx as [Hs|(q & ip & [->|Hq]%elem_of_cons & Hip & Hx)].
  - left. apply own_is_Some. by left.
  - left. apply own_is_Some. right. by exists ip.
  - right. by exists q, ip.
Qed.

Lemma add_peers_device peers u :
  u_private (foldl add_peer u peers) = u_private u ∧ u_port (foldl add_peer u peers) = u_port u.
Proof using Type.
  revert u. induction peers as [|p peers IH]; intros u; [done|]. cbn [foldl]. apply (IH (add_peer u p)).
Qed.
End protocol.

(** ** The device library *)

(** wireguard-go's devices, numbered as they are made: those not yet closed, what each is
    configured with, and the operations the program calls. *)
Class WgLib (P : Type) `{Countable P} (W E : Type) : Type := {
  devices : W → gset N;
  config_of : W → N → uapi (P:=P);
  NewDevice : string → bool → W → W * N;        (** the logger's prefix, verbose or not *)
  IpcSet : W → N → string → W * option E;
  IpcGet : W → N → result E string;
  dev_Up : W → N → W * option E;
  dev_Close : W → N → W;
}.

(** A new device is empty; a configuration that is accepted is applied line by line; closing
    ends one device; no operation on one device changes another. *)
Class WgLibLaws (P : Type) `{Countable P} (prefix_of : string → P) (W E : Type) `{!WgLib P W E} : Prop := {
  new_device name verbose w w' n : NewDevice name verbose w = (w', n) →
    (n ∉ devices w) ∧ devices w' = {[n]} ∪ devices w ∧ config_of w' n = uapi_zero ∧
    ∀ m, m ≠ n → config_of w' m = config_of w m;
  set_device w n text w' e : IpcSet w n text = (w', e) →
    devices w' = devices w ∧ (e = None → uapi_set prefix_of text (config_of w n) = Some (config_of w' n)) ∧
    ∀ m, m ≠ n → config_of w' m = config_of w m;
  up_device w n w' e : dev_Up w n = (w', e) →
    devices w' = devices w ∧ ∀ m, config_of w' m = config_of w m;
  close_device w n :
    devices (dev_Close w n) = devices w ∖ {[n]} ∧ ∀ m, m ≠ n → config_of (dev_Close w n) m = config_of w m;
}.

Inductive up_error (E : Type) : Type := EConfigure (e : E) | EBringUp (e : E).
Arguments EConfigure {_} _.
Arguments EBringUp {_} _.

Section device.
Context {P : Type} `{Countable P} {prefix_of : string → P} {W E : Type} `{!WgLib P W E} `{laws : !WgLibLaws P prefix_of W E}.

Definition device_config (privHex : string) (listenPort : Z) : string :=
  write_lines ["private_key=" +:+ privHex; "listen_port=" +:+ itoa listenPort].

(** [Up], with the value of the environment's ZWAN_WG_LOG: the device, or the error with
    which it was closed. *)
Definition Up (w : W) (wgLog adapterName privHex : string) (listenPort : Z) : W * result (up_error E) N :=
  let '(w, dev) := NewDevice ("(" +:+ (adapterName +:+ ") ")) (String.eqb wgLog "verbose") w in
  match IpcSet w dev (device_config privHex listenPort) with
  | (w, Some e) => (dev_Close w dev, Err (EConfigure e))
  | (w, None) =>
    match dev_Up w dev with
    | (w, Some e) => (dev_Close w dev, Err (EBringUp e))
    | (w, None) => (w, Ok dev)
    end
  end.

Definition SetPeers (w : W) (d : N) (peers : list wg_Peer) : W * option E := IpcSet w d (buildPeerConfig peers).

(** [Close] of a [Device], whose field may be nil. *)
Definition Close (w : W) (d : option N) : W := match d with Some dev => dev_Close w dev | None => w end.

Definition device_PeerHandshakes (w : W) (d : N) : result E (gmap string Z) := PeerHandshakes (IpcGet w d).

Lemma uapi_set_device privHex port (u : uapi (P:=P)) :
  one_line privHex → 0 ≤ port →
  uapi_set prefix_of (device_config privHex port) u = Some (MkUapi privHex (itoa port) (u_peers u) (u_owner u)).
Proof using Type.
  intros Hp Hport. unfold uapi_set, device_config. rewrite split_write_lines.
  - cbn [app]. rewrite (uapi_lines_line prefix_of "private_key" privHex) by done.
    unfold uapi_line at 1. cbn [String.eqb Ascii.eqb Bool.eqb mbind option_bind].
    by rewrite (uapi_lines_line prefix_of "listen_port" (itoa port)).
  - repeat constructor; apply one_line_app; [done|done|done|]. unfold one_line. by apply itoa_bytes.
Qed.

Lemma difference_fresh (X : gset N) d : d ∉ X → ({[d]} ∪ X) ∖ {[d]} = X.
Proof using Type.
  intros Hd. apply leibniz_equiv. intros x. rewrite elem_of_difference, elem_of_union, elem_of_singleton.
  split; [by intros [[|] ?]|]. intros Hx. split; [by right|]. intros ->. done.
Qed.

(** Starting a tunnel either gives a device that has the key and the port it was started with
    and no peers, or fails and leaves no device behind; other tunnels are as they were. *)
Theorem Up_all_or_nothing w wgLog name privHex port w' r :
  one_line privHex → 0 ≤ port → Up w wgLog name privHex port = (w', r) →
  match r with
  | Ok d => (d ∉ devices w) ∧ devices w' = {[d]} ∪ devices w ∧ config_of w' d = MkUapi privHex (itoa port) ∅ ∅
  | Err _ => devices w' = devices w
  end ∧ ∀ m, m ∈ devices w → config_of w' m = config_of w m.
Proof using laws.
  intros Hk Hport. unfold Up. destruct (NewDevice _ _ w) as [w1 d] eqn:Hn.
  destruct (new_device _ _ _ _ _ Hn) as (Hd & Hds & Hc & Ho).
  destruct (IpcSet w1 d _) as [w2 e] eqn:Hs. destruct (set_device _ _ _ _ _ Hs) as (Hs1 & Hs2 & Hs3).
  assert (∀ m, m ∈ devices w → m ≠ d) as Hne by set_solver.
  assert (∀ m, m ∈ devices w → config_of w2 m = config_of w m) as H2.
  { intros m Hm. rewrite Hs3, Ho; auto. }
  destruct e as [e|].
  { intros [= <- <-]. destruct (close_device w2 d) as [Hcd Hco]. split; [by rewrite Hcd, Hs1, Hds, difference_fresh|].
    intros m Hm. rewrite Hco; auto. }
  destruct (dev_Up w2 d) as [w3 e] eqn:Hu. destruct (up_device _ _ _ _ Hu) as [Hu1 Hu2].
  destruct e as [e|]; intros [= <- <-].
  { destruct (close_device w3 d) as [Hcd Hco]. split; [by rewrite Hcd, Hu1, Hs1, Hds, difference_fresh|].
    intros m Hm. rewrite Hco, Hu2; auto. }
  split; [|by intros m Hm; rewrite Hu2, H2]. split_and!; [done|set_solver|].
  rewrite Hu2. specialize (Hs2 eq_refl). rewrite Hc, uapi_set_device in Hs2 by done. by injection Hs2 as <-.
Qed.

(** When the device accepts a configuration, it has exactly the peers given, each under its
    own endpoint; a prefix is routed only to a peer that lists it, and to it when no other does;
    the key and the port, and every other tunnel, stay. *)
Theorem SetPeers_installs w d peers w' :
  Forall peer_one_line peers → NoDup (w_PublicKeyHex <$> peers) → SetPeers w d peers = (w', None) →
  u_peers (config_of w' d) = list_to_map ((λ p, (w_PublicKeyHex p, MkUPeer (w_Endpoint p) "25")) <$> peers) ∧
  (∀ x k, u_owner (config_of w' d) !! x = Some k →
    ∃ p ip, p ∈ peers ∧ w_PublicKeyHex p = k ∧ ip ∈ w_AllowedIPs p ∧ prefix_of ip = x) ∧
  (∀ p ip, p ∈ peers → ip ∈ w_AllowedIPs p →
    (∀ q ip', q ∈ peers → ip' ∈ w_AllowedIPs q → prefix_of ip' = prefix_of ip → q = p) →
    u_owner (config_of w' d) !! prefix_of ip = Some (w_PublicKeyHex p)) ∧
  u_private (config_of w' d) = u_private (config_of w d) ∧ u_port (config_of w' d) = u_port (config_of w d) ∧
  devices w' = devices w ∧ ∀ m, m ≠ d → config_of w' m = config_of w m.
Proof using laws.
  intros Hl Hnd Hs. destruct (set_device _ _ _ _ _ Hs) as (Hd & Hc & Ho). specialize (Hc eq_refl).
  rewrite uapi_set_peers in Hc by done. injection Hc as Hc. rewrite <- Hc.
  assert (∀ x k, u_owner (foldl (add_peer prefix_of) (MkUapi (u_private (config_of w d)) (u_port (config_of w d)) ∅ ∅) peers) !! x
    = Some k → ∃ p ip, p ∈ peers ∧ w_PublicKeyHex p = k ∧ ip ∈ w_AllowedIPs p ∧ prefix_of ip = x) as Hown.
  { intros x k [?|Hx]%add_peers_owner; [done|]. cbn [u_owner] in Hx. by rewrite lookup_empty in Hx. }
  destruct (add_peers_device prefix_of peers
    (MkUapi (u_private (config_of w d)) (u_port (config_of w d)) ∅ ∅)) as [Hpr Hpo].
  split; [|split; [exact Hown|split; [|split_and!; [done|done|done|by intros m Hm; rewrite Ho]]]].
  - rewrite add_peers_peers; [|done|by intros]. cbn [u_peers]. apply (right_id_L ∅ (∪)).
  - intros p ip Hp Hip Huniq.
    destruct (add_peers_is_Some prefix_of peers (MkUapi (u_private (config_of w d)) (u_port (config_of w d)) ∅ ∅) (prefix_of ip))
      as [k Hk]; [right; by exists p, ip|].
    rewrite Hk. destruct (Hown _ _ Hk) as (q & ip' & Hq & <- & Hip' & Hx). by rewrite (Huniq q ip').
Qed.

(** Closing ends the device, and a [Device] without one is left alone. *)
Lemma Close_ends w d : (d ∉ devices (Close w (Some d))) ∧ Close w None = w.
Proof using laws. split; [|done]. cbn [Close]. destruct (close_device w d) as [-> _]. set_solver. Qed.

(** Configurations in turn, as long as the device accepts them. *)
Fixpoint set_rounds (w : W) (d : N) (rounds : list (list wg_Peer)) : option W :=
  match rounds with
  | [] => Some w
  | peers :: rounds =>
    match SetPeers w d peers with
    | (w, None) => set_rounds w d rounds
    | (_, Some _) => None
    end
  end.

Lemma set_rounds_keeps w d rounds w' :
  Forall (λ peers, Forall peer_one_line peers ∧ NoDup (w_PublicKeyHex <$> peers)) rounds →
  set_rounds w d rounds = Some w' →
  u_private (config_of w' d) = u_private (config_of w d) ∧ u_port (config_of w' d) = u_port (config_of w d) ∧
  devices w' = devices w ∧ ∀ m, m ≠ d → config_of w' m = config_of w m.
Proof using laws.
  intros Hr. revert w. induction Hr as [|peers rounds [Hl Hnd] _ IH]; intros w; cbn [set_rounds]; [by intros [= ->]|].
  destruct (SetPeers w d peers) as [w1 [e|]] eqn:Hs; [done|].
  destruct (SetPeers_installs _ _ _ _ Hl Hnd Hs) as (_ & _ & _ & Hpr & Hpo & Hd & Ho).
  intros (Hpr' & Hpo' & Hd' & Ho')%IH. split_and!; [congruence|congruence|congruence|].
  intros m Hm. by rewrite Ho', Ho.
Qed.

Lemma set_rounds_app w d r1 r2 : set_rounds w d (r1 ++ r2) = (w ← set_rounds w d r1; set_rounds w d r2).
Proof using Type.
  revert w. induction r1 as [|peers r1 IH]; intros w; [done|]. cbn [app set_rounds].
  destruct (SetPeers w d peers) as [w1 [e|]]; [done|apply IH].
Qed.

(** C14: However often the peers of a tunnel are replaced, it keeps the key and the port it was
    started with and has exactly the peers of the last time, each under its own endpoint;
    a prefix is routed to the peer that lists it when no other does, and only to one that
    does; the other tunnels of the machine are as they were. *)
Theorem tunnel_follows w wgLog name privHex port w1 d rounds peers w2 :
  one_line privHex → 0 ≤ port →
  Forall (λ peers, Forall peer_one_line peers ∧ NoDup (w_PublicKeyHex <$> peers)) (rounds ++ [peers]) →
  Up w wgLog name privHex port = (w1, Ok d) → set_rounds w1 d (rounds ++ [peers]) = Some w2 →
  u_private (config_of w2 d) = privHex ∧ u_port (config_of w2 d) = itoa port ∧
  u_peers (config_of w2 d) = list_to_map ((λ p, (w_PublicKeyHex p, MkUPeer (w_Endpoint p) "25")) <$> peers) ∧
  (∀ x k, u_owner (config_of w2 d) !! x = Some k →
    ∃ p ip, p ∈ peers ∧ w_PublicKeyHex p = k ∧ ip ∈ w_AllowedIPs p ∧ prefix_of ip = x) ∧
  (∀ p ip, p ∈ peers → ip ∈ w_AllowedIPs p →
    (∀ q ip', q ∈ peers → ip' ∈ w_AllowedIPs q → prefix_of ip' = prefix_of ip → q = p) →
    u_owner (config_of w2 d) !! prefix_of ip = Some (w_PublicKeyHex p)) ∧
  devices w2 = {[d]} ∪ devices w ∧ ∀ m, m ∈ devices w → config_of w2 m = config_of w m.
Proof using laws.
  intros Hk Hport Hr Hu Hs. destruct (Up_all_or_nothing _ _ _ _ _ _ _ Hk Hport Hu) as [(Hd & Hds & Hc) Ho].
  apply Forall_app in Hr as [Hr Hlast]. inversion_clear Hlast as [|? ? [Hl Hnd] _].
  rewrite set_rounds_app in Hs. destruct (set_rounds w1 d rounds) as [w3|] eqn:Hs1; [|done].
  destruct (set_rounds_keeps _ _ _ _ Hr Hs1) as (Hpr & Hpo & Hd3 & Ho3).
  cbn [mbind option_bind set_rounds] in Hs. destruct (SetPeers w3 d peers) as [w4 [e|]] eqn:Hs2; [done|].
  injection Hs as <-. destruct (SetPeers_installs _ _ _ _ Hl Hnd Hs2) as (H1 & H2 & H3 & H4 & H5 & H6 & H7).
  rewrite Hc in Hpr, Hpo. cbn [u_private u_port] in Hpr, Hpo.
  split_and!; [congruence|congruence|done|done|done|congruence|].
  intros m Hm. assert (m ≠ d) by set_solver. rewrite H7, Ho3 by done. by apply Ho.
Qed.

(** Hexadecimal keys are one line. *)
Lemma hex_one_line b : Forall is_byte b → one_line (hex_encode b).
Proof using Type.
  intros Hb. pose proof (hex_encode_chars b Hb) as Hc. unfold one_line. revert Hc. generalize (hex_encode b). intros s.
  induction s as [|a s IH]; [done|]. cbn [list_ascii_of_string has_byte]. intros [[Ha _] Hs]%Forall_cons.
  rewrite (IH Hs), orb_false_r. apply Ascii.eqb_neq. intros ->. by vm_compute in Ha.
Qed.
End device.

(** ** A table of devices *)

Section table.
Context {P : Type} `{Countable P} (prefix_of : string → P).

(** Each device with whether it is up. *)
Abbreviation wg_table := (gmap N (bool * uapi (P:=P))).

Definition table_config (w : wg_table) (n : N) : uapi :=
  match w !! n with Some (_, u) => u | None => uapi_zero end.

Definition table_set (w : wg_table) (n : N) (text : string) : wg_table * option string :=
  match w !! n with
  | None => (w, Some "device is closed"%string)
  | Some (up, u) =>
    match uapi_set prefix_of text u with
    | None => (w, Some "invalid UAPI line"%string)
    | Some u => (<[n := (up, u)]> w, None)
    end
  end.

Definition table_up (w : wg_table) (n : N) : wg_table * option string :=
  match w !! n with
  | None => (w, Some "device is closed"%string)
  | Some (_, u) => (<[n := (true, u)]> w, None)
  end.

Definition table_get (w : wg_table) (n : N) : result string string :=
  match w !! n with
  | None => Err "device is closed"%string
  | Some (_, u) => Ok (write_lines (mjoin ((λ kp, ["public_key=" +:+ kp.1; "last_handshake_time_sec=0"%string])
                                           <$> map_to_list (u_peers u))))
  end.

#[export] Instance table_lib : WgLib P wg_table string := {
  devices := dom;
  config_of := table_config;
  NewDevice _ _ w := let n := fresh (dom w) in (<[n := (false, uapi_zero)]> w, n);
  IpcSet := table_set;
  IpcGet := table_get;
  dev_Up := table_up;
  dev_Close w n := delete n w;
}.

Lemma table_config_ne (w : wg_table) n x m : m ≠ n → table_config (<[n := x]> w) m = table_config w m.
Proof using Type. intros Hm. unfold table_config. by rewrite lookup_insert_ne. Qed.

Lemma table_dom_insert (w : wg_table) n x y : w !! n = Some x → dom (<[n := y]> w) = dom w.
Proof using Type. intros Hw. rewrite dom_insert_L. apply subseteq_union_1_L, singleton_subseteq_l, elem_of_dom. eauto. Qed.

#[export] Instance table_laws : WgLibLaws P prefix_of wg_table string.
Proof using Type.
  split; cbn [devices config_of NewDevice IpcSet dev_Up dev_Close table_lib].
  - intros _ _ w w' n [= <- <-]. split_and!; [apply is_fresh|apply dom_insert_L| |].
    + unfold table_config. by rewrite lookup_insert_eq.
    + intros m Hm. by apply table_config_ne.
  - intros w n text w' e. unfold table_set. destruct (w !! n) as [[up u]|] eqn:Hn; [|by intros [= <- <-]].
    destruct (uapi_set prefix_of text u) as [u'|] eqn:Hu; intros [= <- <-]; [|done].
    split_and!; [by eapply table_dom_insert| |by intros; apply table_config_ne].
    intros _. unfold table_config. by rewrite Hn, lookup_insert_eq.
  - intros w n w' e. unfold table_up. destruct (w !! n) as [[up u]|] eqn:Hn; intros [= <- <-]; [|done].
    split; [by eapply table_dom_insert|]. intros m. destruct (decide (m = n)) as [->|Hm]; [|by apply table_config_ne].
    unfold table_config. by rewrite Hn, lookup_insert_eq.
  - intros w n. split; [apply dom_delete_L|]. intros m Hm. unfold table_config. by rewrite lookup_delete_ne.
Qed.
End table.

(** ** Handshakes

    The device's report: lines of its own, then for each peer its key, its last handshake and
    other lines around it. *)
Record report : Type := MkReport { r_key : string; r_pre : list string; r_time : Z; r_post : list string }.

Definition report_lines (r : report) : list string :=
  ["public_key=" +:+ r_key r] ++ r_pre r ++ ["last_handshake_time_sec=" +:+ itoa (r_time r)] ++ r_post r.

(** A line about something else. *)
Definition other_line (l : string) : Prop :=
  one_line l ∧ ∀ k v, cut "=" l = Some (k, v) → k ≠ "public_key"%string ∧ k ≠ "last_handshake_time_sec"%string.

Definition is_other_line (l : string) : bool :=
  negb (has_byte newline l) &&
  match cut "=" l with
  | Some (k, _) => negb (String.eqb k "public_key") && negb (String.eqb k "last_handshake_time_sec")
  | None => true
  end.

Lemma other_lines ls : forallb is_other_line ls = true → Forall other_line ls.
Proof.
  intros Hl. apply Forall_forall. intros l Hin%list_elem_of_In. rewrite forallb_forall in Hl.
  specialize (Hl l Hin). unfold is_other_line in Hl. apply andb_true_iff in Hl as [H1 H2]. split; [by apply negb_true_iff|].
  intros k v Hc. rewrite Hc, andb_true_iff, !negb_true_iff, !String.eqb_neq in H2. exact H2.
Qed.

Definition report_ok (r : report) : Prop :=
  r_key r ≠ ""%string ∧ one_line (r_key r) ∧ 0 ≤ r_time r < 2 ^ 63 ∧ Forall other_line (r_pre r) ∧ Forall other_line (r_post r).

Lemma handshakes_skip ls rest cur out :
  Forall other_line ls → handshakes_of (ls ++ rest) cur out = handshakes_of rest cur out.
Proof.
  induction 1 as [|l ls [_ Hl] _ IH]; [done|]. cbn [app handshakes_of].
  destruct (cut "=" l) as [[k v]|]; [|done]. destruct (Hl k v eq_refl) as [H1 H2].
  apply String.eqb_neq in H1, H2. by rewrite H1, H2.
Qed.

Lemma handshakes_report r rest cur out :
  report_ok r → handshakes_of (report_lines r ++ rest) cur out = handshakes_of rest (r_key r) (<[r_key r := r_time r]> out).
Proof.
  intros (Hk & _ & Ht & Hpre & Hpost). unfold report_lines. rewrite <- !app_assoc. cbn [app handshakes_of].
  change ("public_key=" +:+ r_key r)%string with ("public_key" +:+ String "=" (r_key r))%string.
  rewrite cut_byte by done. cbn [String.eqb Ascii.eqb Bool.eqb]. rewrite handshakes_skip by done. cbn [handshakes_of].
  change ("last_handshake_time_sec=" +:+ itoa (r_time r))%string with ("last_handshake_time_sec" +:+ String "=" (itoa (r_time r)))%string.
  rewrite cut_byte by done. cbn [String.eqb Ascii.eqb Bool.eqb]. apply String.eqb_neq in Hk. rewrite Hk, Atoi_itoa by done.
  by rewrite handshakes_skip.
Qed.

Lemma report_one_line r : report_ok r → Forall one_line (report_lines r).
Proof.
  intros (_ & Hk & Ht & Hpre & Hpost). unfold report_lines. rewrite !Forall_app. split_and!.
  - repeat constructor. by apply one_line_app.
  - eapply Forall_impl; [done|]. by intros ? [].
  - repeat constructor. apply one_line_app; [done|]. apply itoa_bytes; [lia|done].
  - eapply Forall_impl; [done|]. by intros ? [].
Qed.

(** Whatever else the device reports, each peer's time is read under that peer's key. *)
Theorem PeerHandshakes_reads {E : Type} own_lines rs :
  Forall other_line own_lines → Forall report_ok rs → NoDup (r_key <$> rs) →
  PeerHandshakes (E:=E) (Ok (write_lines (own_lines ++ mjoin (report_lines <$> rs)))) =
    Ok (list_to_map ((λ r, (r_key r, r_time r)) <$> rs)).
Proof.
  intros Hown Hrs Hnd. unfold PeerHandshakes. f_equal. rewrite split_write_lines.
  2: { apply Forall_app. split; [eapply Forall_impl; [done|]; by intros ? []|].
       clear Hnd. induction Hrs as [|r rs Hr _ IH]; [constructor|].
       cbn [fmap list_fmap mjoin list_join]. apply Forall_app. split; [by apply report_one_line|done]. }
  rewrite <- app_assoc, handshakes_skip by done.
  enough (∀ cur out, (∀ r, r ∈ rs → out !! r_key r = None) →
    handshakes_of (mjoin (report_lines <$> rs) ++ [""%string]) cur out =
    list_to_map ((λ r, (r_key r, r_time r)) <$> rs) ∪ out) as Hgen.
  { rewrite Hgen by done. apply (right_id_L ∅ (∪)). }
  clear Hown own_lines. induction Hrs as [|r rs Hr Hrs IH]; intros cur out Hout.
  { cbn. by rewrite (left_id_L ∅ (∪)). }
  cbn [fmap list_fmap mjoin list_join]. rewrite <- app_assoc, handshakes_report by done.
  cbn [fmap list_fmap] in Hnd. apply NoDup_cons in Hnd as [Hk Hnd]. rewrite (IH Hnd).
  - rewrite list_to_map_cons, <- insert_union_r, insert_union_l; [done|].
    apply not_elem_of_list_to_map_1. rewrite <- list_fmap_compose. exact Hk.
  - intros q Hq. rewrite lookup_insert_ne; [apply Hout; by right|].
    intros He. apply Hk. rewrite He. by apply list_elem_of_fmap_2.
Qed.

(** ** Two peers on a device *)

Definition demo_devices : gmap N (bool * uapi (P:=string)) := {[ 0%N := (true, MkUapi "aa" "1" ∅ ∅) ]}.
Definition demo_peers : list wg_Peer :=
  [MkWgPeer "b1" "10.0.0.2" ["100.64.0.2/32"; "100.64.9.1/32"]%string; MkWgPeer "b2" "" ["100.64.0.3/32"%string]].
Definition id_prefix (s : string) : string := s.

#[export] Instance demo_lib : WgLib string (gmap N (bool * uapi (P:=string))) string := table_lib id_prefix.
#[export] Instance demo_laws : WgLibLaws string id_prefix (gmap N (bool * uapi (P:=string))) string := table_laws id_prefix.

Lemma tunnel_follows_witness :
  ∃ w2, set_rounds (Up demo_devices "verbose" "zwan" "cc" 51820).1 1%N [[]; demo_peers] = Some w2 ∧
    u_peers (config_of w2 1%N) = list_to_map [("b1"%string, MkUPeer "10.0.0.2" "25"); ("b2"%string, MkUPeer "" "25")] ∧
    config_of w2 0%N = MkUapi "aa" "1" ∅ ∅.
Proof.
  assert ((Up demo_devices "verbose" "zwan" "cc" 51820).2 = Ok 1%N) as Hr by (vm_compute; reflexivity).
  destruct (Up demo_devices "verbose" "zwan" "cc" 51820) as [w1 r] eqn:Hu. cbn [snd] in Hr. subst r.
  assert (match set_rounds w1 1%N [[]; demo_peers] with Some _ => true | None => false end = true) as Hsome.
  { apply (f_equal fst) in Hu. cbn [fst] in Hu. subst w1. vm_compute. reflexivity. }
  cbn [fst]. destruct (set_rounds w1 1%N [[]; demo_peers]) as [w2|] eqn:Hs; [|done]. exists w2. split; [done|].
  destruct (tunnel_follows demo_devices "verbose" "zwan" "cc" 51820 w1 1%N [[]] demo_peers w2)
    as (_ & _ & Hp & _ & _ & _ & Ho); [done|lia| |done|done|].
  - repeat (constructor; [split; [by repeat constructor|apply (bool_decide_unpack _); by vm_compute]|]). constructor.
  - split; [exact Hp|]. apply (Ho 0%N), elem_of_dom. by eexists.
Defined.

Lemma PeerHandshakes_reads_witness :
  PeerHandshakes (E:=string) (Ok (write_lines ["listen_port=51820"; "public_key=b1"; "last_handshake_time_sec=1700000000"; "tx_bytes=0"]%string))
  = Ok {[ "b1"%string := 1700000000 ]}.
Proof.
  apply (PeerHandshakes_reads ["listen_port=51820"%string] [MkReport "b1" [] 1700000000 ["tx_bytes=0"%string]]).
  - apply other_lines. by vm_compute.
  - constructor; [|constructor]. split; [done|]. split; [done|]. split; [by vm_compute|]. split; [constructor|].
    apply other_lines. by vm_compute.
  - apply (bool_decide_unpack _). by vm_compute.
Defined.
