(* ===== verification/DeviceName.v ===== *)
(** * The name a device registers under (client/engine/engine.go: deviceName, dnsLabel)

    A name given by the user, or the machine's own, reduced to a DNS label. *)
From Stdlib Require Import Ascii String.
From S2P Require Import Prelude Unicode GoString GoStringFacts Profile.

Local Open Scope Z_scope.

(** The loop of [dnsLabel] over the runes: what is written and whether it ends in a hyphen
    written for unusable characters. *)
Fixpoint label_loop (rs : list Z) (out : list ascii) (dash : bool) : list ascii :=
  match rs with
  | [] => out
  | r :: rs =>
    if lower_alnum r then label_loop rs (out ++ encode_rune r) false
    else if negb dash && negb (bool_decide (out = [])) then label_loop rs (out ++ ["-"%char]) true
    else label_loop rs out dash
  end.

Definition trim_hyphens (l : list ascii) : list ascii := drop_while_end (Ascii.eqb "-") l.

Definition label_bytes (l : list ascii) : list ascii :=
  let out := trim_hyphens l in
  if (63 <? length out)%nat then trim_hyphens (take 63 out) else out.

Definition dnsLabel (s : string) : string :=
  string_of_list_ascii (label_bytes (label_loop (runes (to_lower (trim_space s))) [] false)).

(** [host] is the machine's own name, empty when the system does not tell. *)
Definition deviceName (given host : string) : string :=
  let name := dnsLabel given in
  if negb (String.eqb name "") then name else dnsLabel host.

(** ** The label *)

(** What [label_loop] writes: label characters, not starting with a hyphen and without two
    hyphens in a row. *)
Record tidy (l : list ascii) : Prop := {
  td_bytes : Forall (λ a, label_byte a = true) l;
  td_head : head l ≠ Some "-"%char;
  td_apart : ∀ i, l !! i = Some "-"%char → l !! S i ≠ Some "-"%char;
}.

Lemma tidy_nil : tidy [].
Proof. by split. Qed.

Lemma tidy_snoc l a :
  tidy l → label_byte a = true → (a = "-"%char → l ≠ [] ∧ last l ≠ Some "-"%char) → tidy (l ++ [a]).
Proof.
  intros [Hb Hh Ha] Hl Hd. split.
  - apply Forall_app. by split; [|repeat constructor].
  - destruct l as [|b l]; [|done]. cbn. intros [= ->]. by destruct Hd.
  - intros i Hi Hs. apply lookup_app_Some in Hs as [Hs|[Hlen Hs]].
    + rewrite lookup_app_l in Hi by (apply lookup_lt_Some in Hs; lia). by apply (Ha i).
    + apply list_lookup_singleton_Some in Hs as [Hs ->]. destruct Hd as [Hne Hlast]; [done|].
      rewrite lookup_app_l in Hi by lia. apply Hlast. rewrite last_lookup, <-Hi. f_equal. lia.
Qed.

Lemma tidy_prefix l k : tidy (l ++ k) → tidy l.
Proof.
  intros [Hb Hh Ha]. apply Forall_app in Hb as [Hb _]. split; [done| |].
  - by destruct l.
  - intros i Hi Hs. apply (Ha i); by apply lookup_app_l_Some.
Qed.

Lemma label_byte_alnum a : label_byte a = true → a = "-"%char ∨ lower_alnum (byte_val a) = true ∧ a ≠ "-"%char.
Proof.
  unfold label_byte. rewrite orb_true_iff, Z.eqb_eq, byte_val_hyphen. intros [H|H]; [right|by left].
  split; [done|]. by intros ->.
Qed.

Lemma label_loop_tidy rs out dash :
  tidy out → (dash = true ↔ last out = Some "-"%char) → tidy (label_loop rs out dash).
Proof.
  revert out dash. induction rs as [|r rs IH]; intros out dash Ht Hd; [done|]. cbn [label_loop].
  destruct (lower_alnum r) eqn:Hr.
  - assert (0 ≤ r < 0x80) as Hrange by (unfold lower_alnum in Hr; lia).
    assert (encode_rune r = [byte_of r]) as ->.
    { unfold encode_rune. assert (valid_rune r = true) as -> by (unfold valid_rune; lia).
      by assert ((r <? 0x80) = true) as -> by lia. }
    assert (lower_alnum (byte_val (byte_of r)) = true) as Hr' by (by rewrite byte_val_of by lia).
    assert (byte_of r ≠ "-"%char) as Hne by (intros E; by rewrite E in Hr').
    apply IH.
    + apply tidy_snoc; [done|unfold label_byte; by rewrite Hr'|done].
    + rewrite last_snoc. split; [done|congruence].
  - destruct (negb dash && negb (bool_decide (out = []))) eqn:Hb; [|by apply IH].
    apply andb_true_iff in Hb as [Hdash Hout]. apply negb_true_iff in Hdash, Hout.
    apply bool_decide_eq_false in Hout. apply IH.
    + apply tidy_snoc; [done|done|]. intros _. split; [done|]. intros Hl. apply Hd in Hl. congruence.
    + by rewrite last_snoc.
Qed.

(** A tidy text is written as it is. *)
Lemma label_loop_id l out dash :
  tidy (out ++ l) → (dash = true ↔ last out = Some "-"%char) →
  label_loop (byte_val <$> l) out dash = out ++ l.
Proof.
  revert out dash. induction l as [|a l IH]; intros out dash Ht Hd; [by rewrite app_nil_r|].
  rewrite (cons_middle a out l), (assoc_L app) in Ht |- *.
  assert (label_byte a = true) as Ha.
  { pose proof (td_bytes _ Ht) as Hb. apply Forall_app in Hb as [Hb _].
    apply Forall_app in Hb as [_ Hb]. by inversion_clear Hb. }
  pose proof (byte_val_range a).
  cbn [fmap list_fmap label_loop]. destruct (label_byte_alnum a Ha) as [->|[Hal Hne]].
  - change (lower_alnum (byte_val "-")) with false. cbn iota.
    assert (negb dash && negb (bool_decide (out = [])) = true) as ->.
    { apply andb_true_iff. rewrite !negb_true_iff, bool_decide_eq_false. apply tidy_prefix in Ht. split.
      - destruct dash; [|done]. destruct Hd as [Hd _]. specialize (Hd eq_refl).
        destruct (td_apart _ Ht (length out - 1)); [|].
        + rewrite last_lookup in Hd. destruct out; [done|]. cbn [length] in *.
          replace (S (length out) - 1)%nat with (pred (S (length out))) by lia. by apply lookup_app_l_Some.
        + destruct out; [done|]. cbn [length]. replace (S (S (length out) - 1)) with (length (a :: out)) by (cbn; lia).
          by apply list_lookup_middle.
      - intros ->. by destruct (td_head _ Ht). }
    apply IH; [done|]. by rewrite last_snoc.
  - rewrite Hal.
    assert (encode_rune (byte_val a) = [a]) as ->.
    { assert (byte_val a < 0x80) by (unfold lower_alnum in Hal; lia). unfold encode_rune.
      assert (valid_rune (byte_val a) = true) as -> by (unfold valid_rune; lia).
      assert ((byte_val a <? 0x80) = true) as -> by lia. by rewrite byte_of_val. }
    apply IH; [done|]. rewrite last_snoc. split; [done|congruence].
Qed.

Lemma trim_hyphens_prefix l : ∃ k, l = trim_hyphens l ++ k.
Proof. destruct (drop_while_end_app (Ascii.eqb "-") l) as (k & Hk & _). by exists k. Qed.

Lemma trim_hyphens_last l : last (trim_hyphens l) ≠ Some "-"%char.
Proof. intros H%drop_while_end_last. by rewrite Ascii.eqb_refl in H. Qed.

Lemma label_bytes_spec l :
  tidy l → tidy (label_bytes l) ∧ last (label_bytes l) ≠ Some "-"%char ∧ (length (label_bytes l) ≤ 63)%nat.
Proof.
  intros Hl. unfold label_bytes.
  assert (tidy (trim_hyphens l)) as Ht.
  { destruct (trim_hyphens_prefix l) as [k Hk]. rewrite Hk in Hl. by eapply tidy_prefix. }
  destruct (Nat.ltb_spec 63 (length (trim_hyphens l))) as [Hlen|Hlen].
  - destruct (trim_hyphens_prefix (take 63 (trim_hyphens l))) as [k Hk].
    split_and!; [|apply trim_hyphens_last|].
    + rewrite <-(take_drop 63 (trim_hyphens l)), Hk in Ht. apply tidy_prefix in Ht. by eapply tidy_prefix.
    + apply (f_equal length) in Hk. rewrite length_app, length_take in Hk. lia.
  - split_and!; [done|apply trim_hyphens_last|lia].
Qed.

Lemma label_bytes_id l : last l ≠ Some "-"%char → (length l ≤ 63)%nat → label_bytes l = l.
Proof.
  intros Hl Hlen. unfold label_bytes, trim_hyphens. rewrite drop_while_end_id.
  - destruct (Nat.ltb_spec 63 (length l)); [lia|done].
  - intros x Hx. apply Ascii.eqb_neq. congruence.
Qed.

(** ** What the label is made of *)

(** The runs of usable characters, with [cur] before them. *)
Fixpoint label_words (rs : list Z) (cur : list ascii) : list (list ascii) :=
  let done := if bool_decide (cur = []) then [] else [cur] in
  match rs with
  | [] => done
  | r :: rs => if lower_alnum r then label_words rs (cur ++ [byte_of r]) else done ++ label_words rs []
  end.

Fixpoint dash_join (ws : list (list ascii)) : list ascii :=
  match ws with
  | [] => []
  | [w] => w
  | w :: ws => w ++ "-"%char :: dash_join ws
  end.

(** The runs, a hyphen between two; at most 63 bytes of it, of which the last is no hyphen. *)
Definition label_of (rs : list Z) : list ascii :=
  let full := dash_join (label_words rs []) in
  if (length full <=? 63)%nat then full else trim_hyphens (take 63 full).

Definition usable_byte (a : ascii) : bool := lower_alnum (byte_val a).

Lemma usable_rune r : lower_alnum r = true → encode_rune r = [byte_of r] ∧ usable_byte (byte_of r) = true ∧ byte_of r ≠ "-"%char.
Proof.
  intros Hr. assert (0 ≤ r < 0x80) as Hrange by (unfold lower_alnum in Hr; lia).
  assert (usable_byte (byte_of r) = true) as Hu by (unfold usable_byte; by rewrite byte_val_of by lia).
  split_and!; [|done|by intros E; rewrite E in Hu].
  unfold encode_rune. assert (valid_rune r = true) as -> by (unfold valid_rune; lia).
  by assert ((r <? 0x80) = true) as -> by lia.
Qed.

Lemma dash_join_snoc ws w : ws ≠ [] → dash_join (ws ++ [w]) = dash_join ws ++ "-"%char :: w.
Proof.
  induction ws as [|v ws IH]; [done|]. intros _. destruct ws as [|u ws]; [done|].
  change (dash_join ((v :: u :: ws) ++ [w])) with (v ++ "-"%char :: dash_join ((u :: ws) ++ [w])).
  rewrite IH by done. change (dash_join (v :: u :: ws)) with (v ++ "-"%char :: dash_join (u :: ws)). by rewrite <- app_assoc.
Qed.

Lemma dash_join_more ws w k : dash_join (ws ++ [w]) ++ k = dash_join (ws ++ [w ++ k]).
Proof.
  destruct (decide (ws = [])) as [->|Hne]; [done|]. rewrite !dash_join_snoc by done. by rewrite <- app_assoc.
Qed.

(** The state of the loop: the runs that are complete and the one under way. *)
Definition loop_state (ws : list (list ascii)) (cur out : list ascii) (dash : bool) : Prop :=
  Forall (λ w, ∃ k a, w = k ++ [a] ∧ a ≠ "-"%char) ws ∧
  if dash then ws ≠ [] ∧ cur = [] ∧ out = dash_join ws ++ ["-"%char]
  else (ws = [] ∧ cur = [] ∧ out = []) ∨
       (∃ k a, cur = k ++ [a] ∧ a ≠ "-"%char) ∧ out = dash_join (ws ++ [cur]).

Lemma join_last ws : Forall (λ w : list ascii, ∃ k a, w = k ++ [a] ∧ a ≠ "-"%char) ws → trim_hyphens (dash_join ws) = dash_join ws.
Proof.
  intros Hws. apply drop_while_end_id. intros x Hx. destruct ws as [|w ws _] using rev_ind; [done|].
  apply Forall_app in Hws as [_ (k & a & -> & Ha)%Forall_singleton].
  rewrite <- dash_join_more, last_snoc in Hx. injection Hx as <-. by apply Ascii.eqb_neq.
Qed.

Lemma label_loop_words rs ws cur out dash :
  loop_state ws cur out dash → trim_hyphens (label_loop rs out dash) = dash_join (ws ++ label_words rs cur).
Proof.
  revert ws cur out dash. induction rs as [|r rs IH]; intros ws cur out dash [Hws Hst]; cbn [label_loop label_words].
  - destruct dash.
    + destruct Hst as (Hne & -> & ->). rewrite app_nil_r. transitivity (trim_hyphens (dash_join ws)); [|by apply join_last].
      unfold trim_hyphens, drop_while_end. by rewrite reverse_snoc.
    + destruct Hst as [(-> & -> & ->)|[(k & a & -> & Ha) ->]]; [done|].
      rewrite bool_decide_eq_false_2 by (by destruct k). apply join_last. apply Forall_app. split; [done|].
      constructor; [by exists k, a|done].
  - destruct (lower_alnum r) eqn:Hr.
    + destruct (usable_rune r Hr) as (-> & _ & Hne). apply IH. split; [done|]. right. split; [by exists cur, (byte_of r)|].
      destruct dash.
      * destruct Hst as (Hw & -> & ->). rewrite dash_join_snoc by done. by rewrite <- app_assoc.
      * destruct Hst as [(-> & -> & ->)|[_ ->]]; [done|]. apply dash_join_more.
    + destruct dash; cbn [negb andb].
      * destruct Hst as (Hw & -> & ->). by apply IH.
      * destruct Hst as [(-> & -> & ->)|[(k & a & -> & Ha) ->]].
        { rewrite !bool_decide_eq_true_2 by done. cbn [negb]. by apply IH; split; [|left]. }
        rewrite (bool_decide_eq_false_2 (k ++ [a] = [])) by (by destruct k).
        rewrite bool_decide_eq_false_2.
        2: { rewrite <- dash_join_more. by destruct (dash_join _). }
        cbn [negb]. rewrite (IH (ws ++ [k ++ [a]]) []).
        -- by rewrite <- app_assoc.
        -- split; [apply Forall_app; split; [done|]; constructor; [by exists k, a|done]|]. split_and!; [by destruct ws|done|done].
Qed.

Lemma label_bytes_words rs : label_bytes (label_loop rs [] false) = label_of rs.
Proof.
  unfold label_bytes, label_of. rewrite (label_loop_words rs [] []) by (by split; [|left]). cbn [app].
  destruct (Nat.ltb_spec 63 (length (dash_join (label_words rs [])))), (Nat.leb_spec (length (dash_join (label_words rs []))) 63); try lia; done.
Qed.

(** Every usable character is there, in order, and there is no other but the hyphens. *)
Lemma label_words_usable rs cur :
  Forall (λ a, a ≠ "-"%char) cur →
  filter (λ a, a ≠ "-"%char) (dash_join (label_words rs cur)) = cur ++ (byte_of <$> filter (λ r, lower_alnum r = true) rs).
Proof.
  assert (∀ w ws, filter (λ a, a ≠ "-"%char) (dash_join (w :: ws)) =
    filter (λ a, a ≠ "-"%char) w ++ filter (λ a, a ≠ "-"%char) (dash_join ws)) as Hcons.
  { intros w ws. destruct ws as [|v ws]; [by cbn; rewrite app_nil_r|].
    change (dash_join (w :: v :: ws)) with (w ++ "-"%char :: dash_join (v :: ws)).
    by rewrite filter_app, filter_cons_False by (by intros []). }
  revert cur. induction rs as [|r rs IH]; intros cur Hcur; cbn [label_words].
  - rewrite filter_nil, app_nil_r. destruct (bool_decide_reflect (cur = [])) as [->|]; [done|]. by rewrite filter_all.
  - destruct (lower_alnum r) eqn:Hr.
    + destruct (usable_rune r Hr) as (_ & _ & Hne). rewrite IH by (apply Forall_app; split; [done|by constructor]).
      rewrite filter_cons_True by done. cbn [fmap list_fmap]. by rewrite <- app_assoc.
    + rewrite filter_cons_False by (by rewrite Hr). specialize (IH [] ltac:(constructor)). cbn [app] in IH.
      destruct (bool_decide_reflect (cur = [])) as [->|]; [done|]. cbn [app]. by rewrite Hcons, IH, filter_all.
Qed.

Lemma label_of_empty rs : label_of rs = [] ↔ Forall (λ r, lower_alnum r = false) rs.
Proof.
  rewrite <- label_bytes_words.
  pose proof (label_words_usable rs [] ltac:(constructor)) as Hu. cbn [app] in Hu. rewrite label_bytes_words. split.
  - intros He. assert (dash_join (label_words rs []) = []) as Hj.
    { unfold label_of in He. destruct (Nat.leb_spec (length (dash_join (label_words rs []))) 63) as [|Hl]; [done|]. exfalso.
      assert (tidy (label_loop rs [] false)) as Ht by (apply label_loop_tidy; [apply tidy_nil|done]).
      destruct (trim_hyphens_prefix (label_loop rs [] false)) as [k Hk].
      rewrite (label_loop_words rs [] []) in Hk by (by split; [|left]). cbn [app] in Hk. rewrite Hk in Ht. apply tidy_prefix in Ht.
      destruct (dash_join (label_words rs [])) as [|a l] eqn:Ej; [cbn in Hl; lia|].
      assert (a ≠ "-"%char) as Ha by (intros ->; by apply (td_head _ Ht)). cbn [take] in He.
      destruct (drop_while_end_app (Ascii.eqb "-") (a :: take 62 l)) as (k' & Hk' & Hall). unfold trim_hyphens in He. rewrite He in Hk'.
      cbn [app] in Hk'. subst k'. inversion_clear Hall as [|? ? Hx _]. apply Ascii.eqb_eq in Hx. congruence. }
    rewrite Hj in Hu. cbn in Hu. symmetry in Hu. apply fmap_nil_inv in Hu. apply Forall_forall. intros r Hr.
    destruct (lower_alnum r) eqn:E; [|done]. exfalso.
    assert (r ∈ filter (λ r, lower_alnum r = true) rs) as Hin by (by apply list_elem_of_filter). rewrite Hu in Hin. by apply elem_of_nil in Hin.
  - intros Hall. assert (∀ l, Forall (λ r, lower_alnum r = false) l → label_words l [] = []) as Hw.
    { clear. induction 1 as [|r l Hr _ IH]; [done|]. cbn [label_words]. by rewrite Hr, IH. }
    unfold label_of. by rewrite Hw.
Qed.

(** C36: The name a device registers under: the runs of letters and digits of the name given, in
    lower case and without the blanks around it, with one hyphen between two of them, cut to 63
    bytes.  No usable character is lost but by the cut, and none is made up; the result is a DNS
    label, or empty when there is no usable character, and only then the machine's own name is
    taken.  A label stays as it is if it has no two hyphens in a row. *)
Theorem dnsLabel_correct s host :
  let t := runes (to_lower (trim_space s)) in
  dnsLabel s = string_of_list_ascii (label_of t) ∧
  filter (λ a, a ≠ "-"%char) (dash_join (label_words t [])) = byte_of <$> filter (λ r, lower_alnum r = true) t ∧
  (dnsLabel s = ""%string ↔ Forall (λ r, lower_alnum r = false) t) ∧
  (dnsLabel s ≠ ""%string → dns_label (dnsLabel s)) ∧
  dnsLabel (dnsLabel s) = dnsLabel s ∧
  (dns_label s → (∀ i, list_ascii_of_string s !! i = Some "-"%char → list_ascii_of_string s !! S i ≠ Some "-"%char) →
    dnsLabel s = s) ∧
  deviceName s host = (if decide (Forall (λ r, lower_alnum r = false) t) then dnsLabel host else dnsLabel s).
Proof.
  intros t. set (out := label_loop t [] false).
  assert (tidy out) as Ht by (apply label_loop_tidy; [apply tidy_nil|done]).
  destruct (label_bytes_spec out Ht) as (Htidy & Hlast & Hlen).
  assert (dnsLabel s = string_of_list_ascii (label_bytes out)) as Hs by done.
  assert (∀ l, tidy l → last l ≠ Some "-"%char → (length l ≤ 63)%nat → dnsLabel (string_of_list_ascii l) = string_of_list_ascii l) as Hid.
  { clear. intros l Htidy Hlast Hlen. unfold dnsLabel. f_equal.
    assert (plain (string_of_list_ascii l) = true) as Hp.
    { apply plain_bytes. rewrite bytes_of_string_of. eapply Forall_impl; [by apply td_bytes|].
      intros a Ha. apply label_byte_plain. by left. }
    rewrite trim_space_plain, to_lower_plain by done. unfold runes. rewrite bytes_of_string_of, pieces_ascii.
    + rewrite <-list_fmap_compose.
      rewrite (list_fmap_ext _ byte_val) by (intros; done).
      rewrite (label_loop_id l []); [|done|done]. cbn [app]. by apply label_bytes_id.
    + eapply Forall_impl; [by apply td_bytes|]. intros a. apply label_byte_ascii. }
  assert (dnsLabel s = ""%string ↔ Forall (λ r, lower_alnum r = false) t) as Hempty.
  { rewrite <- label_of_empty, Hs. unfold out. rewrite label_bytes_words. by destruct (label_of t). }
  split_and!.
  - rewrite Hs. f_equal. apply label_bytes_words.
  - by rewrite label_words_usable by constructor.
  - exact Hempty.
  - rewrite Hs. intros Hne. split_and!; [done| |].
    + rewrite len_bytes, bytes_of_string_of. lia.
    + rewrite bytes_of_string_of. by split; [apply td_bytes|split; [apply td_head|]].
  - rewrite Hs. by apply Hid.
  - intros (_ & Hl & Hb & Hh & Hla) Hapart. rewrite <- (string_of_list_ascii_of_string s) at 2.
    rewrite <- (Hid (list_ascii_of_string s)); [by rewrite string_of_list_ascii_of_string|by split|done|].
    rewrite len_bytes in Hl. lia.
  - unfold deviceName. destruct (decide _) as [He|He].
    + by rewrite (proj2 Hempty He).
    + rewrite (proj2 (String.eqb_neq _ _)) by (by intros ?%Hempty). done.
Qed.
