(* ===== verification/DeviceId.v ===== *)
(** * The identifier of a device (client/profile/profile.go)

    A device registers under an identifier of its own, made once and kept in a file, so that
    the server gives it the same address again. *)
From Stdlib Require Import Ascii String.
From S2P Require Import Prelude GoString GoStringFacts Netip NetipFacts Base64 Strconv.

Local Open Scope Z_scope.

(** What a call meets; a write that fails may leave something else in the file. *)
Record id_conditions : Type := MkIdConditions {
  ic_mkdir : bool;
  ic_readable : bool;
  ic_random : option (list Z);
  ic_write : option (option string);   (** [Some rest] fails; [rest] is what is in the file then *)
}.

Inductive id_error : Type := EIdDir | EIdRandom | EIdWrite.

(** The file and the result. *)
Definition deviceUUIDAt (e : id_conditions) (f : option string) : option string * result id_error string :=
  if negb (ic_mkdir e) then (f, Err EIdDir) else
  let fresh :=
    match ic_random e with
    | None => (f, Err EIdRandom)
    | Some buf =>
      match ic_write e with
      | Some rest => (rest, Err EIdWrite)
      | None => (Some (hex_encode buf), Ok (hex_encode buf))
      end
    end in
  match (if ic_readable e then f else None) with
  | Some b => let id := trim_space b in if (8 <=? String.length id)%nat then (f, Ok id) else fresh
  | None => fresh
  end.

(** The file as an identifier. *)
Definition holds_id (f : option string) (id : string) : Prop :=
  ∃ b, f = Some b ∧ trim_space b = id ∧ (8 ≤ String.length id)%nat.

Lemma hex_text b : Forall is_byte b → trim_space (hex_encode b) = hex_encode b.
Proof.
  intros Hb. apply trim_space_solid. eapply Forall_impl; [by apply hex_encode_chars|]. by intros a [? _].
Qed.

Lemma deviceUUIDAt_holds e f f' id :
  (∀ b, ic_random e = Some b → Forall is_byte b ∧ length b = 16%nat) →
  deviceUUIDAt e f = (f', Ok id) → holds_id f' id.
Proof.
  intros Hr. unfold deviceUUIDAt. destruct (ic_mkdir e); [|done]. cbn [negb].
  set (fresh := match ic_random e with None => _ | Some _ => _ end).
  assert (fresh = (f', Ok id) → holds_id f' id) as Hfresh.
  { unfold fresh. destruct (ic_random e) as [buf|]; [|done]. destruct (ic_write e); [done|]. intros [= <- <-].
    destruct (Hr buf eq_refl) as [Hb Hl]. eexists. split_and!; [done|by apply hex_text|].
    rewrite hex_encode_length, Hl. lia. }
  destruct (if ic_readable e then f else None) as [b|] eqn:Hf; [|done].
  destruct (Nat.leb_spec 8 (String.length (trim_space b))); [|done]. intros [= <- <-].
  exists b. destruct (ic_readable e); [|done]. by split_and!.
Qed.

Lemma deviceUUIDAt_kept e f id :
  ic_mkdir e = true → ic_readable e = true → holds_id f id → deviceUUIDAt e f = (f, Ok id).
Proof.
  intros Hm Hr (b & -> & Ht & Hl). unfold deviceUUIDAt. rewrite Hm, Hr. cbn [negb]. rewrite Ht.
  by rewrite (proj2 (Nat.leb_le _ _) Hl).
Qed.

(** A device keeps its identifier: once one was returned, every later call that can read the
    file returns it, however many there were and whatever randomness they were given. *)
Theorem device_id_stable e f f1 id es :
  (∀ b, ic_random e = Some b → Forall is_byte b ∧ length b = 16%nat) →
  deviceUUIDAt e f = (f1, Ok id) →
  Forall (λ e, ic_readable e = true) es →
  let f2 := foldl (λ f e, (deviceUUIDAt e f).1) f1 es in
  f2 = f1 ∧ ∀ e', ic_mkdir e' = true → ic_readable e' = true → deviceUUIDAt e' f2 = (f2, Ok id).
Proof.
  intros Hr Hd Hes f2. pose proof (deviceUUIDAt_holds e f f1 id Hr Hd) as Hh.
  assert (f2 = f1) as ->.
  { unfold f2. clear f2. induction Hes as [|e1 es He _ IH]; [done|]. cbn [foldl].
    destruct (ic_mkdir e1) eqn:Hm.
    - by rewrite (deviceUUIDAt_kept e1 f1 id).
    - unfold deviceUUIDAt at 2. by rewrite Hm. }
  split; [done|]. intros e' Hm' Hr'. by apply deviceUUIDAt_kept.
Qed.

Lemma device_id_stable_witness :
  deviceUUIDAt (MkIdConditions true true (Some (replicate 16 0)) None) (Some (hex_encode (replicate 16 255))) =
  (Some (hex_encode (replicate 16 255)), Ok (hex_encode (replicate 16 255))).
Proof.
  assert (∀ x, is_byte x → Forall is_byte (replicate 16 x)) as Hb by (intros x Hx; by apply Forall_replicate).
  destruct (device_id_stable (MkIdConditions true true (Some (replicate 16 255)) None) None
    (Some (hex_encode (replicate 16 255))) (hex_encode (replicate 16 255)) []) as [_ H].
  - intros b [= <-]. split; [apply (Hb 255); unfold is_byte; lia|reflexivity].
  - reflexivity.
  - constructor.
  - apply H; reflexivity.
Defined.
