(* ===== verification/Engine.v ===== *)
(** * One connection to a network (client/engine/engine.go)

    Naming the device, joining, and the refresh that runs every few seconds: peers and
    services are fetched, services of this device are published again, and the tunnel,
    the routes, the local names, the access policy and the service proxies are brought in
    line.  What the refresh asks of the control server, the adapter, the tunnel and the
    sockets is an oracle, [world]; its state, [run_state], is what the run loop keeps.
    Messages to the log are left out. *)
From Stdlib Require Import Ascii String.
From S2P Require Import Prelude Unicode GoString GoStringFacts Netip NetipFacts Proto Profile Resolver Translate VipTable VipDevice L4 Certpin Wg Relay DeviceName.

Local Open Scope Z_scope.

Record Config : Type := MkConfig {
  cfg_Server : string;
  cfg_Pin : string;
  cfg_Token : string;
  cfg_DeviceUUID : string;
  cfg_Name : string;
  cfg_UseRelay : bool;
  cfg_AdapterName : string;
  cfg_WGPort : Z;
  cfg_Endpoint : string;
  cfg_DNSAddr : string;
  cfg_DNS : bool;              (** a shared resolver is given *)
  cfg_ProductName : string;
  cfg_LocalPrefix : string;
  cfg_Alias : string;
  cfg_Publish : list Service;
}.

Record Status : Type := MkStatus {
  st_Connected : bool;
  st_Server : string;
  st_Pinned : bool;
  st_NetworkID : string;
  st_DNSSuffix : string;
  st_OverlayCIDR : string;
  st_AssignedIP : string;
  st_OverlayIP : string;
  st_LocalCIDR : string;
  st_RelayAddr : string;
  st_PublicKey : string;
  st_Via : string;
  st_Peers : list Peer;
  st_Services : list Service;
  st_Handshakes : gmap string bool;
}.

(** The zero [Status]; its last error is kept as a value by the engine. *)
Definition status_zero : Status :=
  MkStatus false "" false "" "" "" "" "" "" "" "" "" [] [] ∅.

(** ** Publishing again *)

(** [publish] is the control server's answer to a service. *)
Section republish.
Context (publish : Service → result string Service).

Fixpoint republish_loop (listed : gset string) (want have : list Service) (selfIP : string) : list Service :=
  match want with
  | [] => have
  | s :: want =>
    if bool_decide (sv_Name s ∈ listed) then republish_loop listed want have selfIP
    else match publish (set_service_ips s selfIP (sv_VIP s)) with
         | Err _ => republish_loop listed want have selfIP
         | Ok stored => republish_loop listed want (have ++ [stored]) selfIP
         end
  end.

Definition republish (want have : list Service) (selfIP : string) : list Service :=
  if (length want =? 0)%nat then have
  else republish_loop (list_to_set (sv_Name <$> have)) want have selfIP.
End republish.

Definition serviceAddr (s : Service) : string :=
  if String.eqb (sv_VIP s) "" then sv_NodeIP s else sv_VIP s.

(** ** The tunnel's peers *)

Definition cidrs (addrs : list string) : list string := (λ a, a +:+ "/32") <$> addrs.

(** The addresses of the services each node hosts. *)
Definition hosted_vips (svcs : list Service) : gmap string (list string) :=
  foldl (λ m sv, if String.eqb (sv_VIP sv) "" then m
                 else <[sv_NodeIP sv := default [] (m !! sv_NodeIP sv) ++ [sv_VIP sv]]> m) ∅ svcs.

(** The tunnel configuration of one peer; [None] for this device itself and for a peer
    without a usable key. *)
Definition wg_peer (cfg : Config) (selfIP : string) (hosted : gmap string (list string)) (p : Peer) : option wg_Peer :=
  if String.eqb (pr_AssignedIP p) selfIP || String.eqb (pr_PublicKey p) "" then None else
  hexKey ← PublicHexFromBase64 (pr_PublicKey p);
  Some (MkWgPeer hexKey (if cfg_UseRelay cfg then pr_AssignedIP p else pr_Endpoint p)
          ((pr_AssignedIP p +:+ "/32") :: cidrs (default [] (hosted !! pr_AssignedIP p)))).

Definition peerSig (peers : list wg_Peer) : string :=
  str_join (sort_strings
    ((λ p, w_PublicKeyHex p +:+ "|" +:+ w_Endpoint p +:+ "|" +:+ str_join (w_AllowedIPs p) ",") <$> peers)) ",".

(** [strings.TrimSuffix(s, "/32")]. *)
Definition trim_suffix (s suffix : string) : string :=
  if has_suffix s suffix then String.substring 0 (String.length s - String.length suffix) s else s.

(** [hs] is what the device reports, nothing when it fails. *)
Definition handshakeMap (hs : option (gmap string Z)) (peers : list wg_Peer) : gmap string bool :=
  match hs with
  | None => ∅
  | Some hs =>
    foldl (λ out p,
      match w_AllowedIPs p with
      | [] => out
      | a :: _ => <[trim_suffix a "/32" := 0 <? default 0 (hs !! w_PublicKeyHex p)]> out
      end) ∅ peers
  end.

(** ** Local names *)

Definition peer_record (suffix : string) (m : gmap string IP) (p : Peer) : gmap string IP :=
  if String.eqb (pr_Hostname p) "" then m
  else match ParseIP (pr_AssignedIP p) with
       | None => m
       | ip => <[to_lower (pr_Hostname p) +:+ "." +:+ suffix := ip]> m
       end.

Definition service_record (suffix : string) (m : gmap string IP) (s : Service) : gmap string IP :=
  let target := if String.eqb (sv_VIP s) "" then sv_NodeIP s else sv_VIP s in
  match ParseIP target with
  | None => m
  | ip => <[to_lower (sv_Name s) +:+ "." +:+ suffix := ip]> m
  end.

Definition dns_records (suffix : string) (peers : list Peer) (svcs : list Service) : gmap string IP :=
  foldl (service_record suffix) (foldl (peer_record suffix) ∅ peers) svcs.

(** The zone is the resolver the engine publishes to, when it has one. *)
Definition updateDNS (zone : option Resolver) (suffix : string) (peers : list Peer) (svcs : list Service)
  : option Resolver :=
  (λ r, SetZone r suffix (map_to_list (dns_records suffix peers svcs))) <$> zone.

(** ** Routes and proxies *)

(** What the adapter, the sockets and the tunnel answer. *)
Record world : Type := MkWorld {
  wo_peers : result string (list Peer);
  wo_services : result string (list Service);
  wo_publish : Service → result string Service;
  wo_route : string → bool;
  wo_setPeers : list wg_Peer → bool;
  wo_serviceIP : string → bool;
  wo_listen : bool → string → bool;   (** for UDP, on an address *)
  wo_handshakes : option (gmap string Z);
}.

Definition add_route (w : world) (routed : gset string) (ip : string) : gset string :=
  if bool_decide (ip ∈ routed) then routed
  else if wo_route w ip then {[ip]} ∪ routed else routed.

Fixpoint routeServices (w : world) (routed : gset string) (selfIP : string) (svcs : list Service) : gset string :=
  match svcs with
  | [] => routed
  | s :: svcs =>
    routeServices w
      (if String.eqb (sv_VIP s) "" || String.eqb (sv_NodeIP s) selfIP then routed
       else add_route w routed (sv_VIP s)) selfIP svcs
  end.

(** A running proxy: where it listens, over which protocol, where it forwards to, and the
    service whose access list it asks. *)
Record hostedService : Type := MkHosted {
  hs_listen : string;
  hs_udp : bool;
  hs_backend : string;
  hs_filter : string;
}.

(** The body of the loop of [manageHostProxies]. *)
Definition host_proxy (w : world) (running : gmap string hostedService) (selfIP : string) (s : Service)
  : gmap string hostedService :=
  if negb (String.eqb (sv_NodeIP s) selfIP) || (sv_BackendPort s =? 0) then running else
  match running !! sv_Name s with
  | Some _ => running
  | None =>
    let addr := if String.eqb (sv_VIP s) "" then selfIP else sv_VIP s in
    if negb (String.eqb (sv_VIP s) "") && negb (wo_serviceIP w addr) then running else
    let listen := addr +:+ ":" +:+ itoa (sv_Port s) in
    let udp := equal_fold (sv_Proto s) "udp" in
    if wo_listen w udp listen
    then <[sv_Name s := MkHosted listen udp ("127.0.0.1:" +:+ itoa (sv_BackendPort s)) (sv_Name s)]> running
    else running
  end.

Definition manageHostProxies (w : world) (running : gmap string hostedService) (selfIP : string)
  (svcs : list Service) : gmap string hostedService :=
  foldl (λ running s, host_proxy w running selfIP s) running svcs.

(** ** The refresh *)

(** [rs_asked] is what the tunnel's device was asked to set so far, latest first, and whether
    it did. *)
Record run_state : Type := MkRun {
  rs_routed : gset string;
  rs_proxies : gmap string hostedService;
  rs_access : AccessPolicy;
  rs_lastSig : string;
  rs_curPeers : list wg_Peer;
  rs_xlate : translator;
  rs_zone : option Resolver;
  rs_Peers : list Peer;
  rs_Services : list Service;
  rs_Handshakes : gmap string bool;
  rs_asked : list (list wg_Peer * bool);
}.

(** The loop over the peers: their tunnel configuration, and a route for each that has a
    local address. *)
Fixpoint peers_step (w : world) (cfg : Config) (selfIP : string) (hosted : gmap string (list string))
  (x : translator) (routed : gset string) (l : list Peer) : translator * gset string * list wg_Peer :=
  match l with
  | [] => (x, routed, [])
  | p :: l =>
    match wg_peer cfg selfIP hosted p with
    | None => peers_step w cfg selfIP hosted x routed l
    | Some wp =>
      let '(x, local) := xlate_local x (pr_AssignedIP p) in
      let routed := match local with None => routed | Some ip => add_route w routed ip end in
      let '(x, routed, wps) := peers_step w cfg selfIP hosted x routed l in
      (x, routed, wp :: wps)
    end
  end.

(** [apply], with its early returns, each leaving the state as far as it was changed. *)
Definition apply (w : world) (cfg : Config) (selfIP deviceIP suffix : string) (s : run_state) : run_state :=
  match wo_peers w with
  | Err _ => s
  | Ok peers =>
    let svcs := match wo_services w with Ok l => l | Err _ => [] end in
    let svcs := republish (wo_publish w) (cfg_Publish cfg) svcs selfIP in
    let '(x, routed, wps) := peers_step w cfg selfIP (hosted_vips svcs) (rs_xlate s) (rs_routed s) peers in
    let sig := peerSig wps in
    let changed := negb (String.eqb sig (rs_lastSig s)) in
    let ok := wo_setPeers w wps in
    let asked := if changed then (wps, ok) :: rs_asked s else rs_asked s in
    if changed && negb ok then
      MkRun routed (rs_proxies s) (rs_access s) (rs_lastSig s) (rs_curPeers s) x (rs_zone s)
        (rs_Peers s) (rs_Services s) (rs_Handshakes s) asked
    else
      let curPeers := if changed then wps else rs_curPeers s in
      let '(x, shownPeers) := xlate_peers x peers in
      let '(x, shownSvcs) := xlate_services x svcs in
      let routed := routeServices w routed deviceIP shownSvcs in
      let zone := updateDNS (rs_zone s) suffix shownPeers shownSvcs in
      let access := access_Set shownPeers shownSvcs in
      let proxies := manageHostProxies w (rs_proxies s) deviceIP shownSvcs in
      let '(x, hs) := xlate_handshakes x (map_to_list (handshakeMap (wo_handshakes w) curPeers)) in
      MkRun routed proxies access sig curPeers x zone shownPeers shownSvcs hs asked
  end.

(** What the deferred cleanup of [run] does to the names. *)
Definition cleanup (suffix : string) (s : run_state) : option Resolver :=
  (λ r, RemoveZone r suffix) <$> rs_zone s.

(** ** Starting and stopping *)

Inductive start_error : Type :=
| ERunning
| EClient (msg : string)
| EJoin (msg : string)
| ETranslator (e : translator_error)
| EAdapter
| EAssignedIP (ip : string)
| ELocalAddress (ip : string)
| EAssignIP (ip : string)
| ENoRelay
| EBind (e : bind_error)
| EWireGuard.

Record Engine : Type := MkEngine {
  en_stop : bool;                  (** the stop channel exists *)
  en_st : Status;
  en_err : option start_error;     (** [st.LastError] *)
}.

Definition New : Engine := MkEngine false status_zero None.

(** What the control server, the system and the tunnel answer while an engine starts: the
    client's address and pin, the registration with the node's public key, whether the
    adapter could be made and given an address, the tunnel brought up over a relay or
    directly on a port, and the resolver's
    socket bound. *)
Record start_world : Type := MkStartWorld {
  sw_client : string → string → result string (string * string);
  sw_join : string → string → string → string → result string (RegisterResponse * string);
  sw_hostname : string;
  sw_create : string → bool;
  sw_setIP : string → bool;
  sw_up : option Bind → Z → bool;
  sw_dnsListen : string → bool;
}.

(** What is done to the adapter, in order, and whether it succeeded; a tunnel is over a relay
    or, with no bind of it, direct. *)
Inductive adapter_event : Type :=
| AdapterCreated (name : string)
| NodeIPSet (ip : string) (ok : bool)
| TunnelStarted (relay : option Bind) (port : Z) (ok : bool)
| AdapterClosed.

Definition with_defaults (cfg : Config) : Config :=
  MkConfig (cfg_Server cfg) (cfg_Pin cfg) (cfg_Token cfg) (cfg_DeviceUUID cfg) (cfg_Name cfg) (cfg_UseRelay cfg)
    (cfg_AdapterName cfg) (if cfg_WGPort cfg =? 0 then 51820 else cfg_WGPort cfg) (cfg_Endpoint cfg) (cfg_DNSAddr cfg)
    (cfg_DNS cfg) (if String.eqb (cfg_ProductName cfg) "" then "zwan" else cfg_ProductName cfg)
    (cfg_LocalPrefix cfg) (cfg_Alias cfg) (cfg_Publish cfg).

(** How a start ends: with the error that stopped it, or with the translator and the
    address of the device. *)
Definition start_fail (st : Status) (ev : list adapter_event) (e : start_error)
  : Engine * list adapter_event * result start_error (translator * string) :=
  (MkEngine false st (Some e), ev, Err e).

(** The paths that return without recording the error. *)
Definition start_fail_quietly (st : Status) (ev : list adapter_event) (e : start_error)
  : Engine * list adapter_event * result start_error (translator * string) :=
  (MkEngine false st None, ev, Err e).

(** The address the adapter carries; the outer option is a panic. *)
Definition device_address (x : translator) (assigned : string) : option (result start_error (translator * string)) :=
  match x with
  | None => Some (Ok (None, assigned))
  | Some t =>
    match ParseAddr assigned with
    | None => Some (Err (EAssignedIP assigned))
    | Some selfAddr =>
      '(t, r) ← Wrap t selfAddr;
      Some (match r with
            | None => Err (ELocalAddress assigned)
            | Some (_, local) => Ok (Some t, addr_String local)
            end)
    end
  end.

(** [wg.Up] over a bind. *)
Definition wg_Up (w : start_world) (cfg : Config) (relay : option Bind) : list adapter_event * option (start_error * bool) :=
  let ok := sw_up w relay (cfg_WGPort cfg) in
  ([TunnelStarted relay (cfg_WGPort cfg) ok], if ok then None else Some (EWireGuard, true)).

(** The tunnel, over the relay or direct: what was done, its error and whether that is
    recorded. *)
Definition tunnel_up (w : start_world) (cfg : Config) (rs : RegisterResponse)
  : list adapter_event * option (start_error * bool) :=
  if cfg_UseRelay cfg then
    if String.eqb (rs_RelayAddr rs) "" then ([], Some (ENoRelay, false)) else
    match ParseAddr (rs_AssignedIP rs) with
    | None => ([], Some (EAssignedIP (rs_AssignedIP rs), false))
    | Some selfIP =>
      match NewRelay (rs_RelayAddr rs) selfIP with
      | Err e => ([], Some (EBind e, false))
      | Ok bind => wg_Up w cfg (Some bind)
      end
    end
  else wg_Up w cfg None.

Definition zone_suffix (cfg : Config) (rs : RegisterResponse) : string :=
  let suffix := to_lower (trim_byte "." (trim_space (cfg_Alias cfg))) in
  if String.eqb suffix "" then rs_DNSSuffix rs else suffix.

Definition Start (w : start_world) (e : Engine) (cfg : Config)
  : option (Engine * list adapter_event * result start_error (translator * string)) :=
  if en_stop e then Some (e, [], Err ERunning) else
  let cfg := with_defaults cfg in
  let st := status_zero in
  match sw_client w (cfg_Server cfg) (cfg_Pin cfg) with
  | Err m => Some (start_fail st [] (EClient m))
  | Ok (base, pin) =>
    let endpoint := if String.eqb (cfg_Endpoint cfg) "" then "127.0.0.1:" +:+ itoa (cfg_WGPort cfg)
                    else cfg_Endpoint cfg in
    match sw_join w (cfg_Token cfg) (cfg_DeviceUUID cfg) (deviceName (cfg_Name cfg) (sw_hostname w)) endpoint with
    | Err m => Some (start_fail st [] (EJoin m))
    | Ok (rs, pub) =>
      let adapterName := if String.eqb (cfg_AdapterName cfg) "" then cfg_ProductName cfg +:+ "-" +:+ rs_NetworkID rs
                         else cfg_AdapterName cfg in
      xr ← newTranslator (cfg_LocalPrefix cfg) (rs_OverlayCIDR rs);
      match xr with
      | Err te => Some (start_fail st [] (ETranslator te))
      | Ok x =>
        if negb (sw_create w adapterName) then Some (start_fail st [] EAdapter) else
        let made := [AdapterCreated adapterName] in
        dr ← device_address x (rs_AssignedIP rs);
        match dr with
        | Err de => Some (start_fail st (made ++ [AdapterClosed]) de)
        | Ok (x, deviceIP) =>
          let ok := sw_setIP w deviceIP in
          let made := made ++ [NodeIPSet deviceIP ok] in
          if negb ok then Some (start_fail st (made ++ [AdapterClosed]) (EAssignIP deviceIP)) else
          let '(tried, up) := tunnel_up w cfg rs in
          let made := made ++ tried in
          match up with
          | Some (te, true) => Some (start_fail st (made ++ [AdapterClosed]) te)
          | Some (te, false) => Some (start_fail_quietly st (made ++ [AdapterClosed]) te)
          | None =>
            let st := MkStatus true base (negb (String.eqb pin "")) (rs_NetworkID rs) (zone_suffix cfg rs)
              (rs_OverlayCIDR rs) deviceIP (rs_AssignedIP rs) (xlate_cidr x) (rs_RelayAddr rs) pub
              (if cfg_UseRelay cfg then "relay" else "direct") [] [] ∅ in
            Some (MkEngine true st None, made, Ok (x, deviceIP))
          end
        end
      end
    end
  end.

Definition set_connected (st : Status) (b : bool) : Status :=
  MkStatus b (st_Server st) (st_Pinned st) (st_NetworkID st) (st_DNSSuffix st) (st_OverlayCIDR st)
    (st_AssignedIP st) (st_OverlayIP st) (st_LocalCIDR st) (st_RelayAddr st) (st_PublicKey st) (st_Via st)
    (st_Peers st) (st_Services st) (st_Handshakes st).

(** [Stop], which waits for the cleanup. *)
Definition Stop (e : Engine) : Engine :=
  if en_stop e then MkEngine false (set_connected (en_st e) false) (en_err e) else e.

(** ** Publishing *)

Lemma republish_spec publish want have selfIP :
  ∃ added, republish publish want have selfIP = have ++ added ∧
    (∀ q, q ∈ added → ∃ s, s ∈ want ∧ (sv_Name s ∉ sv_Name <$> have) ∧
       publish (set_service_ips s selfIP (sv_VIP s)) = Ok q) ∧
    (∀ s q, s ∈ want → (sv_Name s ∉ sv_Name <$> have) →
       publish (set_service_ips s selfIP (sv_VIP s)) = Ok q → q ∈ added).
Proof.
  unfold republish. destruct want as [|w0 want0]; cbn [length Nat.eqb].
  { exists []. split_and!; [by rewrite app_nil_r|by intros q ?%not_elem_of_nil|by intros s q ?%not_elem_of_nil]. }
  generalize (w0 :: want0). clear w0 want0. intros want.
  assert (∀ n, n ∈ (list_to_set (sv_Name <$> have) : gset string) ↔ n ∈ sv_Name <$> have) as Hset
    by (intros n; apply elem_of_list_to_set).
  revert Hset. generalize (list_to_set (sv_Name <$> have) : gset string). intros listed Hset.
  setoid_rewrite <-Hset. clear Hset. revert have.
  induction want as [|s want IH]; intros have; cbn [republish_loop].
  { exists []. split_and!; [by rewrite app_nil_r|by intros q ?%not_elem_of_nil|by intros s q ?%not_elem_of_nil]. }
  case_bool_decide as Hl.
  - destruct (IH have) as (added & -> & H1 & H2). exists added. split_and!; [done| |].
    + intros q Hq. destruct (H1 q Hq) as (s' & ? & ?). exists s'. split; [by apply list_elem_of_further|done].
    + intros s' q [->|Hs]%elem_of_cons Hn; [done|]. by apply H2.
  - destruct (publish (set_service_ips s selfIP (sv_VIP s))) as [stored|e] eqn:Hp.
    + destruct (IH (have ++ [stored])) as (added & -> & H1 & H2). exists (stored :: added).
      rewrite <-(assoc_L app). split_and!; [done| |].
      * intros q [->|Hq]%elem_of_cons; [exists s; split; [apply list_elem_of_here|done]|].
        destruct (H1 q Hq) as (s' & ? & ?). exists s'. split; [by apply list_elem_of_further|done].
      * intros s' q [->|Hs]%elem_of_cons Hn Hq; [|by apply list_elem_of_further, (H2 s')].
        rewrite Hp in Hq. injection Hq as ->. apply list_elem_of_here.
    + destruct (IH have) as (added & -> & H1 & H2). exists added. split_and!; [done| |].
      * intros q Hq. destruct (H1 q Hq) as (s' & ? & ?). exists s'. split; [by apply list_elem_of_further|done].
      * intros s' q [->|Hs]%elem_of_cons Hn Hq; [congruence|]. by apply (H2 s').
Qed.

(** ** Starting *)

Lemma Wrap_spec t self :
  table_ok t →
  ∃ t' r, Wrap t self = Some (t', r) ∧ table_ok t' ∧ grows t t' ∧
    ∀ d local, r = Some (d, local) → t_toLocal t' !! addr_Unmap self = Some local.
Proof.
  intros Ht. unfold Wrap. destruct (Local_spec t (addr_Unmap self) Ht) as (t' & o & -> & Ht' & Hg & Ho).
  cbn [mbind option_bind]. rewrite addr_Unmap_idemp in Ho. destruct o as [l|].
  - eexists _, _. split_and!; [done|done|done|]. intros d local [= _ <-]. apply Ho.
  - eexists _, _. split_and!; [done|done|done|]. done.
Qed.

(** A parsed prefix of IPv4 addresses is in range. *)
Lemma ParsePrefix_parsed s p : ParsePrefix s = Some p → parsed_prefix p.
Proof.
  intros Hp v Hv. unfold ParsePrefix in Hp. destruct (cut_last "/" s) as [[l r]|]; [|done].
  destruct (ParseAddr l) as [a|] eqn:Ha; [|done].
  assert (∀ b, p = PrefixFrom a b → a = Addr4 v) as Hpa.
  { intros b ->. destruct a; [done|..]; unfold PrefixFrom in Hv; cbn in Hv; congruence. }
  destruct a as [|w|w z].
  - destruct (prefix_bits r) as [b|]; [|done]. destruct (b <=? 32); [|done]. injection Hp as <-. done.
  - destruct (prefix_bits r) as [b|]; [|done]. destruct (Z.leb_spec b 32); [|done]. injection Hp as <-.
    specialize (Hpa b eq_refl). injection Hpa as ->. split; [by eapply ParseAddr_4|].
    unfold PrefixFrom. cbn [p_bits]. destruct (_ && _); lia.
  - destruct (String.eqb z ""); [|done]. destruct (prefix_bits r) as [b|]; [|done].
    destruct (b <=? 128); [|done]. injection Hp as <-. by specialize (Hpa b eq_refl).
Qed.

Lemma newTranslator_spec local overlay :
  ∃ r, newTranslator local overlay = Some r ∧
    ∀ x, r = Ok x → xlate_ok x ∧ (xlate_on x = false ↔ local = ""%string).
Proof.
  unfold newTranslator. destruct (String.eqb_spec local "") as [->|Hne].
  { eexists. split; [done|]. by intros x [= <-]. }
  destruct (ParsePrefix local) as [l|] eqn:Hl; [|by eexists].
  destruct (ParsePrefix overlay) as [o|] eqn:Ho; [|by eexists].
  destruct (NewTable_spec l o (ParsePrefix_parsed _ _ Hl) (ParsePrefix_parsed _ _ Ho)) as (r & -> & Hr).
  cbn [mbind option_bind]. eexists. split; [done|]. destruct r as [t|e]; intros x [= <-].
  split; [apply Hr|done].
Qed.

Lemma device_address_spec x assigned :
  xlate_ok x →
  ∃ r, device_address x assigned = Some r ∧
    ∀ y ip, r = Ok (y, ip) →
      xlate_ok y ∧ xgrows x y ∧ (x = None → y = None ∧ ip = assigned) ∧ (x ≠ None → restates y assigned ip).
Proof.
  intros Hx. destruct x as [t|]; cbn [device_address].
  2:{ eexists. split; [done|]. by intros y ip [= <- <-]. }
  destruct (ParseAddr assigned) as [a|] eqn:Ha; [|by eexists].
  destruct (Wrap_spec t a Hx) as (t' & r & -> & Ht' & Hg & Hr). cbn [mbind option_bind].
  eexists. split; [done|]. destruct r as [[d local]|]; [|done]. intros y ip [= <- <-].
  split_and!; [done|done|done|]. intros _. exists a, local. by split_and!; [|eapply Hr|].
Qed.

(** What is done between making an adapter and taking it away again. *)
Definition used (ev : adapter_event) : Prop :=
  match ev with NodeIPSet _ _ | TunnelStarted _ _ _ => True | AdapterCreated _ | AdapterClosed => False end.

Lemma tunnel_up_spec w cfg rs :
  let '(tried, up) := tunnel_up w cfg rs in
  Forall used tried ∧
  (up = None → ∃ relay, tried = [TunnelStarted relay (cfg_WGPort cfg) true] ∧
     match relay with
     | None => cfg_UseRelay cfg = false
     | Some b => cfg_UseRelay cfg = true ∧ rs_RelayAddr rs ≠ ""%string ∧ ParseAddr (rs_AssignedIP rs) = Some (b_selfIP b)
     end).
Proof.
  assert (∀ relay, let '(tried, up) := wg_Up w cfg relay in Forall used tried ∧
    (up = None → tried = [TunnelStarted relay (cfg_WGPort cfg) true])) as Hup.
  { intros relay. unfold wg_Up. cbv zeta. split; [by repeat constructor|]. by destruct (sw_up w relay _). }
  unfold tunnel_up. destruct (cfg_UseRelay cfg).
  - destruct (String.eqb_spec (rs_RelayAddr rs) ""); [by split|]. destruct (ParseAddr _) as [self|] eqn:Hself; [|by split].
    destruct (NewRelay _ self) as [bind|e] eqn:Hb; [|by split].
    specialize (Hup (Some bind)). destruct (wg_Up w cfg (Some bind)) as [tried up]. destruct Hup as [Hu He].
    split; [done|]. intros Hn. exists (Some bind). split; [by apply He|]. split_and!; [done|done|]. f_equal.
    unfold NewRelay in Hb. destruct (ParseAddrPort _); [|done]. destruct (negb _); [done|]. by injection Hb as <-.
  - specialize (Hup None). destruct (wg_Up w cfg None) as [tried up]. destruct Hup as [Hu He].
    split; [done|]. intros Hn. exists None. by split; [apply He|].
Qed.

