(* ===== verification/EngineNames.v ===== *)
(** * The names of a network resolve (client/engine/engine.go with client/resolver)

    What [updateDNS] writes into the zone of a network is what the resolver answers. *)
From Stdlib Require Import Ascii String.
From S2P Require Import Prelude Unicode GoString GoStringFacts Netip NetipFacts Proto Profile Resolver Translate VipTable VipDevice L4 Certpin Wg Relay DeviceName Engine.

Local Open Scope Z_scope.

(** ** Names resolve *)

Lemma fold_opt_insert {T V} (f : T → option (string * V)) (l : list T) (m : gmap string V) :
  foldl (λ m x, match f x with Some kv => <[kv.1 := kv.2]> m | None => m end) m l =
  foldl (λ m kv, <[kv.1 := kv.2]> m) m (omap f l).
Proof.
  revert m. induction l as [|x l IH]; intros m; [done|]. cbn [foldl omap list_omap].
  destruct (f x) as [[k v]|]; [cbn [foldl]|]; apply IH.
Qed.

Definition full_name (suffix name : string) : string := to_lower name +:+ "." +:+ suffix.

(** What a peer and a service add to the zone. *)
Definition peer_kv (suffix : string) (p : Peer) : option (string * IP) :=
  if String.eqb (pr_Hostname p) "" then None
  else a ← ParseIP (pr_AssignedIP p); Some (full_name suffix (pr_Hostname p), Some a).

Definition service_kv (suffix : string) (s : Service) : option (string * IP) :=
  a ← ParseIP (serviceAddr s); Some (full_name suffix (sv_Name s), Some a).

Lemma service_record_kv suffix (m : gmap string IP) s :
  service_record suffix m s = match service_kv suffix s with Some kv => <[kv.1 := kv.2]> m | None => m end.
Proof. unfold service_record, service_kv, serviceAddr. by destruct (ParseIP _). Qed.

Lemma peer_record_kv suffix (m : gmap string IP) p :
  peer_record suffix m p = match peer_kv suffix p with Some kv => <[kv.1 := kv.2]> m | None => m end.
Proof. unfold peer_record, peer_kv. destruct (String.eqb _ _); [done|]. by destruct (ParseIP _). Qed.

Lemma foldl_ext_eq {A B} (f g : A → B → A) (l : list B) a : (∀ a b, f a b = g a b) → foldl f a l = foldl g a l.
Proof. intros H. revert a. induction l as [|b l IH]; intros a; [done|]. cbn [foldl]. by rewrite H, IH. Qed.

Lemma dns_records_lists suffix peers svcs :
  dns_records suffix peers svcs =
  foldl (λ m kv, <[kv.1 := kv.2]> m) (foldl (λ m kv, <[kv.1 := kv.2]> m) ∅ (omap (peer_kv suffix) peers))
    (omap (service_kv suffix) svcs).
Proof.
  unfold dns_records. rewrite <-!fold_opt_insert.
  rewrite (foldl_ext_eq (peer_record suffix) _ peers _ (peer_record_kv suffix)).
  by apply foldl_ext_eq, service_record_kv.
Qed.

Lemma string_app_inj s t u : s +:+ u = t +:+ u → s = t.
Proof.
  intros H. apply (f_equal list_ascii_of_string) in H. rewrite !list_ascii_app in H. apply app_inv_tail in H.
  by rewrite <-(string_of_list_ascii_of_string s), H, string_of_list_ascii_of_string.
Qed.

Lemma NoDup_kv {T} (f : T → option (string * IP)) (name : T → string) suffix (l : list T) :
  (∀ x kv, f x = Some kv → kv.1 = full_name suffix (name x)) →
  NoDup ((to_lower ∘ name) <$> l) → NoDup (omap f l).*1.
Proof.
  intros Hf. induction l as [|x l IH]; [constructor|]. cbn [fmap list_fmap omap list_omap].
  rewrite NoDup_cons. intros [Hx Hnd]. destruct (f x) as [kv|] eqn:Hkv; [|by apply IH].
  cbn [fmap list_fmap]. constructor; [|by apply IH].
  intros (kv' & Heq & (y & Hy & Hfy)%list_elem_of_omap)%list_elem_of_fmap. apply Hx.
  rewrite (Hf _ _ Hkv), (Hf _ _ Hfy) in Heq. apply string_app_inj in Heq.
  apply list_elem_of_fmap. by exists y.
Qed.

Lemma dns_label_dot l : dns_label l → has_byte "." l = false.
Proof.
  intros (_ & _ & Hb & _). induction l as [|a l IH]; [done|]. cbn [list_ascii_of_string] in Hb.
  inversion_clear Hb as [|?? Ha Hb']. cbn [has_byte]. rewrite IH by done.
  destruct (Ascii.eqb_spec a ".") as [->|]; [done|done].
Qed.

Lemma full_name_normal suffix name :
  dns_label (to_lower name) → Forall dns_label (split_byte "." suffix) →
  normalize (full_name suffix name) = full_name suffix name.
Proof.
  intros Hn Hs. apply labels_normal. unfold full_name.
  change ("." +:+ suffix) with (String "." suffix). rewrite split_byte_app by (by apply dns_label_dot).
  by constructor.
Qed.

(** The zone holds the records as they were written when all names are normal. *)
Lemma zone_of_records (m : gmap string IP) :
  (∀ k, is_Some (m !! k) → normalize k = k) → zone_of_list (map_to_list m) = m.
Proof.
  intros Hk. apply map_eq. intros i. unfold zone_of_list.
  assert (∀ kv, kv ∈ map_to_list m → normalize kv.1 = kv.1) as Hn.
  { intros [k v] Hin%elem_of_map_to_list. apply Hk. eauto. }
  assert (NoDup ((λ kv : string * IP, normalize kv.1) <$> map_to_list m)) as Hnd.
  { rewrite (list_fmap_ext _ fst); [apply NoDup_fst_map_to_list|].
    intros j kv Hj. apply Hn, list_elem_of_lookup. eauto. }
  pose proof (fold_insert_Some (λ kv : string * IP, normalize kv.1) snd (map_to_list m) i) as Hf.
  apply option_eq. intros v. rewrite Hf by done. split.
  - intros ([k v'] & Hin & Hki & <-). pose proof (Hn _ Hin) as Hk'. cbn [fst snd] in *.
    apply elem_of_map_to_list in Hin. congruence.
  - intros Hv. exists (i, v). rewrite elem_of_map_to_list. split_and!; [done|cbn [fst]; apply Hk; eauto|done].
Qed.

Lemma dns_records_keys suffix peers svcs k :
  is_Some (dns_records suffix peers svcs !! k) →
  (∃ p, p ∈ peers ∧ pr_Hostname p ≠ ""%string ∧ k = full_name suffix (pr_Hostname p)) ∨
  (∃ s, s ∈ svcs ∧ k = full_name suffix (sv_Name s)).
Proof.
  rewrite dns_records_lists.
  assert (∀ (l : list (string * IP)) (m : gmap string IP),
    is_Some (foldl (λ m kv, <[kv.1 := kv.2]> m) m l !! k) → is_Some (m !! k) ∨ k ∈ l.*1) as Hfold.
  { induction l as [|kv l IH]; intros m; [by left|]. cbn [foldl fmap list_fmap]. intros [Hm|Hin]%IH.
    - destruct (decide (kv.1 = k)) as [->|Hne]; [right; apply list_elem_of_here|].
      rewrite lookup_insert_ne in Hm by done. by left.
    - right. by apply list_elem_of_further. }
  intros [[Hm|Hin]%Hfold|Hin]%Hfold.
  - rewrite lookup_empty in Hm. by destruct Hm.
  - left. apply list_elem_of_fmap in Hin as (kv & -> & (p & Hp & Hf)%list_elem_of_omap). exists p.
    unfold peer_kv in Hf. destruct (String.eqb_spec (pr_Hostname p) ""); [done|].
    destruct (ParseIP _); [|done]. by injection Hf as <-.
  - right. apply list_elem_of_fmap in Hin as (kv & -> & (s & Hs & Hf)%list_elem_of_omap). exists s.
    unfold service_kv in Hf. destruct (ParseIP _); [|done]. by injection Hf as <-.
Qed.

Section names.
Context (r : Resolver) (suffix : string) (peers : list Peer) (svcs : list Service).
Context (Hsuffix : Forall dns_label (split_byte "." suffix)).
Context (Hhosts : ∀ p, p ∈ peers → pr_Hostname p ≠ ""%string → dns_label (to_lower (pr_Hostname p))).
Context (Hnames : ∀ s, s ∈ svcs → dns_label (to_lower (sv_Name s))).

Lemma dns_zone : zone_of_list (map_to_list (dns_records suffix peers svcs)) = dns_records suffix peers svcs.
Proof using All.
  apply zone_of_records. intros k [(p & ? & ? & ->)|(s & ? & ->)]%dns_records_keys; apply full_name_normal; auto.
Qed.

Lemma suffix_normal : normalize suffix = suffix ∧ suffix ≠ ""%string.
Proof using Hsuffix.
  split; [by apply labels_normal|]. intros E. rewrite E in Hsuffix.
  inversion_clear Hsuffix as [|?? [? _] _]. done.
Qed.

Lemma covered_full n : covered (full_name suffix n) suffix = true.
Proof using Type.
  unfold covered, full_name. apply orb_true_iff. right.
  induction (to_lower n) as [|a s IH].
  - rewrite string_app_nil_l. destruct ("." +:+ suffix) as [|a s]; [done|]. cbn [has_suffix]. by rewrite String.eqb_refl.
  - rewrite string_app_cons. cbn [has_suffix]. by rewrite IH, orb_true_r.
Qed.

(** C29: After a refresh every service resolves under its own name to its own address, or to
    its host's when it has none, and every peer to its address unless a service has taken
    its name. *)
Theorem services_resolve :
  NoDup ((to_lower ∘ sv_Name) <$> svcs) → NoDup ((to_lower ∘ pr_Hostname) <$> peers) →
  ∀ r', updateDNS (Some r) suffix peers svcs = Some r' →
  (∀ s a, s ∈ svcs → ParseIP (serviceAddr s) = Some a →
     resolves r' (full_name suffix (sv_Name s)) (Some a)) ∧
  (∀ p a, p ∈ peers → pr_Hostname p ≠ ""%string → ParseIP (pr_AssignedIP p) = Some a →
     (∀ s, s ∈ svcs → to_lower (sv_Name s) ≠ to_lower (pr_Hostname p)) →
     resolves r' (full_name suffix (pr_Hostname p)) (Some a)).
Proof using Hsuffix Hhosts Hnames.
  intros Hs Hp r' Hr'. cbn in Hr'. injection Hr' as <-. destruct suffix_normal as [Hnorm Hne].
  assert (∀ n ip, dns_records suffix peers svcs !! full_name suffix n = Some ip →
    resolves (SetZone r suffix (map_to_list (dns_records suffix peers svcs))) (full_name suffix n) ip) as Hres.
  { intros n ip Hl. exists suffix, (dns_records suffix peers svcs).
    rewrite zones_SetZone, Hnorm, (proj2 (String.eqb_neq _ _) Hne), dns_zone, lookup_insert_eq.
    split_and!; [done|apply covered_full|done]. }
  assert (NoDup (omap (service_kv suffix) svcs).*1) as Hsk.
  { eapply (NoDup_kv _ sv_Name); [|exact Hs]. intros s kv. unfold service_kv.
    destruct (ParseIP _); [|done]. by intros [= <-]. }
  assert (NoDup (omap (peer_kv suffix) peers).*1) as Hpk.
  { eapply (NoDup_kv _ pr_Hostname); [|exact Hp]. intros p kv. unfold peer_kv.
    destruct (String.eqb _ _); [done|]. destruct (ParseIP _); [|done]. by intros [= <-]. }
  split.
  - intros s a Hin Ha. apply Hres. rewrite dns_records_lists.
    destruct (fold_insert_lookup fst snd (omap (service_kv suffix) svcs)
      (foldl (λ m kv, <[kv.1 := kv.2]> m) ∅ (omap (peer_kv suffix) peers)) (full_name suffix (sv_Name s)) Hsk) as [H _].
    apply (H (full_name suffix (sv_Name s), Some a)); [|done].
    apply list_elem_of_omap. exists s. split; [done|]. unfold service_kv. by rewrite Ha.
  - intros p a Hin Hhost Ha Hfree. apply Hres. rewrite dns_records_lists.
    destruct (fold_insert_lookup fst snd (omap (service_kv suffix) svcs)
      (foldl (λ m kv, <[kv.1 := kv.2]> m) ∅ (omap (peer_kv suffix) peers)) (full_name suffix (pr_Hostname p)) Hsk) as [_ H].
    rewrite H.
    + destruct (fold_insert_lookup fst snd (omap (peer_kv suffix) peers) (∅ : gmap string IP)
        (full_name suffix (pr_Hostname p)) Hpk) as [H' _].
      apply (H' (full_name suffix (pr_Hostname p), Some a)); [|done].
      apply list_elem_of_omap. exists p. split; [done|]. unfold peer_kv.
      by rewrite (proj2 (String.eqb_neq _ _) Hhost), Ha.
    + intros kv (s & Hs' & Hf)%list_elem_of_omap Heq. apply (Hfree s Hs'). unfold service_kv in Hf.
      destruct (ParseIP (serviceAddr s)) as [a'|]; [|done]. cbn [mbind option_bind] in Hf. injection Hf as <-. cbn [fst] in Heq. by apply string_app_inj in Heq.
Qed.
End names.
