(* ===== verification/PeerSig.v ===== *)
(** * The signature of a tunnel's peers (client/engine/engine.go: peerSig)

    The engine sets a tunnel's peers again only when their signature has changed.  As long as
    keys, endpoints and addresses hold neither of the two separators, one signature stands for
    one set of peers. *)
From Stdlib Require Import Ascii String.
From S2P Require Import Prelude Unicode GoString GoStringFacts Netip NetipFacts Proto Base64 Certpin Keys Wg Engine.

Local Open Scope Z_scope.

Definition plain_field (s : string) : Prop := has_byte "|" s = false ∧ has_byte "," s = false.

Definition plain_peer (p : wg_Peer) : Prop :=
  plain_field (w_PublicKeyHex p) ∧ plain_field (w_Endpoint p) ∧ w_AllowedIPs p ≠ [] ∧ Forall plain_field (w_AllowedIPs p).

Definition sig_part (p : wg_Peer) : string :=
  w_PublicKeyHex p +:+ "|" +:+ w_Endpoint p +:+ "|" +:+ str_join (w_AllowedIPs p) ",".

Lemma peerSig_parts peers : peerSig peers = str_join (sort_strings (sig_part <$> peers)) ",".
Proof. done. Qed.

(** ** Joined lists *)

(** The pieces of a text with a separator. *)
Lemma split_cons c s r : split_byte c (s +:+ String c r) = split_byte c s ++ split_byte c r.
Proof.
  induction s as [|a s IH]; [change ("" +:+ ?x) with x; cbn [split_byte]; by rewrite Ascii.eqb_refl|]. rewrite string_app_cons. cbn [split_byte].
  rewrite IH. destruct (Ascii.eqb a c); [done|]. pose proof (split_byte_ne c s). by destruct (split_byte c s).
Qed.

Lemma split_pieces c s l :
  split_byte c (str_join (s :: l) (String c "")) = mjoin (split_byte c <$> (s :: l)).
Proof.
  revert s. induction l as [|s' l IH]; intros s; [by cbn; rewrite app_nil_r|].
  change (str_join (s :: s' :: l) (String c "")) with (s +:+ String c (str_join (s' :: l) (String c ""))).
  by rewrite split_cons, IH.
Qed.

Lemma join_split c s : str_join (split_byte c s) (String c "") = s.
Proof.
  induction s as [|a s IH]; [done|]. cbn [split_byte]. pose proof (split_byte_ne c s).
  destruct (split_byte c s) as [|x xs] eqn:Hs; [done|]. destruct (Ascii.eqb_spec a c) as [->|_].
  - change (str_join ("" :: x :: xs) (String c "")) with (String c (str_join (x :: xs) (String c ""))). by rewrite IH.
  - rewrite <- IH. by destruct xs.
Qed.

(** Lists of groups, each of a first element with a mark and further ones without. *)
Lemma groups_inj {A} (mark : A → Prop) (g1 g2 : list (list A)) :
  let group l := ∃ x l', l = x :: l' ∧ mark x ∧ Forall (λ y, ¬ mark y) l' in
  Forall group g1 → Forall group g2 → mjoin g1 = mjoin g2 → g1 = g2.
Proof.
  intros group H1. revert g2. induction H1 as [|l1 g1 (x & l & -> & Hx & Hl) Hg1 IH]; intros g2 H2 He.
  { destruct H2 as [|? ? (y & k & -> & _)]; [done|]. done. }
  destruct H2 as [|l2 g2 (y & k & -> & Hy & Hk) Hg2]; [done|].
  change (x :: (l ++ mjoin g1) = y :: (k ++ mjoin g2)) in He. injection He as <- He.
  assert (∀ g, Forall group g → head (mjoin g) = None ∨ ∃ z, head (mjoin g) = Some z ∧ mark z) as Hhead.
  { intros g [|? ? (z & ? & -> & Hz & _)]; [by left|right]. by exists z. }
  assert (l = k ∧ mjoin g1 = mjoin g2) as [-> Hj].
  2:{ f_equal. by apply IH. }
  clear IH Hx Hy. revert k Hk He. induction Hl as [|a l Ha Hl IH]; intros k Hk He.
  - destruct Hk as [|b k Hb _]; [done|]. exfalso. change (mjoin g1 = b :: (k ++ mjoin g2)) in He.
    destruct (Hhead g1 Hg1) as [Hn|(z & Hz & Hm)]; [by rewrite He in Hn|]. rewrite He in Hz. cbn in Hz. by injection Hz as ->.
  - destruct Hk as [|b k Hb Hk].
    + exfalso. change (a :: (l ++ mjoin g1) = mjoin g2) in He. destruct (Hhead g2 Hg2) as [Hn|(z & Hz & Hm)]; [by rewrite <- He in Hn|]. rewrite <- He in Hz. cbn in Hz. by injection Hz as ->.
    + change (a :: (l ++ mjoin g1) = b :: (k ++ mjoin g2)) in He. injection He as <- He. destruct (IH k Hk He) as [-> ?]. done.
Qed.

(** ** One signature, one set of peers *)

Lemma part_pieces p : plain_peer p →
  ∃ x l, split_byte "," (sig_part p) = x :: l ∧ has_byte "|" x = true ∧ Forall (λ y, has_byte "|" y = false) l.
Proof.
  intros ([Hk1 Hk2] & [He1 He2] & Hne & Hall). destruct (w_AllowedIPs p) as [|ip ips] eqn:Hips; [done|].
  inversion_clear Hall as [|? ? [Hi1 Hi2] Hall']. unfold sig_part. rewrite Hips.
  assert (has_byte "," (w_PublicKeyHex p +:+ "|" +:+ w_Endpoint p +:+ "|" +:+ ip) = false) as Hx
    by (rewrite !has_byte_app, Hk2, He2, Hi2; done).
  assert (Forall (λ y, has_byte "," y = false) ips) as Hips2 by (eapply Forall_impl; [exact Hall'|]; by intros ? []).
  exists (w_PublicKeyHex p +:+ "|" +:+ w_Endpoint p +:+ "|" +:+ ip), ips. split_and!.
  - destruct ips as [|ip' ips]; [by apply split_byte_none|].
    change (str_join (ip :: ip' :: ips) ",") with (ip +:+ String "," (str_join (ip' :: ips) ",")).
    rewrite <- !string_app_assoc in Hx |- *. rewrite <- (string_app_assoc _ ip). rewrite split_byte_app by exact Hx. f_equal; [by rewrite !string_app_assoc|]. by apply split_join.
  - rewrite !has_byte_app. cbn. by rewrite orb_true_r.
  - eapply Forall_impl; [exact Hall'|]. by intros ? [].
Qed.

Lemma part_inj p q : plain_peer p → plain_peer q → sig_part p = sig_part q → p = q.
Proof.
  intros ([Hk1 _] & [He1 _] & Hne & Hall) ([Hk1' _] & [He1' _] & Hne' & Hall') He.
  destruct p as [k e ips], q as [k' e' ips']. cbn [w_PublicKeyHex w_Endpoint w_AllowedIPs] in *.
  unfold sig_part in He. cbn [w_PublicKeyHex w_Endpoint w_AllowedIPs] in He.
  change ("|" +:+ ?s) with (String "|" s) in He.
  assert (∀ a r a' r', has_byte "|" a = false → has_byte "|" a' = false →
    a +:+ String "|" r = a' +:+ String "|" r' → a = a' ∧ r = r') as Hcut.
  { intros a r a' r' Ha Ha' Heq. apply (f_equal (cut "|")) in Heq. rewrite !cut_byte in Heq by done. by injection Heq. }
  apply Hcut in He as [-> He]; [|done|done]. apply Hcut in He as [-> He]; [|done|done]. f_equal.
  apply (f_equal (split_byte ",")) in He.
  rewrite !split_join in He; [done|..]; try done; (eapply Forall_impl; [eassumption|]); by intros ? [].
Qed.

Theorem peerSig_inj l1 l2 :
  Forall plain_peer l1 → Forall plain_peer l2 → peerSig l1 = peerSig l2 → l1 ≡ₚ l2.
Proof.
  intros H1 H2. rewrite !peerSig_parts. set (s1 := sort_strings (sig_part <$> l1)). set (s2 := sort_strings (sig_part <$> l2)).
  assert (s1 ≡ₚ sig_part <$> l1) as P1 by apply merge_sort_Permutation.
  assert (s2 ≡ₚ sig_part <$> l2) as P2 by apply merge_sort_Permutation.
  assert (∀ l s, Forall plain_peer l → s ≡ₚ sig_part <$> l →
    Forall (λ g, ∃ x r, g = x :: r ∧ has_byte "|" x = true ∧ Forall (λ y, ¬ has_byte "|" y = true) r) (split_byte "," <$> s)) as Hgroups.
  { intros l s Hl ->. rewrite !Forall_fmap. eapply Forall_impl; [exact Hl|].
    intros p (x & r & Hx & ? & Hr)%part_pieces. exists x, r. split_and!; [exact Hx|done|].
    eapply Forall_impl; [exact Hr|]. cbn. congruence. }
  pose proof (Hgroups l1 s1 H1 P1) as G1. pose proof (Hgroups l2 s2 H2 P2) as G2. clear Hgroups.
  intros He. assert (s1 = s2) as Hs.
  { assert (∀ s t l, Forall (λ g, ∃ x r, g = x :: r ∧ has_byte "|" x = true ∧ Forall (λ y, ¬ has_byte "|" y = true) r)
      (split_byte "," <$> (t :: l)) → s = str_join (t :: l) "," → s ≠ ""%string) as Hne.
    { intros s t l Hg -> E. apply (f_equal (split_byte ",")) in E. rewrite split_pieces in E.
      inversion_clear Hg as [|? ? (x & r & Hx & Hm & _) _]. cbn [fmap list_fmap mjoin list_join] in E. rewrite Hx in E.
      cbn in E. injection E as -> _. done. }
    destruct s1 as [|t1 k1], s2 as [|t2 k2]; [done| | |].
    - by destruct (Hne "" t2 k2 G2 He).
    - by destruct (Hne "" t1 k1 G1 (eq_sym He)).
    - apply (f_equal (split_byte ",")) in He. rewrite !split_pieces in He.
      apply (groups_inj (λ y, has_byte "|" y = true)) in He; [|done|done].
      apply (f_equal (fmap (λ g, str_join g ","))) in He. rewrite <- !list_fmap_compose in He.
      rewrite !(list_fmap_ext ((λ g, str_join g ",") ∘ split_byte ",") id) in He by (intros; apply join_split).
      by rewrite !list_fmap_id in He. }
  assert (sig_part <$> l1 ≡ₚ sig_part <$> l2) as HP by (by rewrite <- P1, <- P2, Hs).
  apply Permutation_map_inv in HP as (l3 & Hl3 & P3). rewrite P3. clear Hs P1 P2 G1 G2 He s1 s2.
  rewrite P3 in H2. clear P3 l2. enough (l1 = l3) as -> by done. revert l3 Hl3 H2.
  induction H1 as [|p l1 Hp _ IH]; intros [|q l3]; [done..|]. cbn [map fmap list_fmap]. intros [= Hpq Hl3].
  intros Hall. inversion_clear Hall as [|? ? Hq Hl]. f_equal; [by apply part_inj|by apply IH].
Qed.
