(* ===== verification/EngineRefresh.v ===== *)
(** * The refresh of a connection (client/engine/engine.go)

    What one refresh does to the tunnel, and what holds through every sequence of
    refreshes. *)
From Stdlib Require Import Ascii String.
From S2P Require Import Prelude Unicode GoString GoStringFacts Netip NetipFacts Proto Profile Resolver Translate VipTable VipDevice L4 Base64 Certpin Keys Wg Relay DeviceName Engine PeerSig.

Local Open Scope Z_scope.

(** ** The refresh *)

Lemma hosted_vips_spec svcs ip a :
  a ∈ default [] (hosted_vips svcs !! ip) ↔
    ∃ s, s ∈ svcs ∧ sv_NodeIP s = ip ∧ sv_VIP s = a ∧ a ≠ ""%string.
Proof.
  unfold hosted_vips. induction svcs as [|s svcs IH] using rev_ind.
  { cbn. rewrite lookup_empty. split; [by intros ?%not_elem_of_nil|by intros (? & ?%not_elem_of_nil & _)]. }
  rewrite foldl_snoc. setoid_rewrite elem_of_app. setoid_rewrite list_elem_of_singleton.
  destruct (String.eqb_spec (sv_VIP s) "") as [Hv|Hv].
  - rewrite IH. split; [intros (s' & ? & ?); exists s'; auto|].
    intros (s' & [?| ->] & Hn & Ha & Hne); [exists s'; auto|]. congruence.
  - destruct (decide (sv_NodeIP s = ip)) as [Hip|Hip].
    + rewrite Hip, lookup_insert_eq. cbn [default from_option id]. rewrite elem_of_app, list_elem_of_singleton, IH. split.
      * intros [(s' & ? & ?)| ->]; [exists s'; auto|]. exists s. auto.
      * intros (s' & [?| ->] & Hn & Ha & Hne); [left; exists s'; auto|by right].
    + rewrite lookup_insert_ne by done. rewrite IH. split; [intros (s' & ? & ?); exists s'; auto|].
      intros (s' & [?| ->] & Hn & Ha & Hne); [exists s'; auto|done].
Qed.

Lemma peers_step_spec w cfg selfIP hosted x routed l :
  xlate_ok x →
  let '(y, routed', wps) := peers_step w cfg selfIP hosted x routed l in
  xlate_ok y ∧ xgrows x y ∧ routed ⊆ routed' ∧ wps = omap (wg_peer cfg selfIP hosted) l.
Proof.
  revert x routed. induction l as [|p l IH]; intros x routed Hx; cbn [peers_step omap list_omap].
  { by split_and!. }
  destruct (wg_peer cfg selfIP hosted p) as [wp|]; [|by apply IH].
  destruct (xlate_local_spec x (pr_AssignedIP p) Hx) as (y & o & -> & Hy & Hg & _).
  specialize (IH y (match o with None => routed | Some ip => add_route w routed ip end) Hy).
  destruct (peers_step w cfg selfIP hosted y _ l) as [[z routed'] wps].
  destruct IH as (Hz & Hg' & Hr & ->). split_and!; [done|by etrans| |done].
  etrans; [|exact Hr]. destruct o as [ip|]; [|done]. unfold add_route.
  case_bool_decide; [done|]. destruct (wo_route w ip); set_solver.
Qed.

(** What the tunnel is given for a refresh. *)
Definition refresh_services (w : world) (cfg : Config) (selfIP : string) : list Service :=
  republish (wo_publish w) (cfg_Publish cfg)
    (match wo_services w with Ok l => l | Err _ => [] end) selfIP.

Definition refresh_peers (w : world) (cfg : Config) (selfIP : string) (peers : list Peer) : list wg_Peer :=
  omap (wg_peer cfg selfIP (hosted_vips (refresh_services w cfg selfIP))) peers.

Lemma apply_cases w cfg selfIP deviceIP suffix s :
  xlate_ok (rs_xlate s) →
  let s' := apply w cfg selfIP deviceIP suffix s in
  xlate_ok (rs_xlate s') ∧ xgrows (rs_xlate s) (rs_xlate s') ∧
  match wo_peers w with
  | Err _ => s' = s
  | Ok peers =>
    let wps := refresh_peers w cfg selfIP peers in
    (peerSig wps ≠ rs_lastSig s ∧ wo_setPeers w wps = false ∧ rs_asked s' = (wps, false) :: rs_asked s ∧
       rs_curPeers s' = rs_curPeers s ∧
       rs_lastSig s' = rs_lastSig s ∧ rs_proxies s' = rs_proxies s ∧ rs_access s' = rs_access s ∧
       rs_Peers s' = rs_Peers s ∧ rs_Services s' = rs_Services s ∧ rs_zone s' = rs_zone s) ∨
    (rs_lastSig s' = peerSig wps ∧
       (if decide (peerSig wps = rs_lastSig s) then rs_curPeers s' = rs_curPeers s ∧ rs_asked s' = rs_asked s
        else rs_curPeers s' = wps ∧ rs_asked s' = (wps, true) :: rs_asked s ∧ wo_setPeers w wps = true) ∧
       (∃ x1 x2, xgrows (rs_xlate s) x1 ∧ xgrows (rs_xlate s) x2 ∧ rs_Peers s' = (xlate_peers x1 peers).2 ∧
          rs_Services s' = (xlate_services x2 (refresh_services w cfg selfIP)).2) ∧
       rs_access s' = access_Set (rs_Peers s') (rs_Services s') ∧
       rs_zone s' = updateDNS (rs_zone s) suffix (rs_Peers s') (rs_Services s') ∧
       rs_proxies s' = manageHostProxies w (rs_proxies s) deviceIP (rs_Services s'))
  end.
Proof.
  intros Hx. unfold apply. destruct (wo_peers w) as [peers|e]; [|by split_and!].
  cbv zeta. fold (refresh_services w cfg selfIP).
  pose proof (peers_step_spec w cfg selfIP (hosted_vips (refresh_services w cfg selfIP)) (rs_xlate s) (rs_routed s) peers Hx) as Hps.
  destruct (peers_step _ _ _ _ _ _ _) as [[x1 routed] wps]. destruct Hps as (Hx1 & Hg1 & _ & ->).
  fold (refresh_peers w cfg selfIP peers). set (wps := refresh_peers w cfg selfIP peers).
  set (changed := negb (String.eqb (peerSig wps) (rs_lastSig s))).
  destruct (changed && negb (wo_setPeers w wps)) eqn:Hfail.
  { apply andb_true_iff in Hfail as [Hne Hset]. rewrite Hne. apply negb_true_iff in Hne, Hset. apply String.eqb_neq in Hne.
    rewrite Hset. split_and!; [done|done|]. left. by split_and!. }
  assert (xlate_ok (xlate_peers x1 peers).1 ∧ xgrows x1 (xlate_peers x1 peers).1) as [Hx2 Hg2].
  { unfold xlate_peers. destruct (xlate_on x1); [|by split].
    pose proof (peers_loop_spec x1 peers Hx1) as Hp. destruct (peers_loop x1 peers). tauto. }
  destruct (xlate_peers x1 peers) as [x2 shownPeers] eqn:Hsp. cbn [fst] in *.
  assert (xlate_ok (xlate_services x2 (refresh_services w cfg selfIP)).1 ∧
          xgrows x2 (xlate_services x2 (refresh_services w cfg selfIP)).1) as [Hx3 Hg3].
  { unfold xlate_services. destruct (xlate_on x2); [|by split].
    pose proof (services_loop_spec x2 (refresh_services w cfg selfIP) Hx2) as Hp. destruct (services_loop x2 _). tauto. }
  destruct (xlate_services x2 _) as [x3 shownSvcs] eqn:Hss. cbn [fst] in *.
  set (curPeers := if changed then wps else rs_curPeers s).
  assert (∀ l, xlate_ok (xlate_handshakes x3 l).1 ∧ xgrows x3 (xlate_handshakes x3 l).1) as Hh.
  { intros l. unfold xlate_handshakes. destruct (xlate_on x3); [|by split].
    assert (∀ l x (out : gmap string bool), xlate_ok x →
      xlate_ok (handshakes_loop x l out).1 ∧ xgrows x (handshakes_loop x l out).1) as Hl; [|by apply Hl].
    clear. induction l as [|[o up] l IH]; intros x out Hx; cbn [handshakes_loop]; [by split|].
    destruct (xlate_local_spec x o Hx) as (y & ol & -> & Hy & Hg & _).
    destruct (IH y (match ol with Some local => <[local := up]> out | None => out end) Hy). split; [done|by etrans]. }
  specialize (Hh (map_to_list (handshakeMap (wo_handshakes w) curPeers))).
  destruct (xlate_handshakes x3 _) as [x4 hs]. cbn [fst] in Hh. destruct Hh as [Hx4 Hg4].
  cbn [rs_xlate rs_lastSig rs_curPeers rs_access rs_Peers rs_Services rs_zone rs_proxies].
  split_and!; [done|by do 3 (etrans; [eassumption|])|]. right. split_and!; [done| | |done|done|done].
  - unfold curPeers, changed in *. cbn [rs_asked]. destruct (decide _) as [->|Hne]; [by rewrite String.eqb_refl|].
    rewrite (proj2 (String.eqb_neq _ _) Hne) in Hfail |- *. cbn [negb andb] in *. apply negb_false_iff in Hfail.
    by rewrite Hfail.
  - exists x1, x2. rewrite Hsp, Hss. split_and!; [done|by etrans|done|done].
Qed.

Lemma wg_peer_some cfg self svcs p wp :
  wg_peer cfg self (hosted_vips svcs) p = Some wp →
  pr_AssignedIP p ≠ self ∧ PublicHexFromBase64 (pr_PublicKey p) = Some (w_PublicKeyHex wp) ∧
  w_Endpoint wp = (if cfg_UseRelay cfg then pr_AssignedIP p else pr_Endpoint p) ∧
  ∀ ip, ip ∈ w_AllowedIPs wp ↔ ip = pr_AssignedIP p +:+ "/32" ∨
    ∃ sv, sv ∈ svcs ∧ sv_NodeIP sv = pr_AssignedIP p ∧ sv_VIP sv ≠ ""%string ∧ ip = sv_VIP sv +:+ "/32".
Proof.
  unfold wg_peer. destruct (String.eqb_spec (pr_AssignedIP p) self) as [|Hself]; [done|]. cbn [orb].
  destruct (String.eqb _ _); [done|]. destruct (PublicHexFromBase64 _) as [hex|]; [|done].
  cbn [mbind option_bind]. intros [= <-]. split_and!; [done|done|done|]. intros ip. cbn [w_AllowedIPs].
  rewrite elem_of_cons. unfold cidrs. rewrite list_elem_of_fmap. setoid_rewrite hosted_vips_spec. split.
  - intros [?|(a & -> & (sv & ? & ? & <- & ?))]; [by left|right; by exists sv].
  - intros [?|(sv & ? & ? & ? & ->)]; [by left|right]. exists (sv_VIP sv). split; [done|by exists sv].
Qed.

(** ** Runs *)

(** The states of one run of the loop, with the services shown so far; [P] is what the server
    and the system may answer. *)
Definition run_start (x : translator) (zone : option Resolver) : run_state :=
  MkRun ∅ ∅ (MkAccess ∅ ∅) "" [] x zone [] [] ∅ [].

Inductive run_reach (P : world → Prop) (cfg : Config) (selfIP deviceIP suffix : string) (s0 : run_state)
  : list (list Service) → run_state → Prop :=
| reach_start : run_reach P cfg selfIP deviceIP suffix s0 [] s0
| reach_apply w shown s :
    P w → run_reach P cfg selfIP deviceIP suffix s0 shown s →
    run_reach P cfg selfIP deviceIP suffix s0 (rs_Services (apply w cfg selfIP deviceIP suffix s) :: shown)
      (apply w cfg selfIP deviceIP suffix s).

Lemma reach_xlate P cfg selfIP deviceIP suffix x zone shown s :
  xlate_ok x → run_reach P cfg selfIP deviceIP suffix (run_start x zone) shown s →
  xlate_ok (rs_xlate s) ∧ xgrows x (rs_xlate s).
Proof.
  intros Hx Hr. induction Hr as [|w shown s _ Hr [IH1 IH2]]; [by split|].
  destruct (apply_cases w cfg selfIP deviceIP suffix s IH1) as (H1 & H2 & _). split; [done|by etrans].
Qed.

(** ** The tunnel *)

(** The peers the device was last given and took; none to begin with. *)
Fixpoint installed (asked : list (list wg_Peer * bool)) : list wg_Peer :=
  match asked with
  | [] => []
  | (wps, true) :: _ => wps
  | (_, false) :: asked => installed asked
  end.

(** A server whose texts hold neither of the signature's separators. *)
Definition plain_listing (cfg : Config) (selfIP : string) (w : world) : Prop :=
  ∀ peers, wo_peers w = Ok peers →
    Forall (λ p, plain_field (pr_AssignedIP p) ∧ plain_field (pr_Endpoint p)) peers ∧
    Forall (λ sv, plain_field (sv_VIP sv)) (refresh_services w cfg selfIP).

Lemma plain_key s hex : PublicHexFromBase64 s = Some hex → plain_field hex.
Proof.
  rewrite PublicHexFromBase64_parse. destruct (ParsePublic s) as [p|] eqn:Hp; [|done]. intros [= <-].
  destruct (ParsePublic_digest _ _ Hp) as [Hb _]. split; by apply hex_encode_digits.
Qed.

Lemma plain_field_app s t : plain_field s → plain_field t → plain_field (s +:+ t).
Proof. intros [H1 H2] [H3 H4]. by split; rewrite has_byte_app, ?H1, ?H2, ?H3, ?H4. Qed.

Lemma plain_refresh cfg selfIP w peers :
  plain_listing cfg selfIP w → wo_peers w = Ok peers → Forall plain_peer (refresh_peers w cfg selfIP peers).
Proof.
  intros Hw Hp. destruct (Hw peers Hp) as [Hpeers Hsvcs]. rewrite Forall_forall in Hpeers. rewrite Forall_forall in Hsvcs.
  apply Forall_forall. intros wp (p & Hin & Hwp)%list_elem_of_omap. destruct (Hpeers p Hin) as [Ha He].
  destruct (wg_peer_some _ _ _ _ _ Hwp) as (_ & Hk & Hep & Hal). split_and!.
  - by eapply plain_key.
  - rewrite Hep. by destruct (cfg_UseRelay cfg).
  - intros Hnil. assert (pr_AssignedIP p +:+ "/32" ∈ w_AllowedIPs wp) as Hx by (apply Hal; by left).
    rewrite Hnil in Hx. by apply elem_of_nil in Hx.
  - apply Forall_forall. intros ip [->|(sv & Hsv & _ & _ & ->)]%Hal; apply plain_field_app; [done|done|by apply Hsvcs|done].
Qed.

(** What the run believes of the tunnel is so. *)
Lemma reach_installed cfg selfIP deviceIP suffix x zone shown s :
  xlate_ok x → run_reach (plain_listing cfg selfIP) cfg selfIP deviceIP suffix (run_start x zone) shown s →
  rs_curPeers s = installed (rs_asked s) ∧ rs_lastSig s = peerSig (rs_curPeers s) ∧ Forall plain_peer (rs_curPeers s).
Proof.
  intros Hx Hr. induction Hr as [|w shown s Hw Hr IH]; [by split_and!|].
  destruct (reach_xlate _ _ _ _ _ _ _ _ _ Hx Hr) as [Hxs _]. destruct IH as (IH1 & IH2 & IH3).
  destruct (apply_cases w cfg selfIP deviceIP suffix s Hxs) as (_ & _ & Hc).
  destruct (wo_peers w) as [peers|e] eqn:Hp; [|by rewrite Hc].
  destruct Hc as [(_ & _ & -> & -> & -> & _)|(-> & Hc & _)]; [by split_and!|].
  destruct (decide _) as [E|_].
  - destruct Hc as [-> ->]. split_and!; [done|congruence|done].
  - destruct Hc as (-> & -> & _). split_and!; [done|done|by apply (plain_refresh cfg selfIP w)].
Qed.


(** ** The proxies *)

(** A proxy as [manageHostProxies] starts one: for a service of this device with a
    backend, on the service's address or the device's, to the loopback interface only. *)
Definition proxy_for (deviceIP : string) (s : Service) (h : hostedService) : Prop :=
  sv_NodeIP s = deviceIP ∧ sv_BackendPort s ≠ 0 ∧ hs_filter h = sv_Name s ∧ hs_udp h = equal_fold (sv_Proto s) "udp" ∧
  hs_backend h = "127.0.0.1:" +:+ itoa (sv_BackendPort s) ∧
  hs_listen h = (if String.eqb (sv_VIP s) "" then deviceIP else sv_VIP s) +:+ ":" +:+ itoa (sv_Port s).

(** What started one: the service's address could be added, and listened on. *)
Definition proxy_started (w : world) (s : Service) (h : hostedService) : Prop :=
  (sv_VIP s = ""%string ∨ wo_serviceIP w (sv_VIP s) = true) ∧ wo_listen w (hs_udp h) (hs_listen h) = true.

Definition proxy_refused (w : world) (deviceIP : string) (s : Service) : Prop :=
  (sv_VIP s ≠ ""%string ∧ wo_serviceIP w (sv_VIP s) = false) ∨
  wo_listen w (equal_fold (sv_Proto s) "udp")
    ((if String.eqb (sv_VIP s) "" then deviceIP else sv_VIP s) +:+ ":" +:+ itoa (sv_Port s)) = false.

Lemma host_proxy_spec w running deviceIP s :
  let running' := host_proxy w running deviceIP s in
  running ⊆ running' ∧
  (∀ n h, running' !! n = Some h → running !! n = None → sv_Name s = n ∧ proxy_for deviceIP s h ∧ proxy_started w s h) ∧
  (sv_NodeIP s = deviceIP → sv_BackendPort s ≠ 0 → is_Some (running' !! sv_Name s) ∨ proxy_refused w deviceIP s).
Proof.
  intros running'. unfold running', host_proxy, proxy_refused.
  destruct (String.eqb_spec (sv_NodeIP s) deviceIP) as [Hn|Hn]; cbn [negb orb].
  2:{ split_and!; [done|intros; congruence|]. intros H _. by destruct Hn. }
  destruct (Z.eqb_spec (sv_BackendPort s) 0) as [Hb|Hb]; [split_and!; [done|intros; congruence|]; intros _ H; by destruct H|].
  destruct (running !! sv_Name s) as [h|] eqn:Hr; [split_and!; [done|intros; congruence|]; intros _ _; left; by rewrite Hr|].
  set (addr := if String.eqb (sv_VIP s) "" then deviceIP else sv_VIP s).
  destruct (negb (String.eqb (sv_VIP s) "") && negb (wo_serviceIP w addr)) eqn:Hip.
  { apply andb_true_iff in Hip as [Hv%negb_true_iff Hs%negb_true_iff]. unfold addr in Hs. rewrite Hv in Hs. apply String.eqb_neq in Hv.
    split_and!; [done|intros; congruence|]. intros _ _. right. by left. }
  destruct (wo_listen w _ _) eqn:Hl; [|split_and!; [done|intros; congruence|intros _ _; right; by right]].
  split_and!; [by apply insert_subseteq| |intros _ _; left; by rewrite lookup_insert_eq].
  intros n h [[<- <-]|[_ Hh]]%lookup_insert_Some Hnn; [|congruence]. split_and!; [done|by split_and!|]. split; [|done].
  destruct (String.eqb_spec (sv_VIP s) "") as [|Hv]; [by left|right]. cbn [negb andb] in Hip. by apply negb_false_iff in Hip.
Qed.

Lemma manageHostProxies_spec w running deviceIP svcs :
  let running' := manageHostProxies w running deviceIP svcs in
  running ⊆ running' ∧
  (∀ n h, running' !! n = Some h → running !! n = None →
     ∃ s, s ∈ svcs ∧ sv_Name s = n ∧ proxy_for deviceIP s h ∧ proxy_started w s h) ∧
  (∀ s, s ∈ svcs → sv_NodeIP s = deviceIP → sv_BackendPort s ≠ 0 → is_Some (running' !! sv_Name s) ∨ proxy_refused w deviceIP s).
Proof.
  unfold manageHostProxies. revert running. induction svcs as [|s svcs IH]; intros running; cbn [foldl].
  { split_and!; [done|congruence|by intros ? ?%elem_of_nil]. }
  destruct (host_proxy_spec w running deviceIP s) as (H1 & H2 & H3). destruct (IH (host_proxy w running deviceIP s)) as (I1 & I2 & I3).
  split_and!.
  - by etrans.
  - intros n h Hh Hn. destruct (host_proxy w running deviceIP s !! n) as [h'|] eqn:Hp.
    + assert (h' = h) as -> by (apply (lookup_weaken _ _ _ _ Hp) in I1; congruence).
      destruct (H2 n h Hp Hn) as (? & ? & ?). exists s. split_and!; [by left|done..].
    + destruct (I2 n h Hh Hp) as (s' & ? & ?). exists s'. split; [by right|done].
  - intros s' [->|Hs]%elem_of_cons Hn Hb; [|by apply I3]. destruct (H3 Hn Hb) as [[h Hh]|]; [left|by right].
    exists h. by eapply lookup_weaken.
Qed.

(** A refresh that is not cut short. *)
Definition completes (w : world) (cfg : Config) (selfIP : string) (s : run_state) : Prop :=
  ∃ peers, wo_peers w = Ok peers ∧
    (peerSig (refresh_peers w cfg selfIP peers) = rs_lastSig s ∨ wo_setPeers w (refresh_peers w cfg selfIP peers) = true).

(** C30: Through every sequence of refreshes, whatever the server and the system answer: the
    proxies consult the access policy of the peers and services shown last; a proxy that runs
    was started for a service that some refresh showed as this device's, on its address and
    over its protocol, and forwards to the loopback interface only; it keeps running, and local
    addresses already given stay.  A refresh that is not cut short shows what the server listed,
    publishes its names, and starts a proxy for every service shown as this device's, unless its
    address is refused. *)
Theorem run_consistent cfg selfIP deviceIP suffix x zone shown s :
  xlate_ok x → run_reach (λ _, True) cfg selfIP deviceIP suffix (run_start x zone) shown s →
  rs_access s = access_Set (rs_Peers s) (rs_Services s) ∧
  (∀ n h, rs_proxies s !! n = Some h →
     ∃ svcs sv, svcs ∈ shown ∧ sv ∈ svcs ∧ sv_Name sv = n ∧ proxy_for deviceIP sv h) ∧
  xlate_ok (rs_xlate s) ∧ xgrows x (rs_xlate s) ∧
  ∀ w, let s' := apply w cfg selfIP deviceIP suffix s in
    rs_proxies s ⊆ rs_proxies s' ∧
    (∀ n h, rs_proxies s' !! n = Some h → rs_proxies s !! n = None →
       ∃ sv, sv ∈ rs_Services s' ∧ sv_Name sv = n ∧ proxy_for deviceIP sv h ∧ proxy_started w sv h) ∧
    (completes w cfg selfIP s →
       (∃ peers x1 x2, wo_peers w = Ok peers ∧ xgrows x x1 ∧ xgrows x x2 ∧ rs_Peers s' = (xlate_peers x1 peers).2 ∧
          rs_Services s' = (xlate_services x2 (refresh_services w cfg selfIP)).2) ∧
       rs_zone s' = updateDNS (rs_zone s) suffix (rs_Peers s') (rs_Services s') ∧
       ∀ sv, sv ∈ rs_Services s' → sv_NodeIP sv = deviceIP → sv_BackendPort sv ≠ 0 →
         is_Some (rs_proxies s' !! sv_Name sv) ∨ proxy_refused w deviceIP sv).
Proof.
  intros Hx Hr. destruct (reach_xlate _ _ _ _ _ _ _ _ _ Hx Hr) as [Hxs Hg].
  assert (∀ w s, xlate_ok (rs_xlate s) → let s' := apply w cfg selfIP deviceIP suffix s in
    rs_proxies s ⊆ rs_proxies s' ∧
    (∀ n h, rs_proxies s' !! n = Some h → rs_proxies s !! n = None →
       ∃ sv, sv ∈ rs_Services s' ∧ sv_Name sv = n ∧ proxy_for deviceIP sv h ∧ proxy_started w sv h)) as Hstep.
  { clear. intros w s Hxs s'. destruct (apply_cases w cfg selfIP deviceIP suffix s Hxs) as (_ & _ & Hc). fold s' in Hc.
    destruct (wo_peers w) as [peers|e]; [|rewrite Hc; split; [done|congruence]].
    destruct Hc as [(_ & _ & _ & _ & _ & -> & _)|(_ & _ & _ & _ & _ & ->)]; [split; [done|congruence]|].
    destruct (manageHostProxies_spec w (rs_proxies s) deviceIP (rs_Services s')) as (H1 & H2 & _). by split. }
  split_and!; [| |done|done|].
  - clear Hxs Hg Hstep. induction Hr as [|w shown s _ Hr IH]; [done|].
    destruct (reach_xlate _ _ _ _ _ _ _ _ _ Hx Hr) as [Hxs _].
    destruct (apply_cases w cfg selfIP deviceIP suffix s Hxs) as (_ & _ & Hc).
    destruct (wo_peers w) as [peers|e]; [|by rewrite Hc].
    by destruct Hc as [(_ & _ & _ & _ & _ & _ & -> & -> & -> & _)|(_ & _ & _ & -> & _)].
  - clear Hxs Hg. induction Hr as [|w shown s _ Hr IH]; [done|].
    destruct (reach_xlate _ _ _ _ _ _ _ _ _ Hx Hr) as [Hxs _]. destruct (Hstep w s Hxs) as [_ Hnew].
    intros n h Hh. destruct (rs_proxies s !! n) as [h'|] eqn:Hn.
    + destruct (Hstep w s Hxs) as [Hsub _]. assert (h' = h) as -> by (apply (lookup_weaken _ _ _ _ Hn) in Hsub; congruence).
      destruct (IH n h Hn) as (svcs & sv & ? & ?). exists svcs, sv. split; [by right|done].
    + destruct (Hnew n h Hh Hn) as (sv & ? & ? & ? & _). eexists _, sv. split; [by left|done].
  - intros w s'. destruct (Hstep w s Hxs) as [H1 H2]. split_and!; [done|done|]. intros (peers & Hp & Hc).
    destruct (apply_cases w cfg selfIP deviceIP suffix s Hxs) as (_ & _ & Hcase). rewrite Hp in Hcase. fold s' in Hcase.
    destruct Hcase as [(Hne & Hf & _)|(_ & _ & (x1 & x2 & G1 & G2 & Hsp & Hss) & _ & Hz & Hpr)].
    { destruct Hc as [Hc|Hc]; [done|congruence]. }
    split_and!; [|done|].
    + exists peers, x1, x2. split_and!; [done|by etrans|by etrans|done|done].
    + rewrite Hpr. apply manageHostProxies_spec.
Qed.

(** Leaving a network stops its names; the proxies' listeners are not part of the cleanup. *)
Lemma cleanup_names suffix s r name :
  normalize suffix = suffix → cleanup suffix s = Some r → covered name suffix = true →
  (∀ z s', rs_zone s = Some z → is_Some (r_zones z !! s') → covered name s' = true → s' = suffix) →
  ¬ owned r name.
Proof.
  unfold cleanup. intros Hn Hz Hc Hu. destruct (rs_zone s) as [z|]; [|done]. cbn in Hz. injection Hz as <-.
  intros (s' & Hs' & Hc'). cbn [RemoveZone r_zones] in Hs'. rewrite Hn in Hs'.
  destruct (decide (s' = suffix)) as [->|Hne]; [rewrite lookup_delete_eq in Hs'; by destruct Hs'|].
  rewrite lookup_delete_ne in Hs' by done. by apply Hne, (Hu z).
Qed.
