(* ===== verification/Manager.v ===== *)
(** * The networks a device has joined (client/manager/manager.go)

    The manager keeps an engine for every live network, gives each its own local address
    range and port, and remembers the networks on disk.  Engines are numbered; starting one
    is an oracle.  [Connect] lets go of its lock while the engine starts, so its parts are
    separate definitions and [Connect] is their composition when nothing comes between. *)
From Stdlib Require Import Ascii String.
From S2P Require Import Prelude GoString GoStringFacts Netip NetipFacts Ipam Proto Profile VipTable Engine.

Local Open Scope Z_scope.

Definition DefaultBasePort : Z := 51820.
Definition DefaultLocalPool : string := "100.112.0.0/12".
Definition DefaultLocalBits : Z := 16.

Record Config : Type := MkConfig {
  mc_DNSAddr : string;
  mc_ProductName : string;
  mc_DeviceUUID : string;
  mc_BasePort : Z;
  mc_LocalPool : string;
  mc_LocalBits : Z;
  mc_NoTranslate : bool;
}.

(** [e_eng] is the running engine, if there is one. *)
Record entry : Type := MkEntry { e_eng : option N; e_port : Z; e_prefix : Prefix }.

(** [m_dns] tells whether the shared resolver runs. *)
Record Manager : Type := MkManager {
  m_cfg : Config;
  m_dns : bool;
  m_nets : gmap string entry;
  m_saved : list Network;
}.

Definition New (cfg : Config) : Manager :=
  MkManager
    (MkConfig (mc_DNSAddr cfg)
      (if String.eqb (mc_ProductName cfg) "" then "zwan" else mc_ProductName cfg)
      (mc_DeviceUUID cfg)
      (if mc_BasePort cfg =? 0 then DefaultBasePort else mc_BasePort cfg)
      (if String.eqb (mc_LocalPool cfg) "" then DefaultLocalPool else mc_LocalPool cfg)
      (if mc_LocalBits cfg =? 0 then DefaultLocalBits else mc_LocalBits cfg)
      (mc_NoTranslate cfg))
    false ∅ [].

Definition set_nets (m : Manager) (nets : gmap string entry) : Manager :=
  MkManager (m_cfg m) (m_dns m) nets (m_saved m).
Definition set_saved (m : Manager) (l : list Network) : Manager :=
  MkManager (m_cfg m) (m_dns m) (m_nets m) l.

(** ** Ranges and ports *)

Inductive manager_error : Type :=
| ELocalPool (pool : string)
| ESliceFit (bits : Z) (pool : Prefix)
| EPoolFull (pool : Prefix) (bits : Z).

(** [As4] panics on an IPv6 address: [None]. *)
Definition prefixBase (p : Prefix) : option Z := be32 <$> addr_As4 (p_addr p).

Definition addrFromUint32 (v : Z) : Addr := AddrFrom4 (bytes4 v).

Definition prefixString (p : Prefix) : string := if prefix_IsValid p then prefix_String p else "".

(** The [i]-th slice of a pool. *)
Definition slice_at (base step bits i : Z) : Prefix :=
  PrefixFrom (addrFromUint32 (u32 (base + u32 (i * step)))) bits.

(** The loop from [i] on, for the [n] rounds that are left. *)
Fixpoint slice_scan (n : nat) (taken : gset Prefix) (base step bits i : Z) : option Prefix :=
  match n with
  | O => None
  | S n =>
    let p := slice_at base step bits i in
    if bool_decide (p ∈ taken) then slice_scan n taken base step bits (i + 1) else Some p
  end.

Definition taken_prefixes (m : Manager) : gset Prefix :=
  list_to_set (e_prefix <$> (map_to_list (m_nets m)).*2).

Definition freePrefixLocked (m : Manager) : option (result manager_error Prefix) :=
  let cfg := m_cfg m in
  if mc_NoTranslate cfg then Some (Ok prefix_zero) else
  match ParsePrefix (mc_LocalPool cfg) with
  | None => Some (Err (ELocalPool (mc_LocalPool cfg)))
  | Some pool =>
    let pool := prefix_Masked pool in
    let bits := mc_LocalBits cfg in
    if (bits <=? p_bits pool) || (30 <? bits) then Some (Err (ESliceFit bits pool)) else
    let step := u32 (Z.shiftl 1 (32 - bits)) in
    base ← prefixBase pool;
    let count := u32 (Z.shiftl 1 (bits - p_bits pool)) in
    Some (match slice_scan (Z.to_nat count) (taken_prefixes m) base step bits 0 with
          | Some p => Ok p
          | None => Err (EPoolFull pool bits)
          end)
  end.

Fixpoint port_scan (n : nat) (udpFree : Z → bool) (taken : gset Z) (port : Z) : Z :=
  match n with
  | O => 0
  | S n =>
    if bool_decide (port ∈ taken) || negb (udpFree port) then port_scan n udpFree taken (port + 1) else port
  end.

Definition taken_ports (m : Manager) : gset Z := list_to_set (e_port <$> (map_to_list (m_nets m)).*2).

Definition freePortLocked (udpFree : Z → bool) (m : Manager) : Z :=
  port_scan 64 udpFree (taken_ports m) (mc_BasePort (m_cfg m)).

(** ** Remembering networks *)

Fixpoint replace_saved (n : Network) (l : list Network) : option (list Network) :=
  match l with
  | [] => None
  | x :: l => if String.eqb (n_Alias x) (n_Alias n) then Some (n :: l) else cons x <$> replace_saved n l
  end.

(** The list is written to disk after every change; a failure to write is only logged. *)
Definition remember (m : Manager) (n : Network) : Manager :=
  set_saved m (match replace_saved n (m_saved m) with Some l => l | None => m_saved m ++ [n] end).

(** ** Connecting *)

Inductive connect_error : Type :=
| EInvalid (e : profile_error)
| EPrefix (e : manager_error)
| EEngine (e : start_error).

(** The network as it is connected and stored, once its settings are accepted. *)
Definition connect_network (n : Network) : result profile_error Network :=
  let n := set_publish (set_alias n (NormalizeAlias (n_Alias n))) (NormalizePublish (n_Publish n)) in
  match Validate n with
  | Some e => Err e
  | None => Ok (set_auto n true)
  end.

(** The first locked part: the network that was up under this alias is taken out, and its
    engine is stopped. *)
Definition connect_drop (m : Manager) (n : Network) : Manager * option N :=
  match m_nets m !! n_Alias n with
  | Some prev => (set_nets m (delete (n_Alias n) (m_nets m)), e_eng prev)
  | None => (m, None)
  end.

(** The second: a port and a range of its own. *)
Definition connect_choose (udpFree : Z → bool) (m : Manager) : option (Z * result manager_error Prefix) :=
  pr ← freePrefixLocked m;
  Some (freePortLocked udpFree m, pr).

Definition engine_config (m : Manager) (n : Network) (port : Z) (prefix : Prefix) : Engine.Config :=
  Engine.MkConfig (n_Server n) (n_Pin n) (n_Token n) (mc_DeviceUUID (m_cfg m)) (n_Name n) (n_UseRelay n)
    (mc_ProductName (m_cfg m) +:+ "-" +:+ n_Alias n) port "" "" (m_dns m) (mc_ProductName (m_cfg m))
    (prefixString prefix) (n_Alias n) (n_Publish n).

(** The third, when the engine is up. *)
Definition connect_enter (m : Manager) (n : Network) (eng : N) (port : Z) (prefix : Prefix) : Manager :=
  set_nets m (<[n_Alias n := MkEntry (Some eng) port prefix]> (m_nets m)).

(** [start] is how the engine's start ends, [eng] its number.  The outer option is the
    panic of [prefixBase]. *)
Definition Connect (udpFree : Z → bool) (start : Engine.Config → option start_error) (eng : N)
    (m : Manager) (n : Network) : option (Manager * result connect_error ()) :=
  match connect_network n with
  | Err e => Some (m, Err (EInvalid e))
  | Ok n =>
    let '(m, _) := connect_drop m n in
    '(port, pr) ← connect_choose udpFree m;
    match pr with
    | Err e => Some (remember m n, Err (EPrefix e))
    | Ok prefix =>
      match start (engine_config m n port prefix) with
      | Some e => Some (remember m n, Err (EEngine e))
      | None => Some (remember (connect_enter m n eng port prefix) n, Ok ())
      end
    end
  end.

(** ** Disconnecting *)

Definition Disconnect (m : Manager) (alias : string) : Manager :=
  let alias := NormalizeAlias alias in
  let m := set_nets m (delete alias (m_nets m)) in
  set_saved m ((λ n, if String.eqb (n_Alias n) alias then set_auto n false else n) <$> m_saved m).

Definition Forget (m : Manager) (alias : string) : Manager :=
  let alias := NormalizeAlias alias in
  let m := Disconnect m alias in
  set_saved m (filter (λ n, n_Alias n ≠ alias) (m_saved m)).

(** Every network is taken down; the engines to stop are those of the entries. *)
Definition Stop (m : Manager) : Manager := MkManager (m_cfg m) false ∅ (m_saved m).

(** ** Reporting *)

Record MStatus : Type := MkMStatus {
  ms_Network : Network;
  ms_Engine : Engine.Status;
  ms_Warning : option (string * list string);   (** the range, and the networks it overlaps *)
}.

Definition by_alias (a b : MStatus) : Prop := String.le (n_Alias (ms_Network a)) (n_Alias (ms_Network b)).

#[export] Instance by_alias_dec : RelDecision by_alias.
Proof. intros a b. unfold by_alias. apply _. Defined.
#[export] Instance by_alias_total : Total by_alias.
Proof. intros a b. unfold by_alias. apply String.le_total. Qed.
#[export] Instance by_alias_trans : Transitive by_alias.
Proof. intros a b c. unfold by_alias. apply String.le_po. Qed.

Record span : Type := MkSpan { sp_alias : string; sp_prefix : Prefix }.

(** A network whose overlay range is in the host's routing table. *)
Definition span_of (s : MStatus) : option span :=
  let e := ms_Engine s in
  if negb (st_Connected e) || String.eqb (st_OverlayCIDR e) "" || negb (String.eqb (st_LocalCIDR e) "") then None
  else p ← ParsePrefix (st_OverlayCIDR e); Some (MkSpan (n_Alias (ms_Network s)) p).

Definition add_clash (clash : gmap string (list string)) (a b : string) : gmap string (list string) :=
  <[a := default [] (clash !! a) ++ [b]]> clash.

(** The inner loop, over the spans after the [i]-th one. *)
Fixpoint clash_with (s : span) (rest : list span) (clash : gmap string (list string)) : gmap string (list string) :=
  match rest with
  | [] => clash
  | t :: rest =>
    clash_with s rest
      (if prefix_Overlaps (sp_prefix s) (sp_prefix t)
       then add_clash (add_clash clash (sp_alias s) (sp_alias t)) (sp_alias t) (sp_alias s) else clash)
  end.

Fixpoint clashes (spans : list span) (clash : gmap string (list string)) : gmap string (list string) :=
  match spans with
  | [] => clash
  | s :: rest => clashes rest (clash_with s rest clash)
  end.

Definition addOverlapWarnings (l : list MStatus) : list MStatus :=
  let clash := clashes (omap span_of l) ∅ in
  (λ s, match default [] (clash !! n_Alias (ms_Network s)) with
        | [] => s
        | others => MkMStatus (ms_Network s) (ms_Engine s)
                      (Some (st_OverlayCIDR (ms_Engine s), sort_strings others))
        end) <$> l.

(** [status] is what each engine reports. *)
Definition Statuses (status : N → Engine.Status) (m : Manager) : list MStatus :=
  addOverlapWarnings (merge_sort by_alias
    ((λ n, MkMStatus n
        (match m_nets m !! n_Alias n with
         | Some (MkEntry (Some eng) _ _) => status eng
         | _ => status_zero
         end) None) <$> m_saved m)).

(** ** Slices of the pool *)

(** The pool as it is carved up. *)
Definition pool_ok (cfg : Config) (pool : Prefix) : Prop :=
  ∃ p, ParsePrefix (mc_LocalPool cfg) = Some p ∧ pool = prefix_Masked p ∧ prefix4 pool ∧
    p_bits pool < mc_LocalBits cfg ≤ 30.

Definition slice_of (cfg : Config) (p : Prefix) : Prop :=
  ∃ pool i, pool_ok cfg pool ∧ 0 ≤ i < 2 ^ (mc_LocalBits cfg - p_bits pool) ∧
    p = MkPrefix (Addr4 (prefix_base pool + i * 2 ^ (32 - mc_LocalBits cfg))) (mc_LocalBits cfg).

Lemma pow_split a b : 0 ≤ a → 0 ≤ b → 2 ^ (a + b) = 2 ^ a * 2 ^ b.
Proof. intros. by rewrite Z.pow_add_r. Qed.

(** The numbers of a slice: it lies in the pool, within 32 bits. *)
Lemma slice_bounds cfg pool i :
  pool_ok cfg pool → 0 ≤ i < 2 ^ (mc_LocalBits cfg - p_bits pool) →
  let step := 2 ^ (32 - mc_LocalBits cfg) in
  0 < step ∧ 0 ≤ i * step ∧ prefix_base pool + i * step + step ≤ prefix_base pool + prefix_size pool ∧
  prefix_base pool + prefix_size pool ≤ 2 ^ 32 ∧ 0 ≤ prefix_base pool ∧ (step | prefix_base pool).
Proof.
  intros (p & _ & _ & Hpf & Hb) Hi step. pose proof (prefix4_bits _ Hpf) as Hpb.
  pose proof (prefix_end _ Hpf) as Hend. pose proof (prefix4_base _ Hpf) as [Hbase _].
  assert (0 < step) as Hstep by (apply Z.pow_pos_nonneg; lia).
  assert (prefix_size pool = 2 ^ (mc_LocalBits cfg - p_bits pool) * step) as Hsize.
  { unfold prefix_size, step. rewrite <-pow_split by lia. f_equal. lia. }
  split_and!; [done|nia|rewrite Hsize; nia|done|done|].
  etrans; [|apply (prefix4_mask _ Hpf)]. rewrite Hsize. apply Z.divide_factor_r.
Qed.

Lemma prefix_base_4 v b : prefix_base (MkPrefix (Addr4 v) b) = v.
Proof. done. Qed.

Lemma prefix_size_4 a b : prefix_size (MkPrefix a b) = 2 ^ (32 - b).
Proof. done. Qed.

Lemma slice_prefix4 cfg p : slice_of cfg p → prefix4 p.
Proof.
  intros (pool & i & Hp & Hi & ->). pose proof (slice_bounds cfg pool i Hp Hi) as (? & ? & ? & ? & ? & ?).
  destruct Hp as (p & _ & _ & Hpf & Hb). pose proof (prefix4_bits _ Hpf).
  split; rewrite ?prefix_base_4, ?prefix_size_4; cbn [p_addr p_bits]; [done|unfold is_u32; lia|lia|].
  apply Z.divide_add_r; [done|]. apply Z.divide_factor_r.
Qed.

Lemma slice_at_eq cfg pool i :
  pool_ok cfg pool → 0 ≤ i < 2 ^ (mc_LocalBits cfg - p_bits pool) →
  slice_at (prefix_base pool) (2 ^ (32 - mc_LocalBits cfg)) (mc_LocalBits cfg) i =
  MkPrefix (Addr4 (prefix_base pool + i * 2 ^ (32 - mc_LocalBits cfg))) (mc_LocalBits cfg).
Proof.
  intros Hp Hi. pose proof (slice_bounds cfg pool i Hp Hi) as (? & ? & ? & ? & ? & ?).
  destruct Hp as (p & _ & _ & Hpf & Hb). pose proof (prefix4_bits _ Hpf).
  unfold slice_at. rewrite (u32_small (i * _)) by lia. rewrite u32_small by lia.
  unfold addrFromUint32, AddrFrom4. rewrite of_bytes4_bytes4 by (unfold is_u32; lia).
  unfold PrefixFrom. cbn [addr_without_zone addr_BitLen]. rewrite bool_decide_false by done. cbn [negb andb].
  by rewrite (proj2 (Z.leb_le 0 (mc_LocalBits cfg))), (proj2 (Z.leb_le (mc_LocalBits cfg) 32)) by lia.
Qed.

Lemma pool_ok_unique cfg p q : pool_ok cfg p → pool_ok cfg q → p = q.
Proof. intros (p' & Hp & -> & _) (q' & Hq & -> & _). congruence. Qed.

(** Different slices have no address in common, and every slice is part of the pool. *)
Lemma slices_apart cfg p q a :
  slice_of cfg p → slice_of cfg q → prefix_Contains p a = true → prefix_Contains q a = true → p = q.
Proof.
  intros Hp Hq Hpa Hqa. pose proof (slice_prefix4 cfg p Hp) as Hp4. pose proof (slice_prefix4 cfg q Hq) as Hq4.
  destruct (prefix_Contains_4 _ _ Hp4 Hpa) as [v ->]. rewrite prefix_Contains4 in Hpa, Hqa by done.
  destruct Hp as (pool & i & Hpool & Hi & ->), Hq as (pool' & j & Hpool' & Hj & ->).
  assert (pool' = pool) as -> by (by eapply pool_ok_unique).
  pose proof (slice_bounds cfg pool i Hpool Hi) as (? & ? & _).
  rewrite prefix_base_4, prefix_size_4 in Hpa, Hqa.
  assert (i = j) as ->; [|done]. nia.
Qed.

Lemma slice_in_pool cfg p a pool :
  slice_of cfg p → pool_ok cfg pool → prefix_Contains p a = true → prefix_Contains pool a = true.
Proof.
  intros Hp Hpool Hpa. pose proof (slice_prefix4 cfg p Hp) as Hp4.
  destruct (prefix_Contains_4 _ _ Hp4 Hpa) as [v ->]. rewrite prefix_Contains4 in Hpa by done.
  destruct Hp as (pool' & i & Hpool' & Hi & ->). assert (pool' = pool) as -> by (by eapply pool_ok_unique).
  pose proof (slice_bounds cfg pool i Hpool Hi) as (? & ? & ? & _).
  destruct Hpool as (? & _ & _ & Hpf & _). rewrite prefix_Contains4 by done.
  rewrite prefix_base_4, prefix_size_4 in Hpa. lia.
Qed.

Lemma slice_scan_spec n taken base step bits i :
  match slice_scan n taken base step bits i with
  | Some p => ∃ j, i ≤ j < i + Z.of_nat n ∧ p = slice_at base step bits j ∧ (p ∉ taken)
  | None => ∀ j, i ≤ j < i + Z.of_nat n → slice_at base step bits j ∈ taken
  end.
Proof.
  revert i. induction n as [|n IH]; intros i; cbn [slice_scan]; [intros; lia|].
  case_bool_decide as Ht.
  - specialize (IH (i + 1)). destruct (slice_scan n taken base step bits (i + 1)) as [p|].
    + destruct IH as (j & ? & ? & ?). exists j. split_and!; [lia|lia|done|done].
    + intros j Hj. destruct (Z.eq_dec j i) as [->|]; [done|]. apply IH. lia.
  - exists i. split_and!; [lia|lia|done|done].
Qed.

Lemma elem_of_taken {A} `{Countable A} (f : entry → A) (nets : gmap string entry) x :
  x ∈ (list_to_set (f <$> (map_to_list nets).*2) : gset A) ↔ ∃ a e, nets !! a = Some e ∧ f e = x.
Proof.
  rewrite elem_of_list_to_set, list_elem_of_fmap. split.
  - intros (e & -> & ([a e'] & Heq & Hin%elem_of_map_to_list)%list_elem_of_fmap). cbn in Heq. subst e'. eauto.
  - intros (a & e & He & <-). exists e. split; [done|]. apply list_elem_of_fmap. exists (a, e).
    by rewrite elem_of_map_to_list.
Qed.

(** The range handed out is a slice no live network holds; only when every slice is taken
    is there none. *)
Lemma freePrefix_spec m r :
  freePrefixLocked m = Some r →
  match r with
  | Ok p => (mc_NoTranslate (m_cfg m) = true ∧ p = prefix_zero) ∨
      (mc_NoTranslate (m_cfg m) = false ∧ slice_of (m_cfg m) p ∧
       ∀ a e, m_nets m !! a = Some e → e_prefix e ≠ p)
  | Err (EPoolFull pool bits) => pool_ok (m_cfg m) pool ∧
      ∀ p, slice_of (m_cfg m) p → ∃ a e, m_nets m !! a = Some e ∧ e_prefix e = p
  | Err _ => True
  end.
Proof.
  unfold freePrefixLocked. destruct (mc_NoTranslate (m_cfg m)) eqn:Hnt.
  { intros [= <-]. by left. }
  destruct (ParsePrefix (mc_LocalPool (m_cfg m))) as [p0|] eqn:Hp0; [|by intros [= <-]].
  set (pool := prefix_Masked p0). destruct ((_ <=? _) || _) eqn:Hb; [by intros [= <-]|].
  destruct (prefixBase pool) as [base|] eqn:Hbase; [|done]. cbn [mbind option_bind]. intros [= <-].
  assert (∃ v, p_addr pool = Addr4 v ∧ base = be32 (bytes4 v)) as (v & Hv & ->).
  { unfold prefixBase, addr_As4 in Hbase. destruct (p_addr pool) as [|v|v z] eqn:Ha; cbn [addr_Unmap] in Hbase; [done|..].
    - injection Hbase as <-. by exists v.
    - exfalso. destruct (addr_Is4In6 (Addr6 v z)) eqn:H46; [|done]. apply Z.eqb_eq in H46.
      unfold pool, prefix_Masked in Ha, Hb. destruct (prefix_IsValid p0); [|done].
      destruct (p_addr p0) as [|w|w zw]; [done|done|]. cbn [p_addr p_bits] in Ha, Hb. injection Ha as <- _.
      unfold mask_bits in H46. rewrite Z.shiftr_shiftl_l in H46 by lia.
      apply (f_equal (λ x, Z.testbit x 0)) in H46. rewrite Z.shiftl_spec_low in H46 by lia. done. }
  destruct (masked_parsed p0 v (ParsePrefix_parsed _ _ Hp0) Hv) as [Hpf Hu]. fold pool in Hpf.
  rewrite be32_bytes4 by done. pose proof (prefix4_bits _ Hpf) as Hpb.
  assert (pool_ok (m_cfg m) pool) as Hpool by (exists p0; split_and!; [done|done|done|lia|lia]).
  assert (v = prefix_base pool) as -> by (unfold prefix_base; by rewrite Hv).
  set (bits := mc_LocalBits (m_cfg m)) in *.
  assert (u32 (Z.shiftl 1 (32 - bits)) = 2 ^ (32 - bits)) as ->.
  { rewrite Z.shiftl_1_l. apply u32_small. split; [apply Z.pow_nonneg; lia|apply Z.pow_lt_mono_r; lia]. }
  assert (u32 (Z.shiftl 1 (bits - p_bits pool)) = 2 ^ (bits - p_bits pool)) as ->.
  { rewrite Z.shiftl_1_l. apply u32_small. split; [apply Z.pow_nonneg; lia|apply Z.pow_lt_mono_r; lia]. }
  assert (0 < 2 ^ (bits - p_bits pool)) as Hcount by (apply Z.pow_pos_nonneg; lia).
  pose proof (slice_scan_spec (Z.to_nat (2 ^ (bits - p_bits pool))) (taken_prefixes m) (prefix_base pool)
    (2 ^ (32 - bits)) bits 0) as Hs. rewrite Z2Nat.id in Hs by lia.
  destruct (slice_scan _ _ _ _ _ _) as [p|].
  - right. destruct Hs as (j & Hj & -> & Hn). unfold bits in *.
    rewrite (slice_at_eq (m_cfg m) pool j Hpool ltac:(lia)) in Hn |- *.
    split_and!; [done|exists pool, j; split_and!; [done|lia|lia|done]|].
    intros a e He Heq. apply Hn, elem_of_taken. eauto.
  - split; [done|]. intros p (pool' & i & Hpool' & Hi & ->).
    assert (pool' = pool) as -> by (by eapply pool_ok_unique).
    unfold bits in *. specialize (Hs i ltac:(lia)).
    rewrite (slice_at_eq (m_cfg m) pool i Hpool Hi) in Hs. by apply elem_of_taken in Hs.
Qed.

Lemma freePort_spec udpFree m :
  freePortLocked udpFree m = 0 ∨
  (udpFree (freePortLocked udpFree m) = true ∧
   ∀ a e, m_nets m !! a = Some e → e_port e ≠ freePortLocked udpFree m).
Proof.
  unfold freePortLocked. generalize (mc_BasePort (m_cfg m)). generalize 64%nat.
  intros n. induction n as [|n IH]; intros port; [by left|].
  cbn [port_scan]. case_bool_decide as Ht; cbn [orb]; [apply IH|].
  destruct (udpFree port) eqn:Hf; cbn [negb]; [|apply IH]. right. split; [done|].
  intros a e He Heq. apply Ht, elem_of_taken. eauto.
Qed.

(** ** The invariant *)

Definition aliases (l : list Network) : list string := n_Alias <$> l.

Record manager_ok (m : Manager) : Prop := {
  mk_slice : ∀ a e, mc_NoTranslate (m_cfg m) = false → m_nets m !! a = Some e → slice_of (m_cfg m) (e_prefix e);
  mk_prefix : ∀ a b ea eb, mc_NoTranslate (m_cfg m) = false →
    m_nets m !! a = Some ea → m_nets m !! b = Some eb → e_prefix ea = e_prefix eb → a = b;
  mk_port : ∀ a b ea eb, m_nets m !! a = Some ea → m_nets m !! b = Some eb →
    e_port ea = e_port eb → a = b ∨ e_port ea = 0;
  mk_saved : NoDup (aliases (m_saved m));
}.

(** Every live network is in the list that is kept on disk. *)
Definition live_saved (m : Manager) : Prop := ∀ a, is_Some (m_nets m !! a) → a ∈ aliases (m_saved m).

(** A manager whose saved networks were read from disk and none of which is up. *)
Lemma idle_ok cfg dns saved : NoDup (aliases saved) → manager_ok (MkManager cfg dns ∅ saved).
Proof.
  intros Hnd. by split.
Qed.

Lemma replace_saved_spec n l :
  match replace_saved n l with
  | Some l' => n_Alias n ∈ aliases l ∧ aliases l' = aliases l ∧ n ∈ l' ∧
      (∀ x, n_Alias x ≠ n_Alias n → x ∈ l' ↔ x ∈ l)
  | None => n_Alias n ∉ aliases l
  end.
Proof.
  induction l as [|x l IH]; cbn [replace_saved aliases fmap list_fmap]; [apply not_elem_of_nil|].
  destruct (String.eqb_spec (n_Alias x) (n_Alias n)) as [He|Hne].
  - split_and!; [rewrite <-He; apply list_elem_of_here|unfold aliases; cbn; by rewrite He|apply list_elem_of_here|].
    intros y Hy. rewrite !elem_of_cons. split; (intros [->|?]; [congruence|by right]).
  - destruct (replace_saved n l) as [l'|]; cbn [fmap option_fmap option_map].
    + destruct IH as (Hin & Ha & Hn & Hx). split_and!.
      * by apply list_elem_of_further.
      * unfold aliases in *. cbn [fmap list_fmap]. by rewrite Ha.
      * by apply list_elem_of_further.
      * intros y Hy. rewrite !elem_of_cons. rewrite Hx by done. tauto.
    + rewrite not_elem_of_cons. split; [congruence|done].
Qed.

Lemma remember_spec m n :
  let m' := remember m n in
  m_cfg m' = m_cfg m ∧ m_nets m' = m_nets m ∧ n ∈ m_saved m' ∧
  (∀ a, a ∈ aliases (m_saved m') ↔ a = n_Alias n ∨ (a ∈ aliases (m_saved m))) ∧
  (NoDup (aliases (m_saved m)) → NoDup (aliases (m_saved m'))) ∧
  (∀ x, n_Alias x ≠ n_Alias n → x ∈ m_saved m' ↔ x ∈ m_saved m).
Proof.
  unfold remember. pose proof (replace_saved_spec n (m_saved m)) as Hr. cbn [set_saved m_cfg m_nets m_saved].
  destruct (replace_saved n (m_saved m)) as [l|].
  - destruct Hr as (Hin & Ha & Hn & Hx). rewrite Ha. split_and!; try done.
    intros a. split; [by right|]. by intros [->|?].
  - split_and!; [done|done| | | |].
    + apply elem_of_app. right. by apply list_elem_of_singleton.
    + intros a. unfold aliases. rewrite fmap_app, elem_of_app. cbn. rewrite list_elem_of_singleton. tauto.
    + intros Hnd. unfold aliases. rewrite fmap_app. apply NoDup_app. split_and!; [done| |apply NoDup_singleton].
      intros a Ha. cbn. rewrite list_elem_of_singleton. intros ->. by apply Hr.
    + intros x Hx. rewrite elem_of_app, list_elem_of_singleton. split; [intros [?| ->]; done|by left].
Qed.

Lemma remember_ok m n : manager_ok m → manager_ok (remember m n).
Proof.
  intros [Hs Hp Hq Hd]. destruct (remember_spec m n) as (Hc & Hn & _ & Ha & Hnd & _).
  split; rewrite ?Hc, ?Hn; try done. by apply Hnd.
Qed.

(** The states between the parts of [Connect]: the live networks are in order, and all of
    them but the one being connected are remembered. *)
Lemma drop_ok m n : manager_ok m → manager_ok (connect_drop m n).1 ∧ m_nets (connect_drop m n).1 !! n_Alias n = None ∧
  m_cfg (connect_drop m n).1 = m_cfg m ∧ m_saved (connect_drop m n).1 = m_saved m ∧
  (∀ a, a ≠ n_Alias n → m_nets (connect_drop m n).1 !! a = m_nets m !! a).
Proof.
  intros [Hs Hp Hq Hd]. unfold connect_drop. destruct (m_nets m !! n_Alias n) as [e|] eqn:He; cbn [fst]; [|by split_and!].
  split_and!; cbn [set_nets m_nets m_cfg m_saved]; [|apply lookup_delete_eq|done|done|by intros; apply lookup_delete_ne].
  split; cbn [set_nets m_nets m_cfg m_saved]; [| | |done].
  - intros a e' Ht [_ H]%lookup_delete_Some. by eapply Hs.
  - intros a b ea eb Ht [_ Ha]%lookup_delete_Some [_ Hb]%lookup_delete_Some. by eapply Hp.
  - intros a b ea eb [_ Ha]%lookup_delete_Some [_ Hb]%lookup_delete_Some. by eapply Hq.
Qed.

(** A network with a range and a port of its own comes up and is remembered. *)
Lemma enter_ok m n eng port p :
  manager_ok m → m_nets m !! n_Alias n = None →
  (mc_NoTranslate (m_cfg m) = true ∨ slice_of (m_cfg m) p ∧ ∀ a e, m_nets m !! a = Some e → e_prefix e ≠ p) →
  (port = 0 ∨ ∀ a e, m_nets m !! a = Some e → e_port e ≠ port) →
  manager_ok (remember (connect_enter m n eng port p) n).
Proof.
  intros [Hs Hp Hq Hd] Hnone Hfree Hport.
  destruct (remember_spec (connect_enter m n eng port p) n) as (Hc & Hn & _ & Ha & Hnd & _).
  split; rewrite ?Hc, ?Hn; cbn [connect_enter set_nets m_nets m_cfg m_saved] in *; [| | |by apply Hnd].
  - intros a e Ht [[<- <-]|[_ He]]%lookup_insert_Some; [|by eapply Hs].
    cbn [e_prefix]. destruct Hfree as [|[? _]]; [congruence|done].
  - intros a b ea eb Ht [[<- <-]|[Hna Hea]]%lookup_insert_Some [[<- <-]|[Hnb Heb]]%lookup_insert_Some; cbn [e_prefix].
    + done.
    + intros E. destruct Hfree as [|[_ Hf]]; [congruence|]. by destruct (Hf _ _ Heb).
    + intros E. destruct Hfree as [|[_ Hf]]; [congruence|]. by destruct (Hf _ _ Hea).
    + by eapply Hp.
  - intros a b ea eb [[<- <-]|[Hna Hea]]%lookup_insert_Some [[<- <-]|[Hnb Heb]]%lookup_insert_Some; cbn [e_port].
    + by left.
    + intros E. destruct Hport as [?|Hf]; [by right|]. by destruct (Hf _ _ Heb).
    + intros E. destruct Hport as [?|Hf]; [right; congruence|]. by destruct (Hf _ _ Hea).
    + by eapply Hq.
Qed.

Definition connected_network (n : Network) : Network :=
  set_auto (set_publish (set_alias n (NormalizeAlias (n_Alias n))) (NormalizePublish (n_Publish n))) true.

(** What [Connect] leaves: a refused network changes nothing; any other is remembered in
    the form it was connected in, in place of one with its name, and is up exactly when
    no error is reported.  No other network is touched. *)
Lemma Connect_spec udpFree start eng m n m' r :
  manager_ok m → Connect udpFree start eng m n = Some (m', r) →
  let n' := connected_network n in
  manager_ok m' ∧ m_cfg m' = m_cfg m ∧
  match r with
  | Err (EInvalid _) => m' = m
  | _ => n' ∈ m_saved m' ∧ (is_Some (m_nets m' !! n_Alias n') ↔ r = Ok ()) ∧
      (∀ a, a ≠ n_Alias n' → m_nets m' !! a = m_nets m !! a) ∧
      (∀ x, n_Alias x ≠ n_Alias n' → x ∈ m_saved m' ↔ x ∈ m_saved m)
  end.
Proof.
  intros Hm. unfold Connect, connect_network. fold (connected_network n).
  set (n0 := set_publish _ _). destruct (Validate n0); [by intros [= <- <-]|].
  set (n' := connected_network n). pose proof (drop_ok m n' Hm) as (Hd & Hnone & Hcfg & Hsaved & Hother).
  destruct (connect_drop m n') as [m1 prev]. cbn [fst] in *.
  unfold connect_choose. destruct (freePrefixLocked m1) as [pr|] eqn:Hfp; cbn [mbind option_bind]; [|by intros [=]].
  pose proof (freePrefix_spec m1 pr Hfp) as Hfree. pose proof (freePort_spec udpFree m1) as Hport.
  assert (∀ m2 (r2 : result connect_error ()), m2 = remember m1 n' → (∀ e, r2 ≠ Err (EInvalid e)) → r2 ≠ Ok () →
    manager_ok m2 ∧ m_cfg m2 = m_cfg m ∧ n' ∈ m_saved m2 ∧ (is_Some (m_nets m2 !! n_Alias n') ↔ r2 = Ok ()) ∧
      (∀ a, a ≠ n_Alias n' → m_nets m2 !! a = m_nets m !! a) ∧
      (∀ x, n_Alias x ≠ n_Alias n' → x ∈ m_saved m2 ↔ x ∈ m_saved m)) as Hfail.
  { intros m2 r2 -> _ Hr2. destruct (remember_spec m1 n') as (Hc & Hn & Hin & _ & _ & Hx). rewrite Hc, Hn, Hnone.
    split_and!; [by apply remember_ok|done|done| |done|by rewrite <-Hsaved].
    split; [by intros []|done]. }
  destruct pr as [p|e].
  2:{ intros [= <- <-]. by apply (Hfail (remember m1 n') (Err (EPrefix e))). }
  destruct (start _) as [e|].
  { intros [= <- <-]. by apply (Hfail (remember m1 n') (Err (EEngine e))). }
  intros [= <- <-].
  destruct (remember_spec (connect_enter m1 n' eng (freePortLocked udpFree m1) p) n') as (Hc & Hn & Hin & _ & _ & Hx).
  rewrite Hc, Hn. cbn [connect_enter set_nets m_nets m_cfg m_saved] in *. split_and!.
  - apply enter_ok; [done|done| |].
    + destruct Hfree as [[? _]|(_ & ? & ?)]; [by left|by right].
    + destruct Hport as [?|[_ ?]]; [by left|by right].
  - done.
  - done.
  - rewrite lookup_insert_eq. by split.
  - intros a Ha. rewrite lookup_insert_ne by done. by apply Hother.
  - by rewrite <-Hsaved.
Qed.

Lemma Disconnect_aliases m alias : aliases (m_saved (Disconnect m alias)) = aliases (m_saved m).
Proof.
  unfold Disconnect, aliases. cbn [set_saved set_nets m_saved]. rewrite <-list_fmap_compose.
  apply list_fmap_ext. intros i x _. cbn. by destruct (String.eqb _ _).
Qed.

Lemma Disconnect_ok m alias : manager_ok m → manager_ok (Disconnect m alias).
Proof.
  intros [Hs Hp Hq Hd].
  split; rewrite ?Disconnect_aliases; cbn [Disconnect set_saved set_nets m_cfg m_nets]; [| | |done].
  - intros a e Ht [_ He]%lookup_delete_Some. by eapply Hs.
  - intros a b ea eb Ht [_ He]%lookup_delete_Some [_ Hf]%lookup_delete_Some. by eapply Hp.
  - intros a b ea eb [_ He]%lookup_delete_Some [_ Hf]%lookup_delete_Some. by eapply Hq.
Qed.

Lemma Forget_aliases m alias a :
  a ∈ aliases (m_saved (Forget m alias)) ↔ a ≠ NormalizeAlias alias ∧ (a ∈ aliases (m_saved m)).
Proof.
  rewrite <-(Disconnect_aliases m (NormalizeAlias alias)). unfold Forget, aliases. cbn [set_saved m_saved].
  rewrite !list_elem_of_fmap. setoid_rewrite list_elem_of_filter.
  split; [intros (x & -> & Hx & Hi); split; [exact Hx|by exists x]|].
  intros (Hx & x & -> & Hi). exists x. split_and!; [done|exact Hx|exact Hi].
Qed.

Lemma Forget_ok m alias : manager_ok m → manager_ok (Forget m alias).
Proof.
  intros Hm. destruct (Disconnect_ok m (NormalizeAlias alias) Hm) as [Hs Hp Hq Hd].
  split; [exact Hs|exact Hp|exact Hq|].
  unfold Forget, aliases. cbn [set_saved m_saved]. eapply sublist_NoDup; [exact Hd|apply fmap_sublist, sublist_filter].
Qed.

(** ** Sequences of calls *)

(** The calls a device makes, [forgettable] limiting the names given to [Forget]. *)
Inductive manager_step (forgettable : string → Prop) : Manager → Manager → Prop :=
| step_Connect udpFree start eng m n m' r :
    Connect udpFree start eng m n = Some (m', r) → manager_step forgettable m m'
| step_Disconnect m alias : manager_step forgettable m (Disconnect m alias)
| step_Forget m alias : forgettable alias → manager_step forgettable m (Forget m alias)
| step_Stop m : manager_step forgettable m (Stop m).

Definition any_alias (_ : string) : Prop := True.
(** A name whose normal form is normal. *)
Definition stable_alias (alias : string) : Prop :=
  NormalizeAlias (NormalizeAlias alias) = NormalizeAlias alias.

Lemma manager_step_ok P m m' : manager_ok m → manager_step P m m' → manager_ok m' ∧ m_cfg m' = m_cfg m.
Proof.
  intros Hm Hs. destruct Hs as [udpFree start eng m n m' r Hc|m alias|m alias _|m].
  - destruct (Connect_spec _ _ _ _ _ _ _ Hm Hc) as (? & ? & _). done.
  - split; [by apply Disconnect_ok|done].
  - split; [by apply Forget_ok|done].
  - split; [apply idle_ok, mk_saved, Hm|done].
Qed.

Lemma manager_run_ok P cfg dns saved m :
  NoDup (aliases saved) → rtc (manager_step P) (MkManager cfg dns ∅ saved) m → manager_ok m ∧ m_cfg m = cfg.
Proof.
  intros Hnd Hr. change cfg with (m_cfg (MkManager cfg dns ∅ saved)).
  pose proof (idle_ok cfg dns saved Hnd) as H0.
  induction Hr as [|x y z Hxy _ IH]; [done|]. destruct (manager_step_ok _ _ _ H0 Hxy) as [Hy Hc].
  rewrite <-Hc. by apply IH.
Qed.

(** C5: Through every sequence of calls that do not overlap in time, whatever ports are free
    and however engines start: no address is in the local ranges of two live networks,
    every range lies in the pool, no two live networks share a port, and the networks
    remembered have names of their own. *)
Theorem networks_apart cfg dns saved m :
  NoDup (aliases saved) → rtc (manager_step any_alias) (MkManager cfg dns ∅ saved) m →
  (∀ a b ea eb, a ≠ b → m_nets m !! a = Some ea → m_nets m !! b = Some eb →
     (e_port ea ≠ e_port eb ∨ e_port ea = 0) ∧
     (mc_NoTranslate cfg = false → ∀ ip,
        ¬ (prefix_Contains (e_prefix ea) ip = true ∧ prefix_Contains (e_prefix eb) ip = true))) ∧
  (mc_NoTranslate cfg = false → ∀ a e pool ip, m_nets m !! a = Some e → pool_ok cfg pool →
     prefix_Contains (e_prefix e) ip = true → prefix_Contains pool ip = true) ∧
  NoDup (aliases (m_saved m)).
Proof.
  intros Hnd Hr. destruct (manager_run_ok _ _ _ _ _ Hnd Hr) as [Hm Hcfg].
  split_and!; [| |by apply mk_saved].
  - intros a b ea eb Hab Ha Hb. split.
    + destruct (decide (e_port ea = e_port eb)) as [He|]; [right|by left].
      by destruct (mk_port m Hm a b ea eb Ha Hb He).
    + intros Ht ip [Hia Hib]. rewrite <-Hcfg in Ht. apply Hab, (mk_prefix m Hm a b ea eb Ht Ha Hb).
      eapply slices_apart; [by eapply mk_slice|by eapply mk_slice|done|done].
  - intros Ht a e pool ip Ha Hpool Hip. rewrite <-Hcfg in *. eapply slice_in_pool; [|done|done]. by eapply mk_slice.
Qed.

(** The pool is not made of IPv6 addresses. *)
Definition pool4 (cfg : Config) : Prop :=
  ∀ p, ParsePrefix (mc_LocalPool cfg) = Some p → prefix_IsValid p = true ∧ ∃ v, p_addr p = Addr4 v.

Lemma freePrefix_total m : pool4 (m_cfg m) → ∃ r, freePrefixLocked m = Some r.
Proof.
  intros Hp. unfold freePrefixLocked. destruct (mc_NoTranslate _); [by eexists|].
  destruct (ParsePrefix _) as [p|] eqn:Hpp; [|by eexists]. destruct (Hp p Hpp) as (Hb & v & Hv).
  cbn zeta. destruct (_ || _); [by eexists|]. unfold prefixBase, prefix_Masked. rewrite Hb, Hv. by eexists.
Qed.

(** Connecting never panics with such a pool, and refuses exactly the settings that are not
    valid. *)
Lemma Connect_cases udpFree start eng m n :
  manager_ok m → pool4 (m_cfg m) →
  ∃ m' r, Connect udpFree start eng m n = Some (m', r) ∧
    ∀ e, r = Err (EInvalid e) ↔ Validate (set_auto (connected_network n) (n_AutoConnect n)) = Some e.
Proof.
  intros Hm Hp. set (n' := connected_network n).
  pose proof (drop_ok m n' Hm) as (_ & _ & Hcfg & _). unfold Connect, connect_network.
  change (set_auto n' (n_AutoConnect n)) with (set_publish (set_alias n (NormalizeAlias (n_Alias n))) (NormalizePublish (n_Publish n))).
  fold (connected_network n). fold n'.
  destruct (Validate _) as [e|]; [eexists _, _; split; [done|naive_solver]|].
  destruct (connect_drop m n') as [m1 prev]. cbn [fst] in Hcfg. unfold connect_choose.
  destruct (freePrefix_total m1) as [pr ->]; [by rewrite Hcfg|]. cbn [mbind option_bind].
  destruct pr as [p|e]; [|by eexists _, _].
  destruct (start _); by eexists _, _.
Qed.

(** Connecting never panics with such a pool.  A network with bad settings changes nothing;
    any other is kept on disk in its normal form, replacing one with its name, and is up
    when [Connect] reports no error and only then; the other networks stay as they were. *)
Theorem Connect_correct udpFree start eng m n :
  manager_ok m → pool4 (m_cfg m) →
  let n' := connected_network n in
  ∃ m' r, Connect udpFree start eng m n = Some (m', r) ∧
  (∀ e, r = Err (EInvalid e) ↔ Validate (set_auto n' (n_AutoConnect n)) = Some e) ∧
  match r with
  | Err (EInvalid _) => m' = m
  | _ => n' ∈ m_saved m' ∧ (is_Some (m_nets m' !! n_Alias n') ↔ r = Ok ()) ∧
      (∀ a, a ≠ n_Alias n' → m_nets m' !! a = m_nets m !! a) ∧
      (∀ x, n_Alias x ≠ n_Alias n' → x ∈ m_saved m' ↔ x ∈ m_saved m)
  end.
Proof.
  intros Hm Hp n'. destruct (Connect_cases udpFree start eng m n Hm Hp) as (m' & r & Hc & He).
  exists m', r. split_and!; [done|done|]. by apply (Connect_spec udpFree start eng m n m' r).
Qed.

(** ** Networks that are up are remembered *)

Lemma Connect_live_saved udpFree start eng m n m' r :
  manager_ok m → live_saved m → Connect udpFree start eng m n = Some (m', r) → live_saved m'.
Proof.
  intros Hm Hl Hc. pose proof (Connect_spec _ _ _ _ _ _ _ Hm Hc) as (_ & _ & Hr). cbn in Hr.
  assert (m' = m ∨ connected_network n ∈ m_saved m' ∧
      (∀ a, a ≠ n_Alias (connected_network n) → m_nets m' !! a = m_nets m !! a) ∧
      (∀ x, n_Alias x ≠ n_Alias (connected_network n) → x ∈ m_saved m' ↔ x ∈ m_saved m))
    as [->|(Hin & Ho & Hx)]; [|done|].
  { destruct r as [[]|[e|e|e]]; [right|by left|right|right]; by destruct Hr as (? & _ & ? & ?). }
  intros a Ha. apply list_elem_of_fmap. destruct (decide (a = n_Alias (connected_network n))) as [->|Hne].
  { by eexists. }
  rewrite Ho in Ha by done. apply Hl, list_elem_of_fmap in Ha as (x & -> & Hs).
  exists x. split; [done|]. by apply Hx.
Qed.

Lemma live_saved_step m m' :
  manager_ok m → live_saved m → manager_step stable_alias m m' → live_saved m'.
Proof.
  intros Hm Hl Hs. destruct Hs as [udpFree start eng m n m' r Hc|m alias|m alias Hst|m].
  - by eapply Connect_live_saved.
  - intros a Ha. rewrite Disconnect_aliases. apply Hl. cbn in Ha.
    destruct Ha as [e [_ He]%lookup_delete_Some]. eauto.
  - intros a Ha. apply Forget_aliases. cbn in Ha. rewrite Hst in Ha.
    destruct Ha as [e [Hne He]%lookup_delete_Some]. split; [done|]. apply Hl. eauto.
  - intros a [e He]. by cbn in He.
Qed.

(** Every network that is up is in the list on disk, so that it comes up again, as long as
    networks are forgotten by names whose normal form is normal. *)
Theorem live_networks_remembered cfg dns saved m :
  NoDup (aliases saved) → rtc (manager_step stable_alias) (MkManager cfg dns ∅ saved) m →
  ∀ a, is_Some (m_nets m !! a) → ∃ n, n ∈ m_saved m ∧ n_Alias n = a.
Proof.
  intros Hnd Hr a Ha.
  assert (live_saved m) as Hl.
  { pose proof (idle_ok cfg dns saved Hnd) as H0.
    assert (live_saved (MkManager cfg dns ∅ saved)) as H1 by (by intros b [e He]; cbn in He).
    induction Hr as [|x y z Hxy _ IH]; [done|]. apply IH; [done|by eapply manager_step_ok|by eapply live_saved_step]. }
  apply Hl, list_elem_of_fmap in Ha as (n & -> & Hn). eauto.
Qed.

(** With the other names that fails: [Forget] strikes out one network and, normalising the
    name again, takes down another; the first keeps running. *)
Lemma Forget_leaves_running e m :
  m_nets m !! " home"%string = Some e →
  let m' := Forget m ". home" in
  m_nets m' !! " home"%string = Some e ∧ m_nets m' !! "home"%string = None ∧ (" home"%string ∉ aliases (m_saved m')).
Proof.
  intros He. destruct alias_normalised_twice as (H1 & _ & H2). split_and!.
  - cbn [Forget Disconnect set_saved set_nets m_nets]. rewrite H2. by rewrite lookup_delete_ne.
  - cbn [Forget Disconnect set_saved set_nets m_nets]. rewrite H2. by apply lookup_delete_eq.
  - intros Hin%Forget_aliases. by destruct Hin as [[] _].
Qed.

(** ** Calls that overlap

    [Connect] chooses a range and a port, lets go of the lock, and enters them when the
    engine is up.  Two calls that have both chosen before either enters end with the same. *)
Lemma overlapping_connects_collide udpFree m n1 n2 eng1 eng2 port p :
  n_Alias n1 ≠ n_Alias n2 → m_nets m !! n_Alias n1 = None → m_nets m !! n_Alias n2 = None →
  let m1 := (connect_drop m n1).1 in
  let m2 := (connect_drop m1 n2).1 in
  connect_choose udpFree m1 = Some (port, Ok p) →
  connect_choose udpFree m2 = Some (port, Ok p) ∧
  let m' := connect_enter (connect_enter m2 n1 eng1 port p) n2 eng2 port p in
  m_nets m' !! n_Alias n1 = Some (MkEntry (Some eng1) port p) ∧
  m_nets m' !! n_Alias n2 = Some (MkEntry (Some eng2) port p).
Proof.
  intros Hne H1 H2 m1 m2. unfold m2, m1, connect_drop. rewrite H1. cbn [fst]. rewrite H2. cbn [fst].
  intros Hc. split; [done|]. cbn [connect_enter set_nets m_nets]. split; [|apply lookup_insert_eq].
  rewrite lookup_insert_ne by done. apply lookup_insert_eq.
Qed.

(** ** Two networks of a device *)

Definition demo_network (alias token : string) : Network :=
  MkNetwork alias "vpn.example.org:8443" "" token "laptop" false true [].

Definition demo_config : Config := m_cfg (New (MkConfig "" "" "device-1" 0 "" 0 false)).

Definition demo_connect (eng : N) (n : Network) (m : Manager) : Manager :=
  match Connect (λ _, true) (λ _, None) eng m n with Some (m', Ok _) => m' | _ => m end.

Definition demo_idle : Manager := MkManager demo_config false ∅ [].
Definition demo_one : Manager := demo_connect 1 (demo_network "Home" "t1") demo_idle.
Definition demo_two : Manager := demo_connect 2 (demo_network "work" "t2") demo_one.

Lemma demo_two_reached P : rtc (manager_step P) demo_idle demo_two.
Proof.
  apply (rtc_l _ _ demo_one); [|apply rtc_once].
  - apply (step_Connect _ (λ _, true) (λ _, None) 1 _ (demo_network "Home" "t1") _ (Ok ())). by vm_compute.
  - apply (step_Connect _ (λ _, true) (λ _, None) 2 _ (demo_network "work" "t2") _ (Ok ())). by vm_compute.
Qed.

Lemma demo_pool4 : pool4 demo_config.
Proof. intros p Hp. vm_compute in Hp. injection Hp as <-. split; [done|by eexists]. Qed.

Lemma Connect_correct_witness :
  ∃ m' r, Connect (λ _, true) (λ _, Some EAdapter) 1 demo_two (demo_network "HOME." "t3") = Some (m', r) ∧
    m_nets m' !! "home"%string = None ∧ m_nets m' !! "work"%string = m_nets demo_two !! "work"%string.
Proof.
  destruct (Connect_correct (λ _, true) (λ _, Some EAdapter) 1 demo_two (demo_network "HOME." "t3")) as (m' & r & Hc & He & Hr).
  - exact (proj1 (manager_run_ok any_alias demo_config false [] _ NoDup_nil_2 (demo_two_reached _))).
  - exact demo_pool4.
  - exists m', r. split; [exact Hc|]. vm_compute in Hc. injection Hc as <- <-. destruct Hr as (_ & Hl & Ho & _).
    split; [|by apply Ho]. by vm_compute.
Defined.

Lemma networks_apart_witness :
  ∃ ea eb, m_nets demo_two !! "home"%string = Some ea ∧ m_nets demo_two !! "work"%string = Some eb ∧
    e_port ea ≠ e_port eb ∧
    ∀ ip, ¬ (prefix_Contains (e_prefix ea) ip = true ∧ prefix_Contains (e_prefix eb) ip = true).
Proof.
  destruct (networks_apart demo_config false [] demo_two) as (H & _ & _);
    [apply NoDup_nil_2|exact (demo_two_reached _)|].
  exists (MkEntry (Some 1%N) 51820 (MkPrefix (Addr4 1685061632) 16)),
    (MkEntry (Some 2%N) 51821 (MkPrefix (Addr4 1685127168) 16)).
  assert (m_nets demo_two !! "home"%string = Some (MkEntry (Some 1%N) 51820 (MkPrefix (Addr4 1685061632) 16))) as Ha
    by (by vm_compute).
  assert (m_nets demo_two !! "work"%string = Some (MkEntry (Some 2%N) 51821 (MkPrefix (Addr4 1685127168) 16))) as Hb
    by (by vm_compute).
  split_and!; [exact Ha|exact Hb|done|].
  refine (proj2 (H _ _ _ _ _ Ha Hb) _); [done|by vm_compute].
Defined.

Lemma live_networks_remembered_witness :
  ∃ n, n ∈ m_saved demo_two ∧ n_Alias n = "work"%string.
Proof.
  apply (live_networks_remembered demo_config false [] demo_two); [apply NoDup_nil_2|exact (demo_two_reached _)|].
  by exists (MkEntry (Some 2%N) 51821 (MkPrefix (Addr4 1685127168) 16)).
Defined.
