(* ===== verification/ManagerStatus.v ===== *)
(** * What the manager reports (client/manager/manager.go)

    Networks are listed in the order of their names, and a network whose overlay range is
    in the host's routing table is reported with the others its range overlaps. *)
From Stdlib Require Import Ascii String.
From S2P Require Import Prelude GoString GoStringFacts Netip NetipFacts Proto Profile Engine Manager.

Local Open Scope Z_scope.

Lemma prefix_Overlaps_sym p o : prefix_Overlaps p o = prefix_Overlaps o p.
Proof.
  unfold prefix_Overlaps. rewrite (orb_comm (negb (prefix_IsValid p))), (Z.min_comm (p_bits p)).
  rewrite (bool_decide_ext (p = o) (o = p)) by done.
  destruct (_ || _); [done|]. case_bool_decide; [done|].
  replace (Bool.eqb (addr_Is4 (p_addr o)) (addr_Is4 (p_addr p))) with (Bool.eqb (addr_Is4 (p_addr p)) (addr_Is4 (p_addr o)))
    by (by destruct (addr_Is4 _), (addr_Is4 _)).
  destruct (negb _); [done|]. cbn zeta. generalize (Z.min (p_bits o) (p_bits p)). intros k.
  destruct (k =? 0); [done|].
  destruct (addr_high (p_addr p) k), (addr_high (p_addr o) k); try done. by apply bool_decide_ext.
Qed.

Lemma NoDup_fmap_eq {A B} (f : A → B) (l : list A) (x y : A) :
  NoDup (f <$> l) → x ∈ l → y ∈ l → f x = f y → x = y.
Proof.
  intros Hnd (i & Hi)%list_elem_of_lookup (j & Hj)%list_elem_of_lookup He.
  assert (i = j) as ->; [|congruence].
  apply (NoDup_lookup (f <$> l) i j (f x)); [done|by rewrite list_lookup_fmap, Hi|by rewrite list_lookup_fmap, Hj, He].
Qed.

Definition others (clash : gmap string (list string)) (a : string) : list string := default [] (clash !! a).

Lemma others_add clash a b x y :
  y ∈ others (add_clash clash a b) x ↔ x = a ∧ y = b ∨ (y ∈ others clash x).
Proof.
  unfold others, add_clash. destruct (decide (a = x)) as [->|Hne].
  - rewrite lookup_insert_eq. cbn. rewrite elem_of_app, list_elem_of_singleton. naive_solver.
  - rewrite lookup_insert_ne by done. naive_solver.
Qed.

(** Two of the spans overlap, in either order. *)
Definition meets (s t : span) (x y : string) : Prop :=
  prefix_Overlaps (sp_prefix s) (sp_prefix t) = true ∧
  (x = sp_alias s ∧ y = sp_alias t ∨ x = sp_alias t ∧ y = sp_alias s).

Lemma clash_with_spec s rest clash x y :
  y ∈ others (clash_with s rest clash) x ↔ (∃ t, t ∈ rest ∧ meets s t x y) ∨ (y ∈ others clash x).
Proof.
  revert clash. induction rest as [|t rest IH]; intros clash; cbn [clash_with].
  { split; [by right|]. intros [(t & []%not_elem_of_nil & _)|?]; done. }
  rewrite IH. unfold meets at 2. setoid_rewrite elem_of_cons.
  destruct (prefix_Overlaps (sp_prefix s) (sp_prefix t)) eqn:Ho; rewrite ?others_add;
    unfold meets; split; naive_solver congruence.
Qed.

Lemma clashes_spec spans clash x y :
  y ∈ others (clashes spans clash) x ↔
    (∃ pre s mid t post, spans = pre ++ s :: mid ++ t :: post ∧ meets s t x y) ∨ (y ∈ others clash x).
Proof.
  revert clash. induction spans as [|s rest IH]; intros clash; cbn [clashes].
  { split; [by right|]. intros [(pre & s & mid & t & post & H & _)|?]; [by destruct pre|done]. }
  rewrite IH, clash_with_spec. split.
  - intros [(pre & u & mid & t & post & -> & Hm)|[(t & (mid & post & ->)%list_elem_of_split & Hm)|?]].
    + left. by exists (s :: pre), u, mid, t, post.
    + left. by exists [], s, mid, t, post.
    + by right.
  - intros [([|z pre] & u & mid & t & post & [= -> ->] & Hm)|?].
    + right. left. exists t. split; [|done]. apply elem_of_app. right. by apply list_elem_of_here.
    + left. by exists pre, u, mid, t, post.
    + by right; right.
Qed.

Lemma split_two {A} (l : list A) (a b : A) :
  a ∈ l → b ∈ l → a ≠ b → ∃ pre s mid t post, l = pre ++ s :: mid ++ t :: post ∧ (s = a ∧ t = b ∨ s = b ∧ t = a).
Proof.
  intros (pre & post & ->)%list_elem_of_split Hb Hne.
  rewrite elem_of_app, elem_of_cons in Hb. destruct Hb as [Hb|[->|Hb]]; [| done|];
    apply list_elem_of_split in Hb as (u & v & ->).
  - exists u, b, v, a, post. rewrite <-app_assoc. cbn. auto.
  - exists pre, a, u, b, v. auto.
Qed.

(** The names gathered for a network: those of the other spans its own overlaps. *)
Lemma clashes_names spans x y :
  NoDup (sp_alias <$> spans) →
  y ∈ others (clashes spans ∅) x ↔
    ∃ s t, s ∈ spans ∧ t ∈ spans ∧ sp_alias s = x ∧ sp_alias t = y ∧ x ≠ y ∧
      prefix_Overlaps (sp_prefix s) (sp_prefix t) = true.
Proof.
  intros Hnd. rewrite clashes_spec. unfold others at 1. rewrite lookup_empty. cbn [default from_option]. split.
  - intros [(pre & s & mid & t & post & -> & Ho & Hxy)|[]%not_elem_of_nil].
    assert (sp_alias s ≠ sp_alias t) as Hne.
    { rewrite fmap_app, fmap_cons, fmap_app, fmap_cons in Hnd. apply NoDup_app in Hnd as (_ & _ & Hnd).
      apply NoDup_cons in Hnd as [Hnd _]. intros E. apply Hnd, elem_of_app. right. rewrite E. apply list_elem_of_here. }
    assert (s ∈ pre ++ s :: mid ++ t :: post ∧ t ∈ pre ++ s :: mid ++ t :: post) as [Hs Ht]
      by (split; set_solver).
    destruct Hxy as [[-> ->]|[-> ->]]; [by exists s, t|]. exists t, s. by rewrite prefix_Overlaps_sym.
  - intros (s & t & Hs & Ht & <- & <- & Hne & Ho). left.
    destruct (split_two spans s t Hs Ht) as (pre & u & mid & v & post & -> & Huv); [congruence|].
    exists pre, u, mid, v, post. split; [done|]. split; [|destruct Huv as [[-> ->]|[-> ->]]; tauto].
    destruct Huv as [[-> ->]|[-> ->]]; [done|]. by rewrite prefix_Overlaps_sym.
Qed.

(** ** The report *)

Definition ms_alias (s : MStatus) : string := n_Alias (ms_Network s).

(** The overlay range of a connected network whose addresses are not translated. *)
Definition exposed (s : MStatus) (p : Prefix) : Prop :=
  st_Connected (ms_Engine s) = true ∧ st_LocalCIDR (ms_Engine s) = "" ∧
  st_OverlayCIDR (ms_Engine s) ≠ "" ∧ ParsePrefix (st_OverlayCIDR (ms_Engine s)) = Some p.

Lemma span_of_exposed s x : span_of s = Some x ↔ sp_alias x = ms_alias s ∧ exposed s (sp_prefix x).
Proof.
  unfold span_of, exposed, ms_alias. destruct (st_Connected _); cbn [negb orb]; [|naive_solver].
  destruct (String.eqb_spec (st_OverlayCIDR (ms_Engine s)) "") as [E|E]; cbn [orb]; [naive_solver|].
  destruct (String.eqb_spec (st_LocalCIDR (ms_Engine s)) "") as [E'|E']; cbn [negb]; [|naive_solver].
  destruct (ParsePrefix _) as [p|]; cbn [mbind option_bind]; [|naive_solver].
  split; [by intros [= <-]|]. destruct x. cbn. naive_solver.
Qed.

(** What the engine of a network reports. *)
Definition reported (status : N → Engine.Status) (m : Manager) (n : Network) : Engine.Status :=
  match m_nets m !! n_Alias n with
  | Some (MkEntry (Some eng) _ _) => status eng
  | _ => status_zero
  end.

Definition unwarned (status : N → Engine.Status) (m : Manager) : list MStatus :=
  merge_sort by_alias ((λ n, MkMStatus n (reported status m n) None) <$> m_saved m).

Definition warn (clash : gmap string (list string)) (s : MStatus) : MStatus :=
  match others clash (ms_alias s) with
  | [] => s
  | names => MkMStatus (ms_Network s) (ms_Engine s) (Some (st_OverlayCIDR (ms_Engine s), sort_strings names))
  end.

Lemma Statuses_warn status m :
  Statuses status m = warn (clashes (omap span_of (unwarned status m)) ∅) <$> unwarned status m.
Proof. done. Qed.

Lemma warn_same clash s : ms_Network (warn clash s) = ms_Network s ∧ ms_Engine (warn clash s) = ms_Engine s.
Proof. unfold warn. by destruct (others _ _). Qed.

Lemma unwarned_perm status m : ms_Network <$> unwarned status m ≡ₚ m_saved m.
Proof.
  unfold unwarned. rewrite merge_sort_Permutation, <-list_fmap_compose.
  by rewrite list_fmap_id.
Qed.

Lemma unwarned_elem status m s :
  s ∈ unwarned status m ↔ ms_Network s ∈ m_saved m ∧ s = MkMStatus (ms_Network s) (reported status m (ms_Network s)) None.
Proof.
  unfold unwarned. rewrite merge_sort_Permutation, list_elem_of_fmap. split.
  - intros (n & -> & Hn). done.
  - intros [Hn ->]. by exists (ms_Network s).
Qed.

Lemma omap_span_aliases (l : list MStatus) : (sp_alias <$> omap span_of l) `sublist_of` (ms_alias <$> l).
Proof.
  induction l as [|s l IH]; cbn [omap list_omap fmap list_fmap]; [constructor|].
  destruct (span_of s) as [x|] eqn:Hx; [|by constructor].
  apply span_of_exposed in Hx as [Hx _]. cbn [fmap list_fmap]. rewrite Hx. by constructor.
Qed.

Lemma spans_NoDup status m : NoDup (aliases (m_saved m)) → NoDup (sp_alias <$> omap span_of (unwarned status m)).
Proof.
  intros Hnd. eapply sublist_NoDup; [|apply omap_span_aliases].
  assert (ms_alias <$> unwarned status m ≡ₚ aliases (m_saved m)) as ->; [|done].
  unfold aliases. rewrite <-(unwarned_perm status m). by rewrite <-list_fmap_compose.
Qed.

Lemma by_alias_strongly (l : list MStatus) (f : MStatus → MStatus) :
  (∀ s, ms_Network (f s) = ms_Network s) → StronglySorted by_alias l → StronglySorted by_alias (f <$> l).
Proof.
  intros Hf Hs. induction Hs as [|s l _ IH Hall]; cbn [fmap list_fmap]; constructor; [done|].
  apply Forall_fmap. eapply Forall_impl; [exact Hall|]. intros t. unfold by_alias. cbn. by rewrite !Hf.
Qed.

Definition warned (s : MStatus) (b : string) : Prop :=
  ∃ cidr names, ms_Warning s = Some (cidr, names) ∧ (b ∈ names).

Lemma warned_names clash s b : ms_Warning s = None → warned (warn clash s) b ↔ b ∈ others clash (ms_alias s).
Proof.
  intros Hs. unfold warned, warn. destruct (others clash (ms_alias s)) as [|z names] eqn:Ho.
  - rewrite Hs. split; [by intros (? & ? & ? & _)|by intros []%not_elem_of_nil].
  - cbn [ms_Warning]. split.
    + intros (c & ns & [= <- <-] & Hb). unfold sort_strings in Hb. by rewrite merge_sort_Permutation in Hb.
    + intros Hb. eexists _, _. split; [done|]. unfold sort_strings. by rewrite merge_sort_Permutation.
Qed.

Lemma warn_text clash s cidr names :
  ms_Warning s = None → ms_Warning (warn clash s) = Some (cidr, names) →
  cidr = st_OverlayCIDR (ms_Engine s) ∧ names ≠ [] ∧ StronglySorted String.le names.
Proof.
  intros Hs. unfold warn. destruct (others _ _) as [|b names'] eqn:Ho; [by rewrite Hs|].
  cbn [ms_Warning]. intros [= <- <-]. split_and!; [done| |apply StronglySorted_merge_sort; apply _].
  intros E. pose proof (merge_sort_Permutation String.le (b :: names')) as Hp. unfold sort_strings in E.
  rewrite E in Hp. by apply Permutation_nil_l in Hp.
Qed.

(** A name stands for one line of the report. *)
Lemma unwarned_unique status m s t :
  NoDup (aliases (m_saved m)) → s ∈ unwarned status m → t ∈ unwarned status m → ms_alias s = ms_alias t → s = t.
Proof.
  intros Hnd [Hs ->]%unwarned_elem [Ht ->]%unwarned_elem He.
  by rewrite (NoDup_fmap_eq n_Alias (m_saved m) (ms_Network s) (ms_Network t) Hnd Hs Ht He).
Qed.

Lemma Statuses_networks status m : ms_Network <$> Statuses status m ≡ₚ m_saved m.
Proof.
  rewrite Statuses_warn, <-list_fmap_compose, <-(unwarned_perm status m).
  erewrite list_fmap_ext; [reflexivity|]. intros i s _. cbn. by rewrite (proj1 (warn_same _ s)).
Qed.

(** C33: The report names every network of the device once, by the order of the names, with what
    its engine says.  A network is reported to clash with exactly those others whose
    overlay range, in the host's routing table too, overlaps its own; the warning names the
    range and lists the others in order. *)
Theorem Statuses_correct status m :
  NoDup (aliases (m_saved m)) →
  let l := Statuses status m in
  ms_Network <$> l ≡ₚ m_saved m ∧ StronglySorted by_alias l ∧
  ∀ s, s ∈ l →
    ms_Engine s = reported status m (ms_Network s) ∧
    (∀ cidr names, ms_Warning s = Some (cidr, names) →
       cidr = st_OverlayCIDR (ms_Engine s) ∧ names ≠ [] ∧ StronglySorted String.le names) ∧
    (∀ b, warned s b ↔ ∃ t p q, t ∈ l ∧ ms_alias t = b ∧ b ≠ ms_alias s ∧ exposed s p ∧ exposed t q ∧
       prefix_Overlaps p q = true).
Proof.
  intros Hnd l. unfold l. split; [apply Statuses_networks|]. rewrite Statuses_warn. pose proof (spans_NoDup status m Hnd) as Hsp.
  set (clash := clashes _ ∅). split_and!.
  - apply by_alias_strongly; [apply warn_same|]. apply (StronglySorted_merge_sort by_alias).
  - intros s0 (s & -> & Hs)%list_elem_of_fmap. destruct (warn_same clash s) as [Hwn Hwe].
    unfold exposed at 1, ms_alias at 2. rewrite Hwn, Hwe. fold (ms_alias s).
    pose proof Hs as [_ Hs']%unwarned_elem. split_and!; [by rewrite Hs'| |].
    + intros c names. apply warn_text. by rewrite Hs'.
    + intros b. rewrite warned_names by (by rewrite Hs').
      pose proof (clashes_names _ (ms_alias s) b Hsp) as Hcn. fold clash in Hcn. rewrite Hcn. clear Hcn. split.
      * intros (x & y & (sx & Hsx & Hx)%list_elem_of_omap & (sy & Hsy & Hy)%list_elem_of_omap & Hxa & <- & Hne & Ho).
        apply span_of_exposed in Hx as [Ex Hx], Hy as [Ey Hy]. exists (warn clash sy), (sp_prefix x), (sp_prefix y).
        destruct (warn_same clash sy) as [Hyn Hye]. unfold exposed, ms_alias. rewrite Hyn, Hye. fold (ms_alias sy).
        assert (sx = s) as -> by (apply (unwarned_unique status m); congruence).
        split; [apply list_elem_of_fmap; eauto|]. split; [congruence|].
        split; [intros E; apply Hne; unfold ms_alias; congruence|]. done.
      * intros (t0 & p & q & (t & -> & Ht)%list_elem_of_fmap & <- & Hne & Hp & Hq & Ho).
        destruct (warn_same clash t) as [Htn Hte]. unfold exposed, ms_alias in Hne, Hq |- *. rewrite Htn, ?Hte in *.
        exists (MkSpan (ms_alias s) p), (MkSpan (ms_alias t) q).
        split_and!; try done; apply list_elem_of_omap; [exists s|exists t]; (split; [done|by apply span_of_exposed]).
Qed.

(** ** Two networks with overlapping ranges *)

(** Both engines run without a local range and were assigned the same overlay. *)
Definition demo_status (eng : N) : Engine.Status :=
  MkStatus true "" false "" "" "10.50.0.0/16" "" "" "" "" "" "" [] [] ∅.

Lemma Statuses_correct_witness :
  ∃ s, s ∈ Statuses demo_status demo_two ∧ ms_alias s = "home"%string ∧ warned s "work".
Proof.
  destruct (Statuses_correct demo_status demo_two) as (_ & _ & H).
  { exact (mk_saved _ (proj1 (manager_run_ok any_alias demo_config false [] _ NoDup_nil_2 (demo_two_reached _)))). }
  destruct (nth_error (Statuses demo_status demo_two) 0) as [s|] eqn:Hs; [|by vm_compute in Hs].
  destruct (nth_error (Statuses demo_status demo_two) 1) as [t|] eqn:Ht; [|by vm_compute in Ht].
  assert (s ∈ Statuses demo_status demo_two) as Hsl by (by apply nth_error_In in Hs; apply list_elem_of_In).
  assert (t ∈ Statuses demo_status demo_two) as Htl by (by apply nth_error_In in Ht; apply list_elem_of_In).
  destruct (H s Hsl) as (_ & _ & Hw). clear H.
  vm_compute in Hs, Ht. injection Hs as Hs. injection Ht as Ht.
  exists s. split; [exact Hsl|]. split; [by rewrite <-Hs|]. apply Hw.
  exists t, (MkPrefix (Addr4 171048960) 16), (MkPrefix (Addr4 171048960) 16).
  split; [exact Htl|]. rewrite <-Hs, <-Ht. unfold exposed. split_and!; by vm_compute.
Defined.
