(* ===== verification/ManagerDns.v ===== *)
(** * Following the resolver (client/manager/manager.go with client/nrpt)

    The manager's goroutine keeps the system's rules equal to the zones the resolver
    answers for: a pass every two seconds, and every five minutes a pass that reads the
    system's rules again. *)
From Stdlib Require Import Ascii String.
From S2P Require Import Prelude GoString GoStringFacts Netip Profile Resolver Nrpt.

(** What a pass asks for: the zones of the resolver, none without one. *)
Definition zone_suffixes (dns : option Resolver) : list string :=
  match dns with Some r => Suffixes r | None => [] end.

(** The names of rules hold no comma, so that the joined text tells sets of them apart. *)
Lemma plainName_comma s : plainName s = true → has_byte "," s = false.
Proof.
  unfold plainName, runes. rewrite andb_true_iff. intros [Hr _].
  rewrite forallb_forall in Hr. setoid_rewrite <-list_elem_of_In in Hr.
  assert (Forall (λ p, plain_rune p.1 = true) (pieces (list_ascii_of_string s))) as Hp.
  { apply Forall_forall. intros p Hin. apply Hr, list_elem_of_fmap. eauto. }
  apply (ascii_runes_bytes (λ r, plain_rune r = true)) in Hp.
  2:{ intros r. unfold plain_rune, lower_alnum. lia. }
  clear Hr. induction s as [|a s IH]; [done|]. cbn [list_ascii_of_string] in Hp. inversion_clear Hp as [|?? Ha Hs].
  cbn [has_byte]. rewrite IH by done. destruct (Ascii.eqb_spec a ",") as [->|]; [by vm_compute in Ha|done].
Qed.

Lemma namespaces_comma l : Forall (λ ns, has_byte "," ns = false) (namespaces l).
Proof.
  assert (∀ seen, Forall (λ ns, has_byte "," ns = false) (namespaces_loop seen l)) as Hl.
  { induction l as [|s l IH]; intros seen; [constructor|]. cbn [namespaces_loop].
    destruct (plainName _) eqn:Hp; [|by rewrite orb_true_r].
    destruct (_ || _ || _); [done|]. constructor; [|done]. rewrite has_byte_app. by apply plainName_comma. }
  unfold namespaces, sort_strings. by rewrite merge_sort_Permutation.
Qed.

Lemma namespaces_joined l1 l2 :
  str_join (namespaces l1) "," = str_join (namespaces l2) "," → namespaces l1 = namespaces l2.
Proof.
  assert (∀ l, namespaces l = [] ∨ namespaces l ≠ [] ∧ str_join (namespaces l) "," ≠ ""%string ∧
    split_byte "," (str_join (namespaces l) ",") = namespaces l) as Hl.
  { intros l. destruct (decide (namespaces l = [])) as [|Hne]; [by left|right].
    pose proof (split_join "," (namespaces l) Hne (namespaces_comma l)) as Hs. split_and!; [done| |done].
    intros E. rewrite E in Hs. cbn in Hs. destruct (namespaces_spec l) as [_ Hall]. rewrite <-Hs in Hall.
    inversion_clear Hall as [|?? (s & Heq & _) _]. done. }
  destruct (Hl l1) as [E1|(Hn1 & He1 & Hs1)], (Hl l2) as [E2|(Hn2 & He2 & Hs2)]; intros He.
  - congruence.
  - rewrite E1 in He. by destruct He2.
  - rewrite E2 in He. by destruct He1.
  - congruence.
Qed.

Section follow.
Context {W E : Type} `{SystemLaws W E}.

(** A pass of [followZones]; an error is only logged. *)
Definition follow_pass (b : Binder) (w : W) (dns : option Resolver) : Binder * W * option E :=
  Apply b w (zone_suffixes dns).

(** The goroutine and the machine around it: passes, whatever they end with; the tick that makes
    the next one look again; and changes that others make to the table meanwhile, for which no
    law holds. *)
Inductive follow_step : Binder * W → Binder * W → Prop :=
| step_pass b w dns b' w' o : follow_pass b w dns = (b', w', o) → follow_step (b, w) (b', w')
| step_resync b w : follow_step (b, w) (Resync b, w)
| step_outside b w w' : follow_step (b, w) (b, w').

(** Steps in which nothing goes wrong that the binder does not notice: others leave its rules
    alone, and a pass that fails had been looking at the table. *)
Inductive calm_step : Binder * W → Binder * W → Prop :=
| calm_pass b w dns b' w' : follow_pass b w dns = (b', w', None) → calm_step (b, w) (b', w')
| calm_fail b w dns b' w' e :
    b_synced b = false → follow_pass b w dns = (b', w', Some e) → calm_step (b, w) (b', w')
| calm_resync b w : calm_step (b, w) (Resync b, w)
| calm_outside b w w' :
    (∀ have, sys_list w = Ok have → ∃ have', sys_list w' = Ok have' ∧ have' ≡ₚ have) → calm_step (b, w) (b, w').

(** What the binder believes about the system's rules is true. *)
Definition follow_ok (server : string) (x : Binder * W) : Prop :=
  b_server x.1 = server ∧
  (b_synced x.1 = true → ∃ suffixes, b_last x.1 = str_join (namespaces suffixes) "," ∧ reconciled x.2 server suffixes).

Lemma pass_server b w dns b' w' o : follow_pass b w dns = (b', w', o) → b_server b' = b_server b.
Proof using Type.
  unfold follow_pass, Apply. destruct (_ && _); [by intros [= <- _ _]|]. destruct (sys_list w) as [have|e]; [|by intros [= <- _ _]].
  destruct (plan _ _ _) as [add remove]. destruct (sys_mutate _ _ _ _) as [w1 [e|]]; by intros [= <- _ _].
Qed.

Lemma pass_ok server b w dns :
  trim_space server = server → follow_ok server (b, w) →
  match follow_pass b w dns with
  | (b', w', None) => follow_ok server (b', w') ∧ reconciled w' server (zone_suffixes dns)
  | (b', w', Some _) => b' = b
  end.
Proof using All.
  intros Htrim [Hs Hok]. cbn [fst snd] in *. unfold follow_pass.
  pose proof (Apply_cases b w (zone_suffixes dns)) as Hc. rewrite Hs in Hc. specialize (Hc Htrim).
  destruct (Apply b w (zone_suffixes dns)) as [[b' w'] [e|]]; [done|].
  destruct Hc as [(Hsy & Hl & -> & ->)|[-> Hr]].
  - split; [done|]. destruct (Hok Hsy) as (suf & Hl' & Hr). rewrite Hl in Hl'. apply namespaces_joined in Hl'.
    unfold reconciled in *. by rewrite Hl'.
  - split; [|done]. split; [done|]. intros _. by exists (zone_suffixes dns).
Qed.

Lemma reconciled_same server suffixes w w' :
  (∀ have, sys_list w = Ok have → ∃ have', sys_list w' = Ok have' ∧ have' ≡ₚ have) →
  reconciled w server suffixes → reconciled w' server suffixes.
Proof using Type.
  intros Hw (have & Hl & Hn & Hs). destruct (Hw have Hl) as (have' & Hl' & Hp). exists have'. split; [done|].
  by rewrite Hp.
Qed.

Lemma calm_step_ok server x y : trim_space server = server → follow_ok server x → calm_step x y → follow_ok server y.
Proof using All.
  intros Htrim Hx Hs. destruct Hs as [b w dns b' w' Hp|b w dns b' w' e Hsy Hp|b w|b w w' Hw].
  - pose proof (pass_ok server b w dns Htrim Hx) as Hc. rewrite Hp in Hc. apply Hc.
  - pose proof (pass_ok server b w dns Htrim Hx) as Hc. rewrite Hp in Hc. subst b'.
    destruct Hx as [? _]. split; [done|]. cbn [fst]. congruence.
  - destruct Hx as [? _]. by split.
  - destruct Hx as [? Hr]. split; [done|]. intros Hsy. destruct (Hr Hsy) as (suf & ? & ?). exists suf. split; [done|].
    by eapply reconciled_same.
Qed.

(** C15: The rules heal.  Whatever happened before, to the table by others or to passes that failed
    half way: from the next tick that makes the binder look again, or from the start, every pass
    that reports no error leaves exactly one rule of ours for every zone the resolver answers for
    at that moment, pointing at the resolver, and none for anything else, also when it did not
    go near the system; until others touch our rules again or a change fails half way, which a
    pass may not notice before the next such tick ([failed_change_forgotten],
    [outside_change_missed]). *)
Theorem follower_reconciles server w0 b1 w1 b2 w2 dns b' w' :
  trim_space server = server →
  rtc follow_step (MkBinder server false "", w0) (b1, w1) → b_synced b1 = false →
  rtc calm_step (b1, w1) (b2, w2) →
  follow_pass b2 w2 dns = (b', w', None) →
  reconciled w' server (zone_suffixes dns).
Proof using All.
  intros Htrim Hr Hsy Hcalm Hp.
  assert (∀ x y, rtc follow_step x y → b_server y.1 = b_server x.1) as Hserver.
  { clear. intros x y Hr. induction Hr as [|x y z Hxy _ IH]; [done|]. rewrite IH.
    destruct Hxy as [b w dns b' w' o Hp|b w|b w w']; [by eapply pass_server|done|done]. }
  assert (follow_ok server (b1, w1)) as Hok by (split; [apply (Hserver _ _ Hr)|cbn [fst]; congruence]).
  assert (follow_ok server (b2, w2)) as Hok2.
  { clear -Htrim Hok Hcalm H0. revert Hok. generalize (b1, w1), (b2, w2), Hcalm. intros x y Hc.
    induction Hc as [|x y z Hxy _ IH]; [done|]. intros Hx. apply IH. by eapply calm_step_ok. }
  pose proof (pass_ok server b2 w2 dns Htrim Hok2) as Hc. rewrite Hp in Hc. apply Hc.
Qed.

(** A change by others goes unnoticed while the zones stay the same. *)
Lemma outside_change_missed b w dns b' w' w2 :
  follow_pass b w dns = (b', w', None) → follow_pass b' w2 dns = (b', w2, None).
Proof using Type.
  unfold follow_pass, Apply. destruct (b_synced b && _) eqn:Hs; [intros [= <- _]; by rewrite Hs|].
  destruct (sys_list w) as [have|e]; [|done].
  destruct (plan _ _ _) as [add remove]. destruct (sys_mutate _ _ _ _) as [w1 [e|]]; [done|].
  intros [= <- _]. cbn [b_synced b_last andb]. by rewrite String.eqb_refl.
Qed.

(** A change that fails half way is forgotten: asked for the set it believed in before, the
    binder does not look at the system.  In particular [Clear] removes nothing when the set
    before was empty. *)
Lemma failed_change_forgotten b w l1 l2 b' w' e :
  b_synced b = true → b_last b = str_join (namespaces l1) "," →
  Apply b w l2 = (b', w', Some e) → Apply b' w' l1 = (b', w', None).
Proof using Type.
  intros Hs Hl Ha. assert (b' = b) as ->.
  { revert Ha. unfold Apply. destruct (_ && _); [done|]. destruct (sys_list w) as [have|]; [|by intros [= <- _ _]].
    destruct (plan _ _ _) as [add remove]. destruct (sys_mutate _ _ _ _) as [w1 [e'|]]; [by intros [= <- _ _]|done]. }
  unfold Apply. rewrite Hs, Hl, String.eqb_refl. done.
Qed.
End follow.

(** ** Witness: a network joined and left, over the table in memory *)

#[local] Existing Instance mem_system.
#[local] Existing Instance mem_laws.

(** A network is joined; an administrator removes its rule and a stray one of ours is put in; the
    tick comes, and the network is left. *)
Lemma follower_reconciles_witness :
  let w : gmap string (string * string) := {["7"%string := (".old"%string, "127.0.0.1"%string)]} in
  let x := (follow_pass (MkBinder "127.0.0.1" false "") w (Some demo_resolver)).1 in
  reconciled (follow_pass (Resync x.1) w None).1.2 "127.0.0.1" [].
Proof.
  intros w x. pose proof (mem_Apply (Resync x.1) w (zone_suffixes None)) as H2.
  apply (follower_reconciles "127.0.0.1" w (Resync x.1) w (Resync x.1) w None (follow_pass (Resync x.1) w None).1.1).
  - by vm_compute.
  - apply (rtc_l _ _ (x.1, x.2)); [|apply (rtc_l _ _ (x.1, w)); [apply step_outside|apply rtc_once, step_resync]].
    unfold x. destruct (follow_pass _ w _) as [[b1 w1] o] eqn:Hp. cbn [fst]. by apply (step_pass _ _ (Some demo_resolver) b1 w1 o).
  - done.
  - apply rtc_refl.
  - unfold follow_pass. revert H2. generalize (Apply (Resync x.1) w (zone_suffixes None)).
    intros [[b1 w1] o]. cbn [fst snd]. by intros ->.
Defined.
