(* ===== verification/ManagerBind.v ===== *)
(** * The goroutine that follows the resolver, and the stop of the manager
      (client/manager/manager.go with client/nrpt)

    [Start] hooks the resolver into the system and starts the goroutine of ManagerDns.v;
    [Stop] ends it, waits for it, and takes the rules out.  Both run beside each other here,
    a step for everything done under a lock or on a channel. *)
From Stdlib Require Import Ascii String.
From S2P Require Import Prelude GoString GoStringFacts Netip Profile Resolver Nrpt ManagerDns.

(** Where the goroutine is. *)
Inductive follower : Type :=
| FNone                                    (** not started *)
| FRead                                    (** about to look at the resolver *)
| FApply (suffixes : list string)          (** with its zones, before [b.Apply] *)
| FSelect                                  (** in the select *)
| FDone.                                   (** [done] is closed *)

Section bind.
Context {W E : Type} `{laws : SystemLaws W E}.

(** Where [Stop] is. *)
Inductive stopping : Type :=
| SNone
| SClose | SWait | SEngines | SClear       (** with the binder it took *)
| SReturned (r : option (option E)).       (** what [Clear] said, if there was a binder *)

Record binding : Type := MkBinding {
  bd_binder : Binder;
  bd_w : W;
  bd_hooked : bool;                        (** [m.bind] is set, and [m.dns] with it *)
  bd_closed : bool;                        (** [bindStop] is closed *)
  bd_follower : follower;
  bd_stop : stopping;
  bd_forgot : bool;                        (** a change failed that ManagerDns.v shows to be forgotten *)
}.

Definition with_follower (x : binding) (f : follower) : binding :=
  MkBinding (bd_binder x) (bd_w x) (bd_hooked x) (bd_closed x) f (bd_stop x) (bd_forgot x).

Definition with_stop (x : binding) (s : stopping) : binding :=
  MkBinding (bd_binder x) (bd_w x) (bd_hooked x) (bd_closed x) (bd_follower x) s (bd_forgot x).

(** [startBindingLocked], when the resolver listens on an address the rules can name. *)
Definition startBindingLocked (addr : string) (x : binding) : binding :=
  match Nrpt.New addr with
  | Ok b => MkBinding b (bd_w x) true false FRead (bd_stop x) false
  | Err _ => x
  end.

(** The goroutine's pass with the zones it read; an error is only logged. *)
Definition follow (x : binding) (suffixes : list string) : binding :=
  let '(b, w, e) := Apply (bd_binder x) (bd_w x) suffixes in
  MkBinding b w (bd_hooked x) (bd_closed x) FSelect (bd_stop x)
    (bd_forgot x || match e with Some _ => b_synced (bd_binder x) | None => false end).

Definition clear (x : binding) : binding :=
  let '(b, w, e) := Clear (bd_binder x) (bd_w x) in
  MkBinding b w (bd_hooked x) (bd_closed x) (bd_follower x) (SReturned (Some e)) (bd_forgot x).

Inductive binding_step : binding → binding → Prop :=
| b_start x addr : bd_follower x = FNone → binding_step x (startBindingLocked addr x)
| b_read x zones : bd_follower x = FRead → binding_step x (with_follower x (FApply (if bd_hooked x then zones else [])))
| b_apply x suffixes : bd_follower x = FApply suffixes → binding_step x (follow x suffixes)
| b_tick x : bd_follower x = FSelect → binding_step x (with_follower x FRead)
| b_resync x : bd_follower x = FSelect →
    binding_step x (MkBinding (Resync (bd_binder x)) (bd_w x) (bd_hooked x) (bd_closed x) FRead (bd_stop x) (bd_forgot x))
| b_end x : bd_follower x = FSelect → bd_closed x = true → binding_step x (with_follower x FDone)
| s_begin x : bd_stop x = SNone →
    binding_step x (MkBinding (bd_binder x) (bd_w x) false (bd_closed x) (bd_follower x)
      (if bd_hooked x then SClose else SReturned None) (bd_forgot x))
| s_close x : bd_stop x = SClose → binding_step x (MkBinding (bd_binder x) (bd_w x) (bd_hooked x) true (bd_follower x) SWait (bd_forgot x))
| s_waited x : bd_stop x = SWait → bd_follower x = FDone → binding_step x (with_stop x SEngines)
| s_engines x : bd_stop x = SEngines → binding_step x (with_stop x SClear)
| s_clear x : bd_stop x = SClear → binding_step x (clear x).

(** ** What holds while both run *)

Definition past_wait (s : stopping) : Prop :=
  match s with SEngines | SClear | SReturned (Some _) => True | _ => False end.

Record bind_ok (server : string) (x : binding) : Prop := {
  bo_belief : bd_forgot x = false → (∀ r, bd_stop x ≠ SReturned r) → follow_ok server (bd_binder x, bd_w x);
  bo_running : bd_follower x ≠ FNone;
  bo_hooked : bd_stop x = SNone → bd_hooked x = true;
  bo_bound : bd_stop x ≠ SReturned None;
  bo_closed : bd_stop x = SWait → bd_closed x = true;
  bo_done : past_wait (bd_stop x) → bd_follower x = FDone;
  bo_cleared : bd_forgot x = false → bd_stop x = SReturned (Some None) → sys_list (bd_w x) = Ok [];
}.

(** A pass of either goroutine keeps the binder's belief. *)
Lemma Apply_belief server b w suffixes b' w' e :
  trim_space server = server → follow_ok server (b, w) → Apply b w suffixes = (b', w', e) →
  (e = None → follow_ok server (b', w') ∧ reconciled w' server suffixes) ∧ (e ≠ None → b' = b).
Proof using laws.
  intros Ht [Hs Hok] Ha. cbn [fst snd] in *. pose proof (Apply_cases b w suffixes) as Hc. rewrite Hs, Ha in Hc.
  specialize (Hc Ht). destruct e as [e|]; [split; [done|by intros _]|]. split; [|done]. intros _.
  destruct Hc as [(Hsy & Hl & -> & ->)|[-> Hr]].
  - split; [done|]. destruct (Hok Hsy) as (suf & Hl' & Hr). rewrite Hl in Hl'. apply namespaces_joined in Hl'.
    unfold reconciled in *. by rewrite Hl'.
  - split; [|done]. split; [done|]. intros _. by exists suffixes.
Qed.

Lemma reconciled_nil w server : reconciled w server [] → sys_list w = Ok [].
Proof using Type.
  intros (have & Hl & Hn & _). change (namespaces []) with (@nil string) in Hn.
  apply Permutation_nil_r in Hn. by apply fmap_nil_inv in Hn as ->.
Qed.

Lemma binding_step_ok server x y : trim_space server = server → bind_ok server x → binding_step x y → bind_ok server y.
Proof using laws.
  intros Ht [Hbel Hrun Hhook Hbound Hcl Hdone Hclr].
  destruct 1 as [x addr Hf|x zones Hf|x suf Hf|x Hf|x Hf|x Hf Hc|x Hs|x Hs|x Hs Hf|x Hs|x Hs].
  1: done.
  1,3,5: (split; cbn; try done; intros Hp%Hdone; congruence).
  - assert (∀ r, bd_stop x ≠ SReturned r) as Hnr.
    { intros [r|] Hr; [|done]. assert (past_wait (bd_stop x)) as Hp%Hdone by (by rewrite Hr). congruence. }
    unfold follow. destruct (Apply _ _ _) as [[b w] o] eqn:Ha.
    split; cbn; try done; [|intros Hp%Hdone; congruence|intros _ Hr; by destruct (Hnr _ Hr)].
    intros [Hfg Hsy]%orb_false_iff _. destruct (Apply_belief server _ _ _ _ _ _ Ht (Hbel Hfg Hnr) Ha) as [H1 H2].
    destruct o as [e|]; [|by apply H1]. rewrite H2 by done. split; [apply (Hbel Hfg Hnr)|]. cbn. congruence.
  - assert (∀ r, bd_stop x ≠ SReturned r) as Hnr.
    { intros [r|] Hr; [|done]. assert (past_wait (bd_stop x)) as Hp%Hdone by (by rewrite Hr). congruence. }
    split; cbn; try done; [|intros Hp%Hdone; congruence]. intros Hfg _. split; [apply (Hbel Hfg Hnr)|done].
  - rewrite (Hhook Hs). split; cbn; try done. intros Hfg _. apply Hbel; [done|]. by rewrite Hs.
  - split; cbn; try done. intros Hfg _. apply Hbel; [done|]. by rewrite Hs.
  - split; cbn; try done. intros Hfg _. apply Hbel; [done|]. by rewrite Hs.
  - split; cbn; try done; [intros Hfg _; apply Hbel; [done|]; by rewrite Hs|]. intros _. apply Hdone. by rewrite Hs.
  - unfold clear. destruct (Clear _ _) as [[b w] o] eqn:Ha.
    split; cbn; try done; [intros _ Hr; by destruct (Hr (Some o))|intros _; apply Hdone; by rewrite Hs|].
    intros Hfg [= ->]. assert (follow_ok server (bd_binder x, bd_w x)) as Hb by (apply Hbel; [done|]; by rewrite Hs).
    destruct (Apply_belief server _ _ _ _ _ _ Ht Hb Ha) as [Hcl' _]. by eapply reconciled_nil, Hcl'.
Qed.

(** The manager after [Start]. *)
Definition hooked (b : Binder) (w : W) : binding := MkBinding b w true false FRead SNone false.

Lemma bind_run_ok addr b w x :
  Nrpt.New addr = Ok b → trim_space (b_server b) = b_server b → rtc binding_step (hooked b w) x → bind_ok (b_server b) x.
Proof using laws.
  intros Hb Ht Hr. assert (bind_ok (b_server b) (hooked b w)) as H0.
  { split; cbn; try done. intros _ _. split; [done|]. cbn. unfold Nrpt.New in Hb.
    destruct (ParseAddrPort addr); [|done]. destruct (negb _); [done|]. by injection Hb as <-. }
  induction Hr as [|y z t Hyz _ IH]; [done|]. apply IH. by eapply binding_step_ok.
Qed.

(** The goroutine ends once it is asked to. *)
Lemma follower_ends x : bd_closed x = true → bd_follower x ≠ FNone → bd_stop x = SWait →
  ∃ y, rtc binding_step x y ∧ bd_follower y = FDone ∧ bd_stop y = SWait.
Proof using Type.
  intros Hc Hn Hs.
  assert (∀ y, bd_closed y = true → bd_stop y = SWait → bd_follower y = FSelect →
    ∃ z, rtc binding_step y z ∧ bd_follower z = FDone ∧ bd_stop z = SWait) as Hsel.
  { intros y H1 H2 H3. exists (with_follower y FDone). split; [by apply rtc_once, b_end|done]. }
  assert (∀ y l, bd_closed y = true → bd_stop y = SWait → bd_follower y = FApply l →
    ∃ z, rtc binding_step y z ∧ bd_follower z = FDone ∧ bd_stop z = SWait) as Happ.
  { intros y l H1 H2 H3. destruct (Hsel (follow y l)) as (z & R & Hz).
    1,2,3: unfold follow; by destruct (Apply _ _ _) as [[? ?] ?].
    exists z. split; [|exact Hz]. eapply rtc_l; [by apply b_apply|exact R]. }
  destruct (bd_follower x) as [| |l| |] eqn:Hf; [done| |by eapply Happ|by apply Hsel|by exists x].
  destruct (Happ (with_follower x (FApply (if bd_hooked x then [] else []))) (if bd_hooked x then [] else [])) as (z & R & Hz); [done..|].
  exists z. split; [|exact Hz]. eapply rtc_l; [by apply (b_read x [])|exact R].
Qed.

Lemma clear_returns x : ∃ e, bd_stop (clear x) = SReturned (Some e).
Proof using Type. unfold clear. destruct (Clear _ _) as [[? ?] e]. by exists e. Qed.

(** From the wait on. *)
Lemma stop_returns_wait x : bd_closed x = true → bd_follower x ≠ FNone → bd_stop x = SWait →
  ∃ y e, rtc binding_step x y ∧ bd_stop y = SReturned (Some e).
Proof using Type.
  intros Hc Hn Hs. destruct (follower_ends x Hc Hn Hs) as (y & R & Hf & Hy).
  destruct (clear_returns (with_stop (with_stop y SEngines) SClear)) as [e He].
  exists (clear (with_stop (with_stop y SEngines) SClear)), e. split; [|exact He].
  etransitivity; [exact R|]. eapply rtc_l; [by apply s_waited|]. eapply rtc_l; [by apply s_engines|].
  apply rtc_once. by apply s_clear.
Qed.

(** C17: However the goroutine that follows the resolver and the stop of the manager interleave,
    a stop can always go on to its end, and one that returns without an error, when no change
    of the rules failed half way before, leaves no rule of ours in the system; nothing puts
    one back afterwards. *)
Theorem stop_leaves_no_rules addr b w x :
  Nrpt.New addr = Ok b → trim_space (b_server b) = b_server b → rtc binding_step (hooked b w) x →
  (bd_forgot x = false → bd_stop x = SReturned (Some None) → sys_list (bd_w x) = Ok []) ∧
  (∀ r y, bd_stop x = SReturned r → rtc binding_step x y → bd_w y = bd_w x) ∧
  (∃ y e, rtc binding_step x y ∧ bd_stop y = SReturned (Some e)).
Proof using laws.
  intros Hb Ht Hr. pose proof (bind_run_ok addr b w x Hb Ht Hr) as Hok. split_and!.
  - apply Hok.
  - intros r y Hs Hy. destruct r as [r|]; [|by destruct (bo_bound _ _ Hok)].
    assert (bd_follower x = FDone) as Hf by (apply (bo_done _ _ Hok); by rewrite Hs).
    clear Hok Hr. induction Hy as [|x z y Hxz _ IH]; [done|].
    destruct Hxz; congruence.
  - destruct Hok as [_ Hrun Hhook Hbound Hcl Hdone _].
    assert (∀ z, bd_follower z ≠ FNone → bd_stop z = SClose → ∃ y e, rtc binding_step z y ∧ bd_stop y = SReturned (Some e)) as Hclose.
    { intros z Hz Hs. destruct (stop_returns_wait (MkBinding (bd_binder z) (bd_w z) (bd_hooked z) true (bd_follower z) SWait (bd_forgot z)))
        as (y & e & R & He); [done..|]. exists y, e. split; [|exact He]. eapply rtc_l; [by apply s_close|exact R]. }
    destruct (bd_stop x) as [| | | | |[e|]] eqn:Hs; [|by apply Hclose| | | |by exists x, e|done].
    + destruct (Hclose (MkBinding (bd_binder x) (bd_w x) false (bd_closed x) (bd_follower x) (if bd_hooked x then SClose else SReturned None) (bd_forgot x)))
        as (y & e & R & He); [done|cbn; by rewrite (Hhook eq_refl)|]. exists y, e. split; [|exact He].
      eapply rtc_l; [by apply s_begin|exact R].
    + apply stop_returns_wait; [by apply Hcl|done|done].
    + destruct (clear_returns (with_stop x SClear)) as [e He]. exists (clear (with_stop x SClear)), e. split; [|exact He].
      eapply rtc_l; [by apply s_engines|]. apply rtc_once. by apply s_clear.
    + destruct (clear_returns x) as [e He]. exists (clear x), e. split; [|exact He]. apply rtc_once. by apply s_clear.
Qed.
End bind.

(** ** Over the table in memory *)

#[local] Existing Instance mem_system.
#[local] Existing Instance mem_laws.

Abbreviation table_in_memory := (gmap string (string * string)).

Definition demo_binder : Binder := MkBinder "127.0.0.1" false "".

Lemma demo_binder_new : Nrpt.New "127.0.0.1:53" = Ok demo_binder.
Proof. by vm_compute. Qed.

(** The goroutine as far as its first pass over the zone of a network. *)
Definition one_pass (x : binding (W := table_in_memory) (E := string)) : binding :=
  follow (with_follower x (FApply (if bd_hooked x then ["alice"%string] else []))) (if bd_hooked x then ["alice"%string] else []).

Lemma one_pass_steps x : bd_follower x = FRead → rtc binding_step x (one_pass x).
Proof. intros Hf. eapply rtc_l; [by apply (b_read x ["alice"%string])|]. apply rtc_once. by apply b_apply. Qed.

(** … and the stop that follows. *)
Definition demo_stopped (w : table_in_memory) : binding :=
  let x := one_pass (hooked demo_binder w) in
  clear (MkBinding (bd_binder x) (bd_w x) false true FDone SClear (bd_forgot x)).

Lemma demo_stopped_reached w : rtc binding_step (hooked demo_binder w) (demo_stopped w).
Proof.
  etransitivity; [by apply one_pass_steps|]. unfold demo_stopped. set (x := one_pass (hooked demo_binder w)).
  assert (bd_follower x = FSelect ∧ bd_stop x = SNone ∧ bd_hooked x = true) as (Hf & Hs & Hh).
  { unfold x, one_pass, follow. by destruct (Apply _ _ _) as [[? ?] ?]. }
  eapply rtc_l; [by apply s_begin|]. rewrite Hh. eapply rtc_l; [by apply s_close|]. eapply rtc_l; [by apply b_end|].
  eapply rtc_l; [by apply s_waited|]. eapply rtc_l; [by apply s_engines|]. apply rtc_once. by apply s_clear.
Qed.

Lemma demo_stopped_fine w : bd_forgot (demo_stopped w) = false ∧ bd_stop (demo_stopped w) = SReturned (Some None).
Proof.
  unfold demo_stopped, clear, one_pass, follow, Clear. cbn [hooked bd_hooked bd_binder bd_w with_follower].
  pose proof (mem_Apply demo_binder w ["alice"%string]) as H1. destruct (Apply demo_binder w _) as [[b1 w1] e1]. cbn in H1. subst e1.
  cbn [bd_binder bd_w]. pose proof (mem_Apply b1 w1 []) as H2. destruct (Apply b1 w1 []) as [[b2 w2] e2]. cbn in H2. by subst e2.
Qed.

Lemma stop_leaves_no_rules_witness :
  let w : table_in_memory := {["7"%string := (".old"%string, "127.0.0.1"%string)]} in
  sys_list (bd_w (demo_stopped w)) = Ok [].
Proof.
  intros w. destruct (demo_stopped_fine w) as [Hf Hs].
  destruct (stop_leaves_no_rules "127.0.0.1:53" demo_binder w (demo_stopped w) demo_binder_new ltac:(by vm_compute) (demo_stopped_reached w))
    as (H & _). exact (H Hf Hs).
Defined.

(** A stop that comes before the goroutine of the service has reached [Start] finds nothing to
    stop; the start then hooks the resolver in, and its rules stay in the system. *)
Lemma stop_before_start :
  let x0 : binding (W := table_in_memory) (E := string) := MkBinding demo_binder ∅ false false FNone SNone false in
  ∃ x, rtc binding_step x0 x ∧ bd_stop x = SReturned None ∧
    (rule_name <$> from_option id [] (match sys_list (bd_w x) with Ok l => Some l | Err _ => None end)) = [".alice"%string].
Proof.
  intros x0. set (x1 := MkBinding (W := table_in_memory) (E := string) demo_binder ∅ false false FNone (SReturned None) false).
  exists (one_pass (startBindingLocked "127.0.0.1:53" x1)). split; [|by vm_compute].
  eapply rtc_l; [by apply (s_begin x0)|]. eapply rtc_l; [by apply (b_start _ "127.0.0.1:53")|]. by apply one_pass_steps.
Qed.
