(* ===== verification/ManagerStart.v ===== *)
(** * The saved networks and the start of the manager (client/manager/manager.go,
      client/profile/networks.go)

    Every change of the list of networks is written to a file; when the service starts, the
    list is read back and the networks that were left connected are connected again.  The
    file holds the list that was written; its JSON is the library's. *)
From Stdlib Require Import Ascii String.
From S2P Require Import Prelude GoString GoStringFacts Netip Proto Profile Engine Manager.

(** ** The file *)

Inductive networks_file : Type := Missing | Unreadable | Holds (l : list Network).

Definition LoadNetworks (f : networks_file) : option (list Network) :=
  match f with Missing => Some [] | Unreadable => None | Holds l => Some l end.

(** How a write ends; one that fails may leave half a file. *)
Inductive saving : Type := Saved | Kept | Spoiled.

Definition SaveNetworks (w : saving) (l : list Network) (f : networks_file) : networks_file :=
  match w with Saved => Holds l | Kept => f | Spoiled => Unreadable end.

(** ** The calls, with the file *)

(** What a call meets: free ports, how the engine's start ends, its number, and the write. *)
Record attempt : Type := MkAttempt {
  a_udpFree : Z → bool;
  a_start : Engine.Config → option start_error;
  a_eng : N;
  a_write : saving;
}.

Definition connect_file (a : attempt) (m : Manager) (f : networks_file) (n : Network)
  : option (Manager * networks_file * result connect_error ()) :=
  '(m, r) ← Connect (a_udpFree a) (a_start a) (a_eng a) m n;
  Some (m, match r with Err (EInvalid _) => f | _ => SaveNetworks (a_write a) (m_saved m) f end, r).

Definition disconnect_file (w : saving) (m : Manager) (f : networks_file) (alias : string) : Manager * networks_file :=
  let m := Disconnect m alias in (m, SaveNetworks w (m_saved m) f).

(** Both of its writes count only for the last one, unless that fails. *)
Definition forget_file (w1 w2 : saving) (m : Manager) (f : networks_file) (alias : string) : Manager * networks_file :=
  let '(_, f) := disconnect_file w1 m f (NormalizeAlias alias) in
  let m := Forget m alias in (m, SaveNetworks w2 (m_saved m) f).

(** ** Start *)

(** The loop over the list that was read.  That list is the manager's own: what [Connect]
    replaces in it is seen by later rounds, until an append that has no room ([spare]) moves
    the manager's list elsewhere.  Failures are logged. *)
Fixpoint reconnect (todo i len spare : nat) (cond : nat → attempt) (arr : list Network)
    (m : Manager) (f : networks_file) (log : list (string * connect_error))
  : option (Manager * networks_file * list (string * connect_error)) :=
  match todo with
  | O => Some (m, f, log)
  | S todo =>
    match arr !! i with
    | None => Some (m, f, log)
    | Some n =>
      if negb (n_AutoConnect n) then reconnect todo (S i) len spare cond arr m f log else
      '(m, f, r) ← connect_file (cond i) m f n;
      let arr := if (length (m_saved m) <=? len + spare)%nat then take len (m_saved m) else arr in
      reconnect todo (S i) len spare cond arr m f
        (log ++ match r with Err e => [(n_Alias n, e)] | Ok _ => [] end)
    end
  end.

Definition Start (listening : bool) (spare : nat) (cond : nat → attempt) (m : Manager) (f : networks_file)
  : option (Manager * networks_file * list (string * connect_error)) :=
  let dns := m_dns m || (negb (String.eqb (mc_DNSAddr (m_cfg m)) "") && listening) in
  let saved := default [] (LoadNetworks f) in
  reconnect (length saved) 0 (length saved) spare cond saved (MkManager (m_cfg m) dns (m_nets m) saved) f [].

(** ** Networks in the form they are kept in *)

(** Connecting a kept network again changes nothing but its mark. *)
Definition kept_form (n : Network) : Prop := connect_network n = Ok (set_auto n true).

Lemma Validate_auto n b : Validate (set_auto n b) = Validate n.
Proof. done. Qed.

Lemma connected_kept_form n n' : stable_alias (n_Alias n) → connect_network n = Ok n' → kept_form n'.
Proof.
  unfold connect_network, kept_form. intros Hst. set (n0 := set_publish _ _).
  destruct (Validate n0) as [e|] eqn:Hv; [done|]. intros [= <-].
  assert (set_publish (set_alias (set_auto n0 true) (NormalizeAlias (n_Alias (set_auto n0 true))))
            (NormalizePublish (n_Publish (set_auto n0 true))) = set_auto n0 true) as E.
  { unfold n0. cbn [set_auto set_publish set_alias n_Alias n_Publish n_Server n_Pin n_Token n_Name n_UseRelay n_AutoConnect].
    rewrite Hst. unfold NormalizePublish. rewrite <-list_fmap_compose.
    rewrite (list_fmap_ext (normal_service ∘ normal_service) normal_service); [done|].
    intros i s _. apply normal_service_idemp. }
  unfold connect_network. rewrite E, Validate_auto, Hv. done.
Qed.

Lemma kept_form_auto n b : kept_form n → kept_form (set_auto n b).
Proof.
  unfold kept_form, connect_network. cbn [set_auto n_Alias n_Publish].
  change (set_publish (set_alias (set_auto n b) (NormalizeAlias (n_Alias n))) (NormalizePublish (n_Publish n)))
    with (set_auto (set_publish (set_alias n (NormalizeAlias (n_Alias n))) (NormalizePublish (n_Publish n))) b).
  rewrite Validate_auto. destruct (Validate _); [done|]. intros [= H1 H2]. by rewrite H1, H2.
Qed.

Lemma kept_form_id n : kept_form n → n_AutoConnect n = true → connect_network n = Ok n.
Proof. unfold kept_form. intros -> Ha. destruct n. cbn in Ha. by rewrite Ha. Qed.

Lemma replace_saved_same n l : NoDup (aliases l) → n ∈ l → replace_saved n l = Some l.
Proof.
  induction l as [|x l IH]; [by intros _ ?%not_elem_of_nil|]. cbn [aliases fmap list_fmap replace_saved].
  intros [Hx Hnd]%NoDup_cons [->|Hn]%elem_of_cons; [by rewrite String.eqb_refl|].
  destruct (String.eqb_spec (n_Alias x) (n_Alias n)) as [E|_]; [|by rewrite IH].
  exfalso. apply Hx. rewrite E. apply list_elem_of_fmap. by exists n.
Qed.

Lemma alias_unique l x y : NoDup (aliases l) → x ∈ l → y ∈ l → n_Alias x = n_Alias y → x = y.
Proof.
  intros Hnd (i & Hi)%list_elem_of_lookup (j & Hj)%list_elem_of_lookup E.
  assert (i = j) as ->; [|congruence].
  apply (NoDup_lookup (aliases l) i j (n_Alias x) Hnd); unfold aliases; rewrite list_lookup_fmap.
  - by rewrite Hi.
  - by rewrite Hj, E.
Qed.

(** The list after a call of [Connect] that got past the checks. *)
Lemma Connect_saved udpFree start eng m n n' m' r :
  connect_network n = Ok n' → Connect udpFree start eng m n = Some (m', r) →
  m_saved m' = default (m_saved m ++ [n']) (replace_saved n' (m_saved m)) ∧ ∀ e, r ≠ Err (EInvalid e).
Proof.
  intros Hn. unfold Connect. rewrite Hn. unfold connect_drop.
  destruct (match m_nets m !! n_Alias n' with Some prev => _ | None => _ end) as [m1 prev] eqn:Hd.
  assert (m_saved m1 = m_saved m) as <- by (destruct (m_nets m !! _); by injection Hd as <- _).
  destruct (connect_choose udpFree m1) as [[port [p|e]]|]; cbn [mbind option_bind]; [|by intros [= <- <-]|done].
  destruct (start _); by intros [= <- <-].
Qed.

(** Why a network that was accepted does not come up: there is no range left for it, or its
    engine did not start. *)
Definition no_start (cfg : Config) (start : Engine.Config → option start_error) (e : connect_error) : Prop :=
  (∃ m e', m_cfg m = cfg ∧ freePrefixLocked m = Some (Err e') ∧ e = EPrefix e') ∨
  (∃ c e', start c = Some e' ∧ e = EEngine e').

Lemma Connect_no_start udpFree start eng m n n' m' e :
  connect_network n = Ok n' → Connect udpFree start eng m n = Some (m', Err e) → no_start (m_cfg m) start e.
Proof.
  intros Hn. unfold Connect. rewrite Hn.
  destruct (connect_drop m n') as [m1 prev] eqn:Hd.
  assert (m_cfg m1 = m_cfg m) as Hcfg by (unfold connect_drop in Hd; destruct (m_nets m !! _); by injection Hd as <- _).
  unfold connect_choose. destruct (freePrefixLocked m1) as [[p|e']|] eqn:Hp; cbn [mbind option_bind]; [|intros [= _ <-]|done].
  - destruct (start _) as [e'|] eqn:Hs; [|done]. intros [= _ <-]. right. eauto.
  - left. eauto.
Qed.

(** ** What a start brings up *)

(** The networks that are to be up, as far as the loop has come. *)
Definition wanted (l : list Network) (a : string) : Prop :=
  ∃ n, n ∈ l ∧ n_Alias n = a ∧ n_AutoConnect n = true.

Lemma wanted_snoc l n a : wanted (l ++ [n]) a ↔ wanted l a ∨ n_Alias n = a ∧ n_AutoConnect n = true.
Proof.
  unfold wanted. setoid_rewrite elem_of_app. setoid_rewrite list_elem_of_singleton. naive_solver.
Qed.

(** Between two rounds: the list has not changed, and what is up are the networks passed
    that were wanted and did not fail. *)
Record midway (cfg : Config) (l : list Network) (cond : nat → attempt) (i : nat) (m : Manager)
    (log : list (string * connect_error)) : Prop := {
  mw_ok : manager_ok m;
  mw_cfg : m_cfg m = cfg;
  mw_saved : m_saved m = l;
  mw_live : ∀ a, is_Some (m_nets m !! a) ↔ wanted (take i l) a ∧ (a ∉ log.*1);
  mw_log : ∀ a, a ∈ log.*1 → a ∈ aliases (take i l);
  mw_why : ∀ a e, (a, e) ∈ log → wanted l a ∧ ∃ j, no_start cfg (a_start (cond j)) e;
}.

Lemma Connect_total udpFree start eng m n :
  manager_ok m → pool4 (m_cfg m) → ∃ m' r, Connect udpFree start eng m n = Some (m', r).
Proof. intros Hm Hp. destruct (Connect_cases udpFree start eng m n Hm Hp) as (m' & r & Hc & _). eauto. Qed.

(** The file after a write of a list: that list, what it was, or nothing that can be read. *)
Lemma LoadNetworks_saved w l f x :
  LoadNetworks (SaveNetworks w l f) = Some x → x = l ∨ LoadNetworks f = Some x.
Proof. destruct w; cbn; [intros [= <-]; by left|by right|done]. Qed.

(** A round that connects. *)
Lemma connect_file_round cfg l cond i j m f log n :
  pool4 cfg → NoDup (aliases l) → Forall kept_form l →
  l !! i = Some n → n_AutoConnect n = true → midway cfg l cond i m log →
  ∃ m' r, connect_file (cond j) m f n = Some (m', SaveNetworks (a_write (cond j)) l f, r) ∧
    midway cfg l cond (S i) m' (log ++ match r with Err e => [(n_Alias n, e)] | Ok _ => [] end).
Proof.
  intros Hp Hnd Hk Hn Hauto [Hok Hcfg Hsaved Hlive Hlog Hwhy].
  assert (n ∈ l) as Hin by (by eapply list_elem_of_lookup_2).
  rewrite Forall_forall in Hk. pose proof (kept_form_id n (Hk n Hin) Hauto) as Hself.
  destruct (Connect_total (a_udpFree (cond j)) (a_start (cond j)) (a_eng (cond j)) m n Hok) as (m' & r & Hc); [by rewrite Hcfg|].
  destruct (Connect_saved _ _ _ _ _ _ _ _ Hself Hc) as [Hs Hr].
  rewrite Hsaved, replace_saved_same in Hs by done. cbn in Hs.
  pose proof (Connect_spec _ _ _ _ _ _ _ Hok Hc) as (Hok' & Hcfg' & Hspec). cbn zeta in Hspec.
  assert (connected_network n = n) as Hcn.
  { unfold connect_network in Hself. destruct (Validate _); [done|]. by injection Hself. }
  rewrite Hcn in Hspec.
  assert ((is_Some (m_nets m' !! n_Alias n) ↔ r = Ok ()) ∧ ∀ a, a ≠ n_Alias n → m_nets m' !! a = m_nets m !! a) as [Hup Hoth].
  { destruct r as [[]|[e|e|e]]; [|by destruct (Hr e)|..]; by destruct Hspec as (_ & ? & ? & _). }
  unfold connect_file. rewrite Hc. cbn [mbind option_bind]. exists m', r.
  split; [rewrite Hs; destruct r as [[]|[e|e|e]]; [done|by destruct (Hr e)|done..]|].
  assert (take (S i) l = take i l ++ [n]) as Htake by (by apply take_S_r).
  assert (n_Alias n ∉ aliases (take i l)) as Hfresh.
  { rewrite <-(take_drop_middle l i n Hn) in Hnd. unfold aliases in Hnd. rewrite fmap_app in Hnd.
    apply NoDup_app in Hnd as (_ & Hd & _). intros Ha. apply (Hd _ Ha). cbn. apply list_elem_of_here. }
  split; [done|congruence|congruence|..].
  - intros a. rewrite Htake, wanted_snoc, fmap_app, not_elem_of_app.
    destruct (decide (a = n_Alias n)) as [->|Hne].
    + rewrite Hup. assert (n_Alias n ∉ log.*1) as Hnl by (by intros ?%Hlog). split.
      * intros ->. split_and!; [by right|done|apply not_elem_of_nil].
      * intros (_ & _ & Hx). destruct r as [[]|e]; [done|]. exfalso. apply Hx, list_elem_of_here.
    + rewrite Hoth, Hlive by done.
      assert (a ∉ (match r with Err e => [(n_Alias n, e)] | Ok _ => [] end).*1) as Hx
        by (destruct r; cbn; set_solver). naive_solver.
  - intros a. rewrite Htake, fmap_app, elem_of_app. unfold aliases. rewrite fmap_app, elem_of_app.
    intros [Ha|Ha]; [left; by apply Hlog|right]. destruct r; cbn in *; [by apply not_elem_of_nil in Ha|done].
  - intros a e [Ha|Ha]%elem_of_app; [by apply Hwhy|]. destruct r as [|e']; [by apply not_elem_of_nil in Ha|].
    apply list_elem_of_singleton in Ha as [= -> ->]. split; [by exists n|]. exists j.
    rewrite <-Hcfg. by eapply Connect_no_start.
Qed.

(** The writes a run of the loop may make leave a file that holds the list, or what it held,
    or that cannot be read. *)
Definition file_after (ws : saving → Prop) (l : list Network) (f f' : networks_file) : Prop :=
  (∀ x, LoadNetworks f' = Some x → x = l ∨ LoadNetworks f = Some x) ∧
  ((∀ w, ws w → w = Saved) → LoadNetworks f = Some l → LoadNetworks f' = Some l).

Lemma file_after_refl ws l f : file_after ws l f f.
Proof. split; [by right|done]. Qed.

Lemma file_after_save (ws : saving → Prop) w l f f' :
  ws w → file_after ws l (SaveNetworks w l f) f' → file_after ws l f f'.
Proof.
  intros Hw [H1 H2]. split.
  - intros x [->|[->|Hx]%LoadNetworks_saved]%H1; [by left|by left|by right].
  - intros Hall Hf. apply H2; [done|]. by rewrite (Hall w Hw).
Qed.

Lemma reconnect_midway cfg (ws : saving → Prop) l spare cond todo :
  pool4 cfg → NoDup (aliases l) → Forall kept_form l → (∀ i, ws (a_write (cond i))) →
  ∀ i m f log, (i + todo)%nat = length l → midway cfg l cond i m log →
  ∃ m' f' log', reconnect todo i (length l) spare cond l m f log = Some (m', f', log') ∧
    midway cfg l cond (length l) m' log' ∧ file_after ws l f f'.
Proof.
  intros Hp Hnd Hk Hw. induction todo as [|todo IH]; intros i m f log Hi Hm; cbn [reconnect].
  { rewrite Nat.add_0_r in Hi. subst i. exists m, f, log. split_and!; [done|done|apply file_after_refl]. }
  destruct (lookup_lt_is_Some_2 l i) as [n Hn]; [lia|]. rewrite Hn.
  destruct (n_AutoConnect n) eqn:Hauto; cbn [negb].
  - destruct (connect_file_round cfg l cond i i m f log n) as (m' & r & Hc & Hm'); [done..|].
    rewrite Hc. cbn [mbind option_bind]. rewrite (mw_saved _ _ _ _ _ _ Hm'), take_ge by done.
    rewrite (proj2 (Nat.leb_le _ _)) by lia.
    edestruct (IH (S i)) as (m2 & f2 & log2 & H2 & Hm2 & Hf2); [lia|exact Hm'|].
    exists m2, f2, log2. split_and!; [exact H2|done|by eapply file_after_save].
  - apply IH; [lia|]. destruct Hm as [H1 H2 H3 H5 H6 H7]. split; try done.
    + intros a. rewrite H5, (take_S_r l i n Hn), wanted_snoc. naive_solver congruence.
    + intros a Ha. rewrite (take_S_r l i n Hn). unfold aliases. rewrite fmap_app, elem_of_app. left. by apply H6.
Qed.

(** What a file may hold: a list of networks in the form they are kept in, each once. *)
Definition file_ok (f : networks_file) : Prop :=
  ∀ l, LoadNetworks f = Some l → NoDup (aliases l) ∧ Forall kept_form l.

(** Starting: the networks of the list that were to be up are up, but for those whose
    failure is logged; the list stays what it was. *)
Lemma Start_spec (ws : saving → Prop) listening spare cond cfg dns saved f :
  pool4 cfg → file_ok f → (∀ i, ws (a_write (cond i))) →
  let l := default [] (LoadNetworks f) in
  ∃ m' f' log, Start listening spare cond (MkManager cfg dns ∅ saved) f = Some (m', f', log) ∧
    midway cfg l cond (length l) m' log ∧ file_after ws l f f' ∧ NoDup (aliases l) ∧ Forall kept_form l.
Proof.
  intros Hp Hf Hw l. unfold Start. cbn [m_cfg m_nets m_dns].
  change (default [] (LoadNetworks f)) with l.
  assert (NoDup (aliases l) ∧ Forall kept_form l) as [Hnd Hk].
  { unfold l. destruct (LoadNetworks f) as [x|] eqn:Hx; [by apply Hf|]. split; [apply NoDup_nil_2|constructor]. }
  destruct (reconnect_midway cfg ws l spare cond (length l) Hp Hnd Hk Hw 0 
    (MkManager cfg (dns || (negb (String.eqb (mc_DNSAddr cfg) "") && listening)) ∅ l) f []) as (m' & f' & log & H1 & H2 & H3);
    [done| |by exists m', f', log].
  split; cbn [m_cfg m_saved m_nets]; [by apply idle_ok|done|done|..].
  - intros a. rewrite lookup_empty, take_0. split; [by intros []|]. intros [(n & []%not_elem_of_nil & _) _].
  - intros a []%not_elem_of_nil.
  - intros a e []%not_elem_of_nil.
Qed.

(** ** A device over its life *)

(** Calls, one after another, with names whose normal form is normal, and restarts, after a
    stop or without one; every write ends in one of the ways [ws]. *)
Inductive device_step (cfg : Config) (ws : saving → Prop) : Manager * networks_file → Manager * networks_file → Prop :=
| dev_connect a m f n m' f' r :
    stable_alias (n_Alias n) → ws (a_write a) → connect_file a m f n = Some (m', f', r) →
    device_step cfg ws (m, f) (m', f')
| dev_disconnect w m f alias : ws w → device_step cfg ws (m, f) (disconnect_file w m f alias)
| dev_forget w1 w2 m f alias :
    ws w1 → ws w2 → stable_alias alias → device_step cfg ws (m, f) (forget_file w1 w2 m f alias)
| dev_stop m f : device_step cfg ws (m, f) (Stop m, f)
| dev_restart listening spare cond m f m' f' log :
    (∀ i, ws (a_write (cond i))) → Start listening spare cond (MkManager cfg false ∅ []) f = Some (m', f', log) →
    device_step cfg ws (m, f) (m', f').

Record device_ok (cfg : Config) (ws : saving → Prop) (x : Manager * networks_file) : Prop := {
  dk_ok : manager_ok x.1;
  dk_cfg : m_cfg x.1 = cfg;
  dk_file : file_ok x.2;
  dk_same : (∀ w, ws w → w = Saved) → default [] (LoadNetworks x.2) = m_saved x.1;
  dk_kept : Forall kept_form (m_saved x.1);
  dk_live : ∀ a, is_Some (m_nets x.1 !! a) → wanted (m_saved x.1) a;
}.

(** A step that ends with a write of the manager's list. *)
Lemma written_ok cfg (ws : saving → Prop) w m f :
  ws w → manager_ok m → m_cfg m = cfg → file_ok f → Forall kept_form (m_saved m) →
  (∀ a, is_Some (m_nets m !! a) → wanted (m_saved m) a) →
  device_ok cfg ws (m, SaveNetworks w (m_saved m) f).
Proof.
  intros Hw Hok Hcfg Hf Hk Hl. split; cbn [fst snd]; try done.
  - intros l [->|Hx]%LoadNetworks_saved; [|by apply Hf]. split; [apply mk_saved, Hok|done].
  - intros Hall. by rewrite (Hall w Hw).
Qed.

Lemma connect_file_ok cfg (ws : saving → Prop) a m f n m' f' r :
  stable_alias (n_Alias n) → ws (a_write a) → connect_file a m f n = Some (m', f', r) →
  device_ok cfg ws (m, f) → device_ok cfg ws (m', f').
Proof.
  intros Hst Hw Hc Hd. pose proof Hd as [Hok Hcfg Hfile _ Hkept Hlive]. cbn [fst snd] in *. unfold connect_file in Hc.
  destruct (Connect _ _ _ m n) as [[m1 r1]|] eqn:Hcon; [|done]. cbn [mbind option_bind] in Hc. injection Hc as -> Hf ->.
  pose proof (Connect_spec _ _ _ _ _ _ _ Hok Hcon) as (Hok' & Hcfg' & Hspec). cbn zeta in Hspec.
  assert (m' = m ∧ f' = f ∨ (∀ e, r ≠ Err (EInvalid e))) as [[-> ->]|Hr].
  { destruct r as [[]|[e|e|e]]; [by right|left|by right|by right]. by rewrite Hspec, <-Hf. }
  { done. }
  assert (f' = SaveNetworks (a_write a) (m_saved m') f) as ->
    by (rewrite <-Hf; destruct r as [[]|[e|e|e]]; try done; by destruct (Hr e)).
  destruct (connect_network n) as [n'|e] eqn:Hn.
  2:{ exfalso. unfold Connect in Hcon. rewrite Hn in Hcon. injection Hcon as _ <-. by destruct (Hr e). }
  assert (connected_network n = n') as Hcn.
  { unfold connect_network in Hn. destruct (Validate _); [done|]. by injection Hn. }
  rewrite Hcn in Hspec.
  assert (n' ∈ m_saved m' ∧ (∀ b, b ≠ n_Alias n' → m_nets m' !! b = m_nets m !! b) ∧
    (∀ x, n_Alias x ≠ n_Alias n' → x ∈ m_saved m' ↔ x ∈ m_saved m)) as (Hin & Hoth & Hx).
  { destruct r as [[]|[e|e|e]]; [|by destruct (Hr e)|..]; by destruct Hspec as (? & _ & ? & ?). }
  apply written_ok; [done|done|congruence|done| |].
  - apply Forall_forall. intros x Hxin. destruct (decide (n_Alias x = n_Alias n')) as [E|Hne].
    + assert (x = n') as ->; [|by eapply connected_kept_form].
      by eapply (alias_unique (m_saved m')); [apply mk_saved|..].
    + rewrite Forall_forall in Hkept. by apply Hkept, Hx.
  - intros b Hb. destruct (decide (b = n_Alias n')) as [->|Hne].
    + exists n'. split_and!; [done|done|]. by rewrite <-Hcn.
    + rewrite Hoth in Hb by done. destruct (Hlive b Hb) as (x & Hxin & Ha & Hauto).
      exists x. split_and!; [apply Hx; congruence|done|done].
Qed.

Lemma disconnect_file_ok cfg (ws : saving → Prop) w m f alias :
  ws w → device_ok cfg ws (m, f) → device_ok cfg ws (disconnect_file w m f alias).
Proof.
  intros Hw [Hok Hcfg Hfile _ Hkept Hlive]. cbn [fst snd] in *. unfold disconnect_file.
  apply written_ok; [done|by apply Disconnect_ok|done|done| |].
  - cbn [Disconnect set_saved m_saved set_nets]. apply Forall_fmap. eapply Forall_impl; [exact Hkept|].
    intros x Hx. cbn. destruct (String.eqb _ _); [by apply kept_form_auto|done].
  - intros b. cbn [Disconnect set_saved m_saved set_nets m_nets]. intros [e [Hne He]%lookup_delete_Some].
    destruct (Hlive b (ex_intro _ e He)) as (x & Hx & Ha & Hauto). exists x. split_and!; [|done|done].
    apply list_elem_of_fmap. exists x. split; [|done].
    destruct (String.eqb_spec (n_Alias x) (NormalizeAlias alias)); [congruence|done].
Qed.

Lemma forget_file_ok cfg (ws : saving → Prop) w1 w2 m f alias :
  ws w1 → ws w2 → stable_alias alias → device_ok cfg ws (m, f) → device_ok cfg ws (forget_file w1 w2 m f alias).
Proof.
  intros Hw1 Hw2 Hst Hd. destruct (disconnect_file_ok cfg ws w1 m f (NormalizeAlias alias) Hw1 Hd) as [_ _ Hfile _ Hkept Hlive].
  destruct Hd as [Hok Hcfg _ _ _ _]. cbn [disconnect_file forget_file fst snd] in *.
  apply written_ok; [done|by apply Forget_ok|done|done| |].
  - cbn [Forget set_saved m_saved]. apply Forall_forall. intros x [_ Hx]%list_elem_of_filter. rewrite Forall_forall in Hkept. by apply Hkept.
  - intros b Hb. assert (b ≠ NormalizeAlias alias) as Hne.
    { intros ->. cbn [Forget Disconnect set_saved set_nets m_nets] in Hb. rewrite Hst, lookup_delete_eq in Hb. by destruct Hb. }
    destruct (Hlive b Hb) as (x & Hx & Ha & Hauto). exists x. split_and!; [|done|done].
    cbn [Forget set_saved m_saved]. apply list_elem_of_filter. split; [congruence|done].
Qed.

Lemma device_step_ok cfg ws x y : pool4 cfg → device_ok cfg ws x → device_step cfg ws x y → device_ok cfg ws y.
Proof.
  intros Hp Hx Hs.
  destruct Hs as [a m f n m' f' r Hst Hw Hc|w m f alias Hw|w1 w2 m f alias Hw1 Hw2 Hst|m f|ls spare cond m f m' f' log Hw Hstart].
  - by eapply connect_file_ok.
  - by apply disconnect_file_ok.
  - by apply forget_file_ok.
  - destruct Hx as [Hok Hcfg Hfile Hsame Hkept _]. cbn [fst snd] in *.
    split; cbn [fst snd Stop m_cfg m_saved m_nets]; [apply idle_ok, mk_saved, Hok|done|done|done|done|].
    intros b [e He]. by rewrite lookup_empty in He.
  - destruct Hx as [_ _ Hfile _ _ _]. cbn [fst snd] in *.
    destruct (Start_spec ws ls spare cond cfg false [] f Hp Hfile Hw)
      as (m1 & f1 & log1 & Hs1 & [H1 H2 H3 H5 _ _] & [Hf1 Hf2] & Hnd & Hk).
    rewrite Hstart in Hs1. injection Hs1 as <- <- <-.
    split; cbn [fst snd]; [done|done| | |by rewrite H3|].
    + intros l [->|Hl]%Hf1; [done|by apply Hfile].
    + intros Hall. rewrite H3. destruct (LoadNetworks f) as [x|] eqn:Hx; cbn [default from_option id] in *.
      * by rewrite (Hf2 Hall eq_refl).
      * destruct (LoadNetworks f') as [y|] eqn:Hy; [|done]. cbn.
        destruct (Hf1 y eq_refl) as [->|?]; [done|]. done.
    + intros b Hb%H5. rewrite H3. destruct Hb as [Hb _]. by rewrite take_ge in Hb.
Qed.

Lemma device_reach_ok cfg ws m f :
  pool4 cfg → rtc (device_step cfg ws) (MkManager cfg false ∅ [], Missing) (m, f) → device_ok cfg ws (m, f).
Proof.
  intros Hp Hr. assert (device_ok cfg ws (MkManager cfg false ∅ [], Missing)) as H0.
  { split; cbn; [apply idle_ok, NoDup_nil_2|done|by intros l [= <-]; split; [apply NoDup_nil_2|constructor]|done|constructor|].
    intros a [e He]. by rewrite lookup_empty in He. }
  revert H0. induction Hr as [|x y z Hxy _ IH]; [done|]. intros H0. apply IH. by eapply device_step_ok.
Qed.


(** A list that cannot be read for once is lost: the service starts with none, and the next
    network that is connected is written over it. *)
Lemma unreadable_list_lost listening spare cond cfg a n :
  pool4 cfg → (∀ e, connect_network n ≠ Err e) → a_write a = Saved →
  Start listening spare cond (MkManager cfg false ∅ []) Unreadable =
    Some (MkManager cfg (negb (String.eqb (mc_DNSAddr cfg) "") && listening) ∅ [], Unreadable, []) ∧
  ∃ m r, connect_file a (MkManager cfg (negb (String.eqb (mc_DNSAddr cfg) "") && listening) ∅ []) Unreadable n =
    Some (m, Holds [connected_network n], r).
Proof.
  intros Hp Hn Hw. split; [done|]. set (m0 := MkManager cfg _ ∅ []).
  destruct (connect_network n) as [n'|e] eqn:Hc; [|by destruct (Hn e)].
  assert (manager_ok m0) as Hok by (apply idle_ok, NoDup_nil_2).
  destruct (Connect_total (a_udpFree a) (a_start a) (a_eng a) m0 n Hok Hp) as (m' & r & Hcon).
  destruct (Connect_saved _ _ _ _ _ _ _ _ Hc Hcon) as [Hs Hr]. exists m', r.
  unfold connect_file. rewrite Hcon. cbn [mbind option_bind]. rewrite Hs, Hw.
  assert (connected_network n = n') as -> by (unfold connect_network in Hc; destruct (Validate _); [done|by injection Hc]).
  destruct r as [[]|[e|e|e]]; try done. by destruct (Hr e).
Qed.

(** ** Witness: one of two networks disconnected before the machine goes down *)

Definition demo_attempt (i : nat) : attempt := MkAttempt (λ _, true) (λ _, None) (N.of_nat i) Saved.

Definition demo_device : Manager * networks_file :=
  match connect_file (demo_attempt 1) (MkManager demo_config false ∅ []) Missing (demo_network "Home" "t1") with
  | Some (m, f, _) =>
    match connect_file (demo_attempt 2) m f (demo_network "work" "t2") with
    | Some (m, f, _) => disconnect_file Saved m f "home"
    | None => (m, f)
    end
  | None => (demo_idle, Missing)
  end.

