(* ===== verification/ManagerLife.v ===== *)
(** * Calls of the manager that overlap (client/manager/manager.go)

    Every request of the window or the tray runs on a goroutine of its own.  A call holds the
    manager's lock only for a moment at a time, and starts and stops engines between those
    moments.  This file runs the calls of Manager.v in those pieces, interleaved, and keeps
    account of the engines that run. *)
From Stdlib Require Import Ascii String.
From S2P Require Import Prelude GoString Netip Proto Profile Engine Manager.

(** ** A call between two pieces *)

Inductive call : Type :=
| QPrev (n : Network) (prev : N)                                      (** [prev.stop()] *)
| QChoose (n : Network)
| QStart (n : Network) (port : Z) (prefix : Prefix) (cfg : Engine.Config)
| QEnter (n : Network) (port : Z) (prefix : Prefix) (eng : N)
| QRemember (n : Network)
| QDown (alias : string) (forget : option string) (eng : N)           (** [e.stop()] *)
| QMark (alias : string) (forget : option string)
| QStrike (alias : string)
| QStopping (engs : list N).

(** The engines only the call knows of. *)
Definition held (c : call) : list N :=
  match c with
  | QPrev _ e | QEnter _ _ _ e | QDown _ _ e => [e]
  | QStopping l => l
  | _ => []
  end.

Definition alias_of (c : call) : option string :=
  match c with
  | QPrev n _ | QChoose n | QStart n _ _ _ | QEnter n _ _ _ | QRemember n => Some (n_Alias n)
  | QDown a _ _ | QMark a _ => Some a
  | QStrike _ | QStopping _ => None
  end.

(** The call is going to enter a network. *)
Definition connecting (c : call) : option string :=
  match c with QPrev n _ | QChoose n | QStart n _ _ _ | QEnter n _ _ _ => Some (n_Alias n) | _ => None end.

Record service : Type := MkService {
  sv_m : Manager;
  sv_running : gset N;              (** the engines that run *)
  sv_next : N;                      (** the number of the next engine *)
  sv_calls : gmap N call;
}.

Definition idle_service (m : Manager) : service := MkService m ∅ 0 ∅.

(** ** The pieces *)

Definition with_call (w : service) (id : N) (c : option call) (m : Manager) : service :=
  MkService m (sv_running w) (sv_next w) (match c with Some c => <[id := c]> (sv_calls w) | None => delete id (sv_calls w) end).

Definition stopped (w : service) (id : N) (e : N) (c : option call) : service :=
  MkService (sv_m w) (sv_running w ∖ {[e]}) (sv_next w)
    (match c with Some c => <[id := c]> (sv_calls w) | None => delete id (sv_calls w) end).

(** The first locked part of [Disconnect]. *)
Definition take_down (m : Manager) (alias : string) : Manager * option N :=
  (set_nets m (delete alias (m_nets m)), e ← m_nets m !! alias; e_eng e).

(** The second. *)
Definition mark (m : Manager) (alias : string) : Manager :=
  set_saved m ((λ n, if String.eqb (n_Alias n) alias then set_auto n false else n) <$> m_saved m).

Definition strike (m : Manager) (alias : string) : Manager := set_saved m (filter (λ n, n_Alias n ≠ alias) (m_saved m)).

Definition entered_engines (nets : gmap string entry) : list N := omap (e_eng ∘ snd) (map_to_list nets).

Section life.
(** Whether calls for one network may overlap. *)
Context (overlap : bool).

Definition may_begin (w : service) (alias : string) : Prop :=
  overlap = true ∨ ∀ id c, sv_calls w !! id = Some c → alias_of c ≠ Some alias.

Inductive life_step : service → service → Prop :=
| l_connect w id n n' m prev :
    sv_calls w !! id = None → connect_network n = Ok n' → may_begin w (n_Alias n') →
    connect_drop (sv_m w) n' = (m, prev) →
    life_step w (with_call w id (Some (match prev with Some e => QPrev n' e | None => QChoose n' end)) m)
| l_prev w id n e : sv_calls w !! id = Some (QPrev n e) → life_step w (stopped w id e (Some (QChoose n)))
| l_choose w id n udpFree port p :
    sv_calls w !! id = Some (QChoose n) → connect_choose udpFree (sv_m w) = Some (port, Ok p) →
    life_step w (with_call w id (Some (QStart n port p (engine_config (sv_m w) n port p))) (sv_m w))
| l_no_prefix w id n udpFree port e :
    sv_calls w !! id = Some (QChoose n) → connect_choose udpFree (sv_m w) = Some (port, Err e) →
    life_step w (with_call w id (Some (QRemember n)) (sv_m w))
| l_started w id n port p cfg :
    sv_calls w !! id = Some (QStart n port p cfg) →
    life_step w (MkService (sv_m w) ({[sv_next w]} ∪ sv_running w) (N.succ (sv_next w))
      (<[id := QEnter n port p (sv_next w)]> (sv_calls w)))
| l_not_started w id n port p cfg :
    sv_calls w !! id = Some (QStart n port p cfg) → life_step w (with_call w id (Some (QRemember n)) (sv_m w))
| l_enter w id n port p e :
    sv_calls w !! id = Some (QEnter n port p e) →
    life_step w (with_call w id (Some (QRemember n)) (connect_enter (sv_m w) n e port p))
| l_remember w id n :
    sv_calls w !! id = Some (QRemember n) → life_step w (with_call w id None (remember (sv_m w) n))
| l_disconnect w id alias (forget : bool) m o :
    sv_calls w !! id = None →
    let a := NormalizeAlias (if forget then NormalizeAlias alias else alias) in
    let f := if forget then Some (NormalizeAlias alias) else None in
    may_begin w a → take_down (sv_m w) a = (m, o) →
    life_step w (with_call w id (Some (match o with Some e => QDown a f e | None => QMark a f end)) m)
| l_down w id a forget e : sv_calls w !! id = Some (QDown a forget e) → life_step w (stopped w id e (Some (QMark a forget)))
| l_mark w id a forget :
    sv_calls w !! id = Some (QMark a forget) →
    life_step w (with_call w id (QStrike <$> forget) (mark (sv_m w) a))
| l_strike w id a : sv_calls w !! id = Some (QStrike a) → life_step w (with_call w id None (strike (sv_m w) a))
| l_stop w id : sv_calls w !! id = None →
    life_step w (with_call w id (Some (QStopping (entered_engines (m_nets (sv_m w))))) (Stop (sv_m w)))
| l_stop_one w id e l : sv_calls w !! id = Some (QStopping (e :: l)) → life_step w (stopped w id e (Some (QStopping l)))
| l_stop_end w id : sv_calls w !! id = Some (QStopping []) → life_step w (with_call w id None (sv_m w)).
End life.

(** ** The account *)

Definition held_all (calls : gmap N call) : list N := mjoin ((held ∘ snd) <$> map_to_list calls).

Definition owned (w : service) : list N := entered_engines (m_nets (sv_m w)) ++ held_all (sv_calls w).

Lemma entered_delete nets a en : nets !! a = Some en →
  entered_engines nets ≡ₚ option_list (e_eng en) ++ entered_engines (delete a nets).
Proof.
  intros Ha. unfold entered_engines. rewrite <-(map_to_list_delete nets a en Ha). cbn [omap list_omap compose snd].
  by destruct (e_eng en).
Qed.

Lemma entered_insert nets a en : nets !! a = None →
  entered_engines (<[a := en]> nets) ≡ₚ option_list (e_eng en) ++ entered_engines nets.
Proof.
  intros Ha. unfold entered_engines. rewrite map_to_list_insert by done. cbn [omap list_omap compose snd].
  by destruct (e_eng en).
Qed.

Lemma held_new calls id c : calls !! id = None → held_all (<[id := c]> calls) ≡ₚ held c ++ held_all calls.
Proof. intros Hi. unfold held_all. by rewrite map_to_list_insert. Qed.

Lemma held_delete calls id c : calls !! id = Some c → held_all calls ≡ₚ held c ++ held_all (delete id calls).
Proof. intros Hi. unfold held_all. by rewrite <-(map_to_list_delete calls id c Hi). Qed.

Lemma held_change calls id c c' : calls !! id = Some c → held_all (<[id := c']> calls) ≡ₚ held c' ++ held_all (delete id calls).
Proof. intros Hi. rewrite <-insert_delete_eq. apply held_new, lookup_delete_eq. Qed.

Lemma entered_lookup nets e : e ∈ entered_engines nets ↔ ∃ a en, nets !! a = Some en ∧ e_eng en = Some e.
Proof.
  unfold entered_engines. rewrite list_elem_of_omap. split.
  - intros ([a en] & Hin%elem_of_map_to_list & He). by exists a, en.
  - intros (a & en & Hin & He). exists (a, en). by rewrite elem_of_map_to_list.
Qed.

(** The engines that run are those the manager or a call knows, each once. *)
Definition accounted (w : service) : Prop := owned w ≡ₚ elements (sv_running w) ∧ ∀ e, e ∈ sv_running w → (e < sv_next w)%N.

Lemma accounted_perm w w' :
  accounted w → owned w' ≡ₚ owned w → sv_running w' = sv_running w → sv_next w' = sv_next w → accounted w'.
Proof. intros [Ho Hn] Hp Hr Hx. unfold accounted. rewrite Hp, Hr, Hx. done. Qed.

(** An engine the account lists once is stopped. *)
Lemma accounted_stop w w' e :
  accounted w → owned w ≡ₚ e :: owned w' → sv_running w' = sv_running w ∖ {[e]} → sv_next w' = sv_next w → accounted w'.
Proof.
  intros [Ho Hn] Hp Hr Hx. split.
  - assert (e ∈ sv_running w) as He. { rewrite <-elem_of_elements, <-Ho, Hp. apply list_elem_of_here. }
    rewrite Hr. apply (Permutation_cons_inv (a := e)). rewrite <-Hp, Ho.
    rewrite (union_difference_singleton_L e (sv_running w)) at 1 by done. apply elements_union_singleton. set_solver.
  - rewrite Hr, Hx. set_solver.
Qed.

(** ** One call at a time for each network *)

Record apart (w : service) : Prop := {
  ap_one : ∀ i j c d a, sv_calls w !! i = Some c → sv_calls w !! j = Some d →
    alias_of c = Some a → alias_of d = Some a → i = j;
  ap_out : ∀ i c a, sv_calls w !! i = Some c → connecting c = Some a → m_nets (sv_m w) !! a = None;
}.

Lemma apart_idle m : apart (idle_service m).
Proof. split; cbn; intros *; by rewrite lookup_empty. Qed.

(** A call goes on, for the same network or for none. *)
Lemma apart_go w id c c' m :
  apart w → sv_calls w !! id = Some c → (alias_of c' = alias_of c ∨ alias_of c' = None) →
  (∀ a, connecting c' = Some a → connecting c = Some a) →
  (∀ i d a, i ≠ id → sv_calls w !! i = Some d → connecting d = Some a → m_nets m !! a = m_nets (sv_m w) !! a) →
  (∀ a, connecting c' = Some a → m_nets m !! a = None) →
  ∀ running next, apart (MkService m running next (<[id := c']> (sv_calls w))).
Proof.
  intros [H1 H2] Hc Ha Hk Ho Hm running next. split; cbn [sv_calls sv_m].
  - intros i j d d' a. rewrite !lookup_insert. repeat destruct (decide _); subst; intros; simplify_eq; try done.
    + eapply H1; [exact Hc| | |]; try done. destruct Ha; congruence.
    + eapply H1; [|exact Hc| |]; try done. destruct Ha; congruence.
    + by eapply H1.
  - intros i d a. rewrite lookup_insert. destruct (decide _); intros; simplify_eq; [by apply Hm|].
    erewrite Ho; [by eapply H2|..]; try done.
Qed.

Lemma apart_end w id m running next :
  apart w → m_nets m = m_nets (sv_m w) → apart (MkService m running next (delete id (sv_calls w))).
Proof.
  intros [H1 H2] Hm. split; cbn [sv_calls sv_m].
  - intros i j c d a [_ Hi]%lookup_delete_Some [_ Hj]%lookup_delete_Some. by apply (H1 i j c d a).
  - intros i c a [_ Hi]%lookup_delete_Some Hc. rewrite Hm. by eapply H2.
Qed.

(** A call begins while none is in flight for its network. *)
Lemma apart_begin w id c m running next :
  apart w → sv_calls w !! id = None → (∀ a, alias_of c = Some a → may_begin false w a) →
  (∀ a, connecting c = Some a → m_nets m !! a = None) →
  (∀ a, m_nets (sv_m w) !! a = None → m_nets m !! a = None) →
  apart (MkService m running next (<[id := c]> (sv_calls w))).
Proof.
  intros [H1 H2] Hid Hb Hc Hm. split; cbn [sv_calls sv_m].
  - intros i j d d' a. rewrite !lookup_insert. repeat destruct (decide _); subst; intros; simplify_eq; try done.
    + exfalso. destruct (Hb a ltac:(done)) as [|Hx]; [done|]. by eapply Hx.
    + exfalso. destruct (Hb a ltac:(done)) as [|Hx]; [done|]. by eapply Hx.
    + by eapply H1.
  - intros i d a. rewrite lookup_insert. destruct (decide _); intros; simplify_eq; [by apply Hc|]. eapply Hm, H2; done.
Qed.

Lemma connecting_alias c a : connecting c = Some a → alias_of c = Some a.
Proof. by destruct c. Qed.

Lemma drop_nets m n m1 prev : connect_drop m n = (m1, prev) →
  m_nets m1 = delete (n_Alias n) (m_nets m) ∧ prev = (en ← m_nets m !! n_Alias n; e_eng en).
Proof.
  unfold connect_drop. destruct (m_nets m !! n_Alias n) as [en|] eqn:He; intros [= <- <-]; [done|].
  by rewrite delete_id.
Qed.

Lemma take_down_nets m alias m1 o : take_down m alias = (m1, o) →
  m_nets m1 = delete alias (m_nets m) ∧ o = (en ← m_nets m !! alias; e_eng en).
Proof.
  intros H. pose proof (f_equal fst H) as H1. pose proof (f_equal snd H) as H2. cbn [take_down fst snd] in *. by subst.
Qed.

Lemma life_step_apart w w' : apart w → life_step false w w' → apart w'.
Proof.
  intros Hw. destruct 1 as [w id n n' m prev Hid _ Hb Hd|w id n e Hc|w id n udpFree port p Hc _|w id n udpFree port e Hc _
    |w id n port p cfg Hc|w id n port p cfg Hc|w id n port p e Hc|w id n Hc|w id alias forget m o Hid a f Hb Ht
    |w id a f e Hc|w id a f Hc|w id a Hc|w id Hid|w id e l Hc|w id Hc].
  all: try (apply apart_end; [done|by try apply drop_nets]; fail).
  all: try (eapply apart_go; [done|exact Hc|by (left + right)|by cbn|done|intros b Hk; by eapply ap_out]; fail).
  - apply drop_nets in Hd as [Hn _]. apply apart_begin; [done|done| | |].
    + intros b Hs. assert (b = n_Alias n') as ->; [|done]. by destruct prev; injection Hs.
    + intros b Hs. assert (b = n_Alias n') as ->; [by destruct prev; injection Hs|]. rewrite Hn. apply lookup_delete_eq.
    + intros b Hs. rewrite Hn. apply lookup_delete_None. by right.
  - eapply apart_go; [done|exact Hc|by left|done| |done]. intros i d b Hi Hdi Hk. cbn [connect_enter set_nets m_nets].
    apply lookup_insert_ne. intros <-. apply Hi. eapply (ap_one w Hw i id); [done|done| |done]. by apply connecting_alias.
  - apply take_down_nets in Ht as [Hn _]. apply apart_begin; [done|done| | |].
    + intros b Hs. assert (b = a) as ->; [|done]. by destruct o; injection Hs.
    + intros b Hs. by destruct o.
    + intros b Hs. rewrite Hn. apply lookup_delete_None. by right.
  - destruct f as [b|]; cbn [fmap option_fmap option_map with_call].
    + eapply apart_go; [done|exact Hc|by right|done|done|done].
    + by apply apart_end.
  - apply apart_begin; done.
Qed.

(** What leaves the table is held by the call. *)
Lemma owned_begin nets calls id c a :
  calls !! id = None → held c = option_list (en ← nets !! a; e_eng en) →
  entered_engines (delete a nets) ++ held_all (<[id := c]> calls) ≡ₚ entered_engines nets ++ held_all calls.
Proof.
  intros Hid Hh. rewrite held_new, Hh by done. destruct (nets !! a) as [en|] eqn:He; cbn [mbind option_bind].
  - rewrite (entered_delete nets a en He). rewrite app_assoc. f_equiv. apply Permutation_app_comm.
  - by rewrite delete_id.
Qed.

(** A call goes on without touching an engine. *)
Lemma owned_go (nets : gmap string entry) calls id c o :
  calls !! id = Some c → held c = default [] (held <$> o) →
  entered_engines nets ++ held_all (match o with Some c' => <[id := c']> calls | None => delete id calls end) ≡ₚ
  entered_engines nets ++ held_all calls.
Proof.
  intros Hc Hh. f_equiv. rewrite (held_delete calls id c Hc), Hh. destruct o as [c'|]; [by rewrite (held_change calls id c c')|done].
Qed.

Lemma owned_stop (nets : gmap string entry) calls id c c' e :
  calls !! id = Some c → held c = e :: held c' →
  entered_engines nets ++ held_all calls ≡ₚ e :: (entered_engines nets ++ held_all (<[id := c']> calls)).
Proof.
  intros Hc Hh. rewrite (held_delete calls id c Hc), (held_change calls id c c' Hc), Hh. cbn [app].
  symmetry. apply Permutation_middle.
Qed.

Lemma life_step_accounted w w' : apart w → accounted w → life_step false w w' → accounted w'.
Proof.
  intros Hw Ha. destruct 1 as [w id n n' m prev Hid _ Hb Hd|w id n e Hc|w id n udpFree port p Hc _|w id n udpFree port e Hc _
    |w id n port p cfg Hc|w id n port p cfg Hc|w id n port p e Hc|w id n Hc|w id alias forget m o Hid a f Hb Ht
    |w id a f e Hc|w id a f Hc|w id a Hc|w id Hid|w id e l Hc|w id Hc].
  all: try (apply (accounted_stop w _ e); [done| |done|done]; by eapply owned_stop).
  4: { (* an engine starts *)
    destruct Ha as [Ho Hn]. assert (sv_next w ∉ sv_running w) as Hf by (intros Hx%Hn; lia). split; cbn [sv_running sv_next].
    - unfold owned. cbn [sv_m sv_calls]. rewrite (held_change _ _ _ _ Hc), elements_union_singleton, <-Ho by done.
      unfold owned. rewrite (held_delete _ _ _ Hc). cbn [held app]. by rewrite Permutation_middle.
    - intros e. rewrite elem_of_union, elem_of_singleton. intros [->|He%Hn]; lia. }
  all: apply (accounted_perm w); [done| |done|done]; unfold owned; cbn [with_call sv_m sv_calls].
  - apply drop_nets in Hd as [-> ->]. apply owned_begin; [done|]. by destruct (_ ← _; _).
  - by apply (owned_go _ _ _ _ (Some _) Hc).
  - by apply (owned_go _ _ _ _ (Some _) Hc).
  - by apply (owned_go _ _ _ _ (Some _) Hc).
  - cbn [connect_enter set_nets m_nets]. rewrite entered_insert by (by eapply ap_out).
    rewrite (held_delete _ _ _ Hc), (held_change _ _ _ _ Hc). cbn [e_eng option_list held app]. apply Permutation_middle.
  - by apply (owned_go _ _ _ _ None Hc).
  - apply take_down_nets in Ht as [-> ->]. apply owned_begin; [done|]. by destruct (_ ← _; _).
  - apply (owned_go _ _ _ _ (QStrike <$> f) Hc). by destruct f.
  - by apply (owned_go _ _ _ _ None Hc).
  - cbn [Stop m_nets]. rewrite held_new by done. unfold entered_engines at 1. rewrite map_to_list_empty. cbn [omap list_omap app]. done.
  - by apply (owned_go _ _ _ _ None Hc).
Qed.

(** ** The pieces are the calls *)

(** A piece of the call numbered [id]: the step [t] gives, under the name the call has now. *)
Tactic Notation "piece" tactic3(t) :=
  eapply rtc_l; [t; try apply lookup_insert_eq|];
  unfold with_call, stopped; cbn [sv_m sv_running sv_next sv_calls fmap option_fmap option_map]; rewrite ?insert_insert_eq.

Tactic Notation "last_piece" tactic3(t) := eapply rtc_r; [apply rtc_refl|t; apply lookup_insert_eq].

Section alone.
Context (overlap : bool) (m : Manager) (running : gset N) (next : N) (calls : gmap N call) (id : N).
Hypothesis fresh : calls !! id = None.



Lemma remember_piece n m1 running1 next1 :
  ∃ w', rtc (life_step overlap) (MkService m1 running1 next1 (<[id := QRemember n]> calls)) w' ∧
    sv_m w' = remember m1 n ∧ sv_calls w' = calls.
Proof using fresh.
  eexists. split; [last_piece (eapply l_remember)|]. split; [done|]. by apply delete_insert_id.
Qed.

Lemma choose_pieces udpFree start n r m1 m' running1 :
  (port_pr ← connect_choose udpFree m1;
   let '(port, pr) := port_pr in
   match pr with
   | Err e => Some (remember m1 n, Err (EPrefix e))
   | Ok prefix =>
     match start (engine_config m1 n port prefix) with
     | Some e => Some (remember m1 n, Err (EEngine e))
     | None => Some (remember (connect_enter m1 n next port prefix) n, Ok ())
     end
   end) = Some (m', r : result connect_error ()) →
  ∃ w', rtc (life_step overlap) (MkService m1 running1 next (<[id := QChoose n]> calls)) w' ∧
    sv_m w' = m' ∧ sv_calls w' = calls.
Proof using fresh.
  destruct (connect_choose udpFree m1) as [[port [p|e]]|] eqn:Hch; cbn [mbind option_bind]; [| |done].
  - destruct (start _) as [er|].
    + intros [= <- _]. destruct (remember_piece n m1 running1 next) as (w' & R & H). exists w'. split; [|exact H].
      piece (eapply l_choose); [exact Hch|]. by piece (eapply l_not_started).
    + intros [= <- _]. destruct (remember_piece n (connect_enter m1 n next port p) ({[next]} ∪ running1) (N.succ next)) as (w' & R & H).
      exists w'. split; [|exact H]. piece (eapply l_choose); [exact Hch|]. piece (eapply l_started). by piece (eapply l_enter).
  - intros [= <- _]. destruct (remember_piece n m1 running1 next) as (w' & R & H). exists w'. split; [|exact H].
    by piece (eapply l_no_prefix).
Qed.

(** A call that nothing interrupts has the outcome of the call in one piece. *)
Lemma connect_pieces udpFree start n n' m' r :
  may_begin overlap (MkService m running next calls) (n_Alias n') → connect_network n = Ok n' →
  Connect udpFree start next m n = Some (m', r) →
  ∃ w', rtc (life_step overlap) (MkService m running next calls) w' ∧ sv_m w' = m' ∧ sv_calls w' = calls.
Proof using fresh.
  intros Hb Hn. unfold Connect. rewrite Hn. destruct (connect_drop m n') as [m1 [e|]] eqn:Hd; intros Hc.
  - destruct (choose_pieces udpFree start n' r m1 m' (running ∖ {[e]})) as (w' & R & H).
    { exact Hc. }
    exists w'. split; [|exact H]. piece (eapply (l_connect overlap _ id n n' m1 (Some e))); [done..|]. by piece (eapply l_prev).
  - destruct (choose_pieces udpFree start n' r m1 m' running) as (w' & R & H).
    { exact Hc. }
    exists w'. split; [|exact H]. by piece (eapply (l_connect overlap _ id n n' m1 None)).
Qed.

Lemma down_pieces alias (forget : bool) :
  let a := NormalizeAlias (if forget then NormalizeAlias alias else alias) in
  may_begin overlap (MkService m running next calls) a →
  ∃ w', rtc (life_step overlap) (MkService m running next calls) w' ∧
    sv_m w' = (if forget then Forget m alias else Disconnect m alias) ∧ sv_calls w' = calls.
Proof using fresh.
  intros a Hb. destruct (take_down m a) as [m1 o] eqn:Ht. set (f := if forget then Some (NormalizeAlias alias) else None).
  assert (∃ running1, rtc (life_step overlap) (MkService m running next calls) (MkService m1 running1 next (<[id := QMark a f]> calls))) as [running1 R].
  { destruct o as [e|]; eexists.
    - piece (eapply (l_disconnect overlap _ id alias forget m1 (Some e))); [done..|]. piece (eapply l_down). apply rtc_refl.
    - piece (eapply (l_disconnect overlap _ id alias forget m1 None)); [done..|]. apply rtc_refl. }
  pose proof (f_equal fst Ht) as H1. cbn [take_down fst] in H1. subst m1.
  destruct forget; subst f; eexists; (split; [etransitivity; [exact R|]|]).
  - piece (eapply l_mark). last_piece (eapply l_strike).
  - split; [done|]. by apply delete_insert_id.
  - last_piece (eapply l_mark).
  - split; [done|]. by apply delete_insert_id.
Qed.

Lemma stopping_pieces l m1 running1 :
  ∃ w', rtc (life_step overlap) (MkService m1 running1 next (<[id := QStopping l]> calls)) w' ∧
    sv_m w' = m1 ∧ sv_calls w' = calls ∧ sv_running w' = running1 ∖ list_to_set l.
Proof using fresh.
  revert running1. induction l as [|e l IH]; intros running1.
  - eexists. split; [last_piece (eapply l_stop_end)|]. split_and!; [done|by apply delete_insert_id|]. cbn. set_solver.
  - destruct (IH (running1 ∖ {[e]})) as (w' & R & Hm & Hc & Hr). exists w'. split_and!; [by piece (eapply l_stop_one)|done|done|].
    rewrite Hr. cbn. set_solver.
Qed.

Lemma stop_pieces :
  ∃ w', rtc (life_step overlap) (MkService m running next calls) w' ∧ sv_m w' = Stop m ∧ sv_calls w' = calls ∧
    sv_running w' = running ∖ list_to_set (entered_engines (m_nets m)).
Proof using fresh.
  destruct (stopping_pieces (entered_engines (m_nets m)) (Stop m) running) as (w' & R & H). exists w'. split; [|exact H].
  by piece (eapply l_stop).
Qed.
End alone.

(** ** No engine is lost *)

Lemma life_run_ok m w : m_nets m = ∅ → rtc (life_step false) (idle_service m) w → apart w ∧ accounted w.
Proof.
  intros Hm Hr. assert (apart (idle_service m) ∧ accounted (idle_service m)) as H0.
  { split; [apply apart_idle|]. split; [|set_solver]. unfold owned. cbn. by rewrite Hm. }
  induction Hr as [|x y z Hxy _ IH]; [done|]. destruct H0 as [Ha Hc]. apply IH.
  split; [by eapply life_step_apart|by eapply life_step_accounted].
Qed.

Lemma held_all_lookup calls e : e ∈ held_all calls ↔ ∃ id c, calls !! id = Some c ∧ e ∈ held c.
Proof.
  unfold held_all. rewrite list_elem_of_join. split.
  - intros (l & Hl & ([id c] & -> & Hin%elem_of_map_to_list)%list_elem_of_fmap). by exists id, c.
  - intros (id & c & Hc & He). exists (held c). split; [done|]. apply list_elem_of_fmap. exists (id, c).
    by rewrite elem_of_map_to_list.
Qed.

(** C6: Calls of the manager whose pieces interleave, one at a time for each network, never
    lose an engine: an engine runs exactly while the table or one call knows it, and nothing
    else knows it.  So when no call is in flight the engines that run are those of the
    networks that are up, and stopping the manager then stops them all. *)
Theorem engines_accounted m w :
  m_nets m = ∅ → rtc (life_step false) (idle_service m) w →
  NoDup (owned w) ∧
  (∀ e, e ∈ sv_running w ↔
     (∃ a en, m_nets (sv_m w) !! a = Some en ∧ e_eng en = Some e) ∨ (∃ id c, sv_calls w !! id = Some c ∧ e ∈ held c)) ∧
  (sv_calls w = ∅ →
     ∃ w', rtc (life_step false) w w' ∧ sv_m w' = Stop (sv_m w) ∧ sv_calls w' = ∅ ∧ sv_running w' = ∅).
Proof.
  intros Hm Hr. destruct (life_run_ok m w Hm Hr) as [_ [Ho _]].
  assert (∀ e, e ∈ sv_running w ↔ e ∈ owned w) as Hin by (intros e; by rewrite <-elem_of_elements, Ho).
  split_and!.
  - rewrite Ho. apply NoDup_elements.
  - intros e. rewrite Hin. unfold owned. by rewrite elem_of_app, entered_lookup, held_all_lookup.
  - intros Hc. destruct w as [wm wr wn wc]. cbn [sv_calls sv_m sv_running] in *. subst wc.
    destruct (stop_pieces false wm wr wn ∅ 0 (lookup_empty _)) as (w' & R & Hm' & Hc' & Hr'). exists w'. split_and!; [done..|].
    rewrite Hr'. apply subseteq_empty_difference_L. intros e He%Hin. unfold owned in He. cbn [sv_m sv_calls] in He.
    rewrite elem_of_app, held_all_lookup in He. destruct He as [He|(id & c & Hl & _)]; [by apply elem_of_list_to_set|].
    by rewrite lookup_empty in Hl.
Qed.

(** A network of a device without any. *)
Definition home : Network := connected_network (demo_network "Home" "t1").

Lemma home_choose : connect_choose (λ _, true) demo_idle = Some (51820%Z, Ok (MkPrefix (Addr4 0x64700000) 16)).
Proof. by vm_compute. Qed.

Lemma home_connects : connect_network (demo_network "Home" "t1") = Ok home ∧ connect_drop demo_idle home = (demo_idle, None).
Proof. by vm_compute. Qed.

(** Two calls for one network, which two clicks in the window start, lose an engine: the
    second entry takes the place of the first, and nothing stops the engine that was there. *)
Lemma same_network_loses_engine :
  ∃ w, rtc (life_step true) (idle_service demo_idle) w ∧ sv_calls w = ∅ ∧ (0%N ∈ sv_running w) ∧
    ∀ a en, m_nets (sv_m w) !! a = Some en → e_eng en ≠ Some 0%N.
Proof.
  destruct home_connects as [Hn Hd]. pose proof home_choose as Hc. set (p := MkPrefix (Addr4 0x64700000) 16) in *.
  assert (∀ w, may_begin true w (n_Alias home)) as Hb by (by left).
  eexists. split; [|split; [|split]].
  - eapply rtc_l; [eapply (l_connect true _ 0%N _ _ _ None); [apply lookup_empty|exact Hn|apply Hb|exact Hd]|].
    eapply rtc_l; [eapply (l_connect true _ 1%N _ _ _ None); [done|exact Hn|apply Hb|exact Hd]|].
    eapply rtc_l; [eapply (l_choose true _ 0%N); [done|exact Hc]|].
    eapply rtc_l; [eapply (l_choose true _ 1%N); [done|exact Hc]|].
    eapply rtc_l; [by eapply (l_started true _ 0%N)|]. eapply rtc_l; [by eapply (l_started true _ 1%N)|].
    eapply rtc_l; [by eapply (l_enter true _ 0%N)|]. eapply rtc_l; [by eapply (l_enter true _ 1%N)|].
    eapply rtc_l; [by eapply (l_remember true _ 0%N)|]. apply rtc_once. by eapply (l_remember true _ 1%N).
  - done.
  - cbn. set_solver.
  - cbn [sv_m with_call remember set_saved connect_enter set_nets m_nets]. intros a en.
    rewrite insert_insert_eq, lookup_insert. destruct (decide _); [by intros [= <-]|].
    assert (m_nets demo_idle = ∅) as -> by done. by rewrite lookup_empty.
Qed.

(** A network that is up, and then the stop of the service. *)
Definition home_up : option (Manager * result connect_error ()) :=
  Connect (λ _, true) (λ _, None) 0 demo_idle (demo_network "Home" "t1").

Lemma engines_accounted_witness :
  ∃ w w', rtc (life_step false) (idle_service demo_idle) w ∧ is_Some (m_nets (sv_m w) !! "home"%string) ∧
    rtc (life_step false) w w' ∧ sv_m w' = Stop (sv_m w) ∧ sv_running w' = ∅.
Proof.
  destruct home_connects as [Hn _].
  assert (match home_up with Some (m', _) => bool_decide (is_Some (m_nets m' !! "home"%string)) | None => false end = true) as Hup
    by (by vm_compute).
  destruct home_up as [[m' r]|] eqn:E; [|done]. apply bool_decide_eq_true in Hup.
  destruct (connect_pieces false demo_idle ∅ 0 ∅ 0 (lookup_empty _) (λ _, true) (λ _, None) (demo_network "Home" "t1") home m' r)
    as (w & Hr & Hm & Hc); [right; intros id c Hx; cbn in Hx; by rewrite lookup_empty in Hx|exact Hn|exact E|].
  destruct (engines_accounted demo_idle w eq_refl Hr) as (_ & _ & Hs). destruct (Hs Hc) as (w' & Hr' & Hm' & _ & He).
  exists w, w'. split_and!; [exact Hr|rewrite Hm; exact Hup|exact Hr'|exact Hm'|exact He].
Defined.
