(* ===== verification/AgentMain.v ===== *)
(** * The command-line agent (cmd/zwan-agent/main.go)

    How flags become an engine's configuration, or a join without one; and the system's name
    resolution for the time of a run.  A message that ends the program is an error. *)
From Stdlib Require Import Ascii String.
From S2P Require Import Prelude GoString GoStringFacts Netip Proto Profile Resolver Nrpt ManagerDns Certpin Join Engine.

Local Open Scope Z_scope.

(** ** Flags *)

Record agent_flags : Type := MkAgentFlags {
  g_server : string; g_pin : string; g_token : string; g_device : string; g_name : string;
  g_tun : bool; g_up : bool; g_relay : bool; g_adapter : string; g_wgPort : Z; g_endpoint : string;
  g_dnsAddr : string; g_publishName : string; g_publishPort : Z; g_publishProto : string;
  g_publishBackend : Z; g_publishAllow : string;
}.

Inductive agent_error : Type := ETokenAndDevice | EPublishPort.

Definition splitGroups (s : string) : list string :=
  filter (λ g, g ≠ ""%string) (trim_space <$> split_byte "," s).

Definition adapterName (ProductName override networkID : string) : string :=
  if negb (String.eqb override "") then override else ProductName +:+ "-" +:+ networkID.

Definition allowLabel (groups : list string) : string :=
  match groups with [] => "any group that can reach this node" | _ => str_join groups "," end.

(** [trustLabel] and [trustLabelOf]: how the server was verified. *)
Definition agent_trustLabel (c : Client) : string :=
  if has_prefix (cl_base c) "http://" then "plaintext - no server authentication"
  else if negb (String.eqb (cl_pin c) "") then "TLS, pinned " +:+ cl_pin c
  else "TLS, CA-verified".

Definition trustLabelOf (st : Engine.Status) : string :=
  if has_prefix (st_Server st) "http://" then "plaintext - no server authentication"
  else if st_Pinned st then "TLS, pinned" else "TLS, CA-verified".

(** What is done after the flags: the engine, or a join under a name and an endpoint, some
    services published. *)
Inductive agent_plan : Type :=
| RunEngine (cfg : Engine.Config)
| JoinOnly (hostname endpoint : string) (publish : list Service) (adapter : bool).

(** [hostname] is the machine's own. *)
Definition agent_main (ProductName hostname : string) (f : agent_flags) : result agent_error agent_plan :=
  if String.eqb (g_token f) "" || String.eqb (g_device f) "" then Err ETokenAndDevice else
  let hostname := if String.eqb (g_name f) "" then hostname else g_name f in
  let ep := if String.eqb (g_endpoint f) "" then "127.0.0.1:" +:+ itoa (g_wgPort f) else g_endpoint f in
  if negb (String.eqb (g_publishName f) "") && (g_publishPort f =? 0) then Err EPublishPort else
  let publish :=
    if String.eqb (g_publishName f) "" then []
    else [MkService (g_publishName f) (g_publishProto f) (g_publishPort f) (g_publishBackend f) "" ""
            (splitGroups (g_publishAllow f))] in
  Ok (if g_up f then
        RunEngine (Engine.MkConfig (g_server f) (g_pin f) (g_token f) (g_device f) hostname (g_relay f)
          (g_adapter f) (g_wgPort f) ep (g_dnsAddr f) false ProductName "" "" publish)
      else JoinOnly hostname ep publish (g_tun f)).

(** ** The system's name resolution *)

Section dns.
Context {W E : Type} `{SystemLaws W E}.

(** The state after, and the binder whose rules the run takes out again when it ends. *)
Definition bindSystemDNS (w : W) (dnsAddr suffix : string) : W * option Binder :=
  if String.eqb dnsAddr "" || String.eqb suffix "" then (w, None) else
  match Nrpt.New dnsAddr with
  | Err _ => (w, None)
  | Ok b => match Apply b w [suffix] with
            | (_, w, Some _) => (w, None)
            | (b, w, None) => (w, Some b)
            end
  end.

Definition release (w : W) (b : option Binder) : W * option E :=
  match b with None => (w, None) | Some b => let '(_, w, e) := Clear b w in (w, e) end.

(** While the agent runs, the system has one rule of ours for its network, if the suffix can
    have one, and none for anything else; after it has let go without an error there is none,
    however many rules an earlier run that was killed had left. *)
Theorem agent_dns_released w dnsAddr suffix v w1 b :
  ap_addr <$> ParseAddrPort dnsAddr = Some (Addr4 v) →
  bindSystemDNS w dnsAddr suffix = (w1, Some b) →
  reconciled w1 (string4 v) [suffix] ∧
  ∀ w2, release w1 (Some b) = (w2, None) → sys_list w2 = Ok [].
Proof using All.
  intros Hv. unfold bindSystemDNS. destruct (_ || _); [done|].
  destruct (Nrpt.New dnsAddr) as [b0|] eqn:Hb; [|done].
  pose proof (New_server dnsAddr b0 v Hb Hv) as Ht.
  assert (b_synced b0 = false ∧ b_server b0 = string4 v) as [Hsy Hserv].
  { unfold Nrpt.New in Hb. destruct (ParseAddrPort dnsAddr) as [ap|]; [|done]. destruct (negb _); [done|].
    injection Hb as <-. injection Hv as Hv. by rewrite Hv. }
  pose proof (Apply_cases b0 w [suffix] Ht) as Hc. rewrite Hserv in Hc.
  destruct (Apply b0 w [suffix]) as [[b1 w1'] [e|]]; [done|]. intros [= -> ->].
  destruct Hc as [(Hs & _)|[-> Hr]]; [congruence|]. split; [done|].
  intros w2. unfold release, Clear.
  set (b1 := MkBinder (string4 v) true _).
  pose proof (Apply_cases b1 w1 []) as Hc. cbn [b1 b_server] in Hc. rewrite Hserv in Ht. specialize (Hc Ht).
  destruct (Apply b1 w1 []) as [[b2 w2'] e]. intros [= -> ->].
  assert (reconciled w2 (string4 v) []) as (have & Hl & Hp & _).
  { destruct Hc as [(_ & Hlast & _ & ->)|[_ Hr2]]; [|exact Hr2]. cbn [b_last b1] in Hlast.
    unfold reconciled in *. apply namespaces_joined in Hlast. by rewrite <-Hlast. }
  rewrite Hl. f_equal. change (namespaces []) with (@nil string) in Hp.
  symmetry in Hp. apply Permutation_nil_l in Hp. symmetry in Hp. by apply fmap_nil_inv in Hp.
Qed.
End dns.

(** ** Witness: a run over the table in memory *)

#[local] Existing Instance mem_system.
#[local] Existing Instance mem_laws.

Lemma agent_dns_released_witness :
  let w : gmap string (string * string) := {["7"%string := (".old"%string, "127.0.0.1"%string)]} in
  match bindSystemDNS w "127.0.0.1:53" "home" with
  | (w1, Some b) => sys_list (release w1 (Some b)).1 = Ok []
  | (_, None) => False
  end.
Proof.
  intros w. pose proof (agent_dns_released w "127.0.0.1:53" "home" 2130706433) as H.
  assert (is_Some (bindSystemDNS w "127.0.0.1:53" "home").2) as [b Hb] by (by vm_compute; eexists).
  destruct (bindSystemDNS w _ _) as [w1 o]. cbn [snd] in Hb. subst o.
  destruct (H w1 b) as [_ Hr]; [by vm_compute|done|].
  apply Hr. unfold release, Clear. pose proof (mem_Apply b w1 []) as He.
  destruct (Apply b w1 []) as [[b2 w2] e]. cbn [snd] in He. by rewrite He.
Defined.
