(* ===== verification/AgentLog.v ===== *)
(** * What the agent does and says after its flags (cmd/zwan-agent/main.go)

    Without an engine, the agent joins, publishes and may hold an adapter; with one, it
    mirrors the engine's status into its log, a line whenever something changed. *)
From Stdlib Require Import Ascii String.
From S2P Require Import Prelude GoString GoStringFacts Netip Proto Certpin Join Engine AgentMain Tun.

(** ** Joining without an engine: the end of [main] *)

Inductive agent_failure : Type :=
| FJoin (e : join_error)
| FPublish (e : join_error)
| FAdapter (e : tun_error)
| FAddress (e : tun_error).

Section modes.
Context {W : Type} (http : W → HttpRequest → W * result string HttpResponse).
Context (marshalRegister : RegisterRequest → string) (marshalService : Service → string).
Context (unmarshalRegister : string → result string RegisterResponse).
Context (unmarshalPeers : string → result string (list Peer)).
Context (unmarshalService : string → result string Service) (unmarshalError : string → string).
Context (ProductName : string).

Abbreviation client_Join := (Join.Join http marshalRegister unmarshalRegister unmarshalPeers unmarshalError).
Abbreviation client_PublishService :=
  (Join.PublishService http marshalRegister marshalService unmarshalRegister unmarshalService unmarshalError).

(** Where a published service is reached. *)
Definition published_line (suffix : string) (stored : Service) : string :=
  let addr := if String.eqb (sv_VIP stored) "" then sv_NodeIP stored else sv_VIP stored in
  "published service " +:+ sv_Name stored +:+ "." +:+ suffix +:+ " at " +:+ addr +:+ ":" +:+ itoa (sv_Port stored) +:+ "/" +:+
  sv_Proto stored +:+ " (backend 127.0.0.1:" +:+ itoa (sv_BackendPort stored) +:+ ", allowed: " +:+
  allowLabel (sv_AllowGroups stored) +:+ ")".

Definition set_NodeIP (s : Service) (ip : string) : Service :=
  MkService (sv_Name s) (sv_Proto s) (sv_Port s) (sv_BackendPort s) ip (sv_VIP s) (sv_AllowGroups s).

(** The loop over the services; the first that fails ends the program. *)
Fixpoint publish_all (w : W) (c : Client) (reg : RegisterResponse) (l : list Service) (log : list string)
  : W * Client * list string * option join_error :=
  match l with
  | [] => (w, c, log, None)
  | s :: l =>
    match client_PublishService w c (set_NodeIP s (rs_AssignedIP reg)) with
    | (w, c, Err e) => (w, c, log, Some e)
    | (w, c, Ok stored) => publish_all w c reg l (log ++ [published_line (rs_DNSSuffix reg) stored])
    end
  end.

(** The system with its adapters, as in Tun.v, and the removal of one. *)
Context {S : Type} (netsh : S → list string → S * (string * bool)) (sleep : S → S).
Context (CreateTUN : S → string → Z → option S) (close : S → string → S).

(** A message that ends the program does so without the deferred removal. *)
Definition bringUpAdapter (w : S) (name ip : string) : S * option agent_failure :=
  match Tun.Create CreateTUN w name DefaultMTU with
  | (w, Err e) => (w, Some (FAdapter e))
  | (w, Ok a) =>
    match SetNodeIP netsh sleep w a ip with
    | (w, Some e) => (w, Some (FAddress e))
    | (w, None) => (close w a, None)
    end
  end.

Definition join_only (w : W) (c : Client) (key : result string (list Z * string)) (token device hostname ep : string)
    (publish : list Service) (adapter : option string) (sys : S) : W * Client * S * list string * option agent_failure :=
  match client_Join w c key token device hostname ep with
  | (w, c, Err e) => (w, c, sys, [], Some (FJoin e))
  | (w, c, Ok (reg, peers)) =>
    let joined := "joined: network=" +:+ rs_NetworkID reg +:+ " suffix=" +:+ rs_DNSSuffix reg +:+ " assigned_ip=" +:+ rs_AssignedIP reg in
    match publish_all w c reg publish [joined] with
    | (w, c, log, Some e) => (w, c, sys, log, Some (FPublish e))
    | (w, c, log, None) =>
      match adapter with
      | None => (w, c, sys, log, None)
      | Some override =>
        let '(sys, e) := bringUpAdapter sys (adapterName ProductName override (rs_NetworkID reg)) (rs_AssignedIP reg) in
        (w, c, sys, log, e)
      end
    end
  end.
End modes.

(** ** The status log *)

Definition peer_line (st : Engine.Status) (p : Peer) : string :=
  let state := if default false (st_Handshakes st !! pr_AssignedIP p) then "handshake OK" else "connecting" in
  let label := pr_Hostname p +:+ (if String.eqb (pr_Group p) "" then "" else " [" +:+ pr_Group p +:+ "]") in
  pr_AssignedIP p +:+ " " +:+ label +:+ " (" +:+ state +:+ ")".

Definition peers_summary (st : Engine.Status) : string :=
  str_join (sort_strings (peer_line st <$> filter (λ p, pr_AssignedIP p ≠ st_AssignedIP st) (st_Peers st))) " | ".

Record report : Type := MkReport { lastPeers : string; lastErr : string }.

(** One tick of [reportStatus], over the status and its last error. *)
Definition report_tick (r : report) (x : Engine.Status * string) : report * list string :=
  let '(st, e) := x in
  let summary := peers_summary st in
  let '(peers, l1) :=
    if String.eqb summary (lastPeers r) then (lastPeers r, [])
    else (summary, [if String.eqb summary "" then "peers: none" else "peers: " +:+ summary]) in
  let '(err, l2) :=
    if negb (String.eqb e "") && negb (String.eqb e (lastErr r)) then (e, ["engine: " +:+ e]) else (lastErr r, []) in
  (MkReport peers err, l1 ++ l2).

Fixpoint reportStatus (r : report) (ticks : list (Engine.Status * string)) : list (list string) :=
  match ticks with
  | [] => []
  | x :: ticks => let '(r, l) := report_tick r x in l :: reportStatus r ticks
  end.

Definition report_start : report := MkReport "" "".

(** What was seen before a tick. *)
Definition peers_before (ticks : list (Engine.Status * string)) : string := default ""%string (peers_summary <$> last ticks.*1).

Definition error_before (ticks : list (Engine.Status * string)) : string :=
  default ""%string (last (filter (λ e, e ≠ ""%string) ticks.*2)).

(** The lines of a tick. *)
Definition tick_lines (ticks : list (Engine.Status * string)) (x : Engine.Status * string) : list string :=
  (if decide (peers_summary x.1 = peers_before ticks) then []
   else [if String.eqb (peers_summary x.1) "" then "peers: none"%string else ("peers: " +:+ peers_summary x.1)%string]) ++
  (if decide (x.2 = ""%string ∨ x.2 = error_before ticks) then [] else [("engine: " +:+ x.2)%string]).

Definition report_after (ticks : list (Engine.Status * string)) : report := MkReport (peers_before ticks) (error_before ticks).

Lemma report_tick_spec ticks x : report_tick (report_after ticks) x = (report_after (ticks ++ [x]), tick_lines ticks x).
Proof.
  destruct x as [st e]. unfold report_tick, report_after, tick_lines. cbn [lastPeers lastErr fst snd].
  assert (peers_before (ticks ++ [(st, e)]) = peers_summary st) as ->.
  { unfold peers_before. rewrite fmap_app; cbn [fmap list_fmap fst]; by rewrite last_snoc. }
  assert (error_before (ticks ++ [(st, e)]) = if decide (e = ""%string) then error_before ticks else e) as ->.
  { unfold error_before. rewrite fmap_app, filter_app. cbn [fmap list_fmap snd]. destruct (decide _) as [He|He].
    - rewrite filter_cons_False by (by intros []). by rewrite filter_nil, app_nil_r.
    - rewrite filter_cons_True by done. by rewrite filter_nil, last_snoc. }
  destruct (String.eqb_spec (peers_summary st) (peers_before ticks)) as [E|E]; destruct (decide (_ = peers_before ticks)); try done;
    destruct (String.eqb_spec e "") as [F|F], (String.eqb_spec e (error_before ticks)) as [G|G]; cbn [negb andb];
    destruct (decide (e = ""%string)); try done; destruct (decide (_ ∨ _)); try naive_solver; by rewrite ?E, ?G.
Qed.

(** In a run of the agent, each tick logs the peers exactly when their line differs from
    the one at the tick before, and the engine's error exactly when there is one and it
    differs from the last there was; the line names every peer but the device itself, and
    nothing else. *)
Lemma report_correct before x after :
  (∃ l1 l2, reportStatus report_start (before ++ x :: after) = l1 ++ tick_lines before x :: l2 ∧ length l1 = length before) ∧
  ∃ lines, peers_summary x.1 = str_join lines " | " ∧
    lines ≡ₚ peer_line x.1 <$> filter (λ p, pr_AssignedIP p ≠ st_AssignedIP x.1) (st_Peers x.1).
Proof.
  split.
  - assert (∀ seen, ∃ l1 l2, reportStatus (report_after seen) (before ++ x :: after) = l1 ++ tick_lines (seen ++ before) x :: l2 ∧
      length l1 = length before) as H; [|apply (H [])].
    induction before as [|y before IH]; intros seen; cbn [app reportStatus]; rewrite report_tick_spec.
    + exists [], (reportStatus (report_after (seen ++ [x])) after). by rewrite app_nil_r.
    + destruct (IH (seen ++ [y])) as (l1 & l2 & -> & Hl). exists (tick_lines seen y :: l1), l2.
      rewrite <-app_assoc. split; [done|]. cbn. by f_equal.
  - eexists. split; [done|]. apply merge_sort_Permutation.
Qed.

(** An error that comes back after a time without one is not logged again. *)
Lemma error_back_unlogged ticks st e :
  e ≠ ""%string → error_before ticks = e → peers_summary st = peers_before ticks →
  tick_lines (ticks ++ [(st, ""%string)]) (st, e) = [].
Proof.
  intros He Hb Hp. unfold tick_lines. cbn [fst snd].
  assert (peers_before (ticks ++ [(st, ""%string)]) = peers_summary st) as -> by (unfold peers_before; rewrite fmap_app; cbn [fmap list_fmap fst]; by rewrite last_snoc).
  assert (error_before (ticks ++ [(st, ""%string)]) = e) as ->.
  { rewrite <-Hb. unfold error_before. rewrite fmap_app, filter_app. cbn [fmap list_fmap snd].
    rewrite filter_cons_False by (by intros []). by rewrite filter_nil, app_nil_r. }
  rewrite decide_True by done. rewrite decide_True by naive_solver. done.
Qed.
