(* ===== verification/ClientIpc.v ===== *)
(** * Requests to the engine service (client/ipc/types.go, client/ipc/transport_windows.go)

    The window asks the service over a pipe; [dispatch] turns a request into a call of the
    manager and answers with every network of the device.  The exchange over the pipe is in
    Pipe.v. *)
From Stdlib Require Import Ascii String.
From S2P Require Import Prelude GoString Netip Proto Profile Engine Manager ManagerStatus.

Record CRequest : Type := MkCRequest { cq_Op : string; cq_Network : option Network; cq_Alias : string }.
Record CResponse : Type := MkCResponse { cp_OK : bool; cp_Error : string; cp_Networks : list MStatus }.

(** What the window and the tray ask for. *)
Definition request_connect (n : Network) : CRequest := MkCRequest "connect" (Some n) "".
Definition request_disconnect (alias : string) : CRequest := MkCRequest "disconnect" None alias.
Definition request_forget (alias : string) : CRequest := MkCRequest "forget" None alias.
Definition request_status : CRequest := MkCRequest "status" None "".

Section dispatch.
(** Which ports are free, how an engine starts and its number, what the engines report,
    what writing the list of networks to disk says, and the texts of errors. *)
Context (udpFree : Z → bool) (start : Engine.Config → option start_error) (eng : N).
Context (status : N → Engine.Status).
Context (save_error : option string).
Context (error_text : connect_error → string).

(** The manager after a request and what the call returned; [inr] is an answer without a
    call. *)
Definition client_call (m : Manager) (q : CRequest) : option (Manager * (option string + CResponse)) :=
  if String.eqb (cq_Op q) "connect" then
    match cq_Network q with
    | None => Some (m, inr (MkCResponse false "missing network" []))
    | Some n =>
      '(m, r) ← Connect udpFree start eng m n;
      Some (m, inl (match r with Ok _ => None | Err e => Some (error_text e) end))
    end
  else if String.eqb (cq_Op q) "disconnect" then Some (Disconnect m (cq_Alias q), inl save_error)
  else if String.eqb (cq_Op q) "forget" then Some (Forget m (cq_Alias q), inl save_error)
  else if String.eqb (cq_Op q) "status" then Some (m, inl None)
  else Some (m, inr (MkCResponse false ("unknown op: " +:+ cq_Op q) [])).

Definition client_dispatch (m : Manager) (q : CRequest) : option (Manager * CResponse) :=
  '(m, r) ← client_call m q;
  Some (m, match r with
           | inr p => p
           | inl None => MkCResponse true "" (Statuses status m)
           | inl (Some e) => MkCResponse false e (Statuses status m)
           end).

Lemma dispatch_disconnect m alias :
  ∃ m' p, client_dispatch m (request_disconnect alias) = Some (m', p) ∧ m_nets m' !! NormalizeAlias alias = None ∧
    ms_Network <$> cp_Networks p ≡ₚ m_saved m'.
Proof using Type.
  eexists _, _. split; [done|]. split; [cbn; apply lookup_delete_eq|]. destruct save_error; apply Statuses_networks.
Qed.

Lemma dispatch_connect m n :
  manager_ok m → pool4 (m_cfg m) → Validate (set_auto (connected_network n) (n_AutoConnect n)) = None →
  ∃ m' p, client_dispatch m (request_connect n) = Some (m', p) ∧ connected_network n ∈ m_saved m' ∧
    (cp_OK p = true ↔ is_Some (m_nets m' !! n_Alias (connected_network n))) ∧
    ms_Network <$> cp_Networks p ≡ₚ m_saved m'.
Proof using Type.
  intros Hm Hp Hv. unfold client_dispatch, client_call. cbn [request_connect cq_Op cq_Network String.eqb Ascii.eqb Bool.eqb].
  destruct (Connect_cases udpFree start eng m n Hm Hp) as (m' & r & Hcon & Hr). rewrite Hcon. cbn [mbind option_bind].
  destruct (Connect_spec _ _ _ _ _ _ _ Hm Hcon) as (_ & _ & Hout). eexists m', _. split; [done|].
  destruct r as [u|e].
  - destruct Hout as (Hin & Hup & _). split; [done|]. split; [|apply Statuses_networks]. rewrite Hup. by destruct u.
  - destruct e as [e| |]; [exfalso; assert (Validate (set_auto (connected_network n) (n_AutoConnect n)) = Some e) by (by apply Hr); congruence|..];
      (destruct Hout as (Hin & Hup & _); split; [done|]; split; [|apply Statuses_networks]; rewrite Hup; done).
Qed.

(** A request either is refused and changes nothing, or is answered with every network of
    the device as it is after the call, whether the call succeeded or not; a network that
    could not be connected is among them, with the settings it will be tried with again. *)
Theorem client_dispatch_correct m q :
  manager_ok m → pool4 (m_cfg m) →
  ∃ m' p, client_dispatch m q = Some (m', p) ∧ manager_ok m' ∧
    (m' = m ∧ cp_OK p = false ∧ cp_Networks p = [] ∨
     ms_Network <$> cp_Networks p ≡ₚ m_saved m') ∧
    (cq_Op q = "connect"%string → ∀ n, cq_Network q = Some n →
       Validate (set_auto (connected_network n) (n_AutoConnect n)) = None →
       connected_network n ∈ ms_Network <$> cp_Networks p).
Proof using Type.
  intros Hm Hp. unfold client_dispatch, client_call.
  destruct (String.eqb_spec (cq_Op q) "connect") as [->|Hc].
  { destruct (cq_Network q) as [n|] eqn:Hn; [|eexists _, _; split_and!; [done|done|by left|by intros]].
    destruct (Connect_cases udpFree start eng m n Hm Hp) as (m' & r & Hcon & Hr). rewrite Hcon. cbn [mbind option_bind].
    destruct (Connect_spec _ _ _ _ _ _ _ Hm Hcon) as (Hm' & _ & Hout). eexists m', _.
    split; [done|]. split; [done|].
    assert (ms_Network <$> cp_Networks (match (match r with Ok _ => None | Err e => Some (error_text e) end) with
      | None => MkCResponse true "" (Statuses status m') | Some e => MkCResponse false e (Statuses status m') end) ≡ₚ m_saved m') as Hl
      by (destruct r; apply Statuses_networks).
    split; [right; by destruct r|].
    intros _ n' [= <-] Hv. assert (connected_network n ∈ m_saved m') as Hin.
    { destruct r as [u|[e|e|e]]; [| | |]; try by destruct Hout.
      exfalso. assert (Validate (set_auto (connected_network n) (n_AutoConnect n)) = Some e) by (by apply Hr). congruence. }
    rewrite <-Hl in Hin. by destruct r. }
  destruct (String.eqb _ "disconnect").
  { eexists _, _. split; [done|]. split; [by apply Disconnect_ok|]. split; [|done].
    right. destruct save_error; apply Statuses_networks. }
  destruct (String.eqb _ "forget").
  { eexists _, _. split; [done|]. split; [by apply Forget_ok|]. split; [|done].
    right. destruct save_error; apply Statuses_networks. }
  destruct (String.eqb _ "status"); eexists _, _; (split; [done|]; split; [done|]; split; [|done]).
  - right. apply Statuses_networks.
  - by left.
Qed.
End dispatch.

Lemma client_dispatch_correct_witness :
  ∃ m' p, client_dispatch (λ _, true) (λ _, Some EAdapter) 3 demo_status None (λ _, "no adapter"%string) demo_two
    (MkCRequest "connect" (Some (demo_network "lab" "t3")) "") = Some (m', p) ∧
    connected_network (demo_network "lab" "t3") ∈ ms_Network <$> cp_Networks p.
Proof.
  destruct (client_dispatch_correct (λ _, true) (λ _, Some EAdapter) 3 demo_status None (λ _, "no adapter"%string) demo_two
    (MkCRequest "connect" (Some (demo_network "lab" "t3")) "")) as (m' & p & H & _ & _ & Hin).
  - exact (proj1 (manager_run_ok any_alias demo_config false [] _ NoDup_nil_2 (demo_two_reached _))).
  - exact demo_pool4.
  - exists m', p. split; [exact H|]. apply Hin; [done|done|by vm_compute].
Defined.
