(* ===== verification/App.v ===== *)
(** * The desktop application's backend (gui/app.go)

    A window drives the engine service and the control-server service over their channels.
    When the server service is not there, the application hosts the network itself with a
    supervisor of its own, over the same file. *)
From Stdlib Require Import Ascii String.
From S2P Require Import Prelude GoString GoStringFacts Netip Proto Acl TlsConf Host Supervisor ServerMain Strconv Update Profile Engine Manager ManagerStatus ClientIpc.

(** [unwrap]: the networks come back on failure too. *)
Definition unwrap (r : result string CResponse) : list MStatus * option string :=
  match r with
  | Err e => ([], Some e)
  | Ok p => (cp_Networks p, if cp_OK p then None else Some (cp_Error p))
  end.

Record HostState : Type := MkHostState { hs_State : State; hs_ManagedByService : bool }.

(** [CheckUpdate]: the newer release, if there is one. *)
Definition CheckUpdate (version : string) (latest : result string (option Release)) : option Release :=
  match latest with
  | Ok (Some rel) => if IsNewer version (re_Version rel) then Some rel else None
  | _ => None
  end.

Section app.
Context (error_text : host_error → string).

(** [svc] is the service's supervisor while it is reachable, [a] the application's own once
    it was needed. *)
Definition local (a : option Supervisor) (f : file) : Supervisor := default (Supervisor.New f) a.

Definition answered (p : SResponse) : option string := if sp_OK p then None else Some (sp_Error p).

Definition HostStart (w : machine) (a svc : option Supervisor) (f : file) (c : SConfig)
  : option Supervisor * option Supervisor * file * option string :=
  match svc with
  | Some s =>
    let '(s, f, p) := server_dispatch error_text w s f (MkSRequest "start" (Some c)) in
    (a, Some s, f, answered p)
  | None =>
    let '(s, f, r) := Supervisor.Start error_text w (local a f) f c in (Some s, None, f, r)
  end.

Definition HostStop (w : machine) (a svc : option Supervisor) (f : file)
  : option Supervisor * option Supervisor * file * option string :=
  match svc with
  | Some s =>
    let '(s, f, p) := server_dispatch error_text w s f (MkSRequest "stop" None) in
    (a, Some s, f, answered p)
  | None => let '(s, f) := Supervisor.Stop w (local a f) f in (Some s, None, f, None)
  end.

(** The state, and the application's supervisor, which asking may create. *)
Definition HostStatus (w : machine) (a svc : option Supervisor) (f : file) : option Supervisor * HostState :=
  match svc with
  | Some s =>
    match sp_State (server_dispatch error_text w s f (MkSRequest "status" None)).2 with
    | Some st => (a, MkHostState st true)
    | None => (Some (local a f), MkHostState (state_of (local a f)) false)
    end
  | None => (Some (local a f), MkHostState (state_of (local a f)) false)
  end.

Lemma started w s f c :
  let '(s', _, r) := Supervisor.Start error_text w s f c in
  (r = None → st_Running (state_of s') = true ∧ st_Config (state_of s') = set_AutoStart c true ∧
     st_LastError (state_of s') = ""%string) ∧
  (∀ e, r = Some e → st_LastError (state_of s') = e).
Proof using Type.
  pose proof (Start_correct error_text w s f c) as H.
  destruct (Supervisor.Start error_text w s f c) as [[s' f'] r]. destruct H as (Hbad & Hgood & He).
  assert (st_LastError (state_of s') = default ""%string r) as Hl by (unfold state_of; by destruct (Running _)).
  split; [intros ->|by intros e ->].
  destruct (Valid c) as [e|] eqn:Hv; [by destruct (Hbad e eq_refl)|].
  destruct (Hgood eq_refl) as (Hc & Hr & _). rewrite Hl. unfold state_of. by rewrite (proj2 Hr eq_refl).
Qed.

(** While the service stays reachable, or stays away, the window shows what its buttons did:
    after a start without error the network runs with the settings that were given, hosted
    by the service exactly if it was reachable; after a start with an error the error is
    shown; after a stop nothing runs. *)
Theorem host_buttons w a svc f c :
  let '(a1, svc1, f1, r) := HostStart w a svc f c in
  let '(a2, svc2, f2, r') := HostStop w a1 svc1 f1 in
  (is_Some svc1 ↔ is_Some svc) ∧
  (r = None →
     let h := (HostStatus w a1 svc1 f1).2 in
     st_Running (hs_State h) = true ∧ st_Config (hs_State h) = set_AutoStart c true ∧
     st_LastError (hs_State h) = ""%string ∧ (hs_ManagedByService h = true ↔ is_Some svc)) ∧
  (∀ e, r = Some e → st_LastError (hs_State (HostStatus w a1 svc1 f1).2) = e) ∧
  r' = None ∧ st_Running (hs_State (HostStatus w a2 svc2 f2).2) = false.
Proof using Type.
  destruct svc as [s|]; cbn [HostStart].
  - unfold server_dispatch at 1. cbn [sq_Op sq_Config]. change (String.eqb "start" "start") with true. cbn match.
    pose proof (started w s f c) as Hs. destruct (Supervisor.Start error_text w s f c) as [[s' f'] r].
    destruct Hs as [Hok Herr]. destruct r as [e|]; (split_and!; [done| | |done|done]).
    + done.
    + intros e' [= <-]. by apply Herr.
    + intros _. destruct (Hok eq_refl) as (? & ? & ?). by split_and!.
    + done.
  - pose proof (started w (local a f) f c) as Hs.
    destruct (Supervisor.Start error_text w (local a f) f c) as [[s' f'] r]. destruct Hs as [Hok Herr]. cbn [HostStop].
    split_and!; [done| |done|done|done].
    intros Hr. destruct (Hok Hr) as (? & ? & ?). split_and!; [done|done|done|split; [done|by intros []]].
Qed.

(** A network the application hosts itself is out of its reach once the service is there:
    stopping stops the service's, and the state shown is the service's. *)
Lemma local_network_out_of_reach w mine s f :
  Running (s_srv mine) = true →
  let '(a, svc, f', r) := HostStop w (Some mine) (Some s) f in
  a = Some mine ∧ r = None ∧ st_Running (hs_State (HostStatus w a svc f').2) = false.
Proof using Type. done. Qed.
End app.
