(* ===== verification/UpdateRun.v ===== *)
(** * Fetching a release and running its installer (client/update/update.go, apply_windows.go)

    HTTP, the disk, the shell and encoding/json are arguments: what a request answers, which
    writes succeed, what launching says.  The effects of [Apply] are a trace, so that their
    order can be spoken of. *)
From Stdlib Require Import Ascii String.
From S2P Require Import Prelude GoString GoStringFacts Netip Strconv Paths Update App.

Local Open Scope Z_scope.

(** An answer: its status and what reading its body yields, piece by piece, and then the end
    or an error. *)
Record response : Type := MkResponse { rp_status : Z; rp_chunks : list string; rp_end : option string }.

Definition StatusOK : Z := 200.

Definition body (r : response) : string := foldr (λ c s, c +:+ s) ""%string (rp_chunks r).

Inductive run_error : Type :=
| EHttp (what : string)
| EStatus (url : string) (status : Z)
| EDecode
| ENoInstaller
| ECreate (path : string)
| ERead (what : string)
| EWrite (path : string)
| ELaunch (what : string).

Inductive effect : Type :=
| Created (path : string)
| Wrote (path chunk : string)
| Closed (path : string)
| Launched (verb path args : string).

Section run.
Context `{Filepath}.
(** The answer to a request, which writes to the file fail, and the installer's launch. *)
Context (http : string → result string response) (decode : string → option ghRelease).
Context (TempDir : string) (creatable : bool) (write_fails : nat → bool) (ShellExecute : option string).

Definition Owner : string := "Zeliper".
Definition Repo : string := "zwan".
Definition latest_url : string := "https://api.github.com/repos/" +:+ (Owner +:+ ("/" +:+ (Repo +:+ "/releases/latest"))).

Definition fetchLatest : result run_error ghRelease :=
  match http latest_url with
  | Err e => Err (EHttp e)
  | Ok resp =>
    if negb (rp_status resp =? StatusOK) then Err (EStatus latest_url (rp_status resp)) else
    match decode (body resp) with Some gr => Ok gr | None => Err EDecode end
  end.

(** [Latest], with [Update.Latest] for what it makes of the release. *)
Definition Latest_now : result run_error Release :=
  match fetchLatest with Err e => Err e | Ok gr => Ok (Update.Latest gr) end.

(** [io.Copy]: the effects, and the error that stopped it. *)
Fixpoint copy (dst : string) (k : nat) (chunks : list string) (fin : option string) : list effect * option run_error :=
  match chunks with
  | [] => ([], ERead <$> fin)
  | c :: chunks =>
    if write_fails k then ([], Some (EWrite dst)) else
    let '(es, e) := copy dst (S k) chunks fin in (Wrote dst c :: es, e)
  end.

Definition download (url dst : string) : list effect * option run_error :=
  match http url with
  | Err e => ([], Some (EHttp e))
  | Ok resp =>
    if negb (rp_status resp =? StatusOK) then ([], Some (EStatus url (rp_status resp))) else
    if negb creatable then ([], Some (ECreate dst)) else
    let '(es, e) := copy dst 0 (rp_chunks resp) (rp_end resp) in
    (Created dst :: es ++ [Closed dst], e)
  end.

Definition Apply (installerURL : string) : list effect * option run_error :=
  if String.eqb installerURL "" then ([], Some ENoInstaller) else
  let tmp := Join [TempDir; "zwan-setup.exe"%string] in
  match download installerURL tmp with
  | (es, Some e) => (es, Some e)
  | (es, None) => (es ++ [Launched "runas" tmp "/S"], ELaunch <$> ShellExecute)
  end.

(** Elsewhere than on Windows. *)
Definition Apply_other (installerURL : string) : option string := Some "update: apply is Windows-only"%string.

(** The window's two buttons (gui/app.go): [CheckUpdate], then [ApplyUpdate] of what it gave. *)
Definition window_CheckUpdate (version : string) : option Release :=
  CheckUpdate version (match Latest_now with Ok rel => Ok (Some rel) | Err _ => Err ""%string end).
Definition ApplyUpdate (installerURL : string) : list effect * option run_error := Apply installerURL.

(** ** What a file holds after some effects *)

Definition file_effect (path : string) (f : option string) (e : effect) : option string :=
  match e with
  | Created p => if String.eqb p path then Some ""%string else f
  | Wrote p c => if String.eqb p path then (λ s, s +:+ c) <$> f else f
  | _ => f
  end.

Definition file_after (path : string) (es : list effect) : option string := foldl (file_effect path) None es.

(** Files that were created and not closed. *)
Definition open_effect (o : list string) (e : effect) : list string :=
  match e with
  | Created p => p :: o
  | Closed p => filter (λ q, q ≠ p) o
  | _ => o
  end.

Definition open_after (es : list effect) : list string := foldl open_effect [] es.

Lemma copy_writes dst k chunks fin es e s :
  copy dst k chunks fin = (es, e) →
  ∃ w, es = Wrote dst <$> w ∧ (e = None → w = chunks ∧ fin = None) ∧
    foldl (file_effect dst) (Some s) es = Some (s +:+ foldr (λ c s, c +:+ s) ""%string w).
Proof using Type.
  revert k es e s. induction chunks as [|c chunks IH]; intros k es e s; cbn [copy].
  { intros [= <- <-]. exists []. split_and!; [done|by destruct fin|]. cbn. by rewrite string_app_nil_r. }
  destruct (write_fails k).
  { intros [= <- <-]. exists []. split_and!; [done|done|]. cbn. by rewrite string_app_nil_r. }
  destruct (copy dst (S k) chunks fin) as [es' e'] eqn:Hc. intros [= <- <-].
  destruct (IH _ _ _ (s +:+ c) Hc) as (w & -> & He & Hf). exists (c :: w).
  split_and!; [done|by intros [-> ->]%He|].
  cbn [foldl fmap list_fmap foldr file_effect]. rewrite String.eqb_refl. cbn [fmap option_fmap option_map].
  by rewrite Hf, string_app_assoc.
Qed.

Lemma open_writes dst w o : foldl open_effect o (Wrote dst <$> w) = o.
Proof using Type. induction w as [|c w IH]; [done|exact IH]. Qed.

(** A download closes what it creates; without an error the file is the whole answer. *)
Lemma download_whole url dst es e :
  download url dst = (es, e) →
  open_after es = [] ∧ (∀ verb path args, Launched verb path args ∉ es) ∧
  (e = None → ∃ resp, http url = Ok resp ∧ rp_status resp = StatusOK ∧ rp_end resp = None ∧
     file_after dst es = Some (body resp)).
Proof using Type.
  unfold download. destruct (http url) as [resp|what] eqn:Hh.
  2: { intros [= <- <-]. split_and!; [done|intros; apply not_elem_of_nil|done]. }
  destruct (Z.eqb_spec (rp_status resp) StatusOK) as [Hst|]; cbn [negb].
  2: { intros [= <- <-]. split_and!; [done|intros; apply not_elem_of_nil|done]. }
  destruct creatable; cbn [negb].
  2: { intros [= <- <-]. split_and!; [done|intros; apply not_elem_of_nil|done]. }
  destruct (copy dst 0 (rp_chunks resp) (rp_end resp)) as [w e'] eqn:Hc. intros [= <- <-].
  destruct (copy_writes _ _ _ _ _ _ "" Hc) as (l & -> & He & Hf). split_and!.
  - unfold open_after. cbn [foldl open_effect]. rewrite foldl_app, open_writes. cbn [foldl open_effect].
    rewrite filter_cons_False by (by intros ?). done.
  - intros verb path args Hin. apply elem_of_cons in Hin as [?|Hin]; [done|].
    apply elem_of_app in Hin as [(c & ? & _)%list_elem_of_fmap|Hin%list_elem_of_singleton]; done.
  - intros [-> Hend]%He. exists resp. split_and!; [done|done|done|].
    unfold file_after. cbn [foldl file_effect]. rewrite String.eqb_refl, foldl_app, Hf. by rewrite string_app_nil_l.
Qed.

(** [Apply] launches one thing at most, last of all, elevated and silent: a file it has closed and
    that holds everything the server answered, with status 200 and without an error. *)
Theorem Apply_launches_whole url es e :
  Apply url = (es, e) →
  open_after es = [] ∧
  ∀ verb path args, Launched verb path args ∈ es →
    verb = "runas"%string ∧ args = "/S"%string ∧ ∃ before resp, es = before ++ [Launched verb path args] ∧
      open_after before = [] ∧ http url = Ok resp ∧ rp_status resp = StatusOK ∧ rp_end resp = None ∧
      file_after path before = Some (body resp).
Proof using Type.
  unfold Apply. destruct (String.eqb url ""); [intros [= <- <-]; split; [done|by intros ??? ?%elem_of_nil]|].
  destruct (download url _) as [es' e'] eqn:Hd. destruct (download_whole _ _ _ _ Hd) as (Ho & Hl & Hw).
  destruct e' as [e'|]; intros [= <- <-]; [split; [done|by intros verb path args Hin%Hl]|].
  split; [unfold open_after in *; by rewrite foldl_app, Ho|]. intros verb path args Hin.
  apply elem_of_app in Hin as [Hin|Hin]; [by apply Hl in Hin|]. apply list_elem_of_singleton in Hin as [= -> -> ->].
  destruct (Hw eq_refl) as (resp & ? & ? & ? & ?). split_and!; [done|done|]. exists es', resp. by split_and!.
Qed.

(** C23: What the window's update button runs, if it runs anything, is the whole of an installer
    that the newest release lists, a release newer than the program; nothing runs that was
    only partly downloaded or is still being written. *)
Theorem window_updates version rel es e verb path args :
  window_CheckUpdate version = Some rel → ApplyUpdate (re_InstallerURL rel) = (es, e) → Launched verb path args ∈ es →
  ∃ gr a resp before, fetchLatest = Ok gr ∧ rel = Update.Latest gr ∧ IsNewer version (re_Version rel) = true ∧ a ∈ gh_Assets gr ∧ installer a = true ∧
    http (as_URL a) = Ok resp ∧ rp_status resp = StatusOK ∧ rp_end resp = None ∧
    es = before ++ [Launched verb path args] ∧ open_after before = [] ∧ file_after path before = Some (body resp).
Proof using Type.
  unfold window_CheckUpdate, ApplyUpdate, Latest_now. destruct fetchLatest as [gr|] eqn:Hf; [|done]. cbn [CheckUpdate].
  destruct (IsNewer version (re_Version (Update.Latest gr))) eqn:Hn; [|done]. intros [= <-] Ha Hin.
  destruct (Apply_launches_whole _ _ _ Ha) as [_ Hl].
  destruct (Hl _ _ _ Hin) as (-> & -> & before & resp & -> & Hob & Hh & Hs & Hend & Hfile).
  unfold Update.Latest in Hh, Ha. cbn [re_InstallerURL] in Hh, Ha.
  destruct (List.find installer (gh_Assets gr)) as [a|] eqn:Hfind; [|by apply (f_equal fst) in Ha; destruct before].
  apply find_some in Hfind as [Hain Hinst]. exists gr, a, resp, before.
  split_and!; try done. by apply list_elem_of_In.
Qed.
End run.

(** ** A release *)

Definition demo_release : ghRelease :=
  MkGh "v1.2.0" "notes" [MkAsset "zwan-server-linux-amd64" "u1"; MkAsset "Zwan-Setup.exe" "u2"].

Definition demo_http (url : string) : result string response :=
  if String.eqb url latest_url then Ok (MkResponse 200 ["{}"%string] None)
  else if String.eqb url "u2" then Ok (MkResponse 200 ["MZ"; "90"]%string None)
  else Err "no such host"%string.

Lemma window_updates_witness :
  ∃ before, (ApplyUpdate demo_http "/tmp" true (λ _, false) None "u2").1 =
      before ++ [Launched "runas" "/tmp/zwan-setup.exe" "/S"] ∧
    file_after "/tmp/zwan-setup.exe" before = Some "MZ90"%string.
Proof.
  destruct (ApplyUpdate demo_http "/tmp" true (λ _, false) None "u2") as [es e] eqn:Ha.
  destruct (window_updates demo_http (λ _, Some demo_release) "/tmp" true (λ _, false) None "1.1.9"
    (MkRelease "v1.2.0" "1.2.0" "u2" "notes") es e "runas" "/tmp/zwan-setup.exe" "/S")
    as (gr & a & resp & before & Hf & _ & _ & Hin & Hi & Hh & _ & _ & He & _ & Hfile).
  - by vm_compute.
  - exact Ha.
  - vm_compute in Ha. injection Ha as <- <-. apply list_elem_of_In. vm_compute. tauto.
  - exists before. split; [exact He|]. rewrite Hfile. f_equal.
    vm_compute in Hf. injection Hf as <-.
    apply elem_of_cons in Hin as [->|[->|?%elem_of_nil]%elem_of_cons]; [done| |done].
    vm_compute in Hh. by injection Hh as <-.
Defined.
