(* ===== verification/Probe.v ===== *)
(** * The tunnel probe (cmd/wgprobe/main.go)

    Two runs of a diagnostic program, one as "a" and one as "b", each with one device that has
    the other for its peer, direct or through a relay. *)
From Stdlib Require Import Ascii String.
From S2P Require Import Prelude GoString GoStringFacts HostPort Netip NetipFacts Base64 Certpin Relay BindTraffic Keys Wg WgDevice.

Local Open Scope Z_scope.

(** [mustPriv]: the key of 32 equal bytes, through its text. *)
Definition mustPriv (seed : Z) : result key_error Private := ParsePrivate (EncodeToString (replicate 32 seed)).

Lemma mustPriv_ok seed : is_byte seed → mustPriv seed = Ok (MkPrivate (replicate 32 seed)).
Proof.
  intros Hs. apply (ParsePrivate_String (MkPrivate (replicate 32 seed))). split; cbn [k_bytes]; [|by rewrite length_replicate].
  by apply Forall_replicate.
Qed.

(** One end of the probe. *)
Record probe_end : Type := MkProbeEnd {
  pb_priv : Private;
  pb_peerPubHex : string;
  pb_selfIP : string;
  pb_peerIP : string;
  pb_listen : Z;
  pb_peer : Z;
}.

Inductive fatal : Type :=
| FSeed (e : key_error)
| FId
| FRelay (e : bind_error)
| FSelfIP                       (** [MustParseAddr] panics *)
| FUp
| FSetPeers.

Section probe.
Context (base : list Z → list Z).

Definition probe_end_of (id : string) : result fatal probe_end :=
  match mustPriv 1, mustPriv 2 with
  | Err e, _ | _, Err e => Err (FSeed e)
  | Ok privA, Ok privB =>
    if String.eqb id "a" then
      Ok (MkProbeEnd privA (Public_Hex (Private_Public base privB)) "100.64.0.1" "100.64.0.2" 51830 51831)
    else if String.eqb id "b" then
      Ok (MkProbeEnd privB (Public_Hex (Private_Public base privA)) "100.64.0.2" "100.64.0.1" 51831 51830)
    else Err FId
  end.

(** The bind and the text that names the peer to it. *)
Definition probe_bind (e : probe_end) (relayAddr : string) : result fatal (mode * string) :=
  if negb (String.eqb relayAddr "") then
    match ParseAddr (pb_selfIP e) with
    | None => Err FSelfIP
    | Some ip =>
      match NewRelay relayAddr ip with
      | Err err => Err (FRelay err)
      | Ok b => Ok (ViaRelay b, pb_peerIP e)
      end
    end
  else Ok (Direct, "127.0.0.1:" +:+ itoa (pb_peer e)).

Definition probe_peer (e : probe_end) (endpoint : string) : wg_Peer :=
  MkWgPeer (pb_peerPubHex e) endpoint [pb_peerIP e +:+ "/32"].

Context {P : Type} `{Countable P} {prefix_of : string → P} {W E : Type} `{!WgLib P W E} `{laws : !WgLibLaws P prefix_of W E}.

(** The loop that waits for the handshake, a second between rounds: [at_ i] is the machine in
    the [i]-th, and the result the round that saw it. *)
Fixpoint probe_poll (at_ : nat → W) (d : N) (key : string) (i rounds : nat) : option nat :=
  match rounds with
  | O => None
  | S rounds =>
    let hs := match device_PeerHandshakes (at_ i) d with Ok m => m | Err _ => ∅ end in
    if 0 <? default 0 (hs !! key) then Some i else probe_poll at_ d key (S i) rounds
  end.

(** What [main] sets up: the machine with the device, or the message it ends with. *)
Definition probe_start (w : W) (wgLog id relayAddr : string) : result fatal (W * N * probe_end * mode) :=
  match probe_end_of id with
  | Err e => Err e
  | Ok e =>
    match probe_bind e relayAddr with
    | Err err => Err err
    | Ok (m, endpoint) =>
      match Up w wgLog ("probe-" +:+ id) (Private_Hex (pb_priv e)) (pb_listen e) with
      | (_, Err _) => Err FUp
      | (w, Ok d) =>
        match SetPeers w d [probe_peer e endpoint] with
        | (_, Some _) => Err FSetPeers
        | (w, None) => Ok (w, d, e, m)
        end
      end
    end
  end.

(** [main]: what it reports, and the machine after the deferred [Close]; [later] is what
    becomes of the machine while it waits. *)
Definition probe_main (w : W) (wgLog id relayAddr : string) (later : W → nat → W) : result fatal (W * bool) :=
  match probe_start w wgLog id relayAddr with
  | Err e => Err e
  | Ok (w, d, e, _) =>
    let seen := probe_poll (later w) d (pb_peerPubHex e) 0 20 in
    Ok (Close (later w (default 20%nat seen)) (Some d), match seen with Some _ => true | None => false end)
  end.

(** ** The two ends fit together *)

Lemma probe_end_a : probe_end_of "a" = Ok (MkProbeEnd (MkPrivate (replicate 32 1)) (Public_Hex (MkPublic (base (replicate 32 2)))) "100.64.0.1" "100.64.0.2" 51830 51831).
Proof using Type. unfold probe_end_of. by rewrite !mustPriv_ok. Qed.

Lemma probe_end_b : probe_end_of "b" = Ok (MkProbeEnd (MkPrivate (replicate 32 2)) (Public_Hex (MkPublic (base (replicate 32 1)))) "100.64.0.2" "100.64.0.1" 51831 51830).
Proof using Type. unfold probe_end_of. by rewrite !mustPriv_ok. Qed.

(** The loop reports the first round with a handshake, within its twenty. *)
Lemma probe_poll_first at_ d key i rounds :
  match probe_poll at_ d key i rounds with
  | Some j => (i ≤ j < i + rounds)%nat ∧
      (∃ hs t, device_PeerHandshakes (at_ j) d = Ok hs ∧ hs !! key = Some t ∧ 0 < t) ∧
      ∀ k hs t, (i ≤ k < j)%nat → device_PeerHandshakes (at_ k) d = Ok hs → hs !! key = Some t → t ≤ 0
  | None => ∀ k hs t, (i ≤ k < i + rounds)%nat → device_PeerHandshakes (at_ k) d = Ok hs → hs !! key = Some t → t ≤ 0
  end.
Proof using Type.
  revert i. induction rounds as [|rounds IH]; intros i; cbn [probe_poll]; [intros; lia|].
  set (hs := match device_PeerHandshakes (at_ i) d with Ok m => m | Err _ => ∅ end).
  destruct (Z.ltb_spec 0 (default 0 (hs !! key))) as [Hlt|Hge].
  - split; [lia|]. split; [|intros; lia]. destruct (hs !! key) as [t|] eqn:Ht; [|simpl in Hlt; lia].
    exists hs, t. unfold hs in *. destruct (device_PeerHandshakes (at_ i) d); [done|by rewrite lookup_empty in Ht].
  - assert (∀ hs' t, device_PeerHandshakes (at_ i) d = Ok hs' → hs' !! key = Some t → t ≤ 0) as Hi.
    { intros hs' t Hd Ht. unfold hs in Hge. by rewrite Hd, Ht in Hge. }
    specialize (IH (S i)). destruct (probe_poll at_ d key (S i) rounds) as [j|].
    + destruct IH as (Hj & Hex & Hfirst). split; [lia|]. split; [done|].
      intros k hs' t Hk. destruct (decide (k = i)) as [->|]; [apply Hi|]. apply Hfirst. lia.
    + intros k hs' t Hk. destruct (decide (k = i)) as [->|]; [apply Hi|]. apply IH. lia.
Qed.

(** Where the tunnel's text for the peer leads: to the other end. *)
Definition points_at (m m' : mode) (e' : probe_end) (endpoint : string) : Prop :=
  match m, m' with
  | Direct, Direct => bind_ParseEndpoint m endpoint = Some (StdNetEndpoint (MkAddrPort (Addr4 0x7f000001) (pb_listen e')))
  | ViaRelay b, ViaRelay b' =>
    bind_ParseEndpoint m endpoint = Some (relayEndpoint (b_selfIP b')) ∧ b_relayAP b = b_relayAP b'
  | _, _ => False
  end.

Lemma probe_bind_points_at id id' e e' relayAddr m m' endpoint endpoint' :
  probe_end_of id = Ok e → probe_end_of id' = Ok e' → pb_peerIP e = pb_selfIP e' → pb_peer e = pb_listen e' →
  probe_bind e relayAddr = Ok (m, endpoint) → probe_bind e' relayAddr = Ok (m', endpoint') →
  points_at m m' e' endpoint ∧ one_line endpoint ∧ one_line (pb_peerIP e).
Proof using Type.
  intros Hid Hid' Hip Hport. unfold probe_end_of in Hid. rewrite !mustPriv_ok in Hid by done.
  unfold probe_bind. destruct (String.eqb relayAddr "") eqn:Hr; cbn [negb].
  - intros [= <- <-] [= <- <-].
    destruct (String.eqb id "a"); [|destruct (String.eqb id "b"); [|done]];
      injection Hid as <-; cbn [pb_peer points_at] in *; rewrite <- Hport; (split; [by vm_compute|by split]).
  - destruct (ParseAddr (pb_selfIP e)) as [ip|] eqn:Hpa; [|done].
    destruct (NewRelay relayAddr ip) as [b|] eqn:Hb; [|done]. intros [= <- <-].
    destruct (ParseAddr (pb_selfIP e')) as [ip'|] eqn:Hpa'; [|done].
    destruct (NewRelay relayAddr ip') as [b'|] eqn:Hb'; [|done]. intros [= <- <-].
    unfold NewRelay in Hb, Hb'. destruct (ParseAddrPort relayAddr) as [ap|]; [|done].
    destruct (negb (addr_Is4 ip)); [done|]. destruct (negb (addr_Is4 ip')); [done|].
    injection Hb as <-. injection Hb' as <-. cbn [points_at b_selfIP b_relayAP].
    destruct (String.eqb id "a"); [|destruct (String.eqb id "b"); [|done]];
      injection Hid as <-; cbn [pb_peerIP] in *; rewrite <- Hip in Hpa'; vm_compute in Hpa'; injection Hpa' as <-;
      (split; [split; [by vm_compute|done]|by split]).
Qed.

(** The device of a probe that came up. *)
Lemma probe_start_device w wgLog id relayAddr w' d e m :
  (∀ b, digest b → digest (base b)) → probe_start w wgLog id relayAddr = Ok (w', d, e, m) →
  probe_end_of id = Ok e ∧ ∃ endpoint, probe_bind e relayAddr = Ok (m, endpoint) ∧
    (one_line endpoint → one_line (pb_peerIP e) →
     u_private (config_of w' d) = Private_Hex (pb_priv e) ∧ u_port (config_of w' d) = itoa (pb_listen e) ∧
     u_peers (config_of w' d) = {[ pb_peerPubHex e := MkUPeer endpoint "25" ]} ∧
     u_owner (config_of w' d) !! prefix_of (pb_peerIP e +:+ "/32") = Some (pb_peerPubHex e)).
Proof using laws.
  intros Hbase. unfold probe_start. destruct (probe_end_of id) as [e0|] eqn:Hid; [|done].
  assert (one_line (Private_Hex (pb_priv e0)) ∧ 0 ≤ pb_listen e0 ∧ one_line (pb_peerPubHex e0)) as (Hpr & Hport & Hkey).
  { unfold probe_end_of in Hid. rewrite !mustPriv_ok in Hid by done.
    assert (∀ z, is_byte z → digest (replicate 32 z)) as Hd by (intros z Hz; split; [by apply Forall_replicate|by rewrite length_replicate]).
    assert (∀ z, is_byte z → one_line (hex_encode (base (replicate 32 z)))) as Hpub.
    { intros z Hz. apply hex_one_line. by apply Hbase, Hd. }
    destruct (String.eqb id "a"); [|destruct (String.eqb id "b"); [|done]];
      injection Hid as <-; (split; [by apply hex_one_line, (Forall_replicate is_byte 32)|split; [done|by apply Hpub]]). }
  destruct (probe_bind e0 relayAddr) as [[m0 endpoint]|] eqn:Hb; [|done].
  destruct (Up w wgLog _ _ _) as [w1 [d0|]] eqn:Hu; [|done].
  destruct (SetPeers w1 d0 [probe_peer e0 endpoint]) as [w2 [err|]] eqn:Hs; [done|].
  intros [= <- <- <- <-]. split; [done|]. exists endpoint. split; [done|]. intros Hone Hip.
  destruct (Up_all_or_nothing _ _ _ _ _ _ _ Hpr Hport Hu) as [(_ & _ & Hc) _].
  assert (Forall peer_one_line [probe_peer e0 endpoint]) as Hl.
  { repeat constructor; [done|done|]. by apply one_line_app. }
  destruct (SetPeers_installs _ _ _ _ Hl (NoDup_singleton _) Hs) as (Hps & _ & Ho & Hpriv & Hpo & _).
  rewrite Hpriv, Hpo, Hc, Hps. split_and!; [done|done| |].
  - cbn [fmap list_fmap probe_peer w_PublicKeyHex w_Endpoint]. by rewrite list_to_map_cons, list_to_map_nil.
  - apply (Ho (probe_peer e0 endpoint)); [by left|by left|].
    intros q ip' Hq%list_elem_of_singleton _ _. exact Hq.
Qed.

(** The two ends of the probe, once up, are each other's peers: each device has the key of
    which the other has the public half as its only peer, sends for the other's address to
    it, and reaches it where the other listens: at its port directly, or at the same relay
    under the address the other registers there. *)
Theorem probes_pair wa wb la lb relayAddr wa' da ea ma wb' db eb mb :
  (∀ b, digest b → digest (base b)) →
  probe_start wa la "a" relayAddr = Ok (wa', da, ea, ma) → probe_start wb lb "b" relayAddr = Ok (wb', db, eb, mb) →
  ∃ ta tb, points_at ma mb eb ta ∧ points_at mb ma ea tb ∧
    u_private (config_of wa' da) = Private_Hex (pb_priv ea) ∧ u_private (config_of wb' db) = Private_Hex (pb_priv eb) ∧
    u_port (config_of wa' da) = itoa (pb_listen ea) ∧ u_port (config_of wb' db) = itoa (pb_listen eb) ∧
    u_peers (config_of wa' da) = {[ Public_Hex (Private_Public base (pb_priv eb)) := MkUPeer ta "25" ]} ∧
    u_peers (config_of wb' db) = {[ Public_Hex (Private_Public base (pb_priv ea)) := MkUPeer tb "25" ]} ∧
    u_owner (config_of wa' da) !! prefix_of (pb_selfIP eb +:+ "/32") = Some (pb_peerPubHex ea) ∧
    u_owner (config_of wb' db) !! prefix_of (pb_selfIP ea +:+ "/32") = Some (pb_peerPubHex eb).
Proof using laws.
  intros Hbase Ha Hb. destruct (probe_start_device _ _ _ _ _ _ _ _ Hbase Ha) as (Hia & ta & Hba & Hda).
  destruct (probe_start_device _ _ _ _ _ _ _ _ Hbase Hb) as (Hib & tb & Hbb & Hdb).
  assert (pb_peerIP ea = pb_selfIP eb ∧ pb_peer ea = pb_listen eb ∧ pb_peerIP eb = pb_selfIP ea ∧ pb_peer eb = pb_listen ea ∧
    pb_peerPubHex ea = Public_Hex (Private_Public base (pb_priv eb)) ∧
    pb_peerPubHex eb = Public_Hex (Private_Public base (pb_priv ea))) as (H1 & H2 & H3 & H4 & H5 & H6).
  { rewrite probe_end_a in Hia. rewrite probe_end_b in Hib. injection Hia as <-. injection Hib as <-. by split_and!. }
  destruct (probe_bind_points_at _ _ _ _ _ _ _ _ _ Hia Hib H1 H2 Hba Hbb) as (Hpa & Hoa & Hra).
  destruct (probe_bind_points_at _ _ _ _ _ _ _ _ _ Hib Hia H3 H4 Hbb Hba) as (Hpb & Hob & Hrb).
  destruct (Hda Hoa Hra) as (Ha1 & Ha2 & Ha3 & Ha4). destruct (Hdb Hob Hrb) as (Hb1 & Hb2 & Hb3 & Hb4).
  exists ta, tb. rewrite <- H5, <- H6, <- H1, <- H3. by split_and!.
Qed.
End probe.

(** ** Two machines *)

Definition demo_probe (id : string) := probe_start (λ b, b) demo_devices "" id "203.0.113.5:3478".

Lemma demo_probe_up id : id = "a"%string ∨ id = "b"%string → ∃ w d e m, demo_probe id = Ok (w, d, e, m).
Proof.
  intros Hid. destruct (demo_probe id) as [[[[w d] e] m]|e] eqn:Hp; [by exists w, d, e, m|].
  assert ((match demo_probe id with Ok _ => true | Err _ => false end) = true) as Hok
    by (destruct Hid as [-> | ->]; vm_compute; reflexivity).
  by rewrite Hp in Hok.
Qed.

Lemma probes_pair_witness :
  ∃ wa da ea ma wb db eb mb ta tb, demo_probe "a" = Ok (wa, da, ea, ma) ∧ demo_probe "b" = Ok (wb, db, eb, mb) ∧
    points_at ma mb eb ta ∧ points_at mb ma ea tb.
Proof.
  destruct (demo_probe_up "a") as (wa & da & ea & ma & Ha); [by left|].
  destruct (demo_probe_up "b") as (wb & db & eb & mb & Hb); [by right|].
  destruct (probes_pair (λ b, b) demo_devices demo_devices "" "" "203.0.113.5:3478" wa da ea ma wb db eb mb)
    as (ta & tb & H1 & H2 & _); [intros b Hd; exact Hd|exact Ha|exact Hb|].
  exists wa, da, ea, ma, wb, db, eb, mb, ta, tb. split; [exact Ha|]. split; [exact Hb|]. split; [exact H1|exact H2].
Defined.
