(* ===== verification/Pipe.v ===== *)
(** * The control channels (client/ipc, server/ipc: transport_*.go; gui/app.go)

    The window and the tray reach a service over a named pipe, one request and one answer per
    connection, as JSON.  The channel is the same for both services; the pipe and the JSON
    library are an interface. *)
From Stdlib Require Import Ascii String.
From S2P Require Import Prelude GoString Netip Proto Profile Engine Manager ManagerStatus ClientIpc Acl TlsConf Host Supervisor App.

(** ** JSON *)

Class Codec (A : Type) := { encode : A → string; decode : string → option A }.

(** The values that survive the library, which replaces what is not UTF-8. *)
Class CodecLaws (A : Type) `{Codec A} (faithful : A → Prop) := decode_encode : ∀ a, faithful a → decode (encode a) = Some a.

Inductive call_error : Type := EUnsupported | EDial | ENoAnswer | EAnswer.

Section pipe.
(** A service's state, its requests and answers. *)
Context {S Q P : Type} `{Codec Q} `{Codec P}.
Context (dispatch : S → Q → S * P).

(** Where the client writes to. *)
Inductive peer : Type := NotWindows | NobodyListens | Listens.

(** [serveConn]: what is written back. *)
Definition serveConn (s : S) (input : string) : S * option string :=
  match decode input with
  | None => (s, None)
  | Some req => let '(s, resp) := dispatch s req in (s, Some (encode resp))
  end.

Definition Call (p : peer) (s : S) (req : Q) : S * result call_error P :=
  match p with
  | NotWindows => (s, Err EUnsupported)
  | NobodyListens => (s, Err EDial)
  | Listens =>
    let '(s, out) := serveConn s (encode req) in
    match out with
    | None => (s, Err ENoAnswer)
    | Some out => (s, match decode out with Some resp => Ok resp | None => Err EAnswer end)
    end
  end.

Context {fq : Q → Prop} {fp : P → Prop} {lq : CodecLaws Q fq} {lp : CodecLaws P fp}.

(** A call is the service's own handling of the request. *)
Lemma Call_dispatch s q : fq q → fp (dispatch s q).2 → Call Listens s q = ((dispatch s q).1, Ok (dispatch s q).2).
Proof using lq lp.
  intros Hq Hp. unfold Call, serveConn. rewrite (decode_encode q Hq). destruct (dispatch s q) as [s' p]. cbn [fst snd] in *.
  by rewrite (decode_encode p Hp).
Qed.

(** One that fails before the service answers does nothing there. *)
Lemma Call_unreached p s q : p ≠ Listens → ∃ e, Call p s q = (s, Err e).
Proof using Type. destruct p; [eauto..|done]. Qed.
End pipe.

(** ** The window's calls of the engine service *)

Section window.
Context `{Codec CRequest} `{Codec CResponse}.
Context (udpFree : Z → bool) (start : Engine.Config → option start_error) (eng : N).
Context (status : N → Engine.Status) (save_error : option string) (error_text : connect_error → string).
(** What an error of the channel says. *)
Context (channel_text : call_error → string).

(** [Networks] *)
Definition Networks (r : result string CResponse) : result string (list MStatus) :=
  match r with Err e => Err e | Ok p => Ok (cp_Networks p) end.

(** The service; a panic of the manager, which [client_dispatch] rules out, would end it. *)
Definition served (m : Manager) (q : CRequest) : Manager * CResponse :=
  default (m, MkCResponse false "" []) (client_dispatch udpFree start eng status save_error error_text m q).

Definition ipc_Connect (p : peer) (m : Manager) (n : Network) := Call served p m (request_connect n).
Definition ipc_Disconnect (p : peer) (m : Manager) (alias : string) := Call served p m (request_disconnect alias).
Definition ipc_Forget (p : peer) (m : Manager) (alias : string) := Call served p m (request_forget alias).
Definition ipc_Status (p : peer) (m : Manager) := Call served p m request_status.

Definition said {A} (r : result call_error A) : result string A :=
  match r with Ok a => Ok a | Err e => Err (channel_text e) end.

Definition window_ServiceUp (p : peer) (m : Manager) : bool := match (ipc_Status p m).2 with Ok _ => true | Err _ => false end.

Definition window_Networks (p : peer) (m : Manager) : result string (list MStatus) :=
  Networks (said (ipc_Status p m).2).

Definition window_Connect (p : peer) (m : Manager) (n : Network) : Manager * (list MStatus * option string) :=
  let '(m, r) := ipc_Connect p m n in (m, unwrap (said r)).

Definition window_Disconnect (p : peer) (m : Manager) (alias : string) : Manager * (list MStatus * option string) :=
  let '(m, r) := ipc_Disconnect p m alias in (m, unwrap (said r)).

Definition window_Forget (p : peer) (m : Manager) (alias : string) : Manager * (list MStatus * option string) :=
  let '(m, r) := ipc_Forget p m alias in (m, unwrap (said r)).

Context {fq : CRequest → Prop} {fp : CResponse → Prop} {lq : CodecLaws CRequest fq} {lp : CodecLaws CResponse fp}.

Lemma window_answer m q m' resp :
  fq q → fp resp → client_dispatch udpFree start eng status save_error error_text m q = Some (m', resp) →
  Call served Listens m q = (m', Ok resp).
Proof using lq lp.
  intros Hq Hp Hd. assert (served m q = (m', resp)) as Hs by (unfold served; by rewrite Hd).
  rewrite (Call_dispatch served m q Hq); by rewrite Hs.
Qed.

Abbreviation faithful_answer m q := (∀ m' resp, client_dispatch udpFree start eng status save_error error_text m q = Some (m', resp) → fp resp).

(** A window that asks the engine service gets what the service did: connecting with
    acceptable settings keeps the network, whether it comes up or not, and reports an error
    exactly when it did not; disconnecting takes it down; and every answer lists the
    networks of the device.  When the service cannot be reached nothing is changed and an
    error is shown. *)
Theorem window_calls p m n alias :
  manager_ok m → pool4 (m_cfg m) → fq (request_connect n) → fq (request_disconnect alias) →
  faithful_answer m (request_connect n) → faithful_answer m (request_disconnect alias) →
  match p with
  | Listens =>
    (Validate (set_auto (connected_network n) (n_AutoConnect n)) = None →
     ∃ m' l e, window_Connect Listens m n = (m', (l, e)) ∧ connected_network n ∈ m_saved m' ∧
       (e = None ↔ is_Some (m_nets m' !! n_Alias (connected_network n))) ∧ ms_Network <$> l ≡ₚ m_saved m') ∧
    (∃ m' l e, window_Disconnect Listens m alias = (m', (l, e)) ∧ m_nets m' !! NormalizeAlias alias = None ∧
       ms_Network <$> l ≡ₚ m_saved m')
  | _ => ∃ e, window_Connect p m n = (m, ([], Some e)) ∧ window_Disconnect p m alias = (m, ([], Some e)) ∧
           window_ServiceUp p m = false
  end.
Proof using lq lp.
  intros Hm Hp Hq1 Hq2 Hf1 Hf2. destruct p; [by eexists|by eexists|]. split.
  - intros Hv. destruct (dispatch_connect udpFree start eng status save_error error_text m n Hm Hp Hv)
      as (m' & resp & Hd & Hin & Hok & Hl).
    exists m', (cp_Networks resp), (if cp_OK resp then None else Some (cp_Error resp)). split_and!; [|done| |done].
    + unfold window_Connect, ipc_Connect. by rewrite (window_answer m (request_connect n) m' resp Hq1 (Hf1 _ _ Hd) Hd).
    + rewrite <-Hok. by destruct (cp_OK resp).
  - destruct (dispatch_disconnect udpFree start eng status save_error error_text m alias) as (m' & resp & Hd & Hn & Hl).
    exists m', (cp_Networks resp), (if cp_OK resp then None else Some (cp_Error resp)). split_and!; [|done|done].
    unfold window_Disconnect, ipc_Disconnect. by rewrite (window_answer m (request_disconnect alias) m' resp Hq2 (Hf2 _ _ Hd) Hd).
Qed.
End window.

(** ** The window's calls of the control-server service *)

Section hosting.
Context `{Codec SRequest} `{Codec SResponse} (error_text : host_error → string) (w : machine).

Definition host_served (x : Supervisor * file) (q : SRequest) : Supervisor * file * SResponse :=
  server_dispatch error_text w x.1 x.2 q.

Definition server_ipc_Start (p : peer) (x : Supervisor * file) (c : SConfig) := Call host_served p x (MkSRequest "start" (Some c)).
Definition server_ipc_Stop (p : peer) (x : Supervisor * file) := Call host_served p x (MkSRequest "stop" None).
Definition server_ipc_Status (p : peer) (x : Supervisor * file) := Call host_served p x (MkSRequest "status" None).

Definition ServerServiceUp (p : peer) (x : Supervisor * file) : bool :=
  match (server_ipc_Status p x).2 with Ok _ => true | Err _ => false end.

Context {fq : SRequest → Prop} {fp : SResponse → Prop} {lq : CodecLaws SRequest fq} {lp : CodecLaws SResponse fp}.

(** The buttons of App.v are these calls, as long as the channel carries what is said. *)
Lemma hosting_channel a s f c :
  fq (MkSRequest "start" (Some c)) → fq (MkSRequest "stop" None) → fq (MkSRequest "status" None) →
  (∀ q, fp (host_served (s, f) q).2) →
  ServerServiceUp Listens (s, f) = true ∧
  (HostStart error_text w a (Some s) f c =
     let '(x, r) := server_ipc_Start Listens (s, f) c in
     (a, Some x.1, x.2, match r with Ok p => answered p | Err _ => Some ""%string end)) ∧
  HostStop error_text w a (Some s) f =
    let '(x, r) := server_ipc_Stop Listens (s, f) in
    (a, Some x.1, x.2, match r with Ok p => answered p | Err _ => Some ""%string end).
Proof using lq lp.
  intros H1 H2 H3 Hp. unfold ServerServiceUp, server_ipc_Status, server_ipc_Start, server_ipc_Stop.
  rewrite !(Call_dispatch (fq := fq) (fp := fp) host_served (s, f)) by done. unfold host_served, HostStart, HostStop. cbn [fst snd]. split; [done|].
  destruct (server_dispatch error_text w s f (MkSRequest "start" (Some c))) as [[s1 f1] p1].
  by destruct (server_dispatch error_text w s f (MkSRequest "stop" None)) as [[s2 f2] p2].
Qed.
End hosting.

(** ** A network whose adapter cannot be made *)

Definition lab : Network := demo_network "lab" "t3".

Definition demo_served (q : CRequest) : option (Manager * CResponse) :=
  client_dispatch (λ _, true) (λ _, Some EAdapter) 3 demo_status None (λ _, "no adapter"%string) demo_two q.

Definition demo_answer (q : CRequest) : CResponse :=
  match demo_served q with Some (_, p) => p | None => MkCResponse false "" [] end.

(** A library that carries the two requests and their answers. *)
#[local] Instance demo_requests : Codec CRequest := {|
  encode := cq_Op;
  decode s := if String.eqb s "connect" then Some (request_connect lab) else Some (request_disconnect "home");
|}.

#[local] Instance demo_answers : Codec CResponse := {|
  encode := cp_Error;
  decode s := if String.eqb s "no adapter" then Some (demo_answer (request_connect lab)) else Some (demo_answer (request_disconnect "home"));
|}.

#[local] Instance demo_requests_laws : CodecLaws CRequest (λ q, q = request_connect lab ∨ q = request_disconnect "home").
Proof. by intros ? [->| ->]. Qed.

Lemma demo_errors :
  cp_Error (demo_answer (request_connect lab)) = "no adapter"%string ∧ cp_Error (demo_answer (request_disconnect "home")) = ""%string.
Proof. by vm_compute. Qed.

#[local] Instance demo_answers_laws :
  CodecLaws CResponse (λ p, p = demo_answer (request_connect lab) ∨ p = demo_answer (request_disconnect "home")).
Proof. destruct demo_errors as [H1 H2]. intros ? [->| ->]; unfold encode, decode, demo_answers; by rewrite ?H1, ?H2. Qed.

Lemma window_calls_witness :
  ∃ m' l e, window_Connect (λ _, true) (λ _, Some EAdapter) 3 demo_status None (λ _, "no adapter"%string) (λ _, "no service"%string)
      Listens demo_two lab = (m', (l, e)) ∧
    connected_network lab ∈ m_saved m' ∧ ms_Network <$> l ≡ₚ m_saved m'.
Proof.
  destruct (window_calls (λ _, true) (λ _, Some EAdapter) 3 demo_status None (λ _, "no adapter"%string) (λ _, "no service"%string)
    Listens demo_two lab "home") as [H _].
  - exact (proj1 (manager_run_ok any_alias demo_config false [] _ NoDup_nil_2 (demo_two_reached _))).
  - exact demo_pool4.
  - by left.
  - by right.
  - intros m' resp Hd. left. unfold demo_answer, demo_served. by rewrite Hd.
  - intros m' resp Hd. right. unfold demo_answer, demo_served. by rewrite Hd.
  - destruct (H ltac:(by vm_compute)) as (m' & l & e & Hc & Hin & _ & Hl). exists m', l, e. split_and!; [exact Hc|exact Hin|exact Hl].
Defined.
