(* ===== verification/Serving.v ===== *)
(** * What keeps the services answering (client/resolver, client/l4, client/ipc, server/ipc)

    The resolver's socket between listening and its goroutine, the sockets of a UDP proxy, and
    the accept loop of the control channels, whose connections are served side by side. *)
From Stdlib Require Import Ascii String.
From S2P Require Import Prelude GoString Netip HostPort BindTraffic L4.

(** ** The resolver's socket

    The DNS library serves from [ActivateAndServe] on; a [Shutdown] before that only reports
    that nothing was started. *)
Inductive dns_server : Type := DnsBound | DnsServing | DnsDown.

Record resolver_life : Type := MkResolverLife {
  rv_srv : option dns_server;      (** [srv], nil before [Listen] *)
  rv_goroutine : bool;             (** the goroutine that is to call [Serve] has yet to run *)
}.

Definition rv_new : resolver_life := MkResolverLife None false.

(** [Listen], with the address that was bound. *)
Definition rv_Listen (bound : option string) (r : resolver_life) : resolver_life * option string :=
  match bound with
  | None => (r, None)
  | Some a => (MkResolverLife (Some DnsBound) (rv_goroutine r), Some a)
  end.

(** [Serve] from its goroutine; it returns when the server is shut down. *)
Definition rv_Serve (r : resolver_life) : resolver_life :=
  MkResolverLife (match rv_srv r with Some DnsBound => Some DnsServing | s => s end) false.

(** [Shutdown] and whether it returned an error. *)
Definition rv_Shutdown (r : resolver_life) : resolver_life * bool :=
  match rv_srv r with
  | None => (r, false)
  | Some DnsServing => (MkResolverLife (Some DnsDown) (rv_goroutine r), false)
  | Some DnsBound | Some DnsDown => (r, true)
  end.

(** Listening, the goroutine and the shutdown, as the engine and the manager use them. *)
Inductive rv_step : resolver_life → resolver_life → Prop :=
| rv_listen r a : rv_srv r = None → rv_step r (MkResolverLife (rv_Listen (Some a) r).1.(rv_srv) true)
| rv_serve r : rv_goroutine r = true → rv_step r (rv_Serve r)
| rv_shutdown r : rv_step r (rv_Shutdown r).1.

(** A shutdown that reports no error leaves nothing that holds the port or is going to. *)
Lemma shutdown_frees r :
  rtc rv_step rv_new r → (rv_Shutdown r).2 = false →
  let r' := (rv_Shutdown r).1 in
  (rv_srv r' = None ∨ rv_srv r' = Some DnsDown) ∧ rv_goroutine r' = false.
Proof.
  intros Hr. assert (match rv_srv r with
                     | None | Some DnsServing | Some DnsDown => rv_goroutine r = false
                     | Some DnsBound => rv_goroutine r = true end) as Hok.
  { remember rv_new as r0 eqn:H0. assert (match rv_srv r0 with
      | None | Some DnsServing | Some DnsDown => rv_goroutine r0 = false | Some DnsBound => rv_goroutine r0 = true end) as Hinv
      by (by subst).
    clear H0. induction Hr as [|x y z Hs _ IH]; [done|]. apply IH. destruct Hs as [x a Hx|x Hg|x]; [done| |].
    - unfold rv_Serve. cbn [rv_srv rv_goroutine]. rewrite Hg in Hinv. by destruct (rv_srv x) as [[| |]|].
    - unfold rv_Shutdown. destruct (rv_srv x) as [[| |]|] eqn:Hx; cbn [fst rv_srv rv_goroutine]; by rewrite ?Hx. }
  unfold rv_Shutdown. destruct (rv_srv r) as [[| |]|] eqn:Hs; cbn [fst snd rv_srv rv_goroutine]; try done; intros _; split; auto.
Qed.

(** One that comes before the goroutine does nothing, and the resolver serves on. *)
Lemma shutdown_before_serving :
  ∃ r, rtc rv_step rv_new r ∧ rv_srv r = Some DnsServing ∧
    ∃ r0, rv_step r0 (rv_Shutdown r0).1 ∧ rv_Serve (rv_Shutdown r0).1 = r ∧ rv_srv r0 = Some DnsBound.
Proof.
  set (r0 := MkResolverLife (Some DnsBound) true). exists (rv_Serve (rv_Shutdown r0).1). split; [|split; [done|]].
  - eapply rtc_l; [by apply (rv_listen _ ""%string)|]. eapply rtc_l; [apply (rv_shutdown r0)|].
    eapply rtc_l; [by apply rv_serve|]. apply rtc_refl.
  - exists r0. split_and!; [apply rv_shutdown|done|done].
Qed.

(** ** A UDP proxy's sockets *)

Section udp.
(** [net.ResolveUDPAddr] and [net.ListenUDP]. *)
Context (resolve : string → option AddrPort) (listenUDP : AddrPort → option AddrPort).

Record udp_listening : Type := MkUdpListening {
  ul_addr : AddrPort;                      (** [Addr] *)
  ul_backend : AddrPort;
  ul_proxy : UDPProxy;
}.

Definition ListenUDP (listenAddr backend : string) : option udp_listening :=
  laddr ← resolve listenAddr;
  baddr ← resolve backend;
  bound ← listenUDP laddr;
  Some (MkUdpListening bound baddr (MkUDP ∅ false)).

Definition udp_Addr (p : udp_listening) : AddrPort := ul_addr p.

(** The loop of [serve] over what the socket yields: the datagrams that go on to [flowFor],
    and the error at which the loop returned. *)
Fixpoint udp_serve (allow : option (Addr → bool)) (evs : list read_event) : list (list Z * AddrPort) * option read_error :=
  match evs with
  | [] => ([], None)
  | ReadError e :: _ => ([], Some e)
  | Datagram data src :: evs =>
    if negb (admitted allow src) then udp_serve allow evs else
    let '(fwd, e) := udp_serve allow evs in ((take (64 * 1024) data, src) :: fwd, e)
  end.

(** What goes on is what came from admitted sources before the first error. *)
Lemma udp_serve_admits allow evs :
  ∃ pre, (udp_serve allow evs).1 = omap (λ ev, match ev with
           | Datagram data src => if admitted allow src then Some (take (64 * 1024) data, src) else None
           | ReadError _ => None end) pre ∧
    match (udp_serve allow evs).2 with
    | None => evs = pre
    | Some e => ∃ post, evs = pre ++ ReadError e :: post
    end.
Proof using Type.
  induction evs as [|[data src|e] evs IH]; [by exists []| |by exists []; split; [|exists evs]].
  destruct IH as (pre & Hf & He). cbn [udp_serve]. exists (Datagram data src :: pre). cbn [omap list_omap].
  destruct (admitted allow src); cbn [negb].
  - destruct (udp_serve allow evs) as [fwd err]. cbn [fst snd] in *. rewrite Hf. split; [done|].
    destruct err as [e|]; [destruct He as [post ->]; by exists post|by rewrite He].
  - rewrite Hf. split; [done|]. destruct (udp_serve allow evs).2 as [e|]; [destruct He as [post ->]; by exists post|by rewrite He].
Qed.
End udp.

(** ** The accept loop of a control channel *)

Section accept.
(** A request changes the service's state, under its lock, and is then reported on, under the
    lock again: between the two other connections may change it. *)
Context {S Q R : Type} (decode : string → option Q) (act : S → Q → S * R) (report : S → R → string).

Inductive channel_conn : Type :=
| Accepted (input : string)
| Acted (q : Q) (r : R)
| Answered (out : option string).

Record channel : Type := MkChannel {
  ch_state : S;
  ch_conns : gmap N channel_conn;
  ch_order : list (N * Q);          (** the requests that were acted on, in order *)
  ch_next : N;
  ch_listening : bool;
}.

Definition channel_start (s : S) (listened : bool) : channel := MkChannel s ∅ [] 0 listened.

Definition with_conn (c : channel) (n : N) (k : channel_conn) : channel :=
  MkChannel (ch_state c) (<[n := k]> (ch_conns c)) (ch_order c) (ch_next c) (ch_listening c).

(** [Serve] accepts until the listener fails; [serveConn] runs on a goroutine for each. *)
Inductive channel_step : channel → channel → Prop :=
| cs_accept c input : ch_listening c = true →
    channel_step c (MkChannel (ch_state c) (<[ch_next c := Accepted input]> (ch_conns c)) (ch_order c) (ch_next c + 1) true)
| cs_fail c : ch_listening c = true →
    channel_step c (MkChannel (ch_state c) (ch_conns c) (ch_order c) (ch_next c) false)
| cs_garbled c n input : ch_conns c !! n = Some (Accepted input) → decode input = None →
    channel_step c (with_conn c n (Answered None))
| cs_act c n input q : ch_conns c !! n = Some (Accepted input) → decode input = Some q →
    channel_step c (MkChannel (act (ch_state c) q).1 (<[n := Acted q (act (ch_state c) q).2]> (ch_conns c))
      (ch_order c ++ [(n, q)]) (ch_next c) (ch_listening c))
| cs_report c n q r : ch_conns c !! n = Some (Acted q r) →
    channel_step c (with_conn c n (Answered (Some (report (ch_state c) r)))).

(** The state the requests lead to in the order they were acted on. *)
Definition acted (s : S) (qs : list (N * Q)) : S := foldl (λ s nq, (act s nq.2).1) s qs.

Record channel_ok (s0 : S) (c : channel) : Prop := {
  co_state : ch_state c = acted s0 (ch_order c);
  co_nodup : NoDup (ch_order c).*1;
  co_fresh : ∀ n, is_Some (ch_conns c !! n) → (n < ch_next c)%N;
  co_order : ∀ n, n ∈ (ch_order c).*1 ↔
    (∃ q r, ch_conns c !! n = Some (Acted q r)) ∨ ∃ out, ch_conns c !! n = Some (Answered (Some out));
}.

Lemma channel_step_ok s0 c c' : channel_ok s0 c → channel_step c c' → channel_ok s0 c'.
Proof using Type.
  intros [Hst Hnd Hfr Hor] Hs.
  destruct Hs as [c input Hl|c Hl|c n input Hn Hd|c n input q Hn Hd|c n q r Hn];
    (split; cbn [with_conn ch_state ch_conns ch_order ch_next]); try done.
  - intros n Hn. destruct (decide (ch_next c = n)) as [<-|Hne]; [lia|]. rewrite lookup_insert_ne in Hn by done.
    specialize (Hfr n Hn). lia.
  - intros n. rewrite Hor. destruct (decide (ch_next c = n)) as [<-|Hne]; [|by rewrite lookup_insert_ne].
    rewrite lookup_insert_eq. split; [|by intros [(q & r & ?)|[out ?]]].
    intros [(q & r & He%mk_is_Some%Hfr)|[out He%mk_is_Some%Hfr]]; lia.
  - intros m Hm. apply Hfr. destruct (decide (n = m)) as [<-|Hne]; [by eexists|]. by rewrite lookup_insert_ne in Hm.
  - intros m. rewrite Hor. destruct (decide (n = m)) as [<-|Hne]; [|by rewrite lookup_insert_ne].
    rewrite lookup_insert_eq, Hn. split; intros [(? & ? & ?)|[? ?]]; done.
  - unfold acted in *. by rewrite foldl_app, <- Hst.
  - rewrite fmap_app. apply NoDup_app. split_and!; [done| |apply NoDup_singleton].
    intros m Hm Hin%list_elem_of_singleton. cbn in Hin. subst m. apply Hor in Hm as [(? & ? & He)|[? He]]; by rewrite Hn in He.
  - intros m Hm. apply Hfr. destruct (decide (n = m)) as [<-|Hne]; [by eexists|]. by rewrite lookup_insert_ne in Hm.
  - intros m. rewrite fmap_app, elem_of_app, Hor. cbn [fmap list_fmap fst]. rewrite list_elem_of_singleton.
    destruct (decide (n = m)) as [<-|Hne].
    + rewrite lookup_insert_eq. split; [intros _; left; by eexists _, _|by right].
    + rewrite lookup_insert_ne by done. split; [by intros [?|?]|by left].
  - intros m Hm. apply Hfr. destruct (decide (n = m)) as [<-|Hne]; [by eexists|]. by rewrite lookup_insert_ne in Hm.
  - intros m. rewrite Hor. destruct (decide (n = m)) as [<-|Hne]; [|by rewrite lookup_insert_ne].
    rewrite lookup_insert_eq, Hn. split; [intros _; right; by eexists|intros _; left; by eexists _, _].
Qed.

(** However the connections interleave, the service is in the state the requests lead to one
    after the other, each taken once: those whose connection has been acted on, and no
    others. *)
Theorem channel_serves s0 listened c :
  rtc channel_step (channel_start s0 listened) c → channel_ok s0 c.
Proof using Type.
  intros Hr. assert (channel_ok s0 (channel_start s0 listened)) as H0.
  { split; cbn; [done|constructor|by intros n []|]. intros n. split; [by intros ?%elem_of_nil|].
    intros [(? & ? & H)|[? H]]; by rewrite lookup_empty in H. }
  revert H0. induction Hr as [|x y z Hs _ IH]; [done|]. intros H0. apply IH. by eapply channel_step_ok.
Qed.

(** A connection that was accepted can always be brought to its end, whatever the others do and
    even after the listener failed. *)
Lemma channel_answers c n k :
  ch_conns c !! n = Some k → ∃ c' out, rtc channel_step c c' ∧ ch_conns c' !! n = Some (Answered out) ∧
    ∀ m, m ≠ n → ch_conns c' !! m = ch_conns c !! m.
Proof using Type.
  assert (∀ c q r, ch_conns c !! n = Some (Acted q r) → ∃ c' out, rtc channel_step c c' ∧
    ch_conns c' !! n = Some (Answered out) ∧ ∀ m, m ≠ n → ch_conns c' !! m = ch_conns c !! m) as Hrep.
  { intros c0 q r Hn. eexists _, _. split; [eapply rtc_once; by eapply cs_report|]. cbn [with_conn ch_conns].
    split; [apply lookup_insert_eq|]. intros m Hm. by rewrite lookup_insert_ne. }
  destruct k as [input|q r|out]; intros Hn; [|by eapply Hrep|by exists c, out].
  destruct (decode input) as [q|] eqn:Hd.
  - destruct (Hrep (MkChannel (act (ch_state c) q).1 (<[n := Acted q (act (ch_state c) q).2]> (ch_conns c))
      (ch_order c ++ [(n, q)]) (ch_next c) (ch_listening c)) q (act (ch_state c) q).2) as (c' & out & Hr & Hout & Ho).
    { apply lookup_insert_eq. }
    exists c', out. split; [by eapply rtc_l; [eapply cs_act|]|]. split; [done|].
    intros m Hm. rewrite Ho by done. cbn [ch_conns]. by rewrite lookup_insert_ne.
  - eexists _, _. split; [eapply rtc_once; by eapply cs_garbled|]. cbn [with_conn ch_conns].
    split; [apply lookup_insert_eq|]. intros m Hm. by rewrite lookup_insert_ne.
Qed.
End accept.
