(* ===== verification/Tray.v ===== *)
(** * The tray icon and its menu (gui/tray.go, gui/i18n.go, gui/app.go)

    The menu is built once; its eight slots are bound to networks as they are polled and
    rewritten one after the other, while the user clicks and the window changes the language.
    Every goroutine is a kind of step; the menu itself is the toolkit's. *)
From Stdlib Require Import Ascii String.
From S2P Require Import Prelude GoString GoStringFacts Netip Proto Profile Engine Manager ManagerStatus ClientIpc App Pipe.

(** ** The languages *)

Inductive lang : Type := langEN | langKO.

Record trayText : Type := MkText {
  tx_show : string; tx_showTip : string;
  tx_stopHosting : string; tx_stopHostTip : string;
  tx_quit : string; tx_quitTip : string;
  tx_tooltip : string; tx_idle : string;
  tx_joinedPrefix : string; tx_hostingPrefix : string;
  tx_disconnected : string; tx_connected : string;
  tx_leave : string; tx_join : string;
}.

Definition trayStrings (l : lang) : trayText :=
  match l with
  | langEN => MkText "Show" "Show the zwan window" "Stop hosting" "Stop the network this machine hosts"
      "Quit" "Quit zwan" "zwan overlay network" "zwan — idle" "joined " "hosting " "disconnected" "connected"
      "Leave " "Join "
  | langKO => MkText "창 열기" "zwan 창을 엽니다" "호스팅 중지" "이 기기가 호스팅 중인 네트워크를 멈춥니다"
      "종료" "zwan 종료" "zwan 오버레이 네트워크" "zwan — 대기 중" "가입: " "호스팅: " "연결 안 됨" "연결됨"
      "나가기: " "가입: "
  end.

(** The language of a tag, or of the system's. *)
Definition lang_of (code : string) : lang := if has_prefix (to_lower code) "ko" then langKO else langEN.

#[export] Instance lang_eq_dec : EqDecision lang.
Proof. solve_decision. Defined.

(** Any tag that begins with these letters is taken for Korean, Konkani's among them. *)
Lemma konkani_is_korean : lang_of "kok-IN" = langKO ∧ lang_of "KO-kr" = langKO ∧ lang_of "en-GB" = langEN.
Proof. by vm_compute. Qed.

(** ** What the entries say *)

Definition connected (st : MStatus) : bool := st_Connected (ms_Engine st).

Definition clickHint (t : trayText) (st : MStatus) : string :=
  (if connected st then tx_leave t else tx_join t) +:+ ms_alias st.

Definition slot_title (t : trayText) (st : MStatus) : string :=
  let state :=
    if connected st then
      let ip := st_AssignedIP (ms_Engine st) in if String.eqb ip "" then tx_connected t else ip
    else tx_disconnected t in
  ms_alias st +:+ " — " +:+ state.

Definition tooltip (t : trayText) (joined : list string) (hosting : string) : string :=
  let parts :=
    (if decide (joined = []) then [] else [tx_joinedPrefix t +:+ str_join joined ", "]) ++
    (if String.eqb hosting "" then [] else [hosting]) in
  if decide (parts = []) then tx_idle t else "zwan — " +:+ str_join parts "; ".

Record MenuItem : Type := MkItem { mi_title : string; mi_tip : string; mi_checked : bool; mi_shown : bool }.

Definition slot_item (t : trayText) (o : option MStatus) (it : MenuItem) : MenuItem :=
  match o with
  | None => MkItem (mi_title it) (mi_tip it) (mi_checked it) false
  | Some st => MkItem (slot_title t st) (clickHint t st) (connected st) true
  end.

(** The titles and hints of the entries that are always there. *)
Definition fixed_titles (t : trayText) : list (string * string) :=
  [(tx_show t, tx_showTip t); (tx_stopHosting t, tx_stopHostTip t); (tx_quit t, tx_quitTip t)].

(** ** The state *)

Definition traySlots : nat := 8.

Record tray : Type := MkTray {
  t_current : lang;
  t_hooked : bool;                        (** the retitling hook is registered *)
  t_fixed : list (string * string);
  t_items : list MenuItem;
  t_bound : list MStatus;
  t_polled : option (list MStatus);       (** the answer about to be bound *)
  t_next : nat;                           (** the item to rewrite; the tooltip comes last *)
  t_stop : bool;                          (** "Stop hosting" is enabled *)
  t_tip : string;
}.

Definition text (t : tray) : trayText := trayStrings (t_current t).

(** [initLanguage], before the tray is started. *)
Definition initLanguage (system : string) : tray :=
  MkTray (lang_of system) false [] [] [] None (S traySlots) true "".

(** [onReady], up to the registration of the hook. *)
Definition build (t : tray) : tray :=
  MkTray (t_current t) false (fixed_titles (text t)) (replicate traySlots (MkItem "" "" false false)) [] None
    (S traySlots) true (tx_tooltip (text t)).

Definition onLanguageChange (t : tray) : tray :=
  MkTray (t_current t) true (t_fixed t) (t_items t) (t_bound t) (t_polled t) (t_next t) (t_stop t) (t_tip t).

Definition SetLanguage (code : string) (t : tray) : tray :=
  let next := lang_of code in
  if decide (next = t_current t) then t else
  MkTray next (t_hooked t) (if t_hooked t then fixed_titles (trayStrings next) else t_fixed t) (t_items t)
    (t_bound t) (t_polled t) (t_next t) (t_stop t) (t_tip t).

(** [trackState]: the list is asked for, … *)
Definition poll (r : result string CResponse) (t : tray) : tray :=
  let nets := match Networks r with Ok l => l | Err _ => [] end in
  MkTray (t_current t) (t_hooked t) (t_fixed t) (t_items t) (t_bound t) (Some nets) (t_next t) (t_stop t) (t_tip t).

(** … bound, the first statement of [set], … *)
Definition bind (l : list MStatus) (t : tray) : tray :=
  MkTray (t_current t) (t_hooked t) (t_fixed t) (t_items t) l None 0 (t_stop t) (t_tip t).

(** … the items rewritten, one round of [set]'s loop each, … *)
Definition rewrite_item (t : tray) : tray :=
  MkTray (t_current t) (t_hooked t) (t_fixed t)
    (alter (slot_item (text t) (t_bound t !! t_next t)) (t_next t) (t_items t))
    (t_bound t) (t_polled t) (S (t_next t)) (t_stop t) (t_tip t).

Definition joined (l : list MStatus) : list string := ms_alias <$> filter (λ st, connected st = true) l.

(** … and the rest of the menu, [hosting] being the name of the network the machine hosts. *)
Definition retip (hosting : option string) (t : tray) : tray :=
  let h := match hosting with Some id => tx_hostingPrefix (text t) +:+ id | None => ""%string end in
  MkTray (t_current t) (t_hooked t) (t_fixed t) (t_items t) (t_bound t) (t_polled t) (S (t_next t))
    (match hosting with Some _ => true | None => false end) (tooltip (text t) (joined (t_bound t)) h).

(** [watch]: the request a click on a slot sends. *)
Definition click (t : tray) (i : nat) : option CRequest :=
  st ← t_bound t !! i;
  if String.eqb (ms_alias st) "" then None
  else Some (if connected st then request_disconnect (ms_alias st) else request_connect (ms_Network st)).

(** ** The steps *)

Inductive tray_step : tray → tray → Prop :=
| s_lang t code : tray_step t (SetLanguage code t)
| s_build t : t_items t = [] → tray_step t (build t)
| s_hook t : t_items t ≠ [] → t_hooked t = false → tray_step t (onLanguageChange t)
| s_poll t r : t_hooked t = true → t_polled t = None → t_next t = S traySlots → tray_step t (poll r t)
| s_bind t l : t_polled t = Some l → tray_step t (bind l t)
| s_item t : t_hooked t = true → t_next t < traySlots → tray_step t (rewrite_item t)
| s_tip t hosting : t_hooked t = true → t_next t = traySlots → tray_step t (retip hosting t).

(** The states of the tray. *)
Definition tray_reached (t : tray) : Prop := ∃ system, rtc tray_step (initLanguage system) t.

(** ** Slots and bindings *)

(** An item says what its slot is bound to. *)
Definition agrees (o : option MStatus) (it : MenuItem) : Prop :=
  match o with
  | None => mi_shown it = false
  | Some st => ∃ l, it = MkItem (slot_title (trayStrings l) st) (clickHint (trayStrings l) st) (connected st) true
  end.

Lemma slot_item_agrees l o it : agrees o (slot_item (trayStrings l) o it).
Proof. destruct o as [st|]; [by exists l|done]. Qed.

Record tray_ok (t : tray) : Prop := {
  tk_slots : t_items t = [] ∨ length (t_items t) = traySlots;
  tk_hidden : t_items t = [] → t_hooked t = false;
  tk_polled : t_hooked t = false → t_polled t = None ∧ t_bound t = [];
  tk_waiting : t_polled t ≠ None → t_next t = S traySlots;
  tk_rewritten : ∀ i it, t_items t !! i = Some it → i < t_next t → agrees (t_bound t !! i) it;
  tk_fixed : t_items t ≠ [] → ∃ l, t_fixed t = fixed_titles (trayStrings l);
}.

Lemma initLanguage_ok system : tray_ok (initLanguage system).
Proof. split; cbn; [by left|done..]. Qed.

Lemma tray_step_ok t t' : tray_ok t → tray_step t t' → tray_ok t'.
Proof.
  intros [Hs Hh Hp Hw Hr Hf]. destruct 1 as [t code|t Ht|t Ht Hho|t r Hho Hpo Hn|t l Hpo|t Hho Hn|t hosting Hho Hn].
  - unfold SetLanguage. destruct (decide _); [by split|]. split; cbn; [done|done|done|done|done|].
    intros Hi. destruct (t_hooked t); [by eexists|by apply Hf].
  - split; cbn [build t_items t_hooked t_polled t_bound t_next t_fixed]; [by right|done|done|done| |by eexists].
    intros i it Hi _. by apply lookup_replicate in Hi as [-> _].
  - by split.
  - split; cbn; [done|done| |done|done|done]. by rewrite Hho.
  - assert (t_hooked t = true) as Hho. { destruct (t_hooked t) eqn:Hho; [done|]. destruct (Hp eq_refl). congruence. }
    split; cbn; [done|done| |done|intros i it _ ?; lia|done]. by rewrite Hho.
  - assert (t_polled t = None) as Hpn. { destruct (t_polled t) eqn:Hpo; [|done]. rewrite Hw in Hn by done. lia. }
    split; cbn [rewrite_item t_items t_hooked t_polled t_bound t_next t_fixed].
    + destruct Hs as [->|Hs]; [by left|right; by rewrite length_alter].
    + intros Hi. apply Hh. destruct (t_items t); [done|]. by destruct (t_next t).
    + intros ?; congruence.
    + done.
    + intros i it Hi Hlt. destruct (decide (i = t_next t)) as [->|Hne].
      * rewrite list_lookup_alter_eq in Hi. apply fmap_Some in Hi as (it0 & _ & ->). apply slot_item_agrees.
      * rewrite list_lookup_alter_ne in Hi by done. apply Hr; [done|lia].
    + intros Hi. apply Hf. intros He. by rewrite He in Hi.
  - assert (t_polled t = None) as Hpn. { destruct (t_polled t) eqn:Hpo; [|done]. rewrite Hw in Hn by done. lia. }
    split; cbn; [done|done|by rewrite Hho|by rewrite Hpn| |done].
    intros i it Hi _. apply Hr; [done|]. apply lookup_lt_Some in Hi. destruct Hs as [Hs|Hs]; rewrite Hs in Hi; cbn in Hi; lia.
Qed.

Lemma tray_reached_ok t : tray_reached t → tray_ok t.
Proof.
  intros [system Hr]. pose proof (initLanguage_ok system) as H0. induction Hr as [|x y z Hxy _ IH]; [done|].
  apply IH. by eapply tray_step_ok.
Qed.

(** ** What a click does *)

Section service.
Context (udpFree : Z → bool) (start : Engine.Config → option start_error) (eng : N).
Context (status : N → Engine.Status) (save_error : option string) (error_text : connect_error → string).

Abbreviation dispatch := (client_dispatch udpFree start eng status save_error error_text).

(** C26: Between two rewrites of the menu, an entry that is shown names the network its slot
    is bound to and is ticked exactly when that network was joined.  A click on a ticked entry
    takes that network down at the service; a click on another joins it with the settings the
    service listed, which are kept whether joining succeeds or not.  A hidden entry asks for
    nothing. *)
Theorem click_acts_on_shown t i it m :
  tray_reached t → traySlots ≤ t_next t → t_items t !! i = Some it → manager_ok m → pool4 (m_cfg m) →
  if mi_shown it then
    ∃ st l, t_bound t !! i = Some st ∧ mi_title it = slot_title (trayStrings l) st ∧
      mi_tip it = clickHint (trayStrings l) st ∧ mi_checked it = connected st ∧
      (ms_alias st = ""%string ∧ click t i = None ∨
       ∃ q, click t i = Some q ∧
         if mi_checked it then
           ∃ m' p, dispatch m q = Some (m', p) ∧ m_nets m' !! NormalizeAlias (ms_alias st) = None
         else
           let n := connected_network (ms_Network st) in
           Validate (set_auto n (n_AutoConnect (ms_Network st))) = None →
           ∃ m' p, dispatch m q = Some (m', p) ∧ n ∈ m_saved m' ∧ (cp_OK p = true ↔ is_Some (m_nets m' !! n_Alias n)))
  else click t i = None.
Proof using Type.
  intros Ht Hn Hi Hm Hp. pose proof (tray_reached_ok t Ht) as Hok.
  assert (agrees (t_bound t !! i) it) as Ha.
  { apply Hok; [done|]. apply lookup_lt_Some in Hi. destruct (tk_slots t Hok) as [Hs|Hs]; rewrite Hs in Hi; cbn in Hi; lia. }
  unfold click. destruct (t_bound t !! i) as [st|]; cbn [agrees mbind option_bind] in *; [|by rewrite Ha].
  destruct Ha as [l ->]. cbn [mi_shown mi_title mi_tip mi_checked]. exists st, l. split_and!; [done..|].
  destruct (String.eqb_spec (ms_alias st) "") as [He|He]; [by left|right]. destruct (connected st).
  - eexists. split; [done|]. destruct (dispatch_disconnect udpFree start eng status save_error error_text m (ms_alias st)) as (m' & p & Hd & Hl & _). by exists m', p.
  - eexists. split; [done|]. intros Hv. destruct (dispatch_connect udpFree start eng status save_error error_text m (ms_Network st) Hm Hp Hv) as (m' & p & Hd & Hl & Hk & _).
    by exists m', p.
Qed.
End service.

(** ** A pass of [trackState] *)

Definition pass (r : result string CResponse) (hosting : option string) (t : tray) : tray :=
  let nets := match Networks r with Ok l => l | Err _ => [] end in
  retip hosting (Nat.iter traySlots rewrite_item (bind nets (poll r t))).

Lemma rewrites_steps k t : t_hooked t = true → t_next t = 0 → k ≤ traySlots →
  let t' := Nat.iter k rewrite_item t in rtc tray_step t t' ∧ t_hooked t' = true ∧ t_next t' = k.
Proof.
  intros Hh Hn. induction k as [|k IH]; intros Hk; [by split_and!|].
  destruct IH as (Hr & Hh' & Hn'); [lia|]. cbn [Nat.iter nat_rect]. split_and!.
  - eapply rtc_r; [exact Hr|]. apply s_item; [exact Hh'|]. unfold Nat.iter in Hn'. lia.
  - exact Hh'.
  - cbn. by f_equal.
Qed.

(** The menu is rewritten to the end, from any wait for the next poll. *)
Lemma pass_steps r hosting t : t_hooked t = true → t_polled t = None → t_next t = S traySlots →
  rtc tray_step t (pass r hosting t).
Proof.
  intros Hh Hp Hn. set (l := match Networks r with Ok l => l | Err _ => [] end).
  eapply rtc_l; [by apply (s_poll t r)|]. eapply rtc_l; [by apply (s_bind _ l)|].
  destruct (rewrites_steps traySlots (bind l (poll r t)) Hh eq_refl ltac:(lia)) as (Hr & Hh' & Hn').
  eapply rtc_r; [exact Hr|]. by apply s_tip.
Qed.

(** The menu ready for its first poll. *)
Definition ready (system : string) : tray := onLanguageChange (build (initLanguage system)).

Lemma ready_reached system : rtc tray_step (initLanguage system) (ready system).
Proof. eapply rtc_l; [by apply s_build|]. apply rtc_once. by apply s_hook. Qed.

Definition listed (m : Manager) : result string CResponse := Ok (MkCResponse true "" (Statuses demo_status m)).

(** The menu over the two networks of a device. *)
Definition demo_tray : tray := pass (listed demo_two) None (ready "en-US").

Lemma demo_tray_reached : tray_reached demo_tray.
Proof. exists "en-US"%string. etransitivity; [apply ready_reached|]. by apply pass_steps. Qed.

Lemma click_acts_on_shown_witness :
  mi_title <$> t_items demo_tray !! 1 = Some "work — connected"%string ∧
  ∃ q m' p, click demo_tray 1 = Some q ∧
    client_dispatch (λ _, true) (λ _, None) 3 demo_status None (λ _, ""%string) demo_two q = Some (m', p) ∧
    m_nets m' !! "work"%string = None.
Proof.
  split; [by vm_compute|]. destruct (t_items demo_tray !! 1) as [it|] eqn:Hi; [|by vm_compute in Hi].
  assert (mi_shown it = true) as Hs by (vm_compute in Hi; injection Hi as <-; done).
  assert (mi_checked it = true) as Hc by (vm_compute in Hi; injection Hi as <-; done).
  pose proof (click_acts_on_shown (λ _, true) (λ _, None) 3 demo_status None (λ _, ""%string) demo_tray 1 it demo_two
    demo_tray_reached ltac:(by vm_compute; lia) Hi
    (proj1 (manager_run_ok any_alias demo_config false [] _ NoDup_nil_2 (demo_two_reached _))) demo_pool4) as H.
  rewrite Hs, Hc in H. destruct H as (st & l & Hb & _ & _ & _ & [[He Hk]|(q & Hk & m' & p & Hd & Hl)]).
  - exfalso. assert (match click demo_tray 1 with Some _ => true | None => false end = true) as Hx by (by vm_compute).
    rewrite Hk in Hx. done.
  - exists q, m', p. split_and!; [exact Hk|exact Hd|].
    assert (ms_alias <$> (t_bound demo_tray !! 1) = Some "work"%string) as Ha by (by vm_compute).
    rewrite Hb in Ha. injection Ha as Ha. rewrite Ha in Hl. exact Hl.
Defined.

(** ** The language of the fixed entries *)

Definition titled (t : tray) : Prop := t_fixed t = fixed_titles (text t).

Lemma SetLanguage_titled t code : t_hooked t = true → t_current t ≠ lang_of code ∨ titled t → titled (SetLanguage code t).
Proof.
  intros Hh Ht. unfold SetLanguage, titled. destruct (decide _) as [He|]; [by destruct Ht as [[]|]|].
  cbn. by rewrite Hh.
Qed.

(** Once the hook is registered under the language of the titles, they follow it. *)
Lemma titled_steps t t' : tray_ok t → t_hooked t = true → titled t → rtc tray_step t t' → titled t'.
Proof.
  intros Hok Hh Ht Hr. induction Hr as [|t t1 t' Hs _ IH]; [done|]. apply IH; [by eapply tray_step_ok| |].
  - destruct Hs as [t code|t Hi| | | | |]; try done.
    + unfold SetLanguage. by destruct (decide _).
    + apply Hok in Hi. congruence.
  - destruct Hs as [t code|t Hi| | | | |]; try done. apply SetLanguage_titled; [done|by right].
Qed.

(** A change of language between the menu's construction and the registration of its hook
    leaves the fixed entries behind, and asking for the language again changes nothing. *)
Lemma language_missed :
  ∃ t, tray_reached t ∧ t_hooked t = true ∧ t_current t = langKO ∧ t_fixed t = fixed_titles (trayStrings langEN) ∧
    SetLanguage "ko-KR" t = t.
Proof.
  exists (onLanguageChange (SetLanguage "ko" (build (initLanguage "en-US")))). split; [|by vm_compute].
  exists "en-US"%string. eapply rtc_l; [by apply s_build|]. eapply rtc_l; [by apply (s_lang _ "ko")|].
  apply rtc_once. by apply s_hook.
Qed.

(** ** Clicks on a menu that is out of date *)

(** While the menu is rewritten its entries still show what they did, but a click already
    goes to the network the slot was bound to since. *)
Lemma rebound_before_rewritten :
  ∃ t, tray_reached t ∧ mi_title <$> t_items t !! 0 = Some "home — connected"%string ∧
    click t 0 = Some (request_disconnect "work").
Proof.
  set (r := listed (Forget demo_two "home")).
  exists (bind (match Networks r with Ok l => l | Err _ => [] end) (poll r demo_tray)). split; [|by vm_compute].
  destruct demo_tray_reached as [system Hr]. exists system. etransitivity; [exact Hr|].
  eapply rtc_l; [by apply (s_poll _ r)|]. apply rtc_once. by apply s_bind.
Qed.

(** A network forgotten in the window comes back when its entry is clicked before the next
    poll, if it was not joined. *)
Lemma forgotten_comes_back :
  ∃ t m q m' p, tray_reached t ∧ m_saved m = [] ∧ click t 0 = Some q ∧
    client_dispatch (λ _, true) (λ _, None) 3 demo_status None (λ _, ""%string) m q = Some (m', p) ∧
    n_Alias <$> m_saved m' = ["home"%string].
Proof.
  set (m1 := Disconnect demo_one "home").
  set (t := pass (listed m1) None (ready "en-US")).
  destruct (click t 0) as [q|] eqn:Hc; [|by vm_compute in Hc].
  destruct (client_dispatch (λ _, true) (λ _, None) 3 demo_status None (λ _, ""%string) (Forget m1 "home") q) as [[m' p]|] eqn:Hd;
    [|by vm_compute in Hc; injection Hc as <-; vm_compute in Hd].
  exists t, (Forget m1 "home"), q, m', p. split_and!; [|by vm_compute|exact Hc|exact Hd|].
  - exists "en-US"%string. etransitivity; [apply ready_reached|]. by apply pass_steps.
  - vm_compute in Hc. injection Hc as <-. vm_compute in Hd. by injection Hd as <- _.
Qed.
