(* ===== verification/Programs.v ===== *)
(** * The programs around the parts (cmd/zwan-service, cmd/zwan-server, cmd/zwan-agent, gui)

    What each program does with the parts the other files verify: the service's identity, the
    service loops, the agent's run, the window's life, the menu's fixed entries, the system's
    language, and the addresses a certificate is made for. *)
From Stdlib Require Import Ascii String.
From S2P Require Import Prelude GoString GoStringFacts Netip NetipFacts Base64 Paths DeviceId Nrpt Deploy Host Supervisor ServerMain Engine AgentMain Manager ClientIpc App Tray.

Local Open Scope Z_scope.

(** ** The engine service: [newManager] *)

Section service.
Context `{Filepath}.

(** [MachineDeviceUUID], over the files of the machine by their paths. *)
Definition MachineDeviceUUID (p : process) (e : id_conditions) (files : string → option string)
  : option string * result id_error string :=
  deviceUUIDAt e (files (device_id_path (MachineDeviceUUID_dir p))).

(** The user's own identifier, as the agent uses it. *)
Definition DeviceUUID (p : process) (e : id_conditions) (files : string → option string)
  : option (option string * result id_error string) :=
  (λ dir, deviceUUIDAt e (files (device_id_path dir))) <$> DeviceUUID_dir p.

(** The manager, and the file with the identifier after. *)
Definition newManager (p : process) (e : id_conditions) (files : string → option string)
  : option string * result id_error Manager :=
  let '(f, r) := MachineDeviceUUID p e files in
  (f, match r with
      | Err err => Err err
      | Ok dev => Ok (Manager.New (Manager.MkConfig "127.0.0.1:53" ProductName dev 0 "" 0 false))
      end).

(** A service that was started once registers under the same identifier whenever it is started
    again and can read its file, whoever the user is and whatever its environment says, as
    long as ProgramData is the same directory. *)
Theorem service_keeps_identity p p' e e' files f m files' :
  (∀ b, ic_random e = Some b → Forall is_byte b ∧ length b = 16%nat) →
  newManager p e files = (f, Ok m) →
  ps_env p' "ProgramData" = ps_env p "ProgramData" →
  files' (device_id_path (MachineDeviceUUID_dir p)) = f → ic_mkdir e' = true → ic_readable e' = true →
  newManager p' e' files' = (f, Ok m).
Proof using Type.
  intros Hr Hm Hpd Hf Hmk Hrd. unfold newManager, MachineDeviceUUID in *.
  assert (MachineDeviceUUID_dir p' = MachineDeviceUUID_dir p) as -> by (unfold MachineDeviceUUID_dir; by rewrite Hpd).
  destruct (deviceUUIDAt e _) as [f1 [dev|]] eqn:Hd; [|done]. apply (f_equal fst) in Hm as Hf1. cbn [fst] in Hf1. subst f1.
  rewrite Hf. by rewrite (deviceUUIDAt_kept _ _ dev Hmk Hrd (deviceUUIDAt_holds _ _ _ _ Hr Hd)).
Qed.
End service.

(** ** The server service: [Execute]

    While requests of the service manager come in, the window's requests are served and the
    saved network is started, on goroutines of their own: [during] is what they do. *)
Definition server_Execute (during : Supervisor → Supervisor) (r : list svc_request) (s : Supervisor)
  : list svc_status * Supervisor :=
  let '(st, down) := Execute r in (st, if down then Shutdown (during s) else during s).

Definition server_firewallRule (exe : string) := firewallRule ProductName server_program exe.

(** ** The agent with an engine: [runEngine] *)

Section agent.
Context {W E : Type} `{SystemLaws W E}.

Inductive run_effect : Type :=
| RStarted
| RLog (line : string)
| RReporting                 (** the goroutine of [reportStatus] *)
| RInterrupted               (** [waitForInterrupt] returned *)
| RReportEnds                (** its channel is closed *)
| RReleased                  (** the system's rule is taken out *)
| RStopped.                  (** the engine is *)

(** The lines [printPeers] writes for one peer, less the padding of its columns. *)
Definition joined_lines (st : Engine.Status) : list string :=
  ["control server: " +:+ (st_Server st +:+ (" (" +:+ (trustLabelOf st +:+ ")")));
   "joined: network=" +:+ (st_NetworkID st +:+ (" suffix=" +:+ (st_DNSSuffix st +:+ (" assigned_ip=" +:+ (st_AssignedIP st +:+ (" via " +:+ st_Via st))))));
   "node public key: " +:+ st_PublicKey st]%string.

(** With what starting the engine gave and the status it reports then; the deferred calls run
    in the reverse order. *)
Definition runEngine {X : Type} (w : W) (start : option X) (st : Engine.Status) (dnsAddr : string)
  : W * list run_effect * option X :=
  match start with
  | Some e => (w, [], Some e)
  | None =>
    let '(w, b) := bindSystemDNS w dnsAddr (st_DNSSuffix st) in
    let '(w', _) := release w b in
    (w', RStarted :: (RLog <$> joined_lines st) ++
         [RLog "engine up; Ctrl+C to stop"; RReporting; RInterrupted; RReportEnds; RReleased; RStopped], None)
  end.
End agent.

(** The engine is the first thing started and the last one stopped: its resolver answers as
    long as the system's rule points at it. *)
Lemma runEngine_order {W E X : Type} `{SystemLaws W E} (w : W) (start : option X) st dnsAddr w' es e :
  runEngine w start st dnsAddr = (w', es, e) →
  (e = None ∧ head es = Some RStarted ∧ last es = Some RStopped ∧
   ∃ pre mid post, es = pre ++ RReporting :: mid ++ RReportEnds :: post ∧ RReleased ∈ post ∧ RStopped ∉ pre ++ mid) ∨
  (is_Some e ∧ es = [] ∧ w' = w).
Proof.
  unfold runEngine. destruct start as [x|]; [intros [= <- <- <-]; right; by eauto|].
  destruct (bindSystemDNS w dnsAddr _) as [w1 b]. destruct (release w1 b) as [w2 e2]. intros [= <- <- <-]. left.
  split_and!; [done|done|by cbn|].
  exists (RStarted :: (RLog <$> joined_lines st) ++ [RLog "engine up; Ctrl+C to stop"]), [RInterrupted], [RReleased; RStopped].
  split_and!; [done|by left|]. cbn. rewrite !elem_of_cons, elem_of_nil. naive_solver.
Qed.

(** ** The window's life (gui/app.go) *)

(** [App]: the context it gets when the window starts, and the supervisor of its own. *)
Record window : Type := MkApp { a_ctx : bool; a_srv : option Supervisor }.

Definition NewApp : window := MkApp false None.
Definition startup (a : window) : window := MkApp true (a_srv a).

(** [QuitApp]: whether the window is told to quit. *)
Definition QuitApp (a : window) : bool := a_ctx a.

(** [HostGenToken] over 16 bytes of randomness. *)
Definition HostGenToken (rand : list Z) : string := hex_encode rand.

Definition app_Version : string := Paths.Version.

(** Tokens are 32 hexadecimal digits and no two draws share one. *)
Lemma HostGenToken_distinct r1 r2 :
  Forall is_byte r1 → Forall is_byte r2 → length r1 = 16%nat →
  String.length (HostGenToken r1) = 32%nat ∧ (HostGenToken r1 = HostGenToken r2 → r1 = r2).
Proof.
  intros H1 H2 Hl. unfold HostGenToken. split; [rewrite hex_encode_length; lia|]. intros He.
  apply hex_decode_encode in H1, H2. rewrite He in H1. congruence.
Qed.

(** ** The menu's fixed entries (gui/tray.go) *)

Inductive fixed_entry : Type := CShow | CStopHost | CQuit.
Inductive tray_action : Type := AWindowShow | AHostStop | AWindowQuit | ATrayQuit.

#[export] Instance fixed_entry_eq_dec : EqDecision fixed_entry.
Proof. solve_decision. Defined.
#[export] Instance tray_action_eq_dec : EqDecision tray_action.
Proof. solve_decision. Defined.

(** The loop at the end of [onReady], over the clicks in turn, each with whether the window has
    started by then: what is done, and whether the loop returned. *)
Fixpoint trayLoop (clicks : list (fixed_entry * bool)) : list tray_action * bool :=
  match clicks with
  | [] => ([], false)
  | (CShow, ctx) :: clicks =>
    let '(l, q) := trayLoop clicks in (if ctx then AWindowShow :: l else l, q)
  | (CStopHost, _) :: clicks => let '(l, q) := trayLoop clicks in (AHostStop :: l, q)
  | (CQuit, ctx) :: _ => ([if ctx then AWindowQuit else ATrayQuit], true)
  end.

(** Quitting always works, whether or not there is a window, and ends the loop; before it every
    click on "Stop hosting" stops the host. *)
Lemma trayLoop_quits before ctx after :
  Forall (λ c : fixed_entry * bool, c.1 ≠ CQuit) before →
  ∃ l, trayLoop (before ++ (CQuit, ctx) :: after) = (l ++ [if ctx then AWindowQuit else ATrayQuit], true) ∧
    length (filter (λ a, a = AHostStop) l) = length (filter (λ c : fixed_entry * bool, c.1 = CStopHost) before) ∧
    (AWindowQuit ∉ l) ∧ (ATrayQuit ∉ l).
Proof.
  induction 1 as [|[c b] before Hc _ (l & IH & Hl & H1 & H2)]; [exists []; cbn; split_and!; [done|done|apply not_elem_of_nil..]|].
  destruct c; [| |done]; cbn [app trayLoop]; rewrite IH.
  - rewrite filter_cons_False by done. destruct b; [|by exists l].
    exists (AWindowShow :: l). rewrite filter_cons_False by done. rewrite !elem_of_cons. split_and!; [done|done|naive_solver..].
  - exists (AHostStop :: l). rewrite !filter_cons_True by done. rewrite !elem_of_cons. cbn [length].
    split_and!; [done|by rewrite Hl|naive_solver..].
Qed.

(** ** The system's language (gui/syslang_windows.go, syslang_other.go) *)

(** [syscall.UTF16ToString]: up to the first zero; a surrogate without its other half is written
    as it is. *)
Definition surrogate (u : Z) : bool := (0xD800 <=? u) && (u <? 0xE000).

Fixpoint utf16_bytes (s : list Z) : list ascii :=
  match s with
  | [] => []
  | u :: s' =>
    if u =? 0 then [] else
    match s' with
    | u2 :: s'' =>
      if ((0xD800 <=? u) && (u <? 0xDC00)) && ((0xDC00 <=? u2) && (u2 <? 0xE000)) then
        encode_rune (0x10000 + (u - 0xD800) * 0x400 + (u2 - 0xDC00)) ++ utf16_bytes s''
      else (if surrogate u then [byte_of 0xED; byte_of (0x80 + (u / 64) mod 64); byte_of (0x80 + u mod 64)] else encode_rune u)
           ++ utf16_bytes s'
    | [] => if surrogate u then [byte_of 0xED; byte_of (0x80 + (u / 64) mod 64); byte_of (0x80 + u mod 64)] else encode_rune u
    end
  end.

Definition UTF16ToString (s : list Z) : string := string_of_list_ascii (utf16_bytes s).

(** On Windows: what GetUserDefaultLocaleName returned and the buffer it filled, if the system
    has it. *)
Definition systemLanguage (call : option (Z * list Z)) : string :=
  match call with
  | None => ""
  | Some (n, buf) => if n <=? 1 then "" else UTF16ToString (take (Z.to_nat (n - 1)) buf)
  end.

(** Elsewhere: the first variable that is set. *)
Definition systemLanguage_other (env : string → string) : string :=
  default ""%string (List.find (λ v, negb (String.eqb v "")) (env <$> ["LC_ALL"; "LC_MESSAGES"; "LANG"]%string)).

(** A tag of plain letters is read as it is. *)
Lemma UTF16ToString_ascii s :
  Forall (λ a, 0 < byte_val a < 0x80) (list_ascii_of_string s) →
  UTF16ToString (byte_val <$> list_ascii_of_string s) = s.
Proof.
  intros Hs. unfold UTF16ToString. rewrite <- (string_of_list_ascii_of_string s) at 2. f_equal.
  induction Hs as [|a l Ha Hl IH]; [done|]. cbn [fmap list_fmap utf16_bytes].
  rewrite (proj2 (Z.eqb_neq (byte_val a) 0)) by lia.
  assert (surrogate (byte_val a) = false) as Hsu by (unfold surrogate; lia).
  assert (encode_rune (byte_val a) = [a]) as Hen.
  { unfold encode_rune, valid_rune. replace ((0 <=? byte_val a) && (byte_val a <? 0xD800)) with true by lia. cbn [orb].
    rewrite (proj2 (Z.ltb_lt (byte_val a) 0x80)) by lia. by rewrite byte_of_val. }
  destruct l as [|b l]; cbn [fmap list_fmap]; [by rewrite Hsu, Hen|].
  replace ((0xD800 <=? byte_val a) && (byte_val a <? 0xDC00)) with false by lia. cbn [andb].
  rewrite Hsu, Hen. cbn [app]. f_equal. exact IH.
Qed.

Lemma systemLanguage_tag s rest :
  Forall (λ a, 0 < byte_val a < 0x80) (list_ascii_of_string s) → s ≠ ""%string →
  systemLanguage (Some (Z.of_nat (String.length s) + 1, (byte_val <$> list_ascii_of_string s) ++ 0 :: rest)) = s.
Proof.
  intros Hs Hne. unfold systemLanguage. assert (String.length s ≠ 0%nat) by (by destruct s).
  rewrite (proj2 (Z.leb_gt _ _)) by lia. replace (Z.to_nat _) with (length (byte_val <$> list_ascii_of_string s)).
  2: { rewrite length_fmap, <- len_ascii. lia. }
  by rewrite take_app_length, UTF16ToString_ascii.
Qed.

(** The menu starts in Korean exactly where the tag begins with "ko", in either case. *)
Lemma starts_in_language s rest :
  Forall (λ a, 0 < byte_val a < 0x80) (list_ascii_of_string s) → s ≠ ""%string →
  t_current (initLanguage (systemLanguage (Some (Z.of_nat (String.length s) + 1, (byte_val <$> list_ascii_of_string s) ++ 0 :: rest))))
  = if has_prefix (to_lower s) "ko" then langKO else langEN.
Proof. intros Hs Hne. by rewrite systemLanguage_tag. Qed.

(** ** The addresses of the machine (server/tlsconf) *)

Definition ip_IsLoopback (a : Addr) : bool :=
  match addr_Unmap a with AddrZero => false | Addr4 v => v / 2 ^ 24 =? 127 | Addr6 v _ => v =? 1 end.

Definition ip_IsLinkLocalUnicast (a : Addr) : bool :=
  match addr_Unmap a with AddrZero => false | Addr4 v => v / 2 ^ 16 =? 0xA9FE | Addr6 v _ => v / 2 ^ 118 =? 0x3FA end.

Definition ip_IsLinkLocalMulticast (a : Addr) : bool :=
  match addr_Unmap a with AddrZero => false | Addr4 v => v / 2 ^ 8 =? 0xE00000 | Addr6 v _ => v / 2 ^ 112 =? 0xFF02 end.

(** [localAddrs]: the interfaces' addresses, [None] for one of another kind. *)
Definition localAddrs (addrs : option (list (option Addr))) : list string :=
  match addrs with
  | None => []
  | Some l => omap (λ a,
      a ← a;
      if ip_IsLoopback a || ip_IsLinkLocalUnicast a || ip_IsLinkLocalMulticast a then None
      else Some (addr_String (addr_Unmap a))) l
  end.

(** A certificate is made for every address another machine can use, and for no other. *)
Lemma localAddrs_reachable l s :
  s ∈ localAddrs (Some l) ↔ ∃ a, Some a ∈ l ∧ s = addr_String (addr_Unmap a) ∧
    ip_IsLoopback a = false ∧ ip_IsLinkLocalUnicast a = false ∧ ip_IsLinkLocalMulticast a = false.
Proof.
  unfold localAddrs. rewrite list_elem_of_omap. split.
  - intros (o & Ho & Hs). destruct o as [a|]; [|done]. cbn [mbind option_bind] in Hs. exists a. split; [done|].
    destruct (ip_IsLoopback a), (ip_IsLinkLocalUnicast a), (ip_IsLinkLocalMulticast a); try done. by injection Hs as <-.
  - intros (a & Ha & -> & H1 & H2 & H3). exists (Some a). split; [done|]. cbn [mbind option_bind]. by rewrite H1, H2, H3.
Qed.

Example localAddrs_demo :
  localAddrs (Some [Some (Addr4 0x7f000001); Some (Addr4 0xC0A80105); None; Some (Addr4 0xA9FE0101); Some (Addr6 1 "")])
  = ["192.168.1.5"%string].
Proof. by vm_compute. Qed.
