(* ===== verification/DemoClient.v ===== *)
(** * A device with one peer

    A device at 10.50.0.2 that sees itself, a peer and the peer's service, and one refresh of
    its engine: the theorems of the engine apply to it. *)
From Stdlib Require Import Ascii String.
From S2P Require Import Prelude Unicode GoString GoStringFacts Netip NetipFacts Proto Profile Resolver Translate VipTable VipDevice L4 Certpin Wg Relay DeviceName Engine EngineNames PeerSig EngineRefresh.

Local Open Scope Z_scope.

Definition client_key : string := "AAAAAAAAAAAAAAAAAAAAAAAAAAAAAAAAAAAAAAAAAAA=".

Definition client_self : Peer := MkPeer "laptop" client_key "10.50.0.2" "" "default".
Definition client_peer : Peer := MkPeer "NAS" client_key "10.50.0.3" "192.0.2.7:51820" "default".
Definition client_peers : list Peer := [client_self; client_peer].

(** The peer's service, and one this device hosts. *)
Definition client_wiki : Service := MkService "wiki" "tcp" 80 8080 "10.50.0.3" "10.50.128.1" [].
Definition client_own : Service := MkService "files" "tcp" 445 1445 "10.50.0.2" "10.50.128.2" [].
Definition client_services : list Service := [client_wiki; client_own].

Definition client_config : Config :=
  MkConfig "http://192.0.2.1:8080" "" "" "device-1" "laptop" false "zwan" 51820 "" "" true "zwan" "" "home" [].

(** The server answers, and the system does all that is asked of it. *)
Definition client_world : world :=
  MkWorld (Ok client_peers) (Ok client_services) Ok (λ _, true) (λ _, true) (λ _, true) (λ _ _, true) (Some ∅).

Definition client_start : run_state := run_start None (Some Resolver.New).
Definition client_state : run_state :=
  apply client_world client_config "10.50.0.2" "10.50.0.2" "home" client_start.

Ltac label := split_and!; [done|by vm_compute|split_and!; [repeat constructor|done|done]].

Lemma client_labels :
  dns_label "home" ∧ dns_label "nas" ∧ dns_label "laptop" ∧ dns_label "wiki" ∧ dns_label "files".
Proof. split_and!; label. Qed.

(** ** Names *)

Lemma services_resolve_witness :
  ∃ r', updateDNS (Some Resolver.New) "home" client_peers client_services = Some r' ∧
    resolves r' "wiki.home" (ParseIP "10.50.128.1") ∧ resolves r' "nas.home" (ParseIP "10.50.0.3").
Proof.
  destruct client_labels as (Hh & Hn & Hl & Hw & Hf).
  destruct (updateDNS (Some Resolver.New) "home" client_peers client_services) as [r'|] eqn:Hr; [|done].
  destruct (services_resolve Resolver.New "home" client_peers client_services) with (r' := r') as [Hs Hp].
  - by apply Forall_singleton.
  - intros p [->|[->|[]%not_elem_of_nil]%elem_of_cons]%elem_of_cons _; by vm_compute.
  - intros s [->|[->|[]%not_elem_of_nil]%elem_of_cons]%elem_of_cons; by vm_compute.
  - by apply (bool_decide_unpack _).
  - by apply (bool_decide_unpack _).
  - done.
  - exists r'. split; [done|]. split.
    + apply (Hs client_wiki (Addr4 171081729)); [apply list_elem_of_here|by vm_compute].
    + apply (Hp client_peer (Addr4 171048963)); [apply list_elem_of_further, list_elem_of_here|done|by vm_compute|].
      intros s [->|[->|[]%not_elem_of_nil]%elem_of_cons]%elem_of_cons; by vm_compute.
Defined.

(** ** A refresh *)

Lemma client_plain_ok : plain_listing client_config "10.50.0.2" client_world.
Proof.
  intros peers [= <-]. split.
  - repeat constructor.
  - change (refresh_services client_world client_config "10.50.0.2") with client_services. repeat constructor.
Qed.

Lemma client_reached P : P client_world →
  run_reach P client_config "10.50.0.2" "10.50.0.2" "home" client_start [rs_Services client_state] client_state.
Proof. intros HP. exact (reach_apply _ _ _ _ _ _ client_world _ _ HP (reach_start _ _ _ _ _ _)). Qed.


Lemma run_consistent_witness :
  rs_access client_state = access_Set (rs_Peers client_state) (rs_Services client_state) ∧
  ∃ h, rs_proxies client_state !! "files"%string = Some h ∧ hs_backend h = "127.0.0.1:1445"%string.
Proof.
  destruct (run_consistent client_config "10.50.0.2" "10.50.0.2" "home" None (Some Resolver.New) [rs_Services client_state] client_state)
    as (Ha & _ & _ & _ & _); [done|by apply client_reached|].
  split; [exact Ha|]. exists (MkHosted "10.50.128.2:445" false "127.0.0.1:1445" "files"). by vm_compute.
Defined.
