(* ===== verification/EndToEnd.v ===== *)
(** * A packet from one device to another

    The parts a packet goes through, put together: the sender's translating device, its
    tunnel as the engine configured it, the bind, the relay, the receiver's bind, its tunnel
    and its translating device.  Encryption and routing by key are WireGuard's: a class with
    the law of its documentation. *)
From Stdlib Require Import Ascii String.
From S2P Require Import Prelude GoString GoStringFacts HostPort Netip NetipFacts Rewrite VipTable VipDevice Relay BindTraffic RelayRun Proto Base64 Certpin Keys Wg WgDevice Engine EngineRefresh.

Local Open Scope Z_scope.

(** ** Packets *)

(** An IPv4 packet with a whole header. *)
Record ip_packet (pkt : list Z) : Prop := {
  ip_bytes : bytes pkt;
  ip_length : (20 ≤ hdr_len pkt ≤ length pkt)%nat;
  ip_version : ∃ b0, pkt !! 0%nat = Some b0 ∧ Z.shiftr b0 4 = 4;
}.

Lemma addr_at_addrs pkt v w :
  (20 ≤ length pkt)%nat → addrs_part pkt = bytes4 v ++ bytes4 w → is_u32 v → is_u32 w →
  addr_at pkt 12 = Some (Addr4 v) ∧ addr_at pkt 16 = Some (Addr4 w).
Proof.
  intros Hl Ha Hv Hw. unfold addr_at. rewrite !slice_Some by lia. cbn [fmap option_fmap option_map].
  unfold addrs_part in Ha.
  assert (take 4 (drop 12 pkt) = bytes4 v) as Hs.
  { replace (take 4 (drop 12 pkt)) with (take 4 (take 8 (drop 12 pkt))) by (by rewrite take_take). by rewrite Ha. }
  assert (take 4 (drop 16 pkt) = bytes4 w) as Hd.
  { replace (drop 16 pkt) with (drop 4 (drop 12 pkt)) by (by rewrite drop_drop).
    rewrite take_drop_commute. change (4 + 4)%nat with 8%nat. by rewrite Ha. }
  change (12 + 4 - 12)%nat with 4%nat. change (16 + 4 - 16)%nat with 4%nat. rewrite Hs, Hd.
  unfold AddrFrom4. by rewrite !of_bytes4_bytes4.
Qed.

Section forwards.
Context {S : Type} (translate : S → Addr → S * option Addr) (Inv : S → Prop) (Htr : translates_4 translate Inv).

(** A packet both of whose addresses have a translation is forwarded. *)
Lemma rewrite_forwards s pkt src dst s1 s2 a b :
  Inv s → ip_packet pkt → addr_at pkt 12 = Some src → addr_at pkt 16 = Some dst →
  translate s src = (s1, Some a) → translate s1 dst = (s2, Some b) →
  ∃ s' pkt' v w, a = Addr4 v ∧ b = Addr4 w ∧ is_u32 v ∧ is_u32 w ∧ Inv s' ∧
    rewrite translate s pkt = Some (s', pkt', true) ∧ rewritten pkt (bytes4 v ++ bytes4 w) pkt'.
Proof using Htr.
  intros Hs [Hb Hl (b0 & Hb0 & Hver)] Hsrc Hdst Hs1 Hs2. unfold rewrite.
  rewrite (proj2 (Nat.ltb_ge _ _)) by lia. rewrite Hb0. cbn [mbind option_bind]. rewrite Hver. cbn [negb Z.eqb Pos.eqb]. cbv zeta.
  assert (ihl_of b0 = hdr_len pkt) as -> by (unfold hdr_len; by rewrite Hb0).
  rewrite !(proj2 (Nat.ltb_ge _ _)) by lia. cbn [orb]. rewrite Hsrc, Hdst. cbn [mbind option_bind].
  rewrite Hs1. cbn iota beta. rewrite Hs2.
  destruct (Htr s src Hs) as [Hi1 Ha]. rewrite Hs1 in Hi1, Ha. destruct (Ha _ eq_refl) as (v & -> & Hv).
  destruct (Htr s1 dst Hi1) as [Hi2 Hbb]. rewrite Hs2 in Hi2, Hbb. destruct (Hbb _ eq_refl) as (w & -> & Hw).
  change (addr_As4 (Addr4 v)) with (Some (bytes4 v)). change (addr_As4 (Addr4 w)) with (Some (bytes4 w)). cbn [mbind option_bind].
  destruct (replaceAddrs_spec translate Inv Htr s2 pkt (bytes4 v ++ bytes4 w)) as (s' & pkt' & Heq & Hi' & Hrw);
    [done|done|lia|done|done|apply Forall_app; split; apply bytes4_bytes|].
  exists s', pkt', v, w. by split_and!.
Qed.
End forwards.

(** What rewriting leaves as it was: everything but addresses and checksums, and those stay as
    right as they were. *)
Record same_packet (pkt pkt' : list Z) : Prop := {
  sp_length : length pkt' = length pkt;
  sp_bytes : bytes pkt';
  sp_hdr_sum : same_sum (wsum (hdr_part pkt')) (wsum (hdr_part pkt));
  sp_hdr : ∀ j, (j < 10)%nat ∨ (20 ≤ j < hdr_len pkt)%nat → pkt' !! j = pkt !! j;
  sp_l4 : if later_fragment pkt then l4_part pkt' = l4_part pkt
          else l4_ok (proto_of pkt) (addrs_part pkt) (addrs_part pkt') (l4_part pkt) (l4_part pkt');
}.

Lemma same_packet_fields pkt pkt' :
  same_packet pkt pkt' → hdr_len pkt' = hdr_len pkt ∧ proto_of pkt' = proto_of pkt ∧ later_fragment pkt' = later_fragment pkt.
Proof.
  intros [_ _ _ Hh _]. unfold hdr_len, proto_of, later_fragment. rewrite !Hh by lia. done.
Qed.

Lemma l4_ok_refl proto addrs l4 : bytes l4 → l4_ok proto addrs addrs l4 l4.
Proof.
  intros Hb. split; try done. intros _ _. by case_bool_decide.
Qed.

Lemma l4_ok_trans proto a1 a2 a3 l1 l2 l3 :
  l4_ok proto a1 a2 l1 l2 → l4_ok proto a2 a3 l2 l3 → l4_ok proto a1 a3 l1 l3.
Proof.
  intros [L1 B1 T1 U1 I1 O1] [L2 B2 T2 U2 I2 O2]. split; [congruence|done| | | |].
  - intros Hp Hl. rewrite L1 in T2. etrans; [by apply T2|by apply T1].
  - intros Hp Hl. rewrite L1 in U2. specialize (U1 Hp Hl). specialize (U2 Hp Hl).
    destruct (bool_decide_reflect (get16_at l1 6 = Some 0)) as [Hz|Hz].
    + subst l2. by rewrite bool_decide_eq_true_2 in U2.
    + destruct U1 as [S1 Z1]. rewrite bool_decide_eq_false_2 in U2 by done. destruct U2 as [S2 Z2]. split; [by etrans|done].
  - intros Hp. etrans; [by apply I2|by apply I1].
  - intros j Hj. by rewrite O2, O1.
Qed.

Lemma rewritten_same pkt updated pkt' : bytes pkt → rewritten pkt updated pkt' → same_packet pkt pkt'.
Proof.
  intros Hb Hrw. split; [apply (rw_length _ _ _ Hrw)|apply (rw_bytes _ _ _ Hrw)|apply (rw_header _ _ _ Hrw)|apply (rw_other _ _ _ Hrw)|].
  rewrite (rw_addrs _ _ _ Hrw). pose proof (rw_l4 _ _ _ Hrw) as Hl4. destruct (later_fragment pkt); [done|].
  cbn [orb] in Hl4. destruct (bool_decide_reflect (addrs_part pkt = updated)) as [<-|_]; [|done].
  rewrite Hl4. apply l4_ok_refl. by apply Forall_drop.
Qed.

#[export] Instance same_packet_trans : Transitive same_packet.
Proof.
  intros p1 p2 p3 H12 H23. destruct (same_packet_fields _ _ H12) as (Hh & Hp & Hf).
  destruct H12 as [L1 Y1 S1 B1 T1], H23 as [L2 Y2 S2 B2 T2]. rewrite Hh in B2. rewrite Hp, Hf in T2. split.
  - congruence.
  - done.
  - by etrans.
  - intros j Hj. by rewrite B2, B1.
  - destruct (later_fragment p1); [congruence|]. by eapply l4_ok_trans.
Qed.

Lemma same_packet_ip pkt pkt' : same_packet pkt pkt' → ip_packet pkt → ip_packet pkt'.
Proof.
  intros Hs [_ Hl (b0 & Hb0 & Hv)]. destruct (same_packet_fields _ _ Hs) as (Hh & _). split; [apply (sp_bytes _ _ Hs)| |].
  - by rewrite Hh, (sp_length _ _ Hs).
  - exists b0. by rewrite (sp_hdr _ _ Hs) by lia.
Qed.

(** ** The two ends of the translation *)

(** What the system's packet becomes on its way into the tunnel, and the tunnel's on its way
    to the system; nothing if it is dropped. *)
Definition leaves (d : Device) (t : Table) (pkt : list Z) : option (list Z) :=
  '(_, bufs) ← Read d t [(pkt, Z.of_nat (length pkt))];
  match bufs with
  | [(buf, size)] => if size =? 0 then None else slice buf 0 (Z.to_nat size)
  | _ => None
  end.

Definition arrives (d : Device) (t : Table) (pkt : list Z) : option (list Z) :=
  '(_, keep) ← Write d t [pkt] 0;
  match keep with [b] => Some b | _ => None end.

Lemma slice_all (l : list Z) : slice l 0 (length l) = Some l.
Proof. rewrite slice_Some by lia. by rewrite Nat.sub_0_r, drop_0, firstn_all. Qed.

Lemma blit_all (l b : list Z) : length b = length l → blit l 0 b = Some b.
Proof.
  intros Hb. destruct (blit_spec l 0 b) as (old & l' & _ & _ & _ & Hbl & Hw); [lia|].
  pose proof (wr_read _ _ _ _ _ Hw) as Hr. change (0 + length b)%nat with (length b) in Hr.
  rewrite Hb, <- (wr_length _ _ _ _ _ Hw), slice_all in Hr. by rewrite Hbl, Hr.
Qed.

Lemma leaves_rewritten d t pkt l r :
  device_ok d t → ip_packet pkt → addr_at pkt 12 = Some (selfLocal d) → addr_at pkt 16 = Some l →
  t_toLocal t !! r = Some l →
  ∃ pkt', leaves d t pkt = Some pkt' ∧ same_packet pkt pkt' ∧
    addr_at pkt' 12 = Some (selfReal d) ∧ addr_at pkt' 16 = Some r.
Proof.
  intros Hd Hp Hsrc Hdst Hr. pose proof Hd as [Ht Hself]. pose proof (ip_length _ Hp) as Hl.
  assert (toReal d t l = (t, Some r)) as Hto.
  { rewrite (surjective_pairing (toReal d t l)), (toReal_Real d t l Hd). unfold toReal. cbn [fst]. f_equal.
    destruct (entry_unmap t _ _ Ht Hr) as [_ Hu]. unfold Real. rewrite Hu. by apply (tb_inverse t Ht). }
  assert (toReal d t (selfLocal d) = (t, Some (selfReal d))) as Hts by (unfold toReal; by rewrite bool_decide_eq_true_2).
  destruct (rewrite_forwards (toReal d) (device_from d t) (toReal_translates d t) t pkt _ _ _ _ _ _ ltac:(by split) Hp Hsrc Hdst Hts Hto)
    as (t' & pkt' & v & w & Hv & Hw & Hvu & Hwu & _ & Hrw & Hres).
  pose proof (rw_length _ _ _ Hres) as Hlen. exists pkt'. split_and!; [|by eapply rewritten_same; [apply (ip_bytes _ Hp)|]| |].
  - unfold leaves. cbn [Read]. rewrite (proj2 (Z.leb_gt _ _)) by lia. rewrite Nat2Z.id, slice_all. cbn [mbind option_bind].
    rewrite Hrw. cbn [mbind option_bind]. rewrite blit_all by done. cbn [mbind option_bind].
    rewrite (proj2 (Z.eqb_neq _ _)) by lia. rewrite Nat2Z.id, <- Hlen. apply slice_all.
  - rewrite Hv. by apply (addr_at_addrs pkt' v w); [lia|apply (rw_addrs _ _ _ Hres)|..].
  - rewrite Hw. by apply (addr_at_addrs pkt' v w); [lia|apply (rw_addrs _ _ _ Hres)|..].
Qed.

Lemma arrives_rewritten d t pkt r l :
  device_ok d t → ip_packet pkt → addr_at pkt 12 = Some r → addr_at pkt 16 = Some (selfReal d) →
  t_toLocal t !! r = Some l →
  ∃ pkt', arrives d t pkt = Some pkt' ∧ same_packet pkt pkt' ∧
    addr_at pkt' 12 = Some l ∧ addr_at pkt' 16 = Some (selfLocal d).
Proof.
  intros Hd Hp Hsrc Hdst Hr. pose proof Hd as [Ht Hself]. pose proof (ip_length _ Hp) as Hl.
  assert (toLocal d t r = (t, Some l)) as Htl.
  { unfold toLocal. case_bool_decide as Heq; [subst r; congruence|].
    destruct (entry_unmap t _ _ Ht Hr) as [Hu _]. destruct (tb_entry t Ht _ _ Hr) as [Hm _].
    unfold Local_. rewrite Hu, Hm. cbn [negb]. by rewrite Hr. }
  assert (toLocal d t (selfReal d) = (t, Some (selfLocal d))) as Hts by (unfold toLocal; by rewrite bool_decide_eq_true_2).
  destruct (rewrite_forwards (toLocal d) (device_from d t) (toLocal_translates d t) t pkt _ _ _ _ _ _ ltac:(by split) Hp Hsrc Hdst Htl Hts)
    as (t' & pkt' & v & w & Hv & Hw & Hvu & Hwu & _ & Hrw & Hres).
  pose proof (rw_length _ _ _ Hres) as Hlen. exists pkt'. split_and!; [|by eapply rewritten_same; [apply (ip_bytes _ Hp)|]| |].
  - unfold arrives. cbn [Write]. rewrite (proj2 (Nat.leb_gt _ _)) by lia. rewrite slice_all. cbn [mbind option_bind].
    rewrite Hrw. cbn [mbind option_bind]. by rewrite blit_all.
  - rewrite Hv. by apply (addr_at_addrs pkt' v w); [lia|apply (rw_addrs _ _ _ Hres)|..].
  - rewrite Hw. by apply (addr_at_addrs pkt' v w); [lia|apply (rw_addrs _ _ _ Hres)|..].
Qed.

(** ** The tunnels, as the engines configure them *)

Definition overlay_text (s : string) : Prop := ∃ v, is_u32 v ∧ s = addr_String (Addr4 v).

(** What a listing of the network's members and services has: every member and every service an
    address of its own, every member a key of its own. *)
Record listing_ok (peers : list Peer) (svcs : list Service) : Prop := {
  lo_keys : NoDup (omap (λ p, PublicHexFromBase64 (pr_PublicKey p)) peers);
  lo_addrs : NoDup (pr_AssignedIP <$> peers);
  lo_text : ∀ p, p ∈ peers → overlay_text (pr_AssignedIP p);
  lo_vips : ∀ sv, sv ∈ svcs → sv_VIP sv ≠ ""%string →
    overlay_text (sv_VIP sv) ∧ sv_VIP sv ∉ pr_AssignedIP <$> peers;
}.

(** A member with a key that can be used. *)
Definition member (peers : list Peer) (v : Z) (key : string) : Prop :=
  ∃ p, p ∈ peers ∧ pr_AssignedIP p = addr_String (Addr4 v) ∧ is_u32 v ∧ pr_PublicKey p ≠ ""%string ∧
    PublicHexFromBase64 (pr_PublicKey p) = Some key.

(** The one address of a prefix of 32 bits: the tunnels are given no others. *)
Definition host_of (s : string) : Addr := match ParsePrefix s with Some p => p_addr p | None => AddrZero end.

Lemma host_of_text v : is_u32 v → host_of (addr_String (Addr4 v) +:+ "/32") = Addr4 v.
Proof.
  intros Hv. unfold host_of, ParsePrefix. rewrite cut_last_app by done. cbn [addr_String].
  by rewrite ParseAddr_string4.
Qed.

(** The device's configuration after the engine's first refresh: [SetPeers] of what
    [wg_peer] makes of the listing. *)
Definition configured (priv : string) (port : Z) (cfg : Engine.Config) (self : Z) (peers : list Peer) (svcs : list Service)
  : uapi (P:=Addr) :=
  foldl (add_peer host_of) (MkUapi priv (itoa port) ∅ ∅) (omap (wg_peer cfg (addr_String (Addr4 self)) (hosted_vips svcs)) peers).

Lemma wg_keys cfg self svcs peers :
  (w_PublicKeyHex <$> omap (wg_peer cfg self (hosted_vips svcs)) peers) `sublist_of`
  omap (λ p, PublicHexFromBase64 (pr_PublicKey p)) peers.
Proof.
  induction peers as [|p peers IH]; [done|]. cbn [omap list_omap].
  destruct (wg_peer cfg self (hosted_vips svcs) p) as [wp|] eqn:Hwp.
  - destruct (wg_peer_some _ _ _ _ _ Hwp) as (_ & -> & _). cbn [fmap list_fmap]. by constructor.
  - destruct (PublicHexFromBase64 _); [by constructor|done].
Qed.

(** Whoever sends to a member's address is routed to that member, under its key and its
    endpoint. *)
Lemma configured_routes priv port cfg self peers svcs v key :
  listing_ok peers svcs → cfg_UseRelay cfg = true → member peers v key → v ≠ self → is_u32 self →
  u_owner (configured priv port cfg self peers svcs) !! Addr4 v = Some key ∧
  ∃ p, u_peers (configured priv port cfg self peers svcs) !! key = Some p ∧ up_endpoint p = addr_String (Addr4 v).
Proof.
  intros [Hkeys Haddrs Htext Hvips] Hrelay (p & Hp & Hip & Hv & Hpk & Hkey) Hne Hself.
  unfold configured. set (u0 := MkUapi priv (itoa port) ∅ ∅). set (wps := omap _ peers).
  assert (∀ a b, is_u32 a → is_u32 b → addr_String (Addr4 a) = addr_String (Addr4 b) → a = b) as Hinj.
  { intros a b Ha Hb He. pose proof (host_of_text a Ha) as H1. rewrite He, (host_of_text b Hb) in H1. congruence. }
  assert (∃ wp, wg_peer cfg (addr_String (Addr4 self)) (hosted_vips svcs) p = Some wp) as [wp Hwp].
  { unfold wg_peer. rewrite Hip, (proj2 (String.eqb_neq _ _)) by (intros He; apply Hne; by apply Hinj).
    rewrite (proj2 (String.eqb_neq _ _) Hpk). cbn [orb]. rewrite Hkey. by eexists. }
  pose proof (wg_peer_some _ _ _ _ _ Hwp) as (_ & Hk & Hep & Hal). rewrite Hkey in Hk. injection Hk as Hk.
  assert (wp ∈ wps) as Hin by (apply list_elem_of_omap; by exists p).
  assert (NoDup (w_PublicKeyHex <$> wps)) as Hnd by (by eapply sublist_NoDup; [|apply wg_keys]).
  split.
  - destruct (add_peers_is_Some host_of wps u0 (Addr4 v)) as [k Hown].
    { right. exists wp, (pr_AssignedIP p +:+ "/32"). split_and!; [done|apply Hal; by left|]. rewrite Hip. by apply host_of_text. }
    rewrite Hown. apply add_peers_owner in Hown as [(wq & ip & (q & Hq & Hwq)%list_elem_of_omap & <- & Hipq & Hpx)|Hown].
    2: { cbn [u_owner u0] in Hown. by rewrite lookup_empty in Hown. }
    pose proof (wg_peer_some _ _ _ _ _ Hwq) as (_ & Hkq & _ & Halq).
    apply Halq in Hipq as [->|(sv & Hsv & _ & Hvip & ->)].
    + destruct (Htext q Hq) as (u & Hu & Hqt). rewrite Hqt, host_of_text in Hpx by done. injection Hpx as ->.
      assert (q = p) as ->; [|congruence].
      apply list_elem_of_lookup in Hp as [i Hi], Hq as [j Hj].
      assert (i = j) as ->; [|congruence]. eapply (NoDup_lookup _ _ _ (pr_AssignedIP p) Haddrs).
      * by rewrite list_lookup_fmap, Hi.
      * rewrite list_lookup_fmap, Hj. cbn. congruence.
    + destruct (Hvips sv Hsv Hvip) as [(u & Hu & Hst) Hnot]. rewrite Hst, host_of_text in Hpx by done. injection Hpx as ->.
      exfalso. apply Hnot. rewrite Hst, <- Hip. by apply list_elem_of_fmap_2.
  - exists (MkUPeer (addr_String (Addr4 v)) "25"). split; [|done].
    rewrite add_peers_peers; [|done|by intros]. apply lookup_union_Some_l, elem_of_list_to_map_1.
    + rewrite <- list_fmap_compose. exact Hnd.
    + apply list_elem_of_fmap. exists wp. split; [|done]. by rewrite Hk, Hep, Hrelay, Hip.
Qed.

(** ** The way across *)

(** What is done to a packet between the translating devices: the device of a tunnel picks the
    peer its destination is routed to and seals the packet for it, [None] if there is none; the
    other one opens it. *)
Class WireGuard : Type := {
  seal : uapi (P:=Addr) → list Z → option (string * list Z);
  open : uapi (P:=Addr) → list Z → option (list Z);
}.

(** Between two tunnels that have each other as peers, once they have shaken hands, a packet
    arrives as it was, if the sender's side routes its destination to the receiver and the
    receiver's side routes its source to the sender; a header, a tag and padding to a multiple
    of 16 bytes are all that is added. *)
Class WireGuardLaws (base : list Z → list Z) `{WireGuard} : Prop := {
  sealed_opens c c' k k' pkt src dst p p' :
    u_private c = Private_Hex k → u_private c' = Private_Hex k' → ip_packet pkt →
    addr_at pkt 12 = Some src → addr_at pkt 16 = Some dst →
    u_owner c !! dst = Some (Public_Hex (Private_Public base k')) → u_peers c !! Public_Hex (Private_Public base k') = Some p →
    u_owner c' !! src = Some (Public_Hex (Private_Public base k)) → u_peers c' !! Public_Hex (Private_Public base k) = Some p' →
    ∃ d, seal c pkt = Some (up_endpoint p, d) ∧ open c' d = Some pkt ∧ (length d ≤ length pkt + 47)%nat;
}.

(** A device on the network, as the engine set it up: the translating device and the table
    it shares with the resolver, the tunnel and the bind. *)
Record end_point : Type := MkEndPoint { e_dev : Device; e_table : Table; e_tunnel : uapi (P:=Addr); e_bind : Bind }.

Section across.
Context `{WireGuard}.

(** What goes to the relay for a packet from an application. *)
Definition sends (e : end_point) (pkt : list Z) : option (list (list Z * AddrPort)) :=
  overlay ← leaves (e_dev e) (e_table e) pkt;
  '(peer, d) ← seal (e_tunnel e) overlay;
  ip ← ParseEndpoint peer;
  Send (e_bind e) [d] ip.

(** What an application gets of a datagram from the relay. *)
Definition gets (cap : nat) (e : end_point) (datagram : list Z) : option (list Z) :=
  '(d, _) ← mjoin (relayReceive cap datagram);
  overlay ← open (e_tunnel e) d;
  arrives (e_dev e) (e_table e) overlay.

(** From an application of one device to one of another, through the relay: the relay's clients
    then, the socket the packet went to and what it has become. *)
Definition crosses (cap : nat) (a b : end_point) (cs : Clients) (from : AddrPort) (now : Z) (pkt : list Z)
  : option (Clients * AddrPort * list Z) :=
  frames ← sends a pkt;
  match frames with
  | [(frame, _)] =>
    '(cs, out) ← serve_one cs frame from now;
    '(datagram, to) ← out;
    got ← gets cap b datagram;
    Some (cs, to, got)
  | _ => None
  end.

Lemma relayReceive_data cap v p : is_u32 v → (length p + 5 ≤ cap)%nat →
  relayReceive cap (typeData :: bytes4 v ++ p) = Some (Some (p, Addr4 v)).
Proof.
  intros Hv Hc. unfold relayReceive. rewrite take_ge by (rewrite length_cons, length_app; simpl; lia).
  change (length (typeData :: bytes4 v ++ p) <? 5)%nat with false. cbv iota.
  cbn [lookup list_lookup mbind option_bind]. change (typeData =? typeData) with true. cbn [negb].
  rewrite addr_at_frame by done. cbn [mbind option_bind].
  rewrite slice_Some by (rewrite ?length_cons, ?length_app; simpl; lia). cbn [mbind option_bind].
  change (drop 5 (typeData :: bytes4 v ++ p)) with p. by rewrite take_ge by (rewrite length_cons, length_app; simpl; lia).
Qed.

(** A device whose overlay address is [v] and whose key is [k], set up from a listing through
    the relay. *)
Definition set_up (relayAP : AddrPort) (v : Z) (k : Private) (peers : list Peer) (e : end_point) : Prop :=
  ∃ port cfg svcs, is_u32 v ∧ device_ok (e_dev e) (e_table e) ∧ selfReal (e_dev e) = Addr4 v ∧
    listing_ok peers svcs ∧ cfg_UseRelay cfg = true ∧
    e_tunnel e = configured (Private_Hex k) port cfg v peers svcs ∧ e_bind e = client_bind relayAP v.

Lemma crosses_spec base `{!WireGuardLaws base} relayAP cap a b v w ka kb peers_a peers_b cs from now to l m pkt :
  set_up relayAP v ka peers_a a → set_up relayAP w kb peers_b b → v ≠ w →
  member peers_a w (Public_Hex (Private_Public base kb)) → member peers_b v (Public_Hex (Private_Public base ka)) →
  t_toLocal (e_table a) !! Addr4 w = Some l → t_toLocal (e_table b) !! Addr4 v = Some m →
  c_addr <$> cs !! Addr4 w = Some to → (1496 ≤ cap)%nat →
  ip_packet pkt → (length pkt ≤ 1420)%nat → addr_at pkt 12 = Some (selfLocal (e_dev a)) → addr_at pkt 16 = Some l →
  ∃ got, crosses cap a b cs from now pkt = Some (<[Addr4 v := MkClient from now]> cs, to, got) ∧ same_packet pkt got ∧
    addr_at got 12 = Some m ∧ addr_at got 16 = Some (selfLocal (e_dev b)).
Proof.
  intros (pa & cfga & svcsa & Hv & Hda & Hra & Hla & Hura & Hta & Hba) (pb & cfgb & svcsb & Hw & Hdb & Hrb & Hlb & Hurb & Htb & Hbb)
    Hne Hma Hmb Hl Hm Hcs Hcap Hp Hlen Hsrc Hdst.
  destruct (leaves_rewritten _ _ _ _ _ Hda Hp Hsrc Hdst Hl) as (p1 & Hleave & Hs1 & Hsrc1 & Hdst1).
  rewrite Hra in Hsrc1. pose proof (same_packet_ip _ _ Hs1 Hp) as Hp1. pose proof (sp_length _ _ Hs1) as Hlen1.
  destruct (configured_routes (Private_Hex ka) pa cfga v peers_a svcsa w _ Hla Hura Hma ltac:(done) Hv) as (Hoa & qa & Hqa & Hepa).
  destruct (configured_routes (Private_Hex kb) pb cfgb w peers_b svcsb v _ Hlb Hurb Hmb Hne Hw) as (Hob & qb & Hqb & _).
  rewrite <- Hta in Hoa, Hqa. rewrite <- Htb in Hob, Hqb.
  destruct (add_peers_device host_of (omap (wg_peer cfga (addr_String (Addr4 v)) (hosted_vips svcsa)) peers_a)
    (MkUapi (Private_Hex ka) (itoa pa) ∅ ∅)) as [Hka _].
  destruct (add_peers_device host_of (omap (wg_peer cfgb (addr_String (Addr4 w)) (hosted_vips svcsb)) peers_b)
    (MkUapi (Private_Hex kb) (itoa pb) ∅ ∅)) as [Hkb _].
  fold (configured (Private_Hex ka) pa cfga v peers_a svcsa) in Hka. rewrite <- Hta in Hka.
  fold (configured (Private_Hex kb) pb cfgb w peers_b svcsb) in Hkb. rewrite <- Htb in Hkb.
  destruct (sealed_opens (e_tunnel a) (e_tunnel b) ka kb p1 (Addr4 v) (Addr4 w) qa qb Hka Hkb Hp1 Hsrc1 Hdst1 Hoa Hqa Hob Hqb)
    as (d & Hseal & Hopen & Hd).
  destruct (arrives_rewritten (e_dev b) (e_table b) p1 (Addr4 v) m Hdb Hp1 Hsrc1) as (got & Harr & Hs2 & Hsrc2 & Hdst2);
    [by rewrite Hrb|done|].
  exists got. split_and!; [|by etrans|done|done].
  unfold crosses, sends. rewrite Hleave. cbn [mbind option_bind]. rewrite Hseal. cbn [mbind option_bind].
  rewrite Hepa, (proj1 (ParseEndpoint_names w 0 Hw ltac:(lia))), Hba. cbn [mbind option_bind].
  unfold Send. cbn [client_bind b_selfIP b_relayAP]. change (addr_As4 (Addr4 v)) with (Some (bytes4 v)).
  change (addr_As4 (Addr4 w)) with (Some (bytes4 w)). cbn [mbind option_bind fmap list_fmap].
  rewrite serve_data by done. rewrite lookup_insert_ne by (intros [= ?]; congruence).
  destruct (cs !! Addr4 w) as [c|]; [|done]. injection Hcs as Hto. cbn [fmap option_fmap option_map mbind option_bind].
  unfold relayed. rewrite take_ge by lia. unfold gets. rewrite relayReceive_data by (done || lia).
  cbn [mjoin option_join mbind option_bind]. rewrite Hopen. cbn [mbind option_bind]. rewrite Harr. cbn [mbind option_bind]. by rewrite Hto.
Qed.
(** C1: A packet that an application of one device sends to the local address of another gets
    there, in the whole of the software in between: translated into the overlay, sealed for
    the peer the engine configured, framed by the bind, relayed to the socket the other last
    registered from, unframed, opened and translated into what is local there.  It comes from the
    local address the receiver knows the sender by, to the receiver's own, and is otherwise
    the packet that was sent, its checksums as right as they were.  An answer to where it came
    from gets back to the sender in the same way, though the sender never registered. *)
Theorem packet_crosses base `{!WireGuardLaws base} relayAP cap a b v w ka kb peers_a peers_b cs from now to l m pkt reply now' :
  set_up relayAP v ka peers_a a → set_up relayAP w kb peers_b b → v ≠ w →
  member peers_a w (Public_Hex (Private_Public base kb)) → member peers_b v (Public_Hex (Private_Public base ka)) →
  t_toLocal (e_table a) !! Addr4 w = Some l → t_toLocal (e_table b) !! Addr4 v = Some m →
  c_addr <$> cs !! Addr4 w = Some to → (1496 ≤ cap)%nat →
  ip_packet pkt → (length pkt ≤ 1420)%nat → addr_at pkt 12 = Some (selfLocal (e_dev a)) → addr_at pkt 16 = Some l →
  ip_packet reply → (length reply ≤ 1420)%nat → addr_at reply 12 = Some (selfLocal (e_dev b)) → addr_at reply 16 = Some m →
  ∃ cs' cs'' got got',
    (crosses cap a b cs from now pkt = Some (cs', to, got) ∧ same_packet pkt got ∧
      addr_at got 12 = Some m ∧ addr_at got 16 = Some (selfLocal (e_dev b))) ∧
    (crosses cap b a cs' to now' reply = Some (cs'', from, got') ∧ same_packet reply got' ∧
      addr_at got' 12 = Some l ∧ addr_at got' 16 = Some (selfLocal (e_dev a))).
Proof.
  intros Ha Hb Hne Hma Hmb Hl Hm Hcs Hcap Hp Hplen Hpsrc Hpdst Hr Hrlen Hrsrc Hrdst.
  destruct (crosses_spec base relayAP cap a b v w ka kb peers_a peers_b cs from now to l m pkt) as (got & Hgot); [done..|].
  destruct (crosses_spec base relayAP cap b a w v kb ka peers_b peers_a (<[Addr4 v := MkClient from now]> cs) to now' from m l reply)
    as (got' & Hgot'); try done; [by rewrite lookup_insert_eq|].
  by exists (<[Addr4 v := MkClient from now]> cs), (<[Addr4 w := MkClient to now']> (<[Addr4 v := MkClient from now]> cs)), got, got'.
Qed.
End across.

(** ** Two devices *)

(** A tunnel that seals nothing. *)
#[export] Instance plain_tunnel : WireGuard := {
  seal c pkt := dst ← addr_at pkt 16; key ← u_owner c !! dst; p ← u_peers c !! key; Some (up_endpoint p, pkt);
  open c d := src ← addr_at d 12; key ← u_owner c !! src; _ ← u_peers c !! key; Some d;
}.

#[export] Instance plain_tunnel_laws base : WireGuardLaws base.
Proof.
  split. intros c c' k k' pkt src dst p p' _ _ _ Hsrc Hdst Ho Hp Ho' Hp'. exists pkt. cbn [seal open plain_tunnel].
  rewrite Hsrc, Hdst. cbn [mbind option_bind]. rewrite Ho, Ho'. cbn [mbind option_bind]. rewrite Hp, Hp'. split_and!; [done|done|lia].
Qed.

(** Each knows itself as the first address of its own local range and the other as the
    second. *)
Definition demo_ip (n : Z) : Z := 0x0a000000 + n.
Definition demo_key (n : Z) : Private := MkPrivate (repeat n 32).
Definition demo_public (k : list Z) : list Z := k.
Definition demo_listing : list Peer :=
  (λ n, MkPeer "" (Public_String (Private_Public demo_public (demo_key n))) (addr_String (Addr4 (demo_ip n))) "" "default") <$> [1; 2].
Definition demo_config : Engine.Config :=
  MkConfig "" "" "" "" "" true "zwan" 51820 "" "" true "zWAN" "100.112.0.0/30" "" [].
Definition demo_knows (self other : Z) : Table :=
  map_index (map_index demo_table (Addr4 (demo_ip self)) 1) (Addr4 (demo_ip other)) 2.
Definition demo_point (self other : Z) : end_point :=
  MkEndPoint (MkDevice (Addr4 (demo_ip self)) (Addr4 0x64700001)) (demo_knows self other)
    (configured (Private_Hex (demo_key self)) 51820 demo_config (demo_ip self) demo_listing [])
    (client_bind (demo_endpoint 9) (demo_ip self)).
Definition local_packet : list Z :=
  [0x45; 0; 0; 30; 0; 1; 0; 0; 64; 17; 0xb1; 0xeb; 0x64; 0x70; 0; 1; 0x64; 0x70; 0; 2;
   0; 53; 0; 54; 0; 10; 0; 0; 1; 2].

Lemma local_packet_ip : ip_packet local_packet.
Proof. split; [repeat constructor; by vm_compute|by vm_compute; lia|by exists 0x45]. Qed.

Lemma demo_knows_ok self other :
  mappable demo_table (Addr4 (demo_ip self)) = true → mappable demo_table (Addr4 (demo_ip other)) = true → self ≠ other →
  table_ok (demo_knows self other) ∧
  t_toLocal (demo_knows self other) !! Addr4 (demo_ip self) = Some (Addr4 0x64700001) ∧
  t_toLocal (demo_knows self other) !! Addr4 (demo_ip other) = Some (Addr4 0x64700002).
Proof.
  intros Hs Ho Hne. assert (Addr4 (demo_ip other) ≠ Addr4 (demo_ip self)) as Hne'.
  { unfold demo_ip. intros [= ?]. lia. }
  unfold demo_knows. split; [|split].
  - apply map_index_ok; [apply map_index_ok; [apply demo_table_ok|done|done|by vm_compute|apply not_elem_of_empty]|done| |by vm_compute|].
    + cbn [map_index t_toLocal]. rewrite lookup_insert_ne by done. apply lookup_empty.
    + cbn [map_index t_used demo_table]. set_solver.
  - cbn [map_index t_toLocal]. rewrite lookup_insert_ne by done. apply lookup_insert_eq.
  - cbn [map_index t_toLocal]. apply lookup_insert_eq.
Qed.

Lemma demo_key_hex n : is_byte n →
  PublicHexFromBase64 (Public_String (Private_Public demo_public (demo_key n))) = Some (Public_Hex (Private_Public demo_public (demo_key n))).
Proof.
  intros Hn. apply PublicHexFromBase64_key. split; [|apply repeat_length]. by apply Forall_forall; intros x ->%list_elem_of_In%repeat_spec.
Qed.

Lemma demo_set_up self other :
  mappable demo_table (Addr4 (demo_ip self)) = true → mappable demo_table (Addr4 (demo_ip other)) = true → self ≠ other →
  is_u32 (demo_ip self) → set_up (demo_endpoint 9) (demo_ip self) (demo_key self) demo_listing (demo_point self other).
Proof.
  intros Hs Ho Hne Hv. exists 51820, demo_config, []. destruct (demo_knows_ok self other Hs Ho Hne) as (Ht & Hl & _).
  split_and!; [done|by split|done| |done|done|done]. split.
  - unfold demo_listing. cbn [fmap list_fmap omap list_omap pr_PublicKey]. rewrite !demo_key_hex by done.
    apply (bool_decide_unpack _). by vm_compute.
  - apply (bool_decide_unpack _). by vm_compute.
  - intros p (n & -> & Hn)%list_elem_of_fmap. exists (demo_ip n). split; [|done].
    apply elem_of_cons in Hn as [->|Hn%list_elem_of_singleton]; [by split|by subst].
  - by intros sv ?%elem_of_nil.
Qed.

Lemma demo_member n : n ∈ [1; 2] → member demo_listing (demo_ip n) (Public_Hex (Private_Public demo_public (demo_key n))).
Proof.
  intros Hn. assert (n = 1 ∨ n = 2) as Hn2 by set_solver. eexists. split; [by apply list_elem_of_fmap_2|].
  cbn [pr_AssignedIP pr_PublicKey]. split_and!; [done|by destruct Hn2; subst n| |apply demo_key_hex].
  - by destruct Hn2; subst n; vm_compute.
  - by destruct Hn2; subst n.
Qed.

Lemma packet_crosses_witness :
  ∃ cs' cs'' got got', let cs := {[ Addr4 (demo_ip 2) := MkClient (demo_endpoint 2) 0 ]} in
    (crosses 1500 (demo_point 1 2) (demo_point 2 1) cs (demo_endpoint 1) 5 local_packet = Some (cs', demo_endpoint 2, got) ∧
      addr_at got 12 = Some (Addr4 0x64700002) ∧ addr_at got 16 = Some (Addr4 0x64700001)) ∧
    (crosses 1500 (demo_point 2 1) (demo_point 1 2) cs' (demo_endpoint 2) 6 local_packet = Some (cs'', demo_endpoint 1, got') ∧
      addr_at got' 12 = Some (Addr4 0x64700002) ∧ addr_at got' 16 = Some (Addr4 0x64700001)).
Proof.
  destruct (packet_crosses demo_public (demo_endpoint 9) 1500 (demo_point 1 2) (demo_point 2 1) (demo_ip 1) (demo_ip 2)
    (demo_key 1) (demo_key 2) demo_listing demo_listing {[ Addr4 (demo_ip 2) := MkClient (demo_endpoint 2) 0 ]}
    (demo_endpoint 1) 5 (demo_endpoint 2) (Addr4 0x64700002) (Addr4 0x64700002) local_packet local_packet 6)
    as (cs' & cs'' & got & got' & (Hc & _ & Hsrc & Hdst) & (Hc' & _ & Hsrc' & Hdst')).
  - by apply demo_set_up.
  - by apply demo_set_up.
  - done.
  - apply demo_member. right. by left.
  - apply demo_member. by left.
  - by apply demo_knows_ok.
  - by apply demo_knows_ok.
  - by rewrite lookup_singleton_eq.
  - apply Nat.leb_le. reflexivity.
  - apply local_packet_ip.
  - apply Nat.leb_le. reflexivity.
  - reflexivity.
  - reflexivity.
  - apply local_packet_ip.
  - apply Nat.leb_le. reflexivity.
  - reflexivity.
  - reflexivity.
  - exists cs', cs'', got, got'. split; [split; [exact Hc|split; [exact Hsrc|exact Hdst]]|].
    split; [exact Hc'|split; [exact Hsrc'|exact Hdst']].
Defined.
